(** * MLQueue: a shallow embedding of the scheduler, the quota gate and the
      V2 hierarchy handlers, with the properties of the specification.

    The Go sources embedded here are
    - [internal/middleware/ratelimit.go]  (module [RateLimit]),
    - the queue manager of [internal/queue] (module [Queue] and the
      workers of module [V1]),
    - [internal/handlers/task_handler.go] (module [V1]),
    - [internal/models] and the V2 group, unit and queue handlers
      (module [V2]).
    Part I holds the embedding, Part II the lemmas and the theorems.

    Conventions.  A Go [int] is a 64-bit integer: it is a [Z], and the additions the
    source performs on stored integers (a version, an order) go through
    [wrap64]; a rank, a count or a loop index is bounded by the number of
    stored entries and is added as it is.  A [time.Time] is
    the number of nanoseconds since the Unix epoch.  A table of the
    relational store is a finite map from the primary key to the row; the
    database refuses a write whose row has a value that its column does
    not take (module [Postgres]) or, for an insert, whose primary key is
    taken.  The database and Redis always answer: the branches of the
    source that only report a lost connection are not reachable in the
    model. *)

From stdpp Require Import gmap strings list fin_maps pretty sorting.
From Stdlib Require Import ZArith Lia.

Local Open Scope Z_scope.

(** ** Machine integers and time *)

Definition max_int64 : Z := 9223372036854775807.
Definition min_int64 : Z := -9223372036854775808.

(** Two's complement wrap-around of a 64-bit signed integer. *)
Definition wrap64 (z : Z) : Z := (z + 2 ^ 63) mod 2 ^ 64 - 2 ^ 63.

Definition in_int64 (z : Z) : Prop := min_int64 <= z <= max_int64.

Definition second : Z := 1000000000.

(** [t.Unix()]: whole seconds since the epoch. *)
Definition Unix (t : Z) : Z := t / second.

(** [t.UnixNano()]. *)
Definition UnixNano (t : Z) : Z := t.

(** ** Redis: sorted sets and sets *)

Module Redis.

(** A sorted set maps each member to its score; a set is a finite set of
    members.  A key that holds nothing is absent, as in Redis.  A key may
    carry a deadline (set by EXPIRE): once the deadline has passed the key
    is gone. *)
Record Client := mkClient {
  zsets : gmap string (gmap string Z);
  sets : gmap string (gset string);
  deadlines : gmap string Z
}.

Definition empty : Client := mkClient ∅ ∅ ∅.

Definition zget (c : Client) (key : string) : gmap string Z :=
  default ∅ (zsets c !! key).

Definition zput (c : Client) (key : string) (z : gmap string Z) : Client :=
  if decide (z = ∅)
  then mkClient (delete key (zsets c)) (sets c) (delete key (deadlines c))
  else mkClient (<[key := z]> (zsets c)) (sets c) (deadlines c).

Definition sget (c : Client) (key : string) : gset string :=
  default ∅ (sets c !! key).

Definition sput (c : Client) (key : string) (s : gset string) : Client :=
  if decide (s = ∅)
  then mkClient (zsets c) (delete key (sets c)) (delete key (deadlines c))
  else mkClient (zsets c) (<[key := s]> (sets c)) (deadlines c).

(** The store as a command issued at time [now] finds it: the keys whose
    deadline has passed are removed. *)
Definition expired (c : Client) (now : Z) (key : string) : bool :=
  match deadlines c !! key with
  | Some d => d <=? now
  | None => false
  end.

Definition elapse (c : Client) (now : Z) : Client :=
  mkClient (filter (λ e : string * gmap string Z, expired c now e.1 = false) (zsets c))
           (filter (λ e : string * gset string, expired c now e.1 = false) (sets c))
           (filter (λ e : string * Z, now < e.2) (deadlines c)).

(** EXPIRE key d, issued at time [now]: an existing key gets the deadline
    [now + d]. *)
Definition Expire (c : Client) (key : string) (now d : Z) : Client :=
  if decide (is_Some (zsets c !! key) ∨ is_Some (sets c !! key))
  then mkClient (zsets c) (sets c) (<[key := now + d]> (deadlines c))
  else c.

(** ZADD key score member: inserts, or rescores an existing member. *)
Definition ZAdd (c : Client) (key : string) (score : Z) (member : string) : Client :=
  zput c key (<[member := score]> (zget c key)).

(** ZREM key member. *)
Definition ZRem (c : Client) (key member : string) : Client :=
  zput c key (delete member (zget c key)).

(** ZCARD key. *)
Definition ZCard (c : Client) (key : string) : Z :=
  Z.of_nat (size (zget c key)).

(** ZREMRANGEBYSCORE key min max: both bounds are inclusive. *)
Definition ZRemRangeByScore (c : Client) (key : string) (lo hi : Z) : Client :=
  zput c key (filter (λ e : string * Z, ¬ (lo <= e.2 <= hi)) (zget c key)).

(** The order of a sorted set: by score, then by member, byte-wise. *)
Definition zless (a b : string * Z) : bool :=
  (a.2 <? b.2) || ((a.2 =? b.2) && String.ltb a.1 b.1).

(** ZRANK key member: the number of entries before the member; [None]
    stands for the reply [redis.Nil]. *)
Definition ZRank (c : Client) (key member : string) : option Z :=
  match zget c key !! member with
  | None => None
  | Some s =>
      Some (Z.of_nat (size (filter (λ e : string * Z, zless e (member, s) = true)
                                   (zget c key))))
  end.

Definition zmin (z : gmap string Z) : option (string * Z) :=
  foldr (λ e acc, match acc with
                  | None => Some e
                  | Some b => if zless e b then Some e else Some b
                  end) None (map_to_list z).

(** BZPOPMIN key: the first entry of the sorted set, removed; [None]
    when the set stayed empty until the timeout. *)
Definition BZPopMin (c : Client) (key : string) : option (string * Z) * Client :=
  match zmin (zget c key) with
  | None => (None, c)
  | Some e => (Some e, zput c key (delete e.1 (zget c key)))
  end.

(** SADD and SREM. *)
Definition SAdd (c : Client) (key member : string) : Client :=
  sput c key ({[member]} ∪ sget c key).

Definition SRem (c : Client) (key member : string) : Client :=
  sput c key (sget c key ∖ {[member]}).

End Redis.

(** ** The quota gate: [internal/middleware/ratelimit.go] *)

Module RateLimit.

(** [config.RateLimitConfig]: requests per minute of each class. *)
Record RateLimitConfig := mkRateLimitConfig {
  Standard : Z;
  Premium : Z;
  Batch : Z
}.

(** [window := time.Minute]. *)
Definition window : Z := 60 * second.

Definition rateLimitKey (userID : string) (isBatch : bool) : string :=
  if isBatch then "ratelimit:batch:" +:+ userID else "ratelimit:" +:+ userID.

(** [checkRateLimit].  The member of a request is the decimal text of its
    nanosecond stamp, its score the whole second. *)
Definition checkRateLimit (c : Redis.Client) (now : Z) (userID : string)
    (limit : Z) (isBatch : bool) : bool * Redis.Client :=
  let c := Redis.elapse c now in
  let key := rateLimitKey userID isBatch in
  let minScore := Unix (now - window) in
  let c := Redis.ZRemRangeByScore c key 0 minScore in
  let count := Redis.ZCard c key in
  if limit <=? count then (false, c)
  else
    let member := pretty (UnixNano now) in
    let c := Redis.ZAdd c key (Unix now) member in
    let c := Redis.Expire c key now (window + 60 * second) in
    (true, c).

(** What the middleware does with the request: hand it to the next
    handler, or abort with a status and a machine code. *)
Inductive Outcome :=
| Next
| Abort (status : Z) (code : string).

(** The limit of the class of a request. *)
Definition applicableLimit (cfg : RateLimitConfig) (isBatch : bool) (tier : string) : Z :=
  if isBatch then Batch cfg
  else if String.eqb tier "premium" then Premium cfg
  else Standard cfg.

(** [RateLimitMiddleware(isBatch)] on a request of the principal
    [userID] of tier [tier] arriving at [now]. *)
Definition RateLimitMiddleware (cfg : RateLimitConfig) (isBatch : bool)
    (c : Redis.Client) (now : Z) (userID tier : string) : Outcome * Redis.Client :=
  let limit := applicableLimit cfg isBatch tier in
  let '(allowed, c) := checkRateLimit c now userID limit isBatch in
  if allowed then (Next, c) else (Abort 429 "RATE_LIMIT_EXCEEDED", c).

(** A request as the middleware sees it: the principal and its tier (set
    by the authentication middleware), the class of the endpoint and the
    time of arrival. *)
Record Request := mkRequest {
  userID : string;
  tier : string;
  isBatch : bool;
  arrival : Z
}.

(** The Redis key that a request is counted under, and its limit. *)
Definition key_of (r : Request) : string := rateLimitKey (userID r) (isBatch r).

Definition limit_of (cfg : RateLimitConfig) (r : Request) : Z :=
  applicableLimit cfg (isBatch r) (tier r).

(** The service receives a stream of requests of any principals; the
    result is the list of the accepted ones, latest first, and the
    store. *)
Definition serve1 (cfg : RateLimitConfig) (st : list Request * Redis.Client)
    (r : Request) : list Request * Redis.Client :=
  match RateLimitMiddleware cfg (isBatch r) st.2 (arrival r) (userID r) (tier r) with
  | (Next, c) => (r :: st.1, c)
  | (Abort _ _, c) => (st.1, c)
  end.

Definition serve (cfg : RateLimitConfig) (c : Redis.Client) (reqs : list Request)
    : list Request * Redis.Client :=
  foldl (serve1 cfg) ([], c) reqs.

(** The arrival times of the accepted requests that are counted under
    [key]. *)
Definition accepted_at (key : string) (accepted : list Request) : list Z :=
  arrival <$> filter (λ r, key_of r = key) accepted.

(** The times that lie in the real-time window [w, w + 60 s). *)
Definition in_window (w : Z) (times : list Z) : list Z :=
  filter (λ t, w <= t < w + window) times.

(** The times that lie in the 60 whole seconds [s .. s + 59]. *)
Definition in_seconds (s : Z) (times : list Z) : list Z :=
  filter (λ t, s <= Unix t < s + 60) times.

(** The invariant of [serve] for the key [key]: [accepted] are the times
    of the requests accepted under the key so far and [T] is the time of
    the last request of the stream.  The accepted requests of the last 60
    whole seconds are still members of the sorted set, a deadline of the
    key lies two windows after every accepted request, and no run of 60
    whole seconds holds more than [limit] accepted requests. *)
Definition served (key : string) (limit : Z) (accepted : list Z) (T : Z)
    (c : Redis.Client) : Prop :=
  NoDup accepted ∧
  (∀ t, t ∈ accepted -> t <= T) ∧
  (∀ t, t ∈ accepted -> Unix T - 60 < Unix t ->
        Redis.zget c key !! pretty t = Some (Unix t)) ∧
  (∀ d t, Redis.deadlines c !! key = Some d -> t ∈ accepted -> t + 2 * window <= d) ∧
  (∀ s, Z.of_nat (length (in_seconds s accepted)) <= limit).

End RateLimit.

(** ** The priority-queue index: [internal/queue] *)

Module Queue.

Definition TaskQueueKey : string := "mlqueue:tasks".
Definition TaskQueueSetKey : string := "mlqueue:tasks:set".

(** The score of a sorted set is a float64, and [float64(priority)]
    converts a Go integer: exactly up to 2^53 in absolute value, and to
    the nearest number with 53 significant bits beyond, a tie going to the
    even one.  The result is again an integer, which the model keeps. *)
Definition float64 (p : Z) : Z :=
  if Z.abs p <=? 2 ^ 53 then p
  else
    let e := Z.log2 (Z.abs p) - 52 in
    let q := Z.abs p / 2 ^ e in
    let r := Z.abs p mod 2 ^ e in
    let q := if 2 * r <? 2 ^ e then q
             else if 2 ^ e <? 2 * r then q + 1
             else if Z.even q then q else q + 1 in
    Z.sgn p * (q * 2 ^ e).

(** [EnqueueTask]: score = -priority. *)
Definition EnqueueTask (c : Redis.Client) (taskID : string) (priority : Z) : Redis.Client :=
  let c := Redis.ZAdd c TaskQueueKey (- priority) taskID in
  Redis.SAdd c TaskQueueSetKey taskID.

Definition GetQueueLength (c : Redis.Client) : Z := Redis.ZCard c TaskQueueKey.

(** [GetQueuePosition]: [rank + 1], or -1 on [redis.Nil]. *)
Definition GetQueuePosition (c : Redis.Client) (taskID : string) : Z :=
  match Redis.ZRank c TaskQueueKey taskID with
  | None => -1
  | Some rank => rank + 1
  end.

Definition UpdatePriority (c : Redis.Client) (taskID : string) (newPriority : Z) : Redis.Client :=
  Redis.ZAdd c TaskQueueKey (- newPriority) taskID.

Definition RemoveTask (c : Redis.Client) (taskID : string) : Redis.Client :=
  let c := Redis.ZRem c TaskQueueKey taskID in
  Redis.SRem c TaskQueueSetKey taskID.

End Queue.

(** ** JSON values and HTTP responses *)

Set Warnings "-register-all".

(** An opaque JSON value.  A number is a fraction so that a duration in
    seconds can be written exactly. *)
Inductive JSON :=
| JNull
| JBool (b : bool)
| JNum (num : Z) (den : Z)
| JStr (s : string)
| JArr (l : list JSON)
| JObj (m : list (string * JSON)).

(** [models.JSONB]: a Go map from field names to values; [None] is the nil
    map. *)
Abbreviation JSONB := (option (gmap string JSON)).

(** ** What the database takes: the column types of [internal/models]

    A value of a [text] column is valid UTF-8 and holds no NUL; a value
    of a [varchar(n)] column is such a text of at most [n] characters
    (PostgreSQL also takes a longer one whose characters beyond the
    [n]-th are all spaces, and cuts it; the model takes that one as too
    long); a [jsonb] column takes the document that [json.Marshal] writes
    unless a string of it holds NUL, which is written as the escape that
    [jsonb] refuses. *)

Module Postgres.
Import Stdlib.Strings.Ascii.

(** The bytes of a text. *)
Definition bytes (s : string) : list N := N_of_ascii <$> String.list_ascii_of_string s.

Definition between (lo hi b : N) : bool := ((lo <=? b) && (b <=? hi))%N.

(** UTF-8 as the database checks it: [k] more bytes of the current
    character are due, the next of them between [lo] and [hi]. *)
Fixpoint utf8 (k : nat) (lo hi : N) (l : list N) : bool :=
  match l with
  | [] => match k with O => true | S _ => false end
  | b :: l =>
      match k with
      | S k => between lo hi b && utf8 k 128 191 l
      | O =>
          if (b =? 0)%N then false
          else if (b <? 128)%N then utf8 0 0 0 l
          else if between 194 223 b then utf8 1 128 191 l
          else if (b =? 224)%N then utf8 2 160 191 l
          else if between 225 236 b || between 238 239 b then utf8 2 128 191 l
          else if (b =? 237)%N then utf8 2 128 159 l
          else if (b =? 240)%N then utf8 3 144 191 l
          else if between 241 243 b then utf8 3 128 191 l
          else if (b =? 244)%N then utf8 3 128 143 l
          else false
      end
  end.

Definition text (s : string) : bool := utf8 0 0 0 (bytes s).

(** The number of characters of a text: the bytes that do not continue a
    character. *)
Definition chars (s : string) : nat :=
  length (filter (λ b, between 128 191 b = false) (bytes s)).

Definition varchar (n : nat) (s : string) : bool := text s && (chars s <=? n)%nat.

Definition no_nul (s : string) : bool := forallb (λ b, negb (b =? 0)%N) (bytes s).

Fixpoint json (j : JSON) : bool :=
  match j with
  | JStr s => no_nul s
  | JArr l => forallb json l
  | JObj m => forallb (λ kv, match kv with (k, v) => no_nul k && json v end) m
  | _ => true
  end.

Definition jsonb (j : JSONB) : bool :=
  match j with
  | None => true
  | Some m => bool_decide (map_Forall (λ k v, no_nul k = true ∧ json v = true) m)
  end.

End Postgres.

(** ** The V1 task API: [internal/handlers/task_handler.go] and the
       workers of [internal/queue] *)

Module V1.

Inductive TaskStatus :=
| TaskStatusPending
| TaskStatusQueued
| TaskStatusRunning
| TaskStatusCompleted
| TaskStatusFailed
| TaskStatusCancelled.

#[global] Instance TaskStatus_eq_dec : EqDecision TaskStatus.
Proof. solve_decision. Defined.

Definition status_text (s : TaskStatus) : string :=
  match s with
  | TaskStatusPending => "pending"
  | TaskStatusQueued => "queued"
  | TaskStatusRunning => "running"
  | TaskStatusCompleted => "completed"
  | TaskStatusFailed => "failed"
  | TaskStatusCancelled => "cancelled"
  end.

(** [models.Task]. *)
Record Task := mkTask {
  ID : string;
  Name : string;
  Config : JSONB;
  Priority : Z;
  Status : TaskStatus;
  Metadata : JSONB;
  Result : JSONB;
  ErrorMessage : string;
  CreatedAt : Z;
  StartedAt : option Z;
  CompletedAt : option Z;
  UserID : string;
  UpdatedAt : Z
}.

Definition set_Status (t : Task) (s : TaskStatus) : Task :=
  mkTask (ID t) (Name t) (Config t) (Priority t) s (Metadata t) (Result t)
         (ErrorMessage t) (CreatedAt t) (StartedAt t) (CompletedAt t) (UserID t)
         (UpdatedAt t).

Definition set_StartedAt (t : Task) (a : option Z) : Task :=
  mkTask (ID t) (Name t) (Config t) (Priority t) (Status t) (Metadata t) (Result t)
         (ErrorMessage t) (CreatedAt t) a (CompletedAt t) (UserID t) (UpdatedAt t).

Definition set_CompletedAt (t : Task) (a : option Z) : Task :=
  mkTask (ID t) (Name t) (Config t) (Priority t) (Status t) (Metadata t) (Result t)
         (ErrorMessage t) (CreatedAt t) (StartedAt t) a (UserID t) (UpdatedAt t).

Definition set_Result (t : Task) (r : JSONB) : Task :=
  mkTask (ID t) (Name t) (Config t) (Priority t) (Status t) (Metadata t) r
         (ErrorMessage t) (CreatedAt t) (StartedAt t) (CompletedAt t) (UserID t)
         (UpdatedAt t).

Definition set_ErrorMessage (t : Task) (m : string) : Task :=
  mkTask (ID t) (Name t) (Config t) (Priority t) (Status t) (Metadata t) (Result t)
         m (CreatedAt t) (StartedAt t) (CompletedAt t) (UserID t) (UpdatedAt t).

Definition set_UpdatedAt (t : Task) (a : Z) : Task :=
  mkTask (ID t) (Name t) (Config t) (Priority t) (Status t) (Metadata t) (Result t)
         (ErrorMessage t) (CreatedAt t) (StartedAt t) (CompletedAt t) (UserID t) a.

(** The state of the service: the [tasks] table, the Redis client, the
    pause flag of the queue manager and, for each worker that is between
    the two saves of [processTask], the copy of the task it holds. *)
Record State := mkState {
  DB : gmap string Task;
  RedisClient : Redis.Client;
  paused : bool;
  workers : gmap Z Task
}.

Definition init : State := mkState ∅ Redis.empty false ∅.

(** The table [tasks] takes a row when its values fit their columns
    ([id] and [user_id] are [varchar(100)], [name] is [varchar(255)],
    [error_message] is [text], [config], [metadata] and [result] are
    [jsonb]; every status fits [varchar(20)]). *)
Definition accepts (t : Task) : bool :=
  Postgres.varchar 100 (ID t) && Postgres.varchar 255 (Name t) &&
  Postgres.jsonb (Config t) && Postgres.jsonb (Metadata t) && Postgres.jsonb (Result t) &&
  Postgres.text (ErrorMessage t) && Postgres.varchar 100 (UserID t).

Arguments accepts : simpl never.

(** [database.DB.Save(&task)]: writes every column of the row with the
    key of [task] and stamps [updated_at]; when the table does not take
    the row the statement fails and the table stays as it is.  The
    handlers that look at the error test [accepts] themselves. *)
Definition Save (db : gmap string Task) (now : Z) (task : Task) : gmap string Task :=
  if accepts task then <[ID task := set_UpdatedAt task now]> db else db.

(** [database.DB.Create(&task)]: fails on a row that the table does not
    take and on a primary key that is taken. *)
Definition Create (db : gmap string Task) (now : Z) (task : Task)
    : option (gmap string Task) :=
  if accepts task then
    match db !! ID task with
    | Some _ => None
    | None =>
        Some (<[ID task := mkTask (ID task) (Name task) (Config task) (Priority task)
                                  (Status task) (Metadata task) (Result task)
                                  (ErrorMessage task) now (StartedAt task)
                                  (CompletedAt task) (UserID task) now]> db)
    end
  else None.

(** [Where("id = ? AND user_id = ?", taskID, userID).First(&task)]. *)
Definition First (db : gmap string Task) (taskID userID : string) : option Task :=
  match db !! taskID with
  | Some t => if decide (UserID t = userID) then Some t else None
  | None => None
  end.

(** What a handler writes: [c.JSON(status, gin.H{...})], or nothing. *)
Record Response := mkResponse {
  status : Z;
  body : list (string * JSON)
}.

(** *** Request bodies, as [ShouldBindJSON] delivers them; an argument
        [None] of a handler stands for a body that fails to bind. *)

Record CreateTaskReq := mkCreateTaskReq {
  req_Name : string;
  req_Config : gmap string JSON;
  req_Priority : Z;
  req_Metadata : JSONB
}.

Record CancelTaskReq := mkCancelTaskReq {
  req_Reason : string
}.

Record UploadResultReq := mkUploadResultReq {
  req_Result : gmap string JSON;
  req_Artifacts : JSONB
}.

(** [CreateTask]; [uuid] is the text of [uuid.New()]. *)
Definition CreateTask (s : State) (now : Z) (uuid userID : string)
    (req : option CreateTaskReq) : option Response * State :=
  match req with
  | None =>
      (Some (mkResponse 400 [("success", JBool false); ("error", JStr "无效的请求参数");
                             ("code", JStr "INVALID_CONFIG")]), s)
  | Some req =>
      let task := mkTask ("task_" +:+ String.substring 0 8 uuid) (req_Name req)
                         (Some (req_Config req)) (req_Priority req) TaskStatusQueued
                         (req_Metadata req) None "" 0 None None userID 0 in
      match Create (DB s) now task with
      | None =>
          (Some (mkResponse 500 [("success", JBool false); ("error", JStr "创建任务失败");
                                 ("code", JStr "INTERNAL_ERROR")]), s)
      | Some db =>
          let c := Queue.EnqueueTask (RedisClient s) (ID task)
                                     (Queue.float64 (req_Priority req)) in
          let position := Queue.GetQueuePosition c (ID task) in
          (Some (mkResponse 201 [("success", JBool true); ("task_id", JStr (ID task));
                                 ("status", JStr (status_text (Status task)));
                                 ("queue_position", JNum position 1)]),
           mkState db c (paused s) (workers s))
      end
  end.

(** [CancelTask]. *)
Definition CancelTask (s : State) (now : Z) (taskID userID : string)
    (req : option CancelTaskReq) : option Response * State :=
  match req with
  | None => (None, s)
  | Some req =>
      match First (DB s) taskID userID with
      | None =>
          (Some (mkResponse 404 [("success", JBool false); ("error", JStr "任务不存在");
                                 ("code", JStr "TASK_NOT_FOUND")]), s)
      | Some task =>
          if decide (Status task = TaskStatusCompleted ∨ Status task = TaskStatusCancelled)
          then
            (Some (mkResponse 400 [("success", JBool false);
                                   ("error", JStr "任务已完成或已取消");
                                   ("code", JStr "TASK_ALREADY_COMPLETED")]), s)
          else
            let task := set_Status task TaskStatusCancelled in
            let task := set_ErrorMessage task ("用户取消: " +:+ req_Reason req) in
            let db := Save (DB s) now task in
            let c := Queue.RemoveTask (RedisClient s) taskID in
            (Some (mkResponse 200 [("success", JBool true); ("task_id", JStr taskID);
                                   ("status", JStr (status_text (Status task)))]),
             mkState db c (paused s) (workers s))
      end
  end.

(** [UploadResult]. *)
Definition UploadResult (s : State) (now : Z) (taskID userID : string)
    (req : option UploadResultReq) : option Response * State :=
  match req with
  | None =>
      (Some (mkResponse 400 [("success", JBool false); ("error", JStr "无效的结果数据");
                             ("code", JStr "INVALID_CONFIG")]), s)
  | Some req =>
      match First (DB s) taskID userID with
      | None =>
          (Some (mkResponse 404 [("success", JBool false); ("error", JStr "任务不存在");
                                 ("code", JStr "TASK_NOT_FOUND")]), s)
      | Some task =>
          let result :=
            match req_Artifacts req with
            | Some a => <["artifacts" := JObj (map_to_list a)]> (req_Result req)
            | None => req_Result req
            end in
          let task := set_Result task (Some result) in
          let task := set_Status task TaskStatusCompleted in
          let task := set_CompletedAt task (Some now) in
          let db := Save (DB s) now task in
          (Some (mkResponse 200 [("success", JBool true); ("task_id", JStr taskID);
                                 ("status", JStr (status_text (Status task)))]),
           mkState db (RedisClient s) (paused s) (workers s))
      end
  end.

(** *** The worker.  One turn of the loop of [worker] up to the first save
        of [processTask] is [worker_pickup]; the rest of [processTask],
        after the sleep, is [worker_complete].  [processTask] returns when
        a save fails: the worker then holds nothing.  The messages
        published on the status channels leave no state behind. *)

Definition worker_pickup (s : State) (now : Z) (id : Z) : State :=
  match workers s !! id with
  | Some _ => s
  | None =>
      if paused s then s
      else
        match Redis.BZPopMin (RedisClient s) Queue.TaskQueueKey with
        | (None, _) => s
        | (Some (taskID, _), c) =>
            match DB s !! taskID with
            | None => mkState (DB s) c (paused s) (workers s)
            | Some task =>
                let task := set_Status task TaskStatusRunning in
                let task := set_StartedAt task (Some now) in
                if accepts task
                then
                  let db := Save (DB s) now task in
                  mkState db c (paused s) (<[id := set_UpdatedAt task now]> (workers s))
                else mkState (DB s) c (paused s) (workers s)
            end
        end
  end.

Definition worker_complete (s : State) (completedAt : Z) (id : Z) : State :=
  match workers s !! id with
  | None => s
  | Some task =>
      let task := set_Status task TaskStatusCompleted in
      let task := set_CompletedAt task (Some completedAt) in
      let task := set_Result task
        (Some (<["completed_by_worker" := JNum id 1]>
               (<["duration_seconds" :=
                    JNum (completedAt - default 0 (StartedAt task)) second]> ∅))) in
      if accepts task
      then
        let db := Save (DB s) completedAt task in
        let c := Redis.SRem (RedisClient s) Queue.TaskQueueSetKey (ID task) in
        mkState db c (paused s) (delete id (workers s))
      else mkState (DB s) (RedisClient s) (paused s) (delete id (workers s))
  end.

(** [Pause] and [Resume] of the queue manager. *)
Definition Pause (s : State) : State :=
  mkState (DB s) (RedisClient s) true (workers s).

Definition Resume (s : State) : State :=
  mkState (DB s) (RedisClient s) false (workers s).

(** *** Operation sequences *)

Inductive Op :=
| OpCreate (now : Z) (uuid userID : string) (req : option CreateTaskReq)
| OpPickup (now : Z) (worker : Z)
| OpComplete (now : Z) (worker : Z)
| OpCancel (now : Z) (taskID userID : string) (req : option CancelTaskReq)
| OpUpload (now : Z) (taskID userID : string) (req : option UploadResultReq)
| OpPause
| OpResume.

Definition step (s : State) (op : Op) : State :=
  match op with
  | OpCreate now uuid userID req => (CreateTask s now uuid userID req).2
  | OpPickup now w => worker_pickup s now w
  | OpComplete now w => worker_complete s now w
  | OpCancel now taskID userID req => (CancelTask s now taskID userID req).2
  | OpUpload now taskID userID req => (UploadResult s now taskID userID req).2
  | OpPause => Pause s
  | OpResume => Resume s
  end.

Definition run (s : State) (ops : list Op) : State := foldl step s ops.

(** The status that a task has in the table, if it has a row. *)
Definition status_of (s : State) (taskID : string) : option TaskStatus :=
  Status <$> DB s !! taskID.

(** The edges of the status graph as the specification draws it. *)
Definition dag_edge (a b : TaskStatus) : Prop :=
  (a = TaskStatusQueued ∧ b = TaskStatusRunning) ∨
  (a = TaskStatusRunning ∧ (b = TaskStatusCompleted ∨ b = TaskStatusFailed)) ∨
  ((a = TaskStatusQueued ∨ a = TaskStatusRunning) ∧ b = TaskStatusCancelled).

(** The edges that the handlers and the workers take. *)
Definition code_edge (op : Op) (a b : TaskStatus) : Prop :=
  match op with
  | OpCreate _ _ _ _ => False
  | OpPickup _ _ =>
      (a = TaskStatusQueued ∨ a = TaskStatusCompleted) ∧ b = TaskStatusRunning
  | OpComplete _ _ =>
      (a = TaskStatusRunning ∨ a = TaskStatusCancelled) ∧ b = TaskStatusCompleted
  | OpCancel _ _ _ _ =>
      (a = TaskStatusQueued ∨ a = TaskStatusRunning) ∧ b = TaskStatusCancelled
  | OpUpload _ _ _ _ => b = TaskStatusCompleted
  | OpPause | OpResume => False
  end.

(** The invariant of the states that operation sequences reach: a row is
    stored under its own id and has one of the four statuses that the
    operations write; a member of the index has a row that is queued or,
    after an upload, completed; the task that a worker holds has a row
    that is running, or was cancelled or completed in the meantime. *)
Definition consistent (s : State) : Prop :=
  (∀ id t, DB s !! id = Some t ->
     ID t = id ∧
     (Status t = TaskStatusQueued ∨ Status t = TaskStatusRunning ∨
      Status t = TaskStatusCompleted ∨ Status t = TaskStatusCancelled)) ∧
  (∀ m sc, Redis.zget (RedisClient s) Queue.TaskQueueKey !! m = Some sc ->
     ∃ t, DB s !! m = Some t ∧
          (Status t = TaskStatusQueued ∨ Status t = TaskStatusCompleted)) ∧
  (∀ w tk, workers s !! w = Some tk ->
     ∃ t, DB s !! ID tk = Some t ∧
          (Status t = TaskStatusRunning ∨ Status t = TaskStatusCancelled ∨
           Status t = TaskStatusCompleted)).

(** What one operation may do to the status of a task: [a] and [b] are the
    status before and after, [None] for a task without a row. *)
Definition transition (op : Op) (a b : option TaskStatus) : Prop :=
  match a, b with
  | Some a, Some b => a = b ∨ code_edge op a b
  | Some _, None => False
  | None, Some b => b = TaskStatusQueued
  | None, None => True
  end.

End V1.

(** ** The V2 hierarchy: [internal/models] and the unit and queue
       handlers *)

Module V2.

(** [models.Group]. *)
Module Group.
Record t := mk {
  ID : string;
  Name : string;
  Description : string;
  UserID : string;
  CreatedAt : Z;
  UpdatedAt : Z
}.
End Group.

(** [models.TrainingUnit]. *)
Module TrainingUnit.
Record t := mk {
  ID : string;
  GroupID : string;
  Name : string;
  Description : string;
  Config : JSONB;
  Version : Z;
  Status : string;
  ConnectionStatus : string;
  LastHeartbeat : option Z;
  CreatedAt : Z;
  UpdatedAt : Z;
  UserID : string
}.

Definition set_Name (u : t) (x : string) : t :=
  mk (ID u) (GroupID u) x (Description u) (Config u) (Version u) (Status u)
     (ConnectionStatus u) (LastHeartbeat u) (CreatedAt u) (UpdatedAt u) (UserID u).

Definition set_Description (u : t) (x : string) : t :=
  mk (ID u) (GroupID u) (Name u) x (Config u) (Version u) (Status u)
     (ConnectionStatus u) (LastHeartbeat u) (CreatedAt u) (UpdatedAt u) (UserID u).

Definition set_Config (u : t) (x : JSONB) : t :=
  mk (ID u) (GroupID u) (Name u) (Description u) x (Version u) (Status u)
     (ConnectionStatus u) (LastHeartbeat u) (CreatedAt u) (UpdatedAt u) (UserID u).

Definition set_Version (u : t) (x : Z) : t :=
  mk (ID u) (GroupID u) (Name u) (Description u) (Config u) x (Status u)
     (ConnectionStatus u) (LastHeartbeat u) (CreatedAt u) (UpdatedAt u) (UserID u).

Definition set_Status (u : t) (x : string) : t :=
  mk (ID u) (GroupID u) (Name u) (Description u) (Config u) (Version u) x
     (ConnectionStatus u) (LastHeartbeat u) (CreatedAt u) (UpdatedAt u) (UserID u).

Definition set_ConnectionStatus (u : t) (x : string) : t :=
  mk (ID u) (GroupID u) (Name u) (Description u) (Config u) (Version u) (Status u)
     x (LastHeartbeat u) (CreatedAt u) (UpdatedAt u) (UserID u).

Definition set_LastHeartbeat (u : t) (x : option Z) : t :=
  mk (ID u) (GroupID u) (Name u) (Description u) (Config u) (Version u) (Status u)
     (ConnectionStatus u) x (CreatedAt u) (UpdatedAt u) (UserID u).

Definition set_CreatedAt (u : t) (x : Z) : t :=
  mk (ID u) (GroupID u) (Name u) (Description u) (Config u) (Version u) (Status u)
     (ConnectionStatus u) (LastHeartbeat u) x (UpdatedAt u) (UserID u).

Definition set_UpdatedAt (u : t) (x : Z) : t :=
  mk (ID u) (GroupID u) (Name u) (Description u) (Config u) (Version u) (Status u)
     (ConnectionStatus u) (LastHeartbeat u) (CreatedAt u) x (UserID u).
End TrainingUnit.

(** [models.TrainingQueue]. *)
Module TrainingQueue.
Record t := mk {
  ID : string;
  UnitID : string;
  Name : string;
  Parameters : JSONB;
  Order : Z;
  Status : string;
  StartedAt : option Z;
  CompletedAt : option Z;
  Result : JSONB;
  Metrics : JSONB;
  ErrorMsg : string;
  CreatedBy : string;
  CreatedAt : Z;
  UpdatedAt : Z;
  UserID : string
}.

Definition set_Name (q : t) (x : string) : t :=
  mk (ID q) (UnitID q) x (Parameters q) (Order q) (Status q) (StartedAt q)
     (CompletedAt q) (Result q) (Metrics q) (ErrorMsg q) (CreatedBy q) (CreatedAt q)
     (UpdatedAt q) (UserID q).

Definition set_Parameters (q : t) (x : JSONB) : t :=
  mk (ID q) (UnitID q) (Name q) x (Order q) (Status q) (StartedAt q)
     (CompletedAt q) (Result q) (Metrics q) (ErrorMsg q) (CreatedBy q) (CreatedAt q)
     (UpdatedAt q) (UserID q).

Definition set_Order (q : t) (x : Z) : t :=
  mk (ID q) (UnitID q) (Name q) (Parameters q) x (Status q) (StartedAt q)
     (CompletedAt q) (Result q) (Metrics q) (ErrorMsg q) (CreatedBy q) (CreatedAt q)
     (UpdatedAt q) (UserID q).

Definition set_Status (q : t) (x : string) : t :=
  mk (ID q) (UnitID q) (Name q) (Parameters q) (Order q) x (StartedAt q)
     (CompletedAt q) (Result q) (Metrics q) (ErrorMsg q) (CreatedBy q) (CreatedAt q)
     (UpdatedAt q) (UserID q).

Definition set_StartedAt (q : t) (x : option Z) : t :=
  mk (ID q) (UnitID q) (Name q) (Parameters q) (Order q) (Status q) x
     (CompletedAt q) (Result q) (Metrics q) (ErrorMsg q) (CreatedBy q) (CreatedAt q)
     (UpdatedAt q) (UserID q).

Definition set_CompletedAt (q : t) (x : option Z) : t :=
  mk (ID q) (UnitID q) (Name q) (Parameters q) (Order q) (Status q) (StartedAt q)
     x (Result q) (Metrics q) (ErrorMsg q) (CreatedBy q) (CreatedAt q)
     (UpdatedAt q) (UserID q).

Definition set_Result (q : t) (x : JSONB) : t :=
  mk (ID q) (UnitID q) (Name q) (Parameters q) (Order q) (Status q) (StartedAt q)
     (CompletedAt q) x (Metrics q) (ErrorMsg q) (CreatedBy q) (CreatedAt q)
     (UpdatedAt q) (UserID q).

Definition set_Metrics (q : t) (x : JSONB) : t :=
  mk (ID q) (UnitID q) (Name q) (Parameters q) (Order q) (Status q) (StartedAt q)
     (CompletedAt q) (Result q) x (ErrorMsg q) (CreatedBy q) (CreatedAt q)
     (UpdatedAt q) (UserID q).

Definition set_ErrorMsg (q : t) (x : string) : t :=
  mk (ID q) (UnitID q) (Name q) (Parameters q) (Order q) (Status q) (StartedAt q)
     (CompletedAt q) (Result q) (Metrics q) x (CreatedBy q) (CreatedAt q)
     (UpdatedAt q) (UserID q).

Definition set_CreatedAt (q : t) (x : Z) : t :=
  mk (ID q) (UnitID q) (Name q) (Parameters q) (Order q) (Status q) (StartedAt q)
     (CompletedAt q) (Result q) (Metrics q) (ErrorMsg q) (CreatedBy q) x
     (UpdatedAt q) (UserID q).

Definition set_UpdatedAt (q : t) (x : Z) : t :=
  mk (ID q) (UnitID q) (Name q) (Parameters q) (Order q) (Status q) (StartedAt q)
     (CompletedAt q) (Result q) (Metrics q) (ErrorMsg q) (CreatedBy q) (CreatedAt q)
     x (UserID q).
End TrainingQueue.

(** The relational store: one finite map per table, keyed by [id]. *)
Record DB := mkDB {
  groups : gmap string Group.t;
  units : gmap string TrainingUnit.t;
  queues : gmap string TrainingQueue.t
}.

(** *** The [training_queues] table as SQL sees it *)

Inductive Column :=
| ColID | ColUnitID | ColName | ColParameters | ColOrder | ColStatus
| ColStartedAt | ColCompletedAt | ColResult | ColMetrics | ColErrorMsg
| ColCreatedBy | ColCreatedAt | ColUpdatedAt | ColUserID.

(** The column that a name denotes; the names are the ones gorm derives
    from the fields of [models.TrainingQueue]. *)
Definition column_of_name (name : string) : option Column :=
  if String.eqb name "id" then Some ColID
  else if String.eqb name "unit_id" then Some ColUnitID
  else if String.eqb name "name" then Some ColName
  else if String.eqb name "parameters" then Some ColParameters
  else if String.eqb name "order" then Some ColOrder
  else if String.eqb name "status" then Some ColStatus
  else if String.eqb name "started_at" then Some ColStartedAt
  else if String.eqb name "completed_at" then Some ColCompletedAt
  else if String.eqb name "result" then Some ColResult
  else if String.eqb name "metrics" then Some ColMetrics
  else if String.eqb name "error_msg" then Some ColErrorMsg
  else if String.eqb name "created_by" then Some ColCreatedBy
  else if String.eqb name "created_at" then Some ColCreatedAt
  else if String.eqb name "updated_at" then Some ColUpdatedAt
  else if String.eqb name "user_id" then Some ColUserID
  else None.

Inductive SqlValue :=
| SqlNull
| SqlInt (z : Z)
| SqlText (s : string)
| SqlTime (t : Z)
| SqlJSON (j : gmap string JSON).

Definition sql_time (t : option Z) : SqlValue :=
  match t with Some t => SqlTime t | None => SqlNull end.

Definition sql_json (j : JSONB) : SqlValue :=
  match j with Some j => SqlJSON j | None => SqlNull end.

Definition column_value (c : Column) (q : TrainingQueue.t) : SqlValue :=
  match c with
  | ColID => SqlText (TrainingQueue.ID q)
  | ColUnitID => SqlText (TrainingQueue.UnitID q)
  | ColName => SqlText (TrainingQueue.Name q)
  | ColParameters => sql_json (TrainingQueue.Parameters q)
  | ColOrder => SqlInt (TrainingQueue.Order q)
  | ColStatus => SqlText (TrainingQueue.Status q)
  | ColStartedAt => sql_time (TrainingQueue.StartedAt q)
  | ColCompletedAt => sql_time (TrainingQueue.CompletedAt q)
  | ColResult => sql_json (TrainingQueue.Result q)
  | ColMetrics => sql_json (TrainingQueue.Metrics q)
  | ColErrorMsg => SqlText (TrainingQueue.ErrorMsg q)
  | ColCreatedBy => SqlText (TrainingQueue.CreatedBy q)
  | ColCreatedAt => SqlTime (TrainingQueue.CreatedAt q)
  | ColUpdatedAt => SqlTime (TrainingQueue.UpdatedAt q)
  | ColUserID => SqlText (TrainingQueue.UserID q)
  end.

(** The ascending order of the values of one column: NULL comes last; text
    is compared byte-wise; the order among JSON documents is left
    undetermined (they compare equal). *)
Definition sql_compare (a b : SqlValue) : comparison :=
  match a, b with
  | SqlNull, SqlNull => Eq
  | SqlNull, _ => Gt
  | _, SqlNull => Lt
  | SqlInt x, SqlInt y => Z.compare x y
  | SqlTime x, SqlTime y => Z.compare x y
  | SqlText x, SqlText y => String.compare x y
  | _, _ => Eq
  end.

(** One term of an ORDER BY clause: a column name and the direction
    ([true] for DESC). *)
Definition OrderClause : Type := list (string * bool).

Fixpoint resolve_order (clause : OrderClause) : option (list (Column * bool)) :=
  match clause with
  | [] => Some []
  | (name, desc) :: rest =>
      match column_of_name name, resolve_order rest with
      | Some c, Some r => Some ((c, desc) :: r)
      | _, _ => None
      end
  end.

Fixpoint row_compare (terms : list (Column * bool)) (a b : TrainingQueue.t) : comparison :=
  match terms with
  | [] => Eq
  | (c, desc) :: rest =>
      let r := sql_compare (column_value c a) (column_value c b) in
      match (if desc : bool then CompOpp r else r) with
      | Eq => row_compare rest a b
      | r => r
      end
  end.

Fixpoint insert_row (terms : list (Column * bool)) (a : TrainingQueue.t)
    (l : list TrainingQueue.t) : list TrainingQueue.t :=
  match l with
  | [] => [a]
  | b :: l' =>
      match row_compare terms a b with
      | Gt => b :: insert_row terms a l'
      | _ => a :: l
      end
  end.

Definition sort_rows (terms : list (Column * bool)) (l : list TrainingQueue.t)
    : list TrainingQueue.t :=
  foldr (insert_row terms) [] l.

(** [Where(...).Order(clause).Find(&queues)] on [training_queues]: the rows
    that satisfy [cond], sorted; a name in the clause that is not a column
    makes the statement fail, which is [None]. *)
Definition Find (db : DB) (cond : TrainingQueue.t -> bool) (clause : OrderClause)
    : option (list TrainingQueue.t) :=
  match resolve_order clause with
  | None => None
  | Some terms => Some (sort_rows terms (filter (λ q, cond q = true) (map_to_list (queues db)).*2))
  end.

(** The rows of a unit, in the order the table yields them. *)
Definition queues_of_unit (db : DB) (unitID : string) : list TrainingQueue.t :=
  filter (λ q, TrainingQueue.UnitID q = unitID) (map_to_list (queues db)).*2.

(** [Select("COALESCE(MAX(\"order\"), -1)")] over the rows of a unit. *)
Definition max_order (db : DB) (unitID : string) : Z :=
  match TrainingQueue.Order <$> queues_of_unit db unitID with
  | [] => -1
  | o :: os => foldr Z.max o os
  end.

(** [Where("unit_id = ?", unitID).Count(&count)]. *)
Definition count_queues (db : DB) (unitID : string) : Z :=
  Z.of_nat (length (queues_of_unit db unitID)).

(** [Where("unit_id = ? AND status IN ?", unitID, statuses).Count(&n)]. *)
Definition count_status_in (db : DB) (unitID : string) (statuses : list string) : Z :=
  Z.of_nat (length (filter (λ q, TrainingQueue.Status q ∈ statuses)
                           (queues_of_unit db unitID))).

(** [Where("id = ? AND user_id = ?", id, userID).First(&row)]. *)
Definition first_unit (db : DB) (unitID userID : string) : option TrainingUnit.t :=
  match units db !! unitID with
  | Some u => if decide (TrainingUnit.UserID u = userID) then Some u else None
  | None => None
  end.

Definition first_queue (db : DB) (queueID userID : string) : option TrainingQueue.t :=
  match queues db !! queueID with
  | Some q => if decide (TrainingQueue.UserID q = userID) then Some q else None
  | None => None
  end.

Definition first_group (db : DB) (groupID userID : string) : option Group.t :=
  match groups db !! groupID with
  | Some g => if decide (Group.UserID g = userID) then Some g else None
  | None => None
  end.

(** A table takes a row when its values fit their columns: an id is a
    [varchar(100)], a name a [varchar(255)], a status and [created_by] a
    [varchar(20)], a description and [error_msg] a [text], and [config],
    [parameters], [result] and [metrics] are [jsonb]. *)
Definition accepts_group (g : Group.t) : bool :=
  Postgres.varchar 100 (Group.ID g) && Postgres.varchar 255 (Group.Name g) &&
  Postgres.text (Group.Description g) && Postgres.varchar 100 (Group.UserID g).

Definition accepts_unit (u : TrainingUnit.t) : bool :=
  Postgres.varchar 100 (TrainingUnit.ID u) && Postgres.varchar 100 (TrainingUnit.GroupID u) &&
  Postgres.varchar 255 (TrainingUnit.Name u) && Postgres.text (TrainingUnit.Description u) &&
  Postgres.jsonb (TrainingUnit.Config u) && Postgres.varchar 20 (TrainingUnit.Status u) &&
  Postgres.varchar 20 (TrainingUnit.ConnectionStatus u) &&
  Postgres.varchar 100 (TrainingUnit.UserID u).

Definition accepts_queue (q : TrainingQueue.t) : bool :=
  Postgres.varchar 100 (TrainingQueue.ID q) && Postgres.varchar 100 (TrainingQueue.UnitID q) &&
  Postgres.varchar 255 (TrainingQueue.Name q) && Postgres.jsonb (TrainingQueue.Parameters q) &&
  Postgres.varchar 20 (TrainingQueue.Status q) && Postgres.jsonb (TrainingQueue.Result q) &&
  Postgres.jsonb (TrainingQueue.Metrics q) && Postgres.text (TrainingQueue.ErrorMsg q) &&
  Postgres.varchar 20 (TrainingQueue.CreatedBy q) &&
  Postgres.varchar 100 (TrainingQueue.UserID q).

Arguments accepts_group : simpl never.
Arguments accepts_unit : simpl never.
Arguments accepts_queue : simpl never.

(** [Create(&queue)]: fails on a row that the table does not take and on
    a primary key that is taken. *)
Definition create_queue (db : DB) (now : Z) (q : TrainingQueue.t)
    : option (TrainingQueue.t * DB) :=
  if accepts_queue q then
    match queues db !! TrainingQueue.ID q with
    | Some _ => None
    | None =>
        let q := TrainingQueue.set_UpdatedAt (TrainingQueue.set_CreatedAt q now) now in
        Some (q, mkDB (groups db) (units db) (<[TrainingQueue.ID q := q]> (queues db)))
    end
  else None.

(** [Create(&unit)]; an empty [connection_status] takes the default of the
    column. *)
Definition create_unit (db : DB) (now : Z) (u : TrainingUnit.t)
    : option (TrainingUnit.t * DB) :=
  let u := if decide (TrainingUnit.ConnectionStatus u = "")
           then TrainingUnit.set_ConnectionStatus u "disconnected" else u in
  if accepts_unit u then
    match units db !! TrainingUnit.ID u with
    | Some _ => None
    | None =>
        let u := TrainingUnit.set_UpdatedAt (TrainingUnit.set_CreatedAt u now) now in
        Some (u, mkDB (groups db) (<[TrainingUnit.ID u := u]> (units db)) (queues db))
    end
  else None.

(** [Create(&group)]. *)
Definition create_group (db : DB) (now : Z) (g : Group.t) : option (Group.t * DB) :=
  if accepts_group g then
    match groups db !! Group.ID g with
    | Some _ => None
    | None =>
        let g := Group.mk (Group.ID g) (Group.Name g) (Group.Description g)
                          (Group.UserID g) now now in
        Some (g, mkDB (<[Group.ID g := g]> (groups db)) (units db) (queues db))
    end
  else None.

(** [Save(&queue)], [Save(&unit)] and [Save(&group)]: every column of the
    row is written and [updated_at] is stamped; the statement fails, and
    the table stays as it is, when the table does not take the row. *)
Definition save_queue (db : DB) (now : Z) (q : TrainingQueue.t)
    : option (TrainingQueue.t * DB) :=
  if accepts_queue q then
    let q := TrainingQueue.set_UpdatedAt q now in
    Some (q, mkDB (groups db) (units db) (<[TrainingQueue.ID q := q]> (queues db)))
  else None.

Definition save_unit (db : DB) (now : Z) (u : TrainingUnit.t)
    : option (TrainingUnit.t * DB) :=
  if accepts_unit u then
    let u := TrainingUnit.set_UpdatedAt u now in
    Some (u, mkDB (groups db) (<[TrainingUnit.ID u := u]> (units db)) (queues db))
  else None.

Definition save_group (db : DB) (now : Z) (g : Group.t) : option (Group.t * DB) :=
  if accepts_group g then
    let g := Group.mk (Group.ID g) (Group.Name g) (Group.Description g)
                      (Group.UserID g) (Group.CreatedAt g) now in
    Some (g, mkDB (<[Group.ID g := g]> (groups db)) (units db) (queues db))
  else None.

(** [Delete(&queue)]. *)
Definition delete_queue (db : DB) (queueID : string) : DB :=
  mkDB (groups db) (units db) (delete queueID (queues db)).

(** [Delete(&models.Group{})] on the row with the key [groupID].  The
    units refer to their group and the queues to their unit with
    [constraint:OnDelete:CASCADE], and [AutoMigrateV2] creates these
    foreign keys: the units of the group go with it, and with them their
    queues. *)
Definition in_group (db : DB) (groupID : string) (q : TrainingQueue.t) : bool :=
  match units db !! TrainingQueue.UnitID q with
  | Some u => bool_decide (TrainingUnit.GroupID u = groupID)
  | None => false
  end.

Definition delete_group (db : DB) (groupID : string) : DB :=
  mkDB (delete groupID (groups db))
       (filter (λ e : string * TrainingUnit.t, TrainingUnit.GroupID e.2 ≠ groupID) (units db))
       (filter (λ e : string * TrainingQueue.t, in_group db groupID e.2 = false) (queues db)).

(** [Model(&TrainingUnit{}).Where("id = ?", unitID).Update(column, value)]:
    one column of the row with that key, and [updated_at]. *)
Definition update_unit (db : DB) (now : Z) (unitID : string)
    (f : TrainingUnit.t -> TrainingUnit.t) : DB :=
  mkDB (groups db)
       (alter (λ u, TrainingUnit.set_UpdatedAt (f u) now) unitID (units db))
       (queues db).

(** [Update("version", database.DB.Raw("version + 1"))]: the SQL
    expression [version + 1] on a bigint column; the statement fails, and
    changes nothing, when the sum leaves the range. *)
Definition sql_increment_version (db : DB) (now : Z) (unitID : string) : DB :=
  mkDB (groups db)
       (alter (λ u, if TrainingUnit.Version u <? max_int64
                    then TrainingUnit.set_UpdatedAt
                           (TrainingUnit.set_Version u (TrainingUnit.Version u + 1)) now
                    else u) unitID (units db))
       (queues db).

(** *** Responses and request bodies *)

Inductive Field :=
| FBool (b : bool)
| FStr (s : string)
| FInt (z : Z)
| FTime (t : option Z)
| FStrs (l : list string)
| FQueue (q : TrainingQueue.t)
| FQueues (l : list TrainingQueue.t)
| FUnit (u : TrainingUnit.t)
| FUnits (l : list (TrainingUnit.t * Z))
| FGroup (g : Group.t)
| FGroups (l : list Group.t).

(** [c.JSON(status, gin.H{...})]. *)
Record Response := mkResponse {
  status : Z;
  body : list (string * Field)
}.

Fixpoint lookup_field (name : string) (l : list (string * Field)) : option Field :=
  match l with
  | [] => None
  | (k, v) :: rest => if String.eqb k name then Some v else lookup_field name rest
  end.

Definition field (r : Response) (name : string) : option Field :=
  lookup_field name (body r).

Definition failure (code : Z) (message : string) : Response :=
  mkResponse code [("success", FBool false); ("error", FStr message)].

Record QueueReq := mkQueueReq {
  req_Name : string;
  req_Parameters : JSONB
}.

Record CreateQueueReq := mkCreateQueueReq {
  create_Name : string;
  create_Parameters : gmap string JSON;
  create_CreatedBy : string
}.

(** The elements of [queues] are not validated one by one: the name of
    an element may be empty and its parameters nil. *)
Record BatchCreateReq := mkBatchCreateReq {
  batch_Queues : list (string * JSONB);
  batch_CreatedBy : string
}.

Record CompleteReq := mkCompleteReq {
  req_Result : JSONB;
  req_Metrics : JSONB
}.

Record UnitReq := mkUnitReq {
  unit_Name : string;
  unit_Description : string;
  unit_Config : JSONB
}.

Record GroupReq := mkGroupReq {
  group_Name : string;
  group_Description : string
}.

(** *** The queue handlers ([QueueHandlerV2]) *)

(** [CreateTrainingQueue]. *)
Definition CreateTrainingQueue (db : DB) (now : Z) (uuid unitID userID : string)
    (req : option CreateQueueReq) : Response * DB :=
  match req with
  | None => (failure 400 "无效的请求参数", db)
  | Some req =>
      match first_unit db unitID userID with
      | None => (failure 404 "训练单元不存在", db)
      | Some unit =>
          let maxOrder := max_order db unitID in
          let newOrder := wrap64 (maxOrder + 1) in
          let createdBy := if decide (create_CreatedBy req = "") then "web"
                           else create_CreatedBy req in
          let queue := TrainingQueue.mk ("queue_" +:+ String.substring 0 8 uuid) unitID
                         (create_Name req) (Some (create_Parameters req)) newOrder
                         "pending" None None None None "" createdBy 0 0 userID in
          match create_queue db now queue with
          | None => (failure 500 "创建训练队列失败", db)
          | Some (queue, db) =>
              let db := update_unit db now (TrainingUnit.ID unit)
                          (λ u, TrainingUnit.set_Version u
                                  (wrap64 (TrainingUnit.Version unit + 1))) in
              (mkResponse 201 [("success", FBool true);
                               ("queue_id", FStr (TrainingQueue.ID queue));
                               ("queue", FQueue queue)], db)
          end
      end
  end.

(** The loop of [BatchCreateQueues]: [i] is the index of the first item of
    [items]; [uuids i] is the text of the [uuid.New()] of iteration [i].
    An item whose row cannot be created is skipped. *)
Fixpoint batch_loop (db : DB) (now : Z) (uuids : nat -> string) (unitID userID createdBy : string)
    (maxOrder : Z) (i : nat) (items : list (string * JSONB))
    (queueIDs : list string) : list string * DB :=
  match items with
  | [] => (queueIDs, db)
  | queueReq :: rest =>
      let queue := TrainingQueue.mk ("queue_" +:+ String.substring 0 8 (uuids i)) unitID
                     queueReq.1 queueReq.2
                     (wrap64 (wrap64 (maxOrder + 1) + Z.of_nat i))
                     "pending" None None None None "" createdBy 0 0 userID in
      match create_queue db now queue with
      | None => batch_loop db now uuids unitID userID createdBy maxOrder (S i) rest queueIDs
      | Some (queue, db) =>
          batch_loop db now uuids unitID userID createdBy maxOrder (S i) rest
                     (queueIDs ++ [TrainingQueue.ID queue])
      end
  end.

(** [BatchCreateQueues]. *)
Definition BatchCreateQueues (db : DB) (now : Z) (uuids : nat -> string)
    (unitID userID : string) (req : option BatchCreateReq) : Response * DB :=
  match req with
  | None => (failure 400 "无效的请求参数", db)
  | Some req =>
      match first_unit db unitID userID with
      | None => (failure 404 "训练单元不存在", db)
      | Some unit =>
          let maxOrder := max_order db unitID in
          let createdBy := if decide (batch_CreatedBy req = "") then "web"
                           else batch_CreatedBy req in
          let '(queueIDs, db) :=
            batch_loop db now uuids unitID userID createdBy maxOrder 0
                       (batch_Queues req) [] in
          let db := update_unit db now (TrainingUnit.ID unit)
                      (λ u, TrainingUnit.set_Version u
                              (wrap64 (TrainingUnit.Version unit + 1))) in
          (mkResponse 201 [("success", FBool true); ("queue_ids", FStrs queueIDs);
                           ("created_count", FInt (Z.of_nat (length queueIDs)))], db)
      end
  end.

(** [ListTrainingQueues]; [status] is the query parameter, empty when
    absent. *)
Definition ListTrainingQueues (db : DB) (unitID userID status : string) : Response * DB :=
  match first_unit db unitID userID with
  | None => (failure 404 "训练单元不存在", db)
  | Some unit =>
      let cond := λ q, bool_decide (TrainingQueue.UnitID q = unitID) &&
                       (bool_decide (status = "") ||
                        bool_decide (TrainingQueue.Status q = status)) in
      match Find db cond [("order", false)] with
      | None => (failure 500 "查询训练队列失败", db)
      | Some queues =>
          (mkResponse 200 [("success", FBool true); ("queues", FQueues queues);
                           ("count", FInt (Z.of_nat (length queues)))], db)
      end
  end.

(** [GetTrainingQueue]. *)
Definition GetTrainingQueue (db : DB) (queueID userID : string) : Response * DB :=
  match first_queue db queueID userID with
  | None => (failure 404 "训练队列不存在", db)
  | Some queue => (mkResponse 200 [("success", FBool true); ("queue", FQueue queue)], db)
  end.

(** [UpdateTrainingQueue]. *)
Definition UpdateTrainingQueue (db : DB) (now : Z) (queueID userID : string)
    (req : option QueueReq) : Response * DB :=
  match req with
  | None => (failure 400 "无效的请求参数", db)
  | Some req =>
      match first_queue db queueID userID with
      | None => (failure 404 "训练队列不存在", db)
      | Some queue =>
          if decide (TrainingQueue.Status queue = "running")
          then (failure 400 "无法修改运行中的队列", db)
          else if decide (TrainingQueue.Status queue = "completed")
          then (failure 400 "无法修改已完成的队列", db)
          else
            let queue := if decide (req_Name req = "") then queue
                         else TrainingQueue.set_Name queue (req_Name req) in
            let queue := match req_Parameters req with
                         | None => queue
                         | Some p => TrainingQueue.set_Parameters queue (Some p)
                         end in
            match save_queue db now queue with
            | None => (failure 500 "更新队列失败", db)
            | Some (queue, db) =>
                let db := sql_increment_version db now (TrainingQueue.UnitID queue) in
                (mkResponse 200 [("success", FBool true); ("queue", FQueue queue)], db)
            end
      end
  end.

(** [DeleteTrainingQueue]. *)
Definition DeleteTrainingQueue (db : DB) (now : Z) (queueID userID : string)
    : Response * DB :=
  match first_queue db queueID userID with
  | None => (failure 404 "训练队列不存在", db)
  | Some queue =>
      if decide (TrainingQueue.Status queue = "running")
      then (failure 400 "无法删除运行中的队列", db)
      else
        let unitID := TrainingQueue.UnitID queue in
        let db := delete_queue db (TrainingQueue.ID queue) in
        let db := sql_increment_version db now unitID in
        (mkResponse 200 [("success", FBool true); ("message", FStr "队列已删除")], db)
  end.

(** [StartQueue]. *)
Definition StartQueue (db : DB) (now : Z) (queueID userID : string) : Response * DB :=
  match first_queue db queueID userID with
  | None => (failure 404 "训练队列不存在", db)
  | Some queue =>
      if decide (TrainingQueue.Status queue ≠ "pending")
      then (failure 400 "队列状态不是pending，无法开始", db)
      else
        let queue := TrainingQueue.set_Status queue "running" in
        let queue := TrainingQueue.set_StartedAt queue (Some now) in
        match save_queue db now queue with
        | None => (failure 500 "更新队列状态失败", db)
        | Some (queue, db) =>
            let db := update_unit db now (TrainingQueue.UnitID queue)
                        (λ u, TrainingUnit.set_Status u "running") in
            (mkResponse 200 [("success", FBool true); ("queue", FQueue queue)], db)
        end
  end.

(** [CompleteQueue]. *)
Definition CompleteQueue (db : DB) (now : Z) (queueID userID : string)
    (req : option CompleteReq) : Response * DB :=
  match req with
  | None => (failure 400 "无效的请求参数", db)
  | Some req =>
      match first_queue db queueID userID with
      | None => (failure 404 "训练队列不存在", db)
      | Some queue =>
          let queue := TrainingQueue.set_Status queue "completed" in
          let queue := TrainingQueue.set_CompletedAt queue (Some now) in
          let queue := TrainingQueue.set_Result queue (req_Result req) in
          let queue := TrainingQueue.set_Metrics queue (req_Metrics req) in
          match save_queue db now queue with
          | None => (failure 500 "更新队列状态失败", db)
          | Some (queue, db) =>
              (mkResponse 200 [("success", FBool true); ("queue", FQueue queue)], db)
          end
      end
  end.

(** [FailQueue]; the body carries [error_msg]. *)
Definition FailQueue (db : DB) (now : Z) (queueID userID : string)
    (req : option string) : Response * DB :=
  match req with
  | None => (failure 400 "无效的请求参数", db)
  | Some errorMsg =>
      match first_queue db queueID userID with
      | None => (failure 404 "训练队列不存在", db)
      | Some queue =>
          let queue := TrainingQueue.set_Status queue "failed" in
          let queue := TrainingQueue.set_CompletedAt queue (Some now) in
          let queue := TrainingQueue.set_ErrorMsg queue errorMsg in
          match save_queue db now queue with
          | None => (failure 500 "更新队列状态失败", db)
          | Some (queue, db) =>
              (mkResponse 200 [("success", FBool true); ("queue", FQueue queue)], db)
          end
      end
  end.

(** The last loop of [ReorderQueues].  [queueMap] maps an id to the row
    that the handler holds for it; the row is shared by all the
    occurrences of the id in the request, so a later occurrence writes
    over the order that an earlier one saved.  The loop ends at the first
    save that fails: the result is [false] with the store as the earlier
    saves left it. *)
Fixpoint reorder_loop (db : DB) (now : Z) (queueMap : gmap string TrainingQueue.t)
    (startOrder : Z) (i : nat) (queueIDs : list string) : bool * DB :=
  match queueIDs with
  | [] => (true, db)
  | queueID :: rest =>
      match queueMap !! queueID with
      | Some queue =>
          let queue := TrainingQueue.set_Order queue (startOrder + Z.of_nat i) in
          match save_queue db now queue with
          | None => (false, db)
          | Some (queue, db) =>
              reorder_loop db now (<[queueID := queue]> queueMap) startOrder (S i) rest
          end
      | None => reorder_loop db now queueMap startOrder (S i) rest
      end
  end.

(** [ReorderQueues]; the body carries [queue_ids]. *)
Definition ReorderQueues (db : DB) (now : Z) (unitID userID : string)
    (req : option (list string)) : Response * DB :=
  match req with
  | None => (failure 400 "无效的请求参数", db)
  | Some queueIDs =>
      match first_unit db unitID userID with
      | None => (failure 404 "训练单元不存在", db)
      | Some unit =>
          let queuesToReorder :=
            filter (λ q, TrainingQueue.ID q ∈ queueIDs ∧ TrainingQueue.UserID q = userID)
                   (map_to_list (queues db)).*2 in
          if decide (Exists (λ q, TrainingQueue.UnitID q ≠ unitID) queuesToReorder)
          then (failure 400 "部分队列不属于该训练单元", db)
          else if decide (Exists (λ q, TrainingQueue.Status q ≠ "pending") queuesToReorder)
          then (mkResponse 400 [("success", FBool false);
                                ("error", FStr "只能调整pending状态的队列");
                                ("code", FStr "INVALID_QUEUE_STATUS")], db)
          else
            let nonPendingCount :=
              count_status_in db unitID ["running"; "completed"; "failed"] in
            let startOrder := nonPendingCount in
            let queueMap : gmap string TrainingQueue.t :=
              list_to_map ((λ q, (TrainingQueue.ID q, q)) <$> queuesToReorder) in
            match reorder_loop db now queueMap startOrder 0 queueIDs with
            | (false, db) => (failure 500 "更新队列顺序失败", db)
            | (true, db) =>
                let db := update_unit db now (TrainingUnit.ID unit)
                            (λ u, TrainingUnit.set_Version u
                                    (wrap64 (TrainingUnit.Version unit + 1))) in
                (mkResponse 200 [("success", FBool true); ("message", FStr "队列顺序已更新");
                                 ("count", FInt (Z.of_nat (length queuesToReorder)))], db)
            end
      end
  end.

(** *** The unit handlers ([UnitHandler]) *)

(** [checkConnectionStatus(unit)]: the unit as the caller holds it
    afterwards, and the store. *)
Definition checkConnectionStatus (db : DB) (now : Z) (unit : TrainingUnit.t)
    : TrainingUnit.t * DB :=
  match TrainingUnit.LastHeartbeat unit with
  | None => (TrainingUnit.set_ConnectionStatus unit "disconnected", db)
  | Some lastHeartbeat =>
      if 10 * second <? now - lastHeartbeat
      then
        if decide (TrainingUnit.ConnectionStatus unit ≠ "disconnected")
        then
          let unit := TrainingUnit.set_ConnectionStatus unit "disconnected" in
          (TrainingUnit.set_UpdatedAt unit now,
           update_unit db now (TrainingUnit.ID unit)
                       (λ u, TrainingUnit.set_ConnectionStatus u "disconnected"))
        else (unit, db)
      else (unit, db)
  end.

(** [CreateTrainingUnit]. *)
Definition CreateTrainingUnit (db : DB) (now : Z) (uuid groupID userID : string)
    (req : option UnitReq) : Response * DB :=
  match req with
  | None => (failure 400 "无效的请求参数", db)
  | Some req =>
      match first_group db groupID userID with
      | None => (failure 404 "组不存在", db)
      | Some group =>
          let unit := TrainingUnit.mk ("unit_" +:+ String.substring 0 8 uuid) groupID
                        (unit_Name req) (unit_Description req) (unit_Config req) 1 "idle"
                        "" None 0 0 userID in
          match create_unit db now unit with
          | None => (failure 500 "创建训练单元失败", db)
          | Some (unit, db) =>
              (mkResponse 201 [("success", FBool true);
                               ("unit_id", FStr (TrainingUnit.ID unit));
                               ("version", FInt (TrainingUnit.Version unit))], db)
          end
      end
  end.

(** [Order("created_at DESC")] on the units of a group. *)
Fixpoint insert_unit (u : TrainingUnit.t) (l : list TrainingUnit.t) : list TrainingUnit.t :=
  match l with
  | [] => [u]
  | v :: l' =>
      if TrainingUnit.CreatedAt u <? TrainingUnit.CreatedAt v
      then v :: insert_unit u l'
      else u :: l
  end.

Definition units_of_group (db : DB) (groupID : string) : list TrainingUnit.t :=
  foldr insert_unit []
        (filter (λ u, TrainingUnit.GroupID u = groupID) (map_to_list (units db)).*2).

(** The loop of [ListTrainingUnits]. *)
Fixpoint list_units_loop (db : DB) (now : Z) (units : list TrainingUnit.t)
    : list (TrainingUnit.t * Z) * DB :=
  match units with
  | [] => ([], db)
  | unit :: rest =>
      let '(unit, db) := checkConnectionStatus db now unit in
      let count := count_queues db (TrainingUnit.ID unit) in
      let '(l, db) := list_units_loop db now rest in
      ((unit, count) :: l, db)
  end.

(** [ListTrainingUnits]. *)
Definition ListTrainingUnits (db : DB) (now : Z) (groupID userID : string) : Response * DB :=
  match first_group db groupID userID with
  | None => (failure 404 "组不存在", db)
  | Some group =>
      let '(unitsWithCount, db) := list_units_loop db now (units_of_group db groupID) in
      (mkResponse 200 [("success", FBool true); ("units", FUnits unitsWithCount)], db)
  end.

(** [GetTrainingUnit]. *)
Definition GetTrainingUnit (db : DB) (now : Z) (unitID userID : string) : Response * DB :=
  match first_unit db unitID userID with
  | None => (failure 404 "训练单元不存在", db)
  | Some unit =>
      let '(unit, db) := checkConnectionStatus db now unit in
      (mkResponse 200 [("success", FBool true); ("unit", FUnit unit)], db)
  end.

(** [SyncTrainingUnit]; the body carries [client_version].  The error of
    [Find] is not looked at: when the statement fails, [queues] is still
    the nil slice. *)
Definition SyncTrainingUnit (db : DB) (unitID userID : string) (req : option Z)
    : Response * DB :=
  match req with
  | None => (failure 400 "无效的请求参数", db)
  | Some clientVersion =>
      match first_unit db unitID userID with
      | None => (failure 404 "训练单元不存在", db)
      | Some unit =>
          let needSync := clientVersion <? TrainingUnit.Version unit in
          let queues :=
            default [] (Find db (λ q, bool_decide (TrainingQueue.UnitID q = unitID))
                             [("priority", true); ("created_at", false)]) in
          (mkResponse 200 [("success", FBool true); ("need_sync", FBool needSync);
                           ("cloud_version", FInt (TrainingUnit.Version unit));
                           ("unit", FUnit unit); ("queues", FQueues queues)], db)
      end
  end.

(** [UpdateTrainingUnit]. *)
Definition UpdateTrainingUnit (db : DB) (now : Z) (unitID userID : string)
    (req : option UnitReq) : Response * DB :=
  match req with
  | None => (failure 400 "无效的请求参数", db)
  | Some req =>
      match first_unit db unitID userID with
      | None => (failure 404 "训练单元不存在", db)
      | Some unit =>
          let unit := if decide (unit_Name req = "") then unit
                      else TrainingUnit.set_Name unit (unit_Name req) in
          let unit := TrainingUnit.set_Description unit (unit_Description req) in
          let unit := match unit_Config req with
                      | None => unit
                      | Some cfg => TrainingUnit.set_Config unit (Some cfg)
                      end in
          let unit := TrainingUnit.set_Version unit (wrap64 (TrainingUnit.Version unit + 1)) in
          match save_unit db now unit with
          | None => (failure 500 "更新训练单元失败", db)
          | Some (unit, db) =>
              (mkResponse 200 [("success", FBool true); ("unit", FUnit unit);
                               ("version", FInt (TrainingUnit.Version unit))], db)
          end
      end
  end.

(** [DeleteTrainingUnit]. *)
Definition DeleteTrainingUnit (db : DB) (unitID userID : string) : Response * DB :=
  if 0 <? count_queues db unitID
  then (failure 400 "训练单元内还有训练队列，无法删除", db)
  else
    let db := match first_unit db unitID userID with
              | Some _ => mkDB (groups db) (delete unitID (units db)) (queues db)
              | None => db
              end in
    (mkResponse 200 [("success", FBool true); ("message", FStr "训练单元已删除")], db).

(** [Heartbeat]. *)
Definition Heartbeat (db : DB) (now : Z) (unitID userID : string) : Response * DB :=
  match first_unit db unitID userID with
  | None => (failure 404 "训练单元不存在", db)
  | Some unit =>
      let unit := TrainingUnit.set_LastHeartbeat unit (Some now) in
      let unit := TrainingUnit.set_ConnectionStatus unit "connected" in
      match save_unit db now unit with
      | None => (failure 500 "更新心跳失败", db)
      | Some (unit, db) =>
          (mkResponse 200 [("success", FBool true);
                           ("connection_status", FStr (TrainingUnit.ConnectionStatus unit));
                           ("last_heartbeat", FTime (TrainingUnit.LastHeartbeat unit))], db)
      end
  end.

(** *** The group handlers ([GroupHandler]) *)

(** [CreateGroup]. *)
Definition CreateGroup (db : DB) (now : Z) (uuid userID : string) (req : option GroupReq)
    : Response * DB :=
  match req with
  | None => (failure 400 "无效的请求参数", db)
  | Some req =>
      let group := Group.mk ("group_" +:+ String.substring 0 8 uuid) (group_Name req)
                            (group_Description req) userID 0 0 in
      match create_group db now group with
      | None => (failure 500 "创建组失败", db)
      | Some (group, db) =>
          (mkResponse 201 [("success", FBool true); ("group_id", FStr (Group.ID group));
                           ("name", FStr (Group.Name group))], db)
      end
  end.

(** [Order("created_at DESC")] on the groups of a user. *)
Fixpoint insert_group (g : Group.t) (l : list Group.t) : list Group.t :=
  match l with
  | [] => [g]
  | h :: l' =>
      if Group.CreatedAt g <? Group.CreatedAt h
      then h :: insert_group g l'
      else g :: l
  end.

Definition groups_of_user (db : DB) (userID : string) : list Group.t :=
  foldr insert_group []
        (filter (λ g, Group.UserID g = userID) (map_to_list (groups db)).*2).

(** [ListGroups]. *)
Definition ListGroups (db : DB) (userID : string) : Response * DB :=
  (mkResponse 200 [("success", FBool true); ("groups", FGroups (groups_of_user db userID))],
   db).

(** [Where("group_id = ?", groupID).Count(&unitCount)]. *)
Definition count_units (db : DB) (groupID : string) : Z :=
  Z.of_nat (length (filter (λ u, TrainingUnit.GroupID u = groupID)
                           (map_to_list (units db)).*2)).

(** [GetGroup]. *)
Definition GetGroup (db : DB) (groupID userID : string) : Response * DB :=
  match first_group db groupID userID with
  | None => (failure 404 "组不存在", db)
  | Some group =>
      (mkResponse 200 [("success", FBool true); ("group", FGroup group);
                       ("unit_count", FInt (count_units db groupID))], db)
  end.

(** [UpdateGroup]. *)
Definition UpdateGroup (db : DB) (now : Z) (groupID userID : string)
    (req : option GroupReq) : Response * DB :=
  match req with
  | None => (failure 400 "无效的请求参数", db)
  | Some req =>
      match first_group db groupID userID with
      | None => (failure 404 "组不存在", db)
      | Some group =>
          let name := if decide (group_Name req = "") then Group.Name group
                      else group_Name req in
          let group := Group.mk (Group.ID group) name (group_Description req)
                                (Group.UserID group) (Group.CreatedAt group)
                                (Group.UpdatedAt group) in
          match save_group db now group with
          | None => (failure 500 "更新组失败", db)
          | Some (group, db) =>
              (mkResponse 200 [("success", FBool true); ("group", FGroup group)], db)
          end
      end
  end.

(** [DeleteGroup]: the count of the units is not looked at, and the
    answer is 200 whether a row was deleted or not. *)
Definition DeleteGroup (db : DB) (groupID userID : string) : Response * DB :=
  let db := match first_group db groupID userID with
            | Some _ => delete_group db groupID
            | None => db
            end in
  (mkResponse 200 [("success", FBool true); ("message", FStr "组已删除")], db).

(** *** Requests to the V2 service *)

Inductive Op :=
| OpCreateQueue (now : Z) (uuid unitID userID : string) (req : option CreateQueueReq)
| OpBatchCreateQueues (now : Z) (uuids : nat -> string) (unitID userID : string)
    (req : option BatchCreateReq)
| OpListQueues (unitID userID status : string)
| OpGetQueue (queueID userID : string)
| OpUpdateQueue (now : Z) (queueID userID : string) (req : option QueueReq)
| OpDeleteQueue (now : Z) (queueID userID : string)
| OpStartQueue (now : Z) (queueID userID : string)
| OpCompleteQueue (now : Z) (queueID userID : string) (req : option CompleteReq)
| OpFailQueue (now : Z) (queueID userID : string) (req : option string)
| OpReorderQueues (now : Z) (unitID userID : string) (req : option (list string))
| OpCreateUnit (now : Z) (uuid groupID userID : string) (req : option UnitReq)
| OpListUnits (now : Z) (groupID userID : string)
| OpGetUnit (now : Z) (unitID userID : string)
| OpSyncUnit (unitID userID : string) (req : option Z)
| OpUpdateUnit (now : Z) (unitID userID : string) (req : option UnitReq)
| OpDeleteUnit (unitID userID : string)
| OpHeartbeat (now : Z) (unitID userID : string)
| OpCreateGroup (now : Z) (uuid userID : string) (req : option GroupReq)
| OpListGroups (userID : string)
| OpGetGroup (groupID userID : string)
| OpUpdateGroup (now : Z) (groupID userID : string) (req : option GroupReq)
| OpDeleteGroup (groupID userID : string).

Definition handle (db : DB) (op : Op) : Response * DB :=
  match op with
  | OpCreateQueue now uuid unitID userID req => CreateTrainingQueue db now uuid unitID userID req
  | OpBatchCreateQueues now uuids unitID userID req =>
      BatchCreateQueues db now uuids unitID userID req
  | OpListQueues unitID userID status => ListTrainingQueues db unitID userID status
  | OpGetQueue queueID userID => GetTrainingQueue db queueID userID
  | OpUpdateQueue now queueID userID req => UpdateTrainingQueue db now queueID userID req
  | OpDeleteQueue now queueID userID => DeleteTrainingQueue db now queueID userID
  | OpStartQueue now queueID userID => StartQueue db now queueID userID
  | OpCompleteQueue now queueID userID req => CompleteQueue db now queueID userID req
  | OpFailQueue now queueID userID req => FailQueue db now queueID userID req
  | OpReorderQueues now unitID userID req => ReorderQueues db now unitID userID req
  | OpCreateUnit now uuid groupID userID req => CreateTrainingUnit db now uuid groupID userID req
  | OpListUnits now groupID userID => ListTrainingUnits db now groupID userID
  | OpGetUnit now unitID userID => GetTrainingUnit db now unitID userID
  | OpSyncUnit unitID userID req => SyncTrainingUnit db unitID userID req
  | OpUpdateUnit now unitID userID req => UpdateTrainingUnit db now unitID userID req
  | OpDeleteUnit unitID userID => DeleteTrainingUnit db unitID userID
  | OpHeartbeat now unitID userID => Heartbeat db now unitID userID
  | OpCreateGroup now uuid userID req => CreateGroup db now uuid userID req
  | OpListGroups userID => ListGroups db userID
  | OpGetGroup groupID userID => GetGroup db groupID userID
  | OpUpdateGroup now groupID userID req => UpdateGroup db now groupID userID req
  | OpDeleteGroup groupID userID => DeleteGroup db groupID userID
  end.

(** The version of a unit in the store. *)
Definition version_of (db : DB) (unitID : string) : option Z :=
  TrainingUnit.Version <$> units db !! unitID.

(** The order of a queue in the store. *)
Definition order_of (db : DB) (queueID : string) : option Z :=
  TrainingQueue.Order <$> queues db !! queueID.

(** The operations that the specification calls reads. *)
Definition is_read (op : Op) : bool :=
  match op with
  | OpListQueues _ _ _ | OpGetQueue _ _ | OpListUnits _ _ _ | OpGetUnit _ _ _
  | OpSyncUnit _ _ _ | OpHeartbeat _ _ _ | OpStartQueue _ _ _
  | OpCompleteQueue _ _ _ _ | OpFailQueue _ _ _ _
  | OpListGroups _ | OpGetGroup _ _ => true
  | _ => false
  end.

(** The unit whose version a successful request of the five mutating
    kinds is to advance. *)
Definition target_unit (db : DB) (op : Op) : option string :=
  match op with
  | OpCreateQueue _ _ unitID _ _ => Some unitID
  | OpBatchCreateQueues _ _ unitID _ _ => Some unitID
  | OpUpdateQueue _ queueID userID _ => TrainingQueue.UnitID <$> first_queue db queueID userID
  | OpDeleteQueue _ queueID userID => TrainingQueue.UnitID <$> first_queue db queueID userID
  | OpUpdateUnit _ unitID _ _ => Some unitID
  | _ => None
  end.

Definition succeeded (r : Response) : Prop := status r = 200 ∨ status r = 201.

(** Every row is stored under its own primary key. *)
Definition well_keyed (db : DB) : Prop :=
  (∀ id u, units db !! id = Some u -> TrainingUnit.ID u = id) ∧
  (∀ id q, queues db !! id = Some q -> TrainingQueue.ID q = id).

(** A unit that never sent a heartbeat is stored as disconnected. *)
Definition unseen (u : TrainingUnit.t) : Prop :=
  TrainingUnit.LastHeartbeat u = None -> TrainingUnit.ConnectionStatus u = "disconnected".

Definition unseen_disconnected (db : DB) : Prop :=
  ∀ id u, units db !! id = Some u -> unseen u.

(** In the store, every non-pending queue of the unit comes strictly
    before every queue named in [ids]. *)
Definition non_pending_first (db : DB) (unitID : string) (ids : list string) : Prop :=
  ∀ id q id' q',
    queues db !! id = Some q -> TrainingQueue.UnitID q = unitID ->
    TrainingQueue.Status q ≠ "pending" ->
    id' ∈ ids -> queues db !! id' = Some q' ->
    TrainingQueue.Order q < TrainingQueue.Order q'.

(** The id that [CreateTrainingQueue] and [BatchCreateQueues] derive from
    a UUID. *)
Definition queue_id (uuid : string) : string := "queue_" +:+ String.substring 0 8 uuid.

(** *** A small store for the examples: one group, one unit, three
        queues created one by one, the last of which the client starts
        first. *)

Definition empty_store : DB :=
  mkDB {["group_1" := Group.mk "group_1" "vision" "" "u1" 0 0]} ∅ ∅.

Definition store_with_unit : DB :=
  (CreateTrainingUnit empty_store 1 "00000001-aaaa" "group_1" "u1"
     (Some (mkUnitReq "resnet" "" None))).2.

Definition store_with_queues : DB :=
  let db := store_with_unit in
  let db := (CreateTrainingQueue db 2 "0000000a-aaaa" "unit_00000001" "u1"
               (Some (mkCreateQueueReq "lr=0.1" ∅ "client"))).2 in
  let db := (CreateTrainingQueue db 3 "0000000b-aaaa" "unit_00000001" "u1"
               (Some (mkCreateQueueReq "lr=0.2" ∅ "client"))).2 in
  (CreateTrainingQueue db 4 "0000000c-aaaa" "unit_00000001" "u1"
     (Some (mkCreateQueueReq "lr=0.3" ∅ "client"))).2.

Definition store_last_started : DB :=
  (StartQueue store_with_queues 5 "queue_0000000c" "u1").2.

(** The same store with a second principal, who has a group, a unit and
    a queue of its own. *)
Definition store_two_users : DB :=
  let db := store_last_started in
  let db := (CreateGroup db 6 "00000002-bbbb" "u2" (Some (mkGroupReq "nlp" ""))).2 in
  let db := (CreateTrainingUnit db 7 "00000002-bbbb" "group_00000002" "u2"
               (Some (mkUnitReq "bert" "" None))).2 in
  (CreateTrainingQueue db 8 "0000000d-bbbb" "unit_00000002" "u2"
     (Some (mkCreateQueueReq "lr=0.1" ∅ "client"))).2.

(** A store in which the row of the second queue holds a name with a NUL
    character, which [varchar(255)] does not take: the handlers do not
    write such a row, and every save of it fails. *)
Definition store_refused_row : DB :=
  mkDB (groups store_with_queues) (units store_with_queues)
       (alter (λ q, TrainingQueue.set_Name q (String Ascii.zero EmptyString))
              "queue_0000000b" (queues store_with_queues)).

End V2.

(** * Part I, continued: the rest of the service

    The sections above embed the code that the specification speaks of.
    The sections below embed what that code calls and what calls it:
    the remaining handlers of [internal/handlers/task_handler.go] and the
    V1 queue handler (module [Tasks]), the authentication middleware
    [internal/middleware/auth.go] (module [Auth]), the chain of
    middlewares and handlers that [internal/routes/routes.go] builds
    (module [Routes]) and the webhook sender of [internal/services]
    (module [Webhook]).  The modules [Quota], [Tenancy] and [Lifecycle]
    hold the invariants that Part II proves of the code of the sections
    above. *)

(** ** The quota gate on a stream of requests *)

Module Quota.

(** The stamps of [times] that the expiry step of a request arriving at
    [now] keeps: those of the last 60 whole seconds. *)
Definition recent (now : Z) (times : list Z) : list Z :=
  filter (λ t, Unix now - 60 < Unix t) times.

(** The invariant of [RateLimit.serve] for the key [key], started on a
    store that holds nothing under the key: the members of the sorted set
    are stamps of accepted requests, each with its whole second as the
    score; the accepted requests of the last 60 whole seconds are members;
    a deadline of the key lies two windows after every accepted
    request. *)
Definition recorded (key : string) (accepted : list Z) (T : Z) (c : Redis.Client) : Prop :=
  NoDup accepted ∧
  (∀ t, t ∈ accepted -> 0 <= t <= T) ∧
  (∀ t, t ∈ accepted -> Unix T - 60 < Unix t ->
        Redis.zget c key !! pretty t = Some (Unix t)) ∧
  (∀ m s, Redis.zget c key !! m = Some s ->
          ∃ t, t ∈ accepted ∧ m = pretty t ∧ s = Unix t) ∧
  (∀ d t, Redis.deadlines c !! key = Some d -> t ∈ accepted ->
          t + 2 * RateLimit.window <= d).

End Quota.

(** ** Ownership in the V2 hierarchy *)

Module Tenancy.
Import V2.

(** The principal on whose behalf a request is served: the [user_id] that
    the authentication middleware has put into the context. *)
Definition caller (op : Op) : string :=
  match op with
  | OpCreateQueue _ _ _ userID _ => userID
  | OpBatchCreateQueues _ _ _ userID _ => userID
  | OpListQueues _ userID _ => userID
  | OpGetQueue _ userID => userID
  | OpUpdateQueue _ _ userID _ => userID
  | OpDeleteQueue _ _ userID => userID
  | OpStartQueue _ _ userID => userID
  | OpCompleteQueue _ _ userID _ => userID
  | OpFailQueue _ _ userID _ => userID
  | OpReorderQueues _ _ userID _ => userID
  | OpCreateUnit _ _ _ userID _ => userID
  | OpListUnits _ _ userID => userID
  | OpGetUnit _ _ userID => userID
  | OpSyncUnit _ userID _ => userID
  | OpUpdateUnit _ _ userID _ => userID
  | OpDeleteUnit _ userID => userID
  | OpHeartbeat _ _ userID => userID
  | OpCreateGroup _ _ userID _ => userID
  | OpListGroups userID => userID
  | OpGetGroup _ userID => userID
  | OpUpdateGroup _ _ userID _ => userID
  | OpDeleteGroup _ userID => userID
  end.

(** The store is consistent in its ownership: every row lies under its
    own key, the unit of every queue is stored and belongs to the owner of
    the queue, and the group of every unit is stored and belongs to the
    owner of the unit. *)
Definition owned (db : DB) : Prop :=
  well_keyed db ∧
  (∀ id q, queues db !! id = Some q ->
     ∃ u, units db !! TrainingQueue.UnitID q = Some u ∧
          TrainingUnit.UserID u = TrainingQueue.UserID q) ∧
  (∀ id u, units db !! id = Some u ->
     ∃ g, groups db !! TrainingUnit.GroupID u = Some g ∧
          Group.UserID g = TrainingUnit.UserID u) ∧
  (∀ id g, groups db !! id = Some g -> Group.ID g = id).

(** The rows that do not belong to [userID]. *)
Definition groups_of_others (userID : string) (db : DB) : gmap string Group.t :=
  filter (λ e : string * Group.t, Group.UserID e.2 ≠ userID) (groups db).

Definition units_of_others (userID : string) (db : DB) : gmap string TrainingUnit.t :=
  filter (λ e : string * TrainingUnit.t, TrainingUnit.UserID e.2 ≠ userID) (units db).

Definition queues_of_others (userID : string) (db : DB) : gmap string TrainingQueue.t :=
  filter (λ e : string * TrainingQueue.t, TrainingQueue.UserID e.2 ≠ userID) (queues db).

(** [db'] is consistent and differs from [db] in rows of [userID] only. *)
Definition own_row {A} (owner : A -> string) (userID : string) (o : option A) : Prop :=
  ∀ x, o = Some x -> owner x = userID.

Definition touches (userID : string) (db db' : DB) : Prop :=
  owned db' ∧
  (∀ k, groups db' !! k = groups db !! k ∨
        (own_row Group.UserID userID (groups db !! k) ∧
         own_row Group.UserID userID (groups db' !! k))) ∧
  (∀ k, units db' !! k = units db !! k ∨
        (own_row TrainingUnit.UserID userID (units db !! k) ∧
         own_row TrainingUnit.UserID userID (units db' !! k))) ∧
  (∀ k, queues db' !! k = queues db !! k ∨
        (own_row TrainingQueue.UserID userID (queues db !! k) ∧
         own_row TrainingQueue.UserID userID (queues db' !! k))).

End Tenancy.

(** ** The life cycle of a training queue *)

Module Lifecycle.
Import V2.

(** What one request may do to the row of a queue; [a] is the row before
    and [b] the row after, [None] for a queue that is not stored.  A new
    row is pending.  A stored row keeps its status, or goes from pending
    to running, or becomes completed or failed.  A running row is not
    deleted, and keeps its name, its parameters, its order and its
    unit. *)
Definition queue_step (a b : option TrainingQueue.t) : Prop :=
  match a, b with
  | None, None => True
  | None, Some y => TrainingQueue.Status y = "pending"
  | Some x, None => TrainingQueue.Status x ≠ "running"
  | Some x, Some y =>
      (TrainingQueue.Status y = TrainingQueue.Status x ∨
       (TrainingQueue.Status x = "pending" ∧ TrainingQueue.Status y = "running") ∨
       TrainingQueue.Status y = "completed" ∨ TrainingQueue.Status y = "failed") ∧
      (TrainingQueue.Status x = "running" ->
       TrainingQueue.Name y = TrainingQueue.Name x ∧
       TrainingQueue.Parameters y = TrainingQueue.Parameters x ∧
       TrainingQueue.Order y = TrainingQueue.Order x ∧
       TrainingQueue.UnitID y = TrainingQueue.UnitID x)
  end.


End Lifecycle.

(** ** The remaining handlers of the V1 task API:
       [internal/handlers/task_handler.go] and the V1 queue handler *)

Module Tasks.
Import V1.

(** One element of the body of [BatchCreateTasks].  The elements of the
    slice are bound as they come: a name may be empty and a config may be
    the nil map. *)
Record BatchTaskReq := mkBatchTaskReq {
  task_Name : string;
  task_Config : JSONB;
  task_Priority : Z
}.

(** The loop of [BatchCreateTasks]: [i] is the index of the first element
    of [tasks], [uuids i] the text of the [uuid.New()] of iteration [i].
    An element whose row cannot be created is skipped, and is not
    enqueued. *)
Fixpoint batch_loop (db : gmap string Task) (c : Redis.Client) (now : Z)
    (uuids : nat -> string) (userID : string) (i : nat) (tasks : list BatchTaskReq)
    (taskIDs : list string) : list string * gmap string Task * Redis.Client :=
  match tasks with
  | [] => (taskIDs, db, c)
  | taskReq :: rest =>
      let task := mkTask ("task_" +:+ String.substring 0 8 (uuids i)) (task_Name taskReq)
                         (task_Config taskReq) (task_Priority taskReq) TaskStatusQueued
                         None None "" 0 None None userID 0 in
      match Create db now task with
      | None => batch_loop db c now uuids userID (S i) rest taskIDs
      | Some db =>
          let c := Queue.EnqueueTask c (ID task) (Queue.float64 (task_Priority taskReq)) in
          batch_loop db c now uuids userID (S i) rest (taskIDs ++ [ID task])
      end
  end.

(** [BatchCreateTasks]. *)
Definition BatchCreateTasks (s : State) (now : Z) (uuids : nat -> string) (userID : string)
    (req : option (list BatchTaskReq)) : option Response * State :=
  match req with
  | None =>
      (Some (mkResponse 400 [("success", JBool false); ("error", JStr "无效的请求参数");
                             ("code", JStr "INVALID_CONFIG")]), s)
  | Some tasks =>
      let '(taskIDs, db, c) :=
        batch_loop (DB s) (RedisClient s) now uuids userID 0 tasks [] in
      (Some (mkResponse 201 [("success", JBool true);
                             ("task_ids", JArr (JStr <$> taskIDs));
                             ("created_count", JNum (Z.of_nat (length taskIDs)) 1)]),
       mkState db c (paused s) (workers s))
  end.

(** JSON of the fields of a task: a map is an object or [null], a time
    is written as its instant, a pointer to a time that is nil as
    [null]. *)
Definition json_of_jsonb (j : JSONB) : JSON :=
  match j with Some m => JObj (map_to_list m) | None => JNull end.

Definition json_of_time (t : Z) : JSON := JNum t 1.

Definition json_of_time_ptr (t : option Z) : JSON :=
  match t with Some t => json_of_time t | None => JNull end.

(** [GetTask]. *)
Definition GetTask (s : State) (taskID userID : string) : option Response * State :=
  match First (DB s) taskID userID with
  | None =>
      (Some (mkResponse 404 [("success", JBool false); ("error", JStr "任务不存在");
                             ("code", JStr "TASK_NOT_FOUND")]), s)
  | Some task =>
      (Some (mkResponse 200 [("success", JBool true);
                             ("task_id", JStr (ID task));
                             ("name", JStr (Name task));
                             ("config", json_of_jsonb (Config task));
                             ("priority", JNum (Priority task) 1);
                             ("status", JStr (status_text (Status task)));
                             ("created_at", json_of_time (CreatedAt task));
                             ("started_at", json_of_time_ptr (StartedAt task));
                             ("completed_at", json_of_time_ptr (CompletedAt task));
                             ("result", json_of_jsonb (Result task));
                             ("error_message", JStr (ErrorMessage task))]), s)
  end.

Definition set_Priority (t : Task) (p : Z) : Task :=
  mkTask (ID t) (Name t) (Config t) p (Status t) (Metadata t) (Result t)
         (ErrorMessage t) (CreatedAt t) (StartedAt t) (CompletedAt t) (UserID t)
         (UpdatedAt t).

(** [UpdateTaskPriority].  The body carries [priority], an integer that
    the binding requires: a body without it, or with the value 0, fails to
    bind like a body that is not JSON.  [req] is the integer that the body
    carries, [None] for a body that carries none. *)
Definition UpdateTaskPriority (s : State) (now : Z) (taskID userID : string)
    (req : option Z) : option Response * State :=
  let invalid := (Some (mkResponse 400 [("success", JBool false);
                                        ("error", JStr "无效的优先级");
                                        ("code", JStr "INVALID_PRIORITY")]), s) in
  match req with
  | None => invalid
  | Some priority =>
      if decide (priority = 0) then invalid
      else
        match First (DB s) taskID userID with
        | None =>
            (Some (mkResponse 404 [("success", JBool false); ("error", JStr "任务不存在");
                                   ("code", JStr "TASK_NOT_FOUND")]), s)
        | Some task =>
            if decide (Status task ≠ TaskStatusQueued ∧ Status task ≠ TaskStatusPending)
            then
              (Some (mkResponse 400 [("success", JBool false);
                                     ("error", JStr "只能修改队列中任务的优先级");
                                     ("code", JStr "TASK_ALREADY_RUNNING")]), s)
            else
              let task := set_Priority task priority in
              let db := Save (DB s) now task in
              let c := Queue.UpdatePriority (RedisClient s) taskID (Queue.float64 priority) in
              let position := Queue.GetQueuePosition c taskID in
              (Some (mkResponse 200 [("success", JBool true); ("task_id", JStr taskID);
                                     ("new_priority", JNum priority 1);
                                     ("new_queue_position", JNum position 1)]),
               mkState db c (paused s) (workers s))
        end
  end.

(** [Where("id IN ? AND user_id = ?", taskIDs, userID).Count(&count)]. *)
Definition count_owned (db : gmap string Task) (taskIDs : list string) (userID : string) : Z :=
  Z.of_nat (length (filter (λ t, ID t ∈ taskIDs ∧ UserID t = userID) (map_to_list db).*2)).

(** The loop of [ReorderQueue]; [n] is [len(req.TaskIDs)] and [i] the
    index of the first element of [taskIDs].  The error of [First] is not
    looked at: when no row has the id, [task] is still the zero [Task],
    and [Save] of a row without a primary key inserts it, with the
    defaults of the columns. *)
Fixpoint reorder_loop (db : gmap string Task) (c : Redis.Client) (now : Z) (n : Z)
    (i : nat) (taskIDs : list string) : gmap string Task * Redis.Client :=
  match taskIDs with
  | [] => (db, c)
  | taskID :: rest =>
      let priority := n - Z.of_nat i in
      let c := Queue.UpdatePriority c taskID (Queue.float64 priority) in
      let db :=
        match db !! taskID with
        | Some task => Save db now (set_Priority task priority)
        | None =>
            default db (Create db now (mkTask "" "" None priority TaskStatusPending
                                              None None "" 0 None None "" 0))
        end in
      reorder_loop db c now n (S i) rest
  end.

Fixpoint new_order (i : nat) (taskIDs : list string) : list JSON :=
  match taskIDs with
  | [] => []
  | taskID :: rest =>
      JObj [("task_id", JStr taskID); ("position", JNum (Z.of_nat i + 1) 1)]
      :: new_order (S i) rest
  end.

(** [ReorderQueue] of the V1 queue handler; the body carries
    [task_ids]. *)
Definition ReorderQueue (s : State) (now : Z) (userID : string)
    (req : option (list string)) : option Response * State :=
  match req with
  | None =>
      (Some (mkResponse 400 [("success", JBool false); ("error", JStr "无效的请求参数");
                             ("code", JStr "INVALID_CONFIG")]), s)
  | Some taskIDs =>
      let count := count_owned (DB s) taskIDs userID in
      if decide (count ≠ Z.of_nat (length taskIDs))
      then
        (Some (mkResponse 400 [("success", JBool false);
                               ("error", JStr "部分任务不存在或无权限");
                               ("code", JStr "TASK_NOT_FOUND")]), s)
      else
        let '(db, c) := reorder_loop (DB s) (RedisClient s) now
                                     (Z.of_nat (length taskIDs)) 0 taskIDs in
        (Some (mkResponse 200 [("success", JBool true); ("message", JStr "队列已重新排序");
                               ("new_order", JArr (new_order 0 taskIDs))]),
         mkState db c (paused s) (workers s))
  end.

(** [PauseQueue] and [ResumeQueue]. *)
Definition PauseQueue (s : State) : option Response * State :=
  (Some (mkResponse 200 [("success", JBool true); ("queue_status", JStr "paused");
                         ("message", JStr "队列已暂停")]), Pause s).

Definition ResumeQueue (s : State) : option Response * State :=
  (Some (mkResponse 200 [("success", JBool true); ("queue_status", JStr "active");
                         ("message", JStr "队列已恢复")]), Resume s).

(** *** The whole V1 service: the requests to the task and queue
        handlers, and the steps of the workers *)

Inductive Call :=
| CreateTaskCall (now : Z) (uuid userID : string) (req : option CreateTaskReq)
| BatchCreateTasksCall (now : Z) (uuids : nat -> string) (userID : string)
    (req : option (list BatchTaskReq))
| GetTaskCall (taskID userID : string)
| UpdateTaskPriorityCall (now : Z) (taskID userID : string) (req : option Z)
| CancelTaskCall (now : Z) (taskID userID : string) (req : option CancelTaskReq)
| UploadResultCall (now : Z) (taskID userID : string) (req : option UploadResultReq)
| ReorderQueueCall (now : Z) (userID : string) (req : option (list string))
| PauseQueueCall
| ResumeQueueCall
| WorkerPickup (now : Z) (worker : Z)
| WorkerComplete (now : Z) (worker : Z).

Definition serve (s : State) (call : Call) : option Response * State :=
  match call with
  | CreateTaskCall now uuid userID req => CreateTask s now uuid userID req
  | BatchCreateTasksCall now uuids userID req => BatchCreateTasks s now uuids userID req
  | GetTaskCall taskID userID => GetTask s taskID userID
  | UpdateTaskPriorityCall now taskID userID req => UpdateTaskPriority s now taskID userID req
  | CancelTaskCall now taskID userID req => CancelTask s now taskID userID req
  | UploadResultCall now taskID userID req => UploadResult s now taskID userID req
  | ReorderQueueCall now userID req => ReorderQueue s now userID req
  | PauseQueueCall => PauseQueue s
  | ResumeQueueCall => ResumeQueue s
  | WorkerPickup now w => (None, worker_pickup s now w)
  | WorkerComplete now w => (None, worker_complete s now w)
  end.

Definition run (s : State) (calls : list Call) : State :=
  foldl (λ s call, (serve s call).2) s calls.

(** The principal of a request; a step of a worker has none. *)
Definition caller (call : Call) : option string :=
  match call with
  | CreateTaskCall _ _ userID _ => Some userID
  | BatchCreateTasksCall _ _ userID _ => Some userID
  | GetTaskCall _ userID => Some userID
  | UpdateTaskPriorityCall _ _ userID _ => Some userID
  | CancelTaskCall _ _ userID _ => Some userID
  | UploadResultCall _ _ userID _ => Some userID
  | ReorderQueueCall _ userID _ => Some userID
  | PauseQueueCall | ResumeQueueCall => None
  | WorkerPickup _ _ | WorkerComplete _ _ => None
  end.

(** The invariant of the states that the service reaches: a row lies
    under its own id, has one of the four statuses that the code writes
    and is a row that the table takes; every member of the index and
    every task that a worker holds has a row. *)
Definition sound (s : State) : Prop :=
  (∀ id t, DB s !! id = Some t ->
     ID t = id ∧
     (Status t = TaskStatusQueued ∨ Status t = TaskStatusRunning ∨
      Status t = TaskStatusCompleted ∨ Status t = TaskStatusCancelled) ∧
     accepts t = true) ∧
  (∀ m sc, Redis.zget (RedisClient s) Queue.TaskQueueKey !! m = Some sc ->
     is_Some (DB s !! m)) ∧
  (∀ w tk, workers s !! w = Some tk ->
     is_Some (DB s !! ID tk) ∧
     (Status tk = TaskStatusRunning)).

(** The rows that do not belong to [userID]. *)
Definition tasks_of_others (userID : string) (s : State) : gmap string Task :=
  filter (λ e : string * Task, UserID e.2 ≠ userID) (DB s).

End Tasks.

(** ** Authentication: [internal/middleware/auth.go] *)

Module Auth.
Import Stdlib.Strings.Ascii RateLimit.

(** [models.User]. *)
Record User := mkUser {
  ID : string;
  Email : string;
  APIKey : string;
  Tier : string;
  CreatedAt : Z;
  UpdatedAt : Z
}.

(** The keys of a [gin.Context]; the middleware stores strings. *)
Definition Context : Type := gmap string string.

(** The text before and the text after the first space of [s]; [None]
    when [s] has no space. *)
Fixpoint cut (s : string) : option (string * string) :=
  match s with
  | EmptyString => None
  | String a rest =>
      if Ascii.eqb a " "%char then Some (EmptyString, rest)
      else match cut rest with
           | Some (x, y) => Some (String a x, y)
           | None => None
           end
  end.

(** [strings.SplitN(s, " ", 2)]. *)
Definition SplitN (s : string) : list string :=
  match cut s with
  | Some (x, y) => [x; y]
  | None => [s]
  end.

(** [database.DB.Where("api_key = ?", token).First(&user)]: of the rows
    with the key, the one with the least primary key; [None] stands for
    the error [gorm.ErrRecordNotFound]. *)
Definition least_id (u : User) (acc : option User) : option User :=
  match acc with
  | None => Some u
  | Some b => if String.ltb (ID u) (ID b) then Some u else Some b
  end.

Definition First (users : gmap string User) (token : string) : option User :=
  foldr least_id None (filter (λ u, APIKey u = token) (map_to_list users).*2).

(** [AuthMiddleware] on a request with the header [Authorization:
    authHeader] ([""] when the request has none). *)
Definition AuthMiddleware (users : gmap string User) (c : Context) (authHeader : string)
    : Outcome * Context :=
  if decide (authHeader = "") then (Abort 401 "AUTH_REQUIRED", c)
  else
    match SplitN authHeader with
    | [scheme; token] =>
        if decide (scheme ≠ "Bearer") then (Abort 401 "INVALID_TOKEN", c)
        else
          match First users token with
          | None => (Abort 401 "INVALID_TOKEN", c)
          | Some user =>
              (Next, <["user_tier" := Tier user]> (<["user_id" := ID user]> c))
          end
    | _ => (Abort 401 "INVALID_TOKEN", c)
    end.

Definition GetUserID (c : Context) : string := default "" (c !! "user_id").

Definition GetUserTier (c : Context) : string := default "standard" (c !! "user_tier").

End Auth.

(** ** The V1 routes: [SetupRouter] of [internal/routes/routes.go]

    Every route of the group [/v1] runs [AuthMiddleware], then
    [RateLimitMiddleware] with the class of the route, then its handler.
    The routes embedded here are those of the handlers of module [Tasks];
    the requests they serve are not preflight requests, which is all that
    [CORSMiddleware] looks at. *)

Module Routes.
Import V1.

(** A route with what the handler reads of the request besides the
    principal: the clock, the identifier it draws, the path parameter and
    the body. *)
Inductive Endpoint :=
| PostTasks (now : Z) (uuid : string) (req : option CreateTaskReq)
| PostTasksBatch (now : Z) (uuids : nat -> string) (req : option (list Tasks.BatchTaskReq))
| GetTasksID (taskID : string)
| PatchTasksPriority (now : Z) (taskID : string) (req : option Z)
| PostTasksCancel (now : Z) (taskID : string) (req : option CancelTaskReq)
| PostTasksResult (now : Z) (taskID : string) (req : option UploadResultReq)
| PostQueueReorder (now : Z) (req : option (list string))
| PostQueuePause
| PostQueueResume.

(** The argument of [RateLimitMiddleware] on the route. *)
Definition isBatch (ep : Endpoint) : bool :=
  match ep with
  | PostTasksBatch _ _ _ => true
  | _ => false
  end.

(** The handler of the route, for the principal that [GetUserID]
    returns. *)
Definition handler (ep : Endpoint) (userID : string) : Tasks.Call :=
  match ep with
  | PostTasks now uuid req => Tasks.CreateTaskCall now uuid userID req
  | PostTasksBatch now uuids req => Tasks.BatchCreateTasksCall now uuids userID req
  | GetTasksID taskID => Tasks.GetTaskCall taskID userID
  | PatchTasksPriority now taskID req => Tasks.UpdateTaskPriorityCall now taskID userID req
  | PostTasksCancel now taskID req => Tasks.CancelTaskCall now taskID userID req
  | PostTasksResult now taskID req => Tasks.UploadResultCall now taskID userID req
  | PostQueueReorder now req => Tasks.ReorderQueueCall now userID req
  | PostQueuePause => Tasks.PauseQueueCall
  | PostQueueResume => Tasks.ResumeQueueCall
  end.

(** The answer of the chain: that of the middleware that aborted it, or
    that of the handler. *)
Inductive Reply :=
| Aborted (status : Z) (code : string)
| Handled (r : option Response).

Definition with_redis (s : State) (c : Redis.Client) : State :=
  mkState (DB s) c (paused s) (workers s).

(** A request to a route of [/v1]; [arrival] is the clock that
    [checkRateLimit] reads.  The quota gate and the queue manager share
    [database.RedisClient]. *)
Definition v1 (cfg : RateLimit.RateLimitConfig) (users : gmap string Auth.User)
    (s : State) (arrival : Z) (authHeader : string) (ep : Endpoint) : Reply * State :=
  match Auth.AuthMiddleware users ∅ authHeader with
  | (RateLimit.Abort status code, _) => (Aborted status code, s)
  | (RateLimit.Next, c) =>
      let userID := Auth.GetUserID c in
      let tier := Auth.GetUserTier c in
      match RateLimit.RateLimitMiddleware cfg (isBatch ep) (RedisClient s) arrival
                                          userID tier with
      | (RateLimit.Abort status code, redis) => (Aborted status code, with_redis s redis)
      | (RateLimit.Next, redis) =>
          let '(r, s) := Tasks.serve (with_redis s redis) (handler ep userID) in
          (Handled r, s)
      end
  end.

(** What happens to the service: a request arrives, or a worker takes or
    finishes a task. *)
Inductive Event :=
| Request (arrival : Z) (authHeader : string) (ep : Endpoint)
| Pickup (now : Z) (worker : Z)
| Complete (now : Z) (worker : Z).

Definition step (cfg : RateLimit.RateLimitConfig) (users : gmap string Auth.User)
    (s : State) (ev : Event) : State :=
  match ev with
  | Request arrival authHeader ep => (v1 cfg users s arrival authHeader ep).2
  | Pickup now w => worker_pickup s now w
  | Complete now w => worker_complete s now w
  end.

Definition run (cfg : RateLimit.RateLimitConfig) (users : gmap string Auth.User)
    (s : State) (evs : list Event) : State :=
  foldl (step cfg users) s evs.

(** The rows of the tasks of [userID]. *)
Definition tasks_of (userID : string) (s : State) : gmap string Task :=
  filter (λ e : string * Task, UserID e.2 = userID) (DB s).

(** The request carries a key of the user [userID]. *)
Definition bears_key_of (users : gmap string Auth.User) (authHeader userID : string) : Prop :=
  ∃ id u, users !! id = Some u ∧ Auth.ID u = userID ∧
          authHeader = "Bearer " +:+ Auth.APIKey u.

End Routes.

(** ** The webhook sender: [internal/services] *)

Module Webhook.

(** [models.WebhookConfig]. *)
Record WebhookConfig := mkWebhookConfig {
  ID : Z;
  UserID : string;
  URL : string;
  Events : JSONB;
  Active : bool;
  CreatedAt : Z
}.

(** The loop of [isEventSubscribed]; [None] stands for the panic of the
    assertion [e.(string)] on an element that is not a string. *)
Fixpoint subscribed_loop (eventsList : list JSON) (eventType : string) : option bool :=
  match eventsList with
  | [] => Some false
  | JStr e :: rest =>
      if decide (e = eventType) then Some true else subscribed_loop rest eventType
  | _ :: _ => None
  end.

(** [isEventSubscribed]. *)
Definition isEventSubscribed (events : JSONB) (eventType : string) : option bool :=
  match events with
  | None => Some true
  | Some m =>
      match m !! "events" with
      | Some (JArr eventsList) => subscribed_loop eventsList eventType
      | _ => Some true
      end
  end.

(** What [ws.client.Do] returns: an error, or a response with a status
    code. *)
Inductive Reply :=
| Failed
| Status (code : Z).

(** What [sendWithRetry] does, in order: it sleeps, and it posts. *)
Inductive Action :=
| Sleep (d : Z)
| Post (attempt : Z).

(** [time.Duration(attempt*attempt) * time.Second]. *)
Definition backoff (attempt : Z) : Z := wrap64 (wrap64 (attempt * attempt) * second).

Definition delivered (r : Reply) : bool :=
  match r with
  | Failed => false
  | Status code => (200 <=? code) && (code <? 300)
  end.

(** The loop of [sendWithRetry] from [attempt] on, with [n] attempts
    left: [n] is [maxRetries + 1 - attempt].  [request_ok] tells whether
    [http.NewRequestWithContext] accepts the URL, [Do] is the reply of the
    receiver to each attempt.  The result is what the loop did and
    whether it returned on a delivery. *)
Fixpoint retry_loop (request_ok : bool) (Do : Z -> Reply) (n : nat) (attempt : Z)
    : list Action * bool :=
  match n with
  | O => ([], false)
  | S n =>
      let sleep := if 0 <? attempt then [Sleep (backoff attempt)] else [] in
      if request_ok
      then
        if delivered (Do attempt) then (sleep ++ [Post attempt], true)
        else
          let '(rest, ok) := retry_loop request_ok Do n (attempt + 1) in
          (sleep ++ Post attempt :: rest, ok)
      else
        let '(rest, ok) := retry_loop request_ok Do n (attempt + 1) in
        (sleep ++ rest, ok)
  end.

(** [sendWithRetry]; [marshal_ok] tells whether [json.Marshal] accepts
    the event.  [maxRetries] is below the greatest [int], so that the
    counter of the loop does not wrap. *)
Definition sendWithRetry (marshal_ok request_ok : bool) (Do : Z -> Reply) (maxRetries : Z)
    : list Action * bool :=
  if marshal_ok then retry_loop request_ok Do (Z.to_nat (maxRetries + 1)) 0
  else ([], false).

(** The loop of [SendWebhook] over the rows that [Find] returned: the
    URLs that a sender is started for, in order, and whether the loop
    ended without a panic. *)
Fixpoint send_loop (webhooks : list WebhookConfig) (event : string) : list string * bool :=
  match webhooks with
  | [] => ([], true)
  | webhook :: rest =>
      match isEventSubscribed (Events webhook) event with
      | None => ([], false)
      | Some false => send_loop rest event
      | Some true =>
          let '(urls, ok) := send_loop rest event in (URL webhook :: urls, ok)
      end
  end.

(** [SendWebhook]; [table] holds the rows of [webhook_configs] in the
    order in which [Find] returns them. *)
Definition SendWebhook (table : list WebhookConfig) (event userID : string)
    : list string * bool :=
  send_loop (filter (λ w, UserID w = userID ∧ Active w = true) table) event.

(** The time that a run of [sendWithRetry] sleeps: [time.Sleep] returns
    at once on a duration that is not positive. *)
Definition slept (trace : list Action) : Z :=
  foldr (λ a acc, match a with Sleep d => Z.max 0 d + acc | Post _ => acc end) 0 trace.

Definition posts (trace : list Action) : list Z :=
  omap (λ a, match a with Post j => Some j | Sleep _ => None end) trace.

End Webhook.

(** * Part II: properties *)

(** ** Machine integers *)

Lemma wrap64_id z : in_int64 z -> wrap64 z = z.
Proof.
  unfold in_int64, wrap64, min_int64, max_int64. intros H.
  rewrite Z.mod_small; lia.
Qed.

Lemma wrap64_succ z : in_int64 z -> z < max_int64 -> wrap64 (z + 1) = z + 1.
Proof.
  unfold in_int64, min_int64, max_int64. intros H1 H2.
  apply wrap64_id. unfold in_int64, min_int64, max_int64. lia.
Qed.

Lemma Unix_mono a b : a <= b -> Unix a <= Unix b.
Proof. intros H. unfold Unix, second. by apply Z.div_le_mono. Qed.

Lemma Unix_add_seconds t k : Unix (t + k * second) = Unix t + k.
Proof. unfold Unix, second. by rewrite Z.div_add. Qed.

(** ** The Redis model *)

Section RedisFacts.
Import Redis.

Lemma zget_zput c key z : zget (zput c key z) key = z.
Proof.
  unfold zget, zput. case_decide; simpl.
  - rewrite lookup_delete_eq. by subst.
  - by rewrite lookup_insert_eq.
Qed.

Lemma zget_zput_ne c key key' z : key ≠ key' -> zget (zput c key z) key' = zget c key'.
Proof.
  intros Hne. unfold zget, zput. case_decide; simpl.
  - by rewrite lookup_delete_ne.
  - by rewrite lookup_insert_ne.
Qed.

Lemma sget_zput c key z key' : sget (zput c key z) key' = sget c key'.
Proof. unfold sget, zput. by case_decide. Qed.

Lemma zget_sput c key s key' : zget (sput c key s) key' = zget c key'.
Proof. unfold zget, sput. by case_decide. Qed.

Lemma sget_sput c key s : sget (sput c key s) key = s.
Proof.
  unfold sget, sput. case_decide; simpl.
  - rewrite lookup_delete_eq. by subst.
  - by rewrite lookup_insert_eq.
Qed.

Lemma deadlines_zput c key z key' d :
  deadlines (zput c key z) !! key' = Some d -> deadlines c !! key' = Some d.
Proof.
  unfold zput. case_decide; simpl; [|done].
  intros Hd. apply lookup_delete_Some in Hd. tauto.
Qed.

Lemma zsets_zput_nonempty c key z : z ≠ ∅ -> zsets (zput c key z) !! key = Some z.
Proof. intros H. unfold zput. rewrite decide_False by done. simpl. apply lookup_insert_eq. Qed.

Lemma zget_elapse c now key :
  zget (elapse c now) key = if expired c now key then ∅ else zget c key.
Proof.
  unfold zget, elapse. simpl.
  destruct (zsets c !! key) as [z|] eqn:Hz.
  - destruct (expired c now key) eqn:He.
    + rewrite map_lookup_filter_None_2; [done|]. right. intros z' Hz'. simpl. congruence.
    + erewrite map_lookup_filter_Some_2; [done|done|]. done.
  - rewrite map_lookup_filter_None_2; [|by left]. by destruct (expired c now key).
Qed.

Lemma deadlines_elapse c now key d :
  deadlines (elapse c now) !! key = Some d -> deadlines c !! key = Some d ∧ now < d.
Proof. unfold elapse. simpl. intros H. by apply map_lookup_filter_Some in H. Qed.

Lemma zget_Expire c key key' now d : zget (Expire c key now d) key' = zget c key'.
Proof. unfold Expire. by case_decide. Qed.

Lemma deadlines_Expire c key now d :
  is_Some (zsets c !! key) -> deadlines (Expire c key now d) !! key = Some (now + d).
Proof.
  intros H. unfold Expire. rewrite decide_True by by left. simpl. apply lookup_insert_eq.
Qed.

Lemma zmin_elem z e : zmin z = Some e -> z !! e.1 = Some e.2.
Proof.
  unfold zmin. intros H.
  assert (e ∈ map_to_list z) as Hin.
  { revert e H. induction (map_to_list z) as [|a l IH]; simpl; [done|].
    intros e. destruct (foldr _ None l) as [b|] eqn:Hb.
    - destruct (zless a b); intros [= <-].
      + left.
      + right. by apply IH.
    - intros [= <-]. left. }
  destruct e as [m s]. by apply elem_of_map_to_list in Hin.
Qed.

Lemma zmin_None z : zmin z = None -> z = ∅.
Proof.
  unfold zmin. intros H. apply map_to_list_empty_iff.
  destruct (map_to_list z) as [|a l]; [done|]. simpl in H.
  destruct (foldr _ None l) as [p|]; [destruct (zless a p)|]; discriminate.
Qed.

(** A duplicate-free list of members of a sorted set is no longer than the
    set is large. *)
Lemma members_le_size (z : gmap string Z) (l : list string) :
  NoDup l -> (∀ m, m ∈ l -> is_Some (z !! m)) -> (length l <= size z)%nat.
Proof.
  intros Hnd Hin.
  rewrite <- (size_list_to_set (C := gset string) l Hnd), <- size_dom.
  apply subseteq_size. intros m Hm. apply elem_of_list_to_set in Hm.
  apply elem_of_dom. by apply Hin.
Qed.

End RedisFacts.

(** ** The quota gate *)

Section RateLimitFacts.
Import RateLimit.

Variable cfg : RateLimitConfig.

(** The store after the expiry step of [checkRateLimit] on [key]. *)
Let swept (c : Redis.Client) (now : Z) (key : string) : Redis.Client :=
  Redis.ZRemRangeByScore (Redis.elapse c now) key 0 (Unix (now - window)).

Lemma middleware_unfold b c now u tr :
  RateLimitMiddleware cfg b c now u tr =
  if applicableLimit cfg b tr <=? Redis.ZCard (swept c now (rateLimitKey u b)) (rateLimitKey u b)
  then (Abort 429 "RATE_LIMIT_EXCEEDED", swept c now (rateLimitKey u b))
  else (Next, Redis.Expire
                (Redis.ZAdd (swept c now (rateLimitKey u b)) (rateLimitKey u b) (Unix now)
                            (pretty (UnixNano now)))
                (rateLimitKey u b) now (window + 60 * second)).
Proof.
  unfold RateLimitMiddleware, checkRateLimit.
  fold (swept c now (rateLimitKey u b)).
  by destruct (applicableLimit cfg b tr <=? _).
Qed.

Lemma Unix_window now : Unix (now - window) = Unix now - 60.
Proof.
  unfold window. replace (now - 60 * second) with (now + (-60) * second) by lia.
  rewrite Unix_add_seconds. lia.
Qed.

(** An entry that is younger than the window survives the expiry step,
    whichever key the step works on. *)
Lemma swept_lookup c now key key' m s :
  Redis.expired c now key = false ->
  Redis.zget c key !! m = Some s ->
  Unix now - 60 < s ->
  Redis.zget (swept c now key') key !! m = Some s.
Proof.
  intros Hexp Hm Hs. unfold swept, Redis.ZRemRangeByScore.
  destruct (decide (key' = key)) as [->|Hne].
  - rewrite zget_zput, zget_elapse, Hexp.
    apply map_lookup_filter_Some_2; [done|]. simpl. rewrite Unix_window. lia.
  - rewrite zget_zput_ne by done. by rewrite zget_elapse, Hexp.
Qed.

Lemma swept_deadline c now key key' d :
  Redis.deadlines (swept c now key') !! key = Some d -> Redis.deadlines c !! key = Some d.
Proof.
  unfold swept, Redis.ZRemRangeByScore. intros Hd.
  apply deadlines_zput in Hd. by apply deadlines_elapse in Hd as [? _].
Qed.

Lemma served_recent key limit acc T c now key' t :
  served key limit acc T c -> T < now -> t ∈ acc -> Unix now - 60 < Unix t ->
  Redis.zget (swept c now key') key !! pretty t = Some (Unix t).
Proof.
  intros (Hnd & Hle & Hin & Hdl & Hcnt) HT Ht Hrec.
  apply swept_lookup; [| |done].
  - unfold Redis.expired. destruct (Redis.deadlines c !! key) as [d|] eqn:Hd; [|done].
    apply Z.leb_gt. specialize (Hdl d t eq_refl Ht).
    destruct (Z.le_gt_cases d now) as [Hdn|]; [|done]. exfalso.
    assert (Unix (t + 120 * second) <= Unix now) as Hu.
    { apply Unix_mono. unfold window in Hdl. lia. }
    rewrite Unix_add_seconds in Hu. lia.
  - apply Hin; [done|]. pose proof (Unix_mono T now ltac:(lia)). lia.
Qed.

(** A request that is counted under another key. *)
Lemma served_other key limit acc T c r :
  served key limit acc T c -> T < arrival r -> key_of r ≠ key ->
  served key limit acc (arrival r)
         (RateLimitMiddleware cfg (isBatch r) c (arrival r) (userID r) (tier r)).2.
Proof.
  intros Hinv HT Hkey.
  pose proof (λ t, served_recent key limit acc T c (arrival r) (key_of r) t Hinv HT) as Hrec.
  destruct Hinv as (Hnd & Hle & Hin & Hdl & Hcnt).
  rewrite middleware_unfold. fold (key_of r).
  destruct (_ <=? _); cbn [snd].
  - split; [done|]. split; [|split; [|split; [|done]]].
    + intros t Ht. specialize (Hle t Ht). lia.
    + intros t Ht Hr. by apply Hrec.
    + intros d t Hd Ht. apply swept_deadline in Hd. by eapply Hdl.
  - split; [done|]. split; [|split; [|split; [|done]]].
    + intros t Ht. specialize (Hle t Ht). lia.
    + intros t Ht Hr. rewrite zget_Expire. unfold Redis.ZAdd.
      rewrite zget_zput_ne by done. by apply Hrec.
    + intros d t Hd Ht. unfold Redis.Expire in Hd.
      case_decide; simpl in Hd.
      * rewrite lookup_insert_ne in Hd by done.
        unfold Redis.ZAdd in Hd. apply deadlines_zput, swept_deadline in Hd. by eapply Hdl.
      * unfold Redis.ZAdd in Hd. apply deadlines_zput, swept_deadline in Hd. by eapply Hdl.
Qed.

(** A request that is counted under the key. *)
Lemma served_same key limit acc T c r :
  served key limit acc T c -> T < arrival r -> key_of r = key -> limit_of cfg r = limit ->
  match RateLimitMiddleware cfg (isBatch r) c (arrival r) (userID r) (tier r) with
  | (Next, c') => served key limit (arrival r :: acc) (arrival r) c'
  | (Abort _ _, c') => served key limit acc (arrival r) c'
  end.
Proof.
  intros Hinv HT Hkey Hlimit.
  pose proof (λ t, served_recent key limit acc T c (arrival r) key t Hinv HT) as Hrec.
  destruct Hinv as (Hnd & Hle & Hin & Hdl & Hcnt).
  rewrite middleware_unfold. fold (key_of r). fold (limit_of cfg r).
  rewrite Hkey, Hlimit.
  destruct (limit <=? Redis.ZCard (swept c (arrival r) key) key) eqn:Hlim.
  - split; [done|]. split; [|split; [|split; [|done]]].
    + intros t Ht. specialize (Hle t Ht). lia.
    + intros t Ht Hr. by apply Hrec.
    + intros d t Hd Ht. apply swept_deadline in Hd. by eapply Hdl.
  - apply Z.leb_gt in Hlim.
    assert (arrival r ∉ acc) as Hfresh.
    { intros Hn. specialize (Hle _ Hn). lia. }
    set (z1 := Redis.zget (swept c (arrival r) key) key) in *.
    split; [by constructor|]. split; [|split; [|split]].
    + intros t [->|Ht]%elem_of_cons; [lia|]. specialize (Hle t Ht). lia.
    + intros t Ht Hr. rewrite zget_Expire. unfold Redis.ZAdd. rewrite zget_zput.
      fold z1. unfold UnixNano.
      apply elem_of_cons in Ht as [->|Ht].
      * apply lookup_insert_eq.
      * rewrite lookup_insert_ne; [by apply Hrec|].
        intros Heq. apply (inj pretty) in Heq. by subst.
    + intros d t Hd Ht.
      rewrite deadlines_Expire in Hd.
      2:{ unfold Redis.ZAdd. rewrite zsets_zput_nonempty; [done|].
          apply insert_non_empty. }
      injection Hd as <-.
      assert (t <= arrival r).
      { apply elem_of_cons in Ht as [->|Ht]; [lia|]. specialize (Hle t Ht). lia. }
      unfold window. lia.
    + intros s. specialize (Hcnt s). unfold in_seconds in *. rewrite filter_cons.
      case_decide as Hw; [|done]. simpl.
      assert (length (in_seconds s acc) <= size z1)%nat as Hsz.
      { rewrite <- (length_fmap pretty). apply members_le_size.
        - apply (NoDup_fmap_2 _). by apply NoDup_filter.
        - intros m (t & -> & Ht)%list_elem_of_fmap.
          apply list_elem_of_filter in Ht as [Hs Ht].
          exists (Unix t). apply Hrec; [done|lia]. }
      unfold in_seconds in Hsz. unfold Redis.ZCard in Hlim. fold z1 in Hlim. lia.
Qed.

Lemma served_step key limit accepted T c r :
  served key limit (accepted_at key accepted) T c -> T < arrival r ->
  (key_of r = key -> limit_of cfg r = limit) ->
  served key limit (accepted_at key (serve1 cfg (accepted, c) r).1) (arrival r)
         (serve1 cfg (accepted, c) r).2.
Proof.
  intros Hinv HT Hlimit. unfold serve1. cbn [fst snd].
  destruct (decide (key_of r = key)) as [Hkey|Hkey].
  - pose proof (served_same key limit _ T c r Hinv HT Hkey (Hlimit Hkey)) as Hstep.
    destruct (RateLimitMiddleware _ _ _ _ _ _) as [[|code msg] c']; cbn [fst snd].
    + unfold accepted_at. rewrite filter_cons_True by done. by rewrite fmap_cons.
    + done.
  - pose proof (served_other key limit _ T c r Hinv HT Hkey) as Hstep.
    destruct (RateLimitMiddleware _ _ _ _ _ _) as [[|code msg] c']; cbn [fst snd] in *.
    + unfold accepted_at. by rewrite filter_cons_False.
    + done.
Qed.

Lemma served_run key limit reqs accepted T c :
  served key limit (accepted_at key accepted) T c ->
  Forall (λ r, T < arrival r) reqs ->
  StronglySorted (λ a b, arrival a < arrival b) reqs ->
  (∀ r, r ∈ reqs -> key_of r = key -> limit_of cfg r = limit) ->
  ∃ T', served key limit (accepted_at key (foldl (serve1 cfg) (accepted, c) reqs).1) T'
                         (foldl (serve1 cfg) (accepted, c) reqs).2.
Proof.
  revert accepted T c.
  induction reqs as [|r reqs IH]; intros accepted T c Hinv Hgt Hsorted Hlimit.
  - by exists T.
  - simpl. apply Forall_cons in Hgt as [Hnow Hgt].
    apply StronglySorted_inv in Hsorted as [Hsorted Hnext].
    pose proof (served_step key limit accepted T c r Hinv Hnow) as Hstep.
    destruct (serve1 cfg (accepted, c) r) as [accepted' c'] eqn:Hs.
    apply (IH accepted' (arrival r) c'); [|done|done|].
    + apply Hstep. intros Hk. apply Hlimit; [left|done].
    + intros r' Hr'. apply Hlimit. by right.
Qed.

Lemma served_init key limit c T : 0 <= limit -> served key limit [] T c.
Proof.
  intros Hl. split; [constructor|]. repeat split.
  - by intros t Ht%elem_of_nil.
  - by intros t Ht%elem_of_nil.
  - by intros d t _ Ht%elem_of_nil.
  - intros s. simpl. lia.
Qed.

Lemma accepted_in_seconds key limit c reqs s :
  0 <= limit ->
  StronglySorted (λ a b, arrival a < arrival b) reqs ->
  (∀ r, r ∈ reqs -> key_of r = key -> limit_of cfg r = limit) ->
  Z.of_nat (length (in_seconds s (accepted_at key (serve cfg c reqs).1))) <= limit.
Proof.
  intros Hl Hsorted Hlimit. unfold serve.
  destruct reqs as [|r0 reqs]; [simpl; lia|].
  destruct (served_run key limit (r0 :: reqs) [] (arrival r0 - 1) c) as (T' & Hinv);
    [by apply served_init| |done|done|].
  - constructor; [lia|]. apply StronglySorted_inv in Hsorted as [_ Hall].
    eapply Forall_impl; [exact Hall|]. simpl. intros; lia.
  - by destruct Hinv as (_ & _ & _ & _ & Hcnt).
Qed.

Lemma rejected_iff b c now u tr :
  (RateLimitMiddleware cfg b c now u tr).1 = Abort 429 "RATE_LIMIT_EXCEEDED" <->
  applicableLimit cfg b tr <=
    Redis.ZCard (Redis.ZRemRangeByScore (Redis.elapse c now) (rateLimitKey u b) 0
                                        (Unix now - 60)) (rateLimitKey u b).
Proof.
  rewrite middleware_unfold. unfold swept. rewrite Unix_window.
  destruct (_ <=? _) eqn:Hlim; simpl.
  - apply Z.leb_le in Hlim. done.
  - apply Z.leb_gt in Hlim. split; [discriminate|lia].
Qed.

Lemma accepted_recorded b c now u tr :
  (RateLimitMiddleware cfg b c now u tr).1 = Next ->
  Redis.zget (RateLimitMiddleware cfg b c now u tr).2 (rateLimitKey u b)
    !! pretty (UnixNano now) = Some (Unix now).
Proof.
  rewrite middleware_unfold.
  destruct (_ <=? _) eqn:Hlim; simpl; [discriminate|]. intros _.
  rewrite zget_Expire. unfold Redis.ZAdd. rewrite zget_zput. apply lookup_insert_eq.
Qed.

End RateLimitFacts.

(** C4, as the code has it.  The service receives requests of any
    principals with increasing nanosecond stamps.  (a) For every Redis key
    (a principal and a class) whose requests all carry one limit, not
    negative: the requests accepted under the key and stamped within any
    60 consecutive whole Unix seconds number at most that limit.  (b) A
    request is answered 429 with code RATE_LIMIT_EXCEEDED exactly when,
    once the entries of its key whose second is at most [now - 60] are
    removed, the count that remains is at least the applicable limit (the
    batch limit on a batch endpoint, else the premium limit for tier
    premium, else the standard limit).  (c) An accepted request records
    its own stamp. *)
Theorem rate_limit_whole_second_window cfg :
  (∀ c reqs key limit s,
     0 <= limit ->
     StronglySorted (λ a b, RateLimit.arrival a < RateLimit.arrival b) reqs ->
     (∀ r, r ∈ reqs -> RateLimit.key_of r = key -> RateLimit.limit_of cfg r = limit) ->
     Z.of_nat (length (RateLimit.in_seconds s
        (RateLimit.accepted_at key (RateLimit.serve cfg c reqs).1))) <= limit) ∧
  (∀ isBatch c now userID tier,
     (RateLimit.RateLimitMiddleware cfg isBatch c now userID tier).1
       = RateLimit.Abort 429 "RATE_LIMIT_EXCEEDED" <->
     RateLimit.applicableLimit cfg isBatch tier <=
       Redis.ZCard
         (Redis.ZRemRangeByScore (Redis.elapse c now)
            (RateLimit.rateLimitKey userID isBatch) 0 (Unix now - 60))
         (RateLimit.rateLimitKey userID isBatch)) ∧
  (∀ isBatch c now userID tier,
     (RateLimit.RateLimitMiddleware cfg isBatch c now userID tier).1 = RateLimit.Next ->
     Redis.zget (RateLimit.RateLimitMiddleware cfg isBatch c now userID tier).2
                (RateLimit.rateLimitKey userID isBatch)
       !! pretty (UnixNano now) = Some (Unix now)).
Proof.
  split; [|split].
  - intros c reqs key limit s. apply accepted_in_seconds.
  - intros isBatch c now userID tier. apply rejected_iff.
  - intros isBatch c now userID tier. apply accepted_recorded.
Qed.

Lemma rate_limit_whole_second_window_witness :
  let cfg := RateLimit.mkRateLimitConfig 1 1000 10 in
  let reqs := [RateLimit.mkRequest "u1" "standard" false 900000000;
               RateLimit.mkRequest "u2" "premium" true 30000000000;
               RateLimit.mkRequest "u1" "standard" false 60000000000] in
  Z.of_nat (length (RateLimit.in_seconds 1
     (RateLimit.accepted_at "ratelimit:u1" (RateLimit.serve cfg Redis.empty reqs).1))) <= 1.
Proof.
  intros cfg reqs.
  apply (proj1 (rate_limit_whole_second_window cfg) Redis.empty reqs "ratelimit:u1" 1 1).
  - vm_compute. discriminate.
  - repeat constructor.
  - intros r Hr Hkey.
    apply elem_of_cons in Hr as [->|Hr]; [reflexivity|].
    apply elem_of_cons in Hr as [->|Hr]; [discriminate Hkey|].
    apply elem_of_cons in Hr as [->|Hr]; [reflexivity|].
    exfalso. eapply not_elem_of_nil, Hr.
Defined.

(** C4 as stated fails: with limit 1, a request of a principal at 0.9 s
    and one at 60.0 s are both accepted although they are 59.1 s apart, so
    the 60 s window that starts at 0.9 s holds two accepted requests. *)
Lemma rate_limit_real_time_window_exceeded :
  let cfg := RateLimit.mkRateLimitConfig 1 1000 10 in
  let reqs := [RateLimit.mkRequest "u1" "standard" false 900000000;
               RateLimit.mkRequest "u1" "standard" false 60000000000] in
  let accepted := RateLimit.accepted_at "ratelimit:u1" (RateLimit.serve cfg Redis.empty reqs).1 in
  ¬ (Z.of_nat (length (RateLimit.in_window 900000000 accepted))
       <= RateLimit.applicableLimit cfg false "standard").
Proof. vm_compute. intros H. by apply H. Qed.

(** ** The priority-queue index *)

Section QueueFacts.
Import Queue.

Lemma string_ltb_irrefl s : String.ltb s s = false.
Proof.
  unfold String.ltb. pose proof (String.compare_antisym s s) as H.
  by destruct (String.compare s s).
Qed.

Lemma zless_irrefl e : Redis.zless e e = false.
Proof.
  unfold Redis.zless. rewrite Z.ltb_irrefl, Z.eqb_refl, string_ltb_irrefl. done.
Qed.

(** The number of entries before a bound grows by one with each new entry
    that is before the bound. *)
Lemma before_insert_fresh (z : gmap string Z) (bound : string * Z) m s :
  z !! m = None ->
  size (filter (λ e : string * Z, Redis.zless e bound = true) (<[m := s]> z)) =
  ((if Redis.zless (m, s) bound then 1 else 0) +
   size (filter (λ e : string * Z, Redis.zless e bound = true) z))%nat.
Proof.
  intros Hm. destruct (Redis.zless (m, s) bound) eqn:Hless.
  - rewrite map_filter_insert_True by done.
    rewrite map_size_insert_None; [done|].
    apply map_lookup_filter_None_2. by left.
  - rewrite map_filter_insert_False by (simpl; congruence).
    by rewrite delete_id.
Qed.

Lemma zget_EnqueueTask c taskID priority :
  Redis.zget (EnqueueTask c taskID priority) TaskQueueKey =
  <[taskID := - priority]> (Redis.zget c TaskQueueKey).
Proof. unfold EnqueueTask, Redis.SAdd, Redis.ZAdd. by rewrite zget_sput, zget_zput. Qed.

Lemma position_absent c taskID :
  Redis.zget c TaskQueueKey !! taskID = None -> GetQueuePosition c taskID = -1.
Proof. intros H. unfold GetQueuePosition, Redis.ZRank. by rewrite H. Qed.

Lemma position_present c taskID s :
  Redis.zget c TaskQueueKey !! taskID = Some s ->
  ∃ rank, Redis.ZRank c TaskQueueKey taskID = Some rank ∧
          GetQueuePosition c taskID = rank + 1 ∧
          0 <= rank < GetQueueLength c.
Proof.
  intros H. unfold GetQueuePosition, GetQueueLength, Redis.ZRank, Redis.ZCard. rewrite H.
  eexists. split; [done|]. split; [done|]. split; [lia|].
  apply inj_lt. apply map_subset_size. split; [apply map_filter_subseteq|].
  intros Hsub. rewrite map_subseteq_spec in Hsub. specialize (Hsub taskID s H).
  apply map_lookup_filter_Some in Hsub as [_ Hless]. simpl in Hless.
  by rewrite zless_irrefl in Hless.
Qed.

Lemma position_scenario c a b d :
  Redis.zget c TaskQueueKey = ∅ -> a ≠ b -> a ≠ d -> b ≠ d ->
  let c' := EnqueueTask (EnqueueTask (EnqueueTask c a (float64 1)) b (float64 5))
                        d (float64 3) in
  GetQueuePosition c' b = 1 ∧ GetQueuePosition c' d = 2 ∧ GetQueuePosition c' a = 3.
Proof.
  intros Hempty Hab Had Hbd c'.
  assert (Redis.zget c' TaskQueueKey = <[d := -3]> (<[b := -5]> (<[a := -1]> ∅))) as Hz.
  { unfold c', float64. by rewrite !zget_EnqueueTask, Hempty. }
  unfold GetQueuePosition, Redis.ZRank. rewrite Hz.
  assert ((<[b := -5]> (<[a := -1]> (∅ : gmap string Z))) !! d = None) as Hd.
  { by rewrite !lookup_insert_ne, lookup_empty. }
  assert ((<[a := -1]> (∅ : gmap string Z)) !! b = None) as Hb.
  { by rewrite lookup_insert_ne, lookup_empty. }
  assert ((∅ : gmap string Z) !! a = None) as Ha by apply lookup_empty.
  repeat split.
  - rewrite lookup_insert_ne, lookup_insert_eq by done.
    rewrite !before_insert_fresh, map_filter_empty by done.
    unfold Redis.zless. simpl. by rewrite string_ltb_irrefl.
  - rewrite lookup_insert_eq.
    rewrite !before_insert_fresh, map_filter_empty by done.
    unfold Redis.zless. simpl. by rewrite string_ltb_irrefl.
  - rewrite !lookup_insert_ne, lookup_insert_eq by done.
    rewrite !before_insert_fresh, map_filter_empty by done.
    unfold Redis.zless. simpl. by rewrite string_ltb_irrefl.
Qed.

End QueueFacts.

(** C5, as the code has it.  [GetQueuePosition] answers -1 for a task that
    is not in the index and, for a task in the index, its rank plus one:
    positions count from 1.  Three tasks enqueued with priorities 1, 5 and
    3 into an empty index are reported at positions 3, 1 and 2. *)
Theorem queue_position_counts_from_one :
  (∀ c taskID,
     Redis.zget c Queue.TaskQueueKey !! taskID = None ->
     Queue.GetQueuePosition c taskID = -1) ∧
  (∀ c taskID s,
     Redis.zget c Queue.TaskQueueKey !! taskID = Some s ->
     ∃ rank, Redis.ZRank c Queue.TaskQueueKey taskID = Some rank ∧
             Queue.GetQueuePosition c taskID = rank + 1 ∧
             0 <= rank < Queue.GetQueueLength c) ∧
  (∀ c a b d,
     Redis.zget c Queue.TaskQueueKey = ∅ -> a ≠ b -> a ≠ d -> b ≠ d ->
     let c' := Queue.EnqueueTask
                 (Queue.EnqueueTask (Queue.EnqueueTask c a (Queue.float64 1))
                                    b (Queue.float64 5)) d (Queue.float64 3) in
     Queue.GetQueuePosition c' b = 1 ∧ Queue.GetQueuePosition c' d = 2 ∧
     Queue.GetQueuePosition c' a = 3).
Proof.
  split; [|split].
  - apply position_absent.
  - apply position_present.
  - apply position_scenario.
Qed.

Lemma queue_position_counts_from_one_witness :
  let c' := Queue.EnqueueTask
              (Queue.EnqueueTask (Queue.EnqueueTask Redis.empty "task_a" 1) "task_b" 5)
              "task_c" 3 in
  Queue.GetQueuePosition c' "task_b" = 1 ∧ Queue.GetQueuePosition c' "task_c" = 2 ∧
  Queue.GetQueuePosition c' "task_a" = 3.
Proof.
  apply (proj2 (proj2 queue_position_counts_from_one) Redis.empty "task_a" "task_b" "task_c").
  - reflexivity.
  - discriminate.
  - discriminate.
  - discriminate.
Defined.

(** C5 as stated fails: the only task of the index is reported at position
    1, not at the 0-indexed position 0. *)
Lemma queue_position_not_zero_indexed :
  let c := Queue.EnqueueTask Redis.empty "task_a" 1 in
  Redis.ZRank c Queue.TaskQueueKey "task_a" = Some 0 ∧
  Queue.GetQueuePosition c "task_a" ≠ 0.
Proof. vm_compute. split; [reflexivity|discriminate]. Qed.

(** ** The V1 task API and the workers *)

Section V1Facts.
Import V1.

Lemma Save_accepted db now task :
  accepts task = true -> Save db now task = <[ID task := set_UpdatedAt task now]> db.
Proof. unfold Save. by intros ->. Qed.

Lemma Save_refused db now task : accepts task = false -> Save db now task = db.
Proof. unfold Save. by intros ->. Qed.

Lemma lookup_Save db now task id :
  accepts task = true ->
  Save db now task !! id =
  if decide (ID task = id) then Some (set_UpdatedAt task now) else db !! id.
Proof. intros Hok. rewrite Save_accepted by done. simpl. by rewrite lookup_insert. Qed.

(** The values that the table looks at are those of [id], [name],
    [config], [metadata], [result], [error_message] and [user_id]. *)
Lemma accepts_set_Status t st : accepts (set_Status t st) = accepts t.
Proof. done. Qed.

Lemma accepts_set_StartedAt t a : accepts (set_StartedAt t a) = accepts t.
Proof. done. Qed.

Lemma accepts_set_CompletedAt t a : accepts (set_CompletedAt t a) = accepts t.
Proof. done. Qed.

Lemma accepts_set_UpdatedAt t a : accepts (set_UpdatedAt t a) = accepts t.
Proof. done. Qed.

Lemma First_Some db taskID userID t :
  First db taskID userID = Some t -> db !! taskID = Some t ∧ UserID t = userID.
Proof.
  unfold First. destruct (db !! taskID) as [t'|]; [|done].
  case_decide; [|done]. by intros [= <-].
Qed.

Lemma zget_RemoveTask c taskID :
  Redis.zget (Queue.RemoveTask c taskID) Queue.TaskQueueKey =
  delete taskID (Redis.zget c Queue.TaskQueueKey).
Proof. unfold Queue.RemoveTask, Redis.SRem, Redis.ZRem. by rewrite zget_sput, zget_zput. Qed.

Lemma BZPopMin_Some c key m sc c' :
  Redis.BZPopMin c key = (Some (m, sc), c') ->
  Redis.zget c key !! m = Some sc ∧ Redis.zget c' key = delete m (Redis.zget c key).
Proof.
  unfold Redis.BZPopMin. destruct (Redis.zmin (Redis.zget c key)) as [e|] eqn:Hmin; [|done].
  intros [= -> <-]. split; [by apply zmin_elem in Hmin|]. by rewrite zget_zput.
Qed.

Lemma BZPopMin_None c key c' : Redis.BZPopMin c key = (None, c') -> c' = c.
Proof.
  unfold Redis.BZPopMin. destruct (Redis.zmin (Redis.zget c key)); [done|]. by intros [= <-].
Qed.

(** A consistent state stays consistent when the row of one task is
    written with status [Status task], provided the index and the workers
    of the new state agree with that status. *)
Lemma consistent_write s now task c p ws :
  consistent s ->
  accepts task = true ->
  is_Some (DB s !! ID task) ->
  (Status task = TaskStatusQueued ∨ Status task = TaskStatusRunning ∨
   Status task = TaskStatusCompleted ∨ Status task = TaskStatusCancelled) ->
  (∀ m sc, Redis.zget c Queue.TaskQueueKey !! m = Some sc ->
     Redis.zget (RedisClient s) Queue.TaskQueueKey !! m = Some sc ∧
     (m = ID task -> Status task = TaskStatusQueued ∨ Status task = TaskStatusCompleted)) ->
  (∀ w tk, ws !! w = Some tk ->
     if decide (ID tk = ID task)
     then Status task = TaskStatusRunning ∨ Status task = TaskStatusCancelled ∨
          Status task = TaskStatusCompleted
     else workers s !! w = Some tk) ->
  consistent (mkState (Save (DB s) now task) c p ws).
Proof.
  intros (Hrows & Hindex & Hheld) Hok Hrow Hst Hc Hws. split; [|split]; simpl.
  - intros id t Hl. rewrite lookup_Save in Hl by done. case_decide; [|by eapply Hrows].
    injection Hl as <-. by simpl.
  - intros m sc Hm. apply Hc in Hm as [Hm Hnew]. rewrite lookup_Save by done.
    case_decide as Hid; [|by eapply Hindex].
    eexists; split; [done|]. simpl. by apply Hnew.
  - intros w tk Hw. apply Hws in Hw. rewrite lookup_Save by done.
    case_decide as Hid.
    + rewrite decide_True by done. eexists; split; [done|]. done.
    + rewrite decide_False by done. by eapply Hheld.
Qed.

(** A consistent state stays consistent when the index and the workers
    lose entries. *)
Lemma consistent_shrink s c p ws :
  consistent s ->
  (∀ m sc, Redis.zget c Queue.TaskQueueKey !! m = Some sc ->
     Redis.zget (RedisClient s) Queue.TaskQueueKey !! m = Some sc) ->
  (∀ w tk, ws !! w = Some tk -> workers s !! w = Some tk) ->
  consistent (mkState (DB s) c p ws).
Proof.
  intros (Hrows & Hindex & Hheld) Hc Hws. split; [|split]; simpl; [done| |].
  - intros m sc Hm. by eapply Hindex, Hc.
  - intros w tk Hw. by eapply Hheld, Hws.
Qed.

Lemma consistent_init : consistent init.
Proof.
  unfold init. split; [|split]; simpl.
  - intros id t. by rewrite lookup_empty.
  - intros m sc. unfold Redis.zget, Redis.empty. simpl.
    rewrite lookup_empty. simpl. by rewrite lookup_empty.
  - intros w tk. by rewrite lookup_empty.
Qed.

Lemma consistent_CreateTask s now uuid userID req :
  consistent s -> consistent (CreateTask s now uuid userID req).2.
Proof.
  intros Hs. destruct req as [req|]; [|done]. unfold CreateTask, Create. simpl.
  set (id := "task_" +:+ String.substring 0 8 uuid).
  destruct (accepts _); [|done].
  destruct (DB s !! id) eqn:Hfresh; [done|]. simpl.
  destruct Hs as (Hrows & Hindex & Hheld). split; [|split]; simpl.
  - intros id' t Hl. rewrite lookup_insert in Hl.
    case_decide; [|by eapply Hrows]. injection Hl as <-. simpl. split; [done|by left].
  - intros m sc. rewrite zget_EnqueueTask. intros Hm.
    destruct (decide (id = m)) as [<-|Hne].
    + rewrite lookup_insert_eq. eexists; split; [done|by left].
    + rewrite lookup_insert_ne in Hm by done. rewrite lookup_insert_ne by done.
      by eapply Hindex.
  - intros w tk Hw. destruct (Hheld w tk Hw) as (t & Ht & Hst).
    exists t. split; [|done]. rewrite lookup_insert_ne; [done|]. congruence.
Qed.

Lemma consistent_pickup s now w : consistent s -> consistent (worker_pickup s now w).
Proof.
  intros Hs. unfold worker_pickup.
  destruct (workers s !! w) eqn:Hw; [done|]. destruct (paused s); [done|].
  destruct (Redis.BZPopMin _ _) as [[[taskID sc]|] c] eqn:Hpop; [|done].
  apply BZPopMin_Some in Hpop as [Hmem Hc].
  assert (consistent (mkState (DB s) c (paused s) (workers s))) as Hpopped.
  { apply consistent_shrink; [done| |done].
    intros m sc'. rewrite Hc. by intros [Hne Hm]%lookup_delete_Some. }
  destruct (DB s !! taskID) as [task|] eqn:Hrow; [|done].
  destruct (accepts _) eqn:Hok; [|done].
  pose proof Hs as (Hrows & _ & _). destruct (Hrows _ _ Hrow) as [Hid _].
  match goal with |- consistent (mkState (Save _ _ ?task) ?c ?p ?ws) =>
    apply (consistent_write s now task c p ws) end;
    [done|done|simpl; by rewrite Hid, Hrow|simpl; tauto|simpl|].
  + intros m sc'. rewrite Hc. intros [Hne Hm]%lookup_delete_Some.
    split; [done|]. congruence.
  + intros w' tk. rewrite lookup_insert. case_decide as Hw'.
    * intros [= <-]. simpl. rewrite decide_True by done. tauto.
    * intros Htk. simpl. case_decide; [tauto|done].
Qed.

Lemma consistent_complete s now w : consistent s -> consistent (worker_complete s now w).
Proof.
  intros Hs. unfold worker_complete.
  destruct (workers s !! w) as [tk|] eqn:Hw; [|done].
  pose proof Hs as (Hrows & Hindex & Hheld).
  destruct (Hheld _ _ Hw) as (t & Ht & _).
  destruct (accepts _) eqn:Hok.
  2:{ apply consistent_shrink; [done|done|]. by intros w' tk' [_ ?]%lookup_delete_Some. }
  match goal with |- consistent (mkState (Save _ _ ?task) ?c ?p ?ws) =>
    apply (consistent_write s now task c p ws) end;
      [done|done|simpl; by rewrite Ht|simpl; tauto|simpl|].
  - intros m sc. unfold Redis.SRem. rewrite zget_sput. tauto.
  - intros w' tk'. intros [Hne Htk]%lookup_delete_Some. simpl. case_decide; [tauto|done].
Qed.

Lemma consistent_CancelTask s now taskID userID req :
  consistent s -> consistent (CancelTask s now taskID userID req).2.
Proof.
  intros Hs. unfold CancelTask. destruct req as [req|]; [|done].
  destruct (First (DB s) taskID userID) as [task|] eqn:Hfirst; [|done].
  case_decide; [done|]. simpl.
  apply First_Some in Hfirst as [Hrow _].
  pose proof Hs as (Hrows & _ & _). destruct (Hrows _ _ Hrow) as [Hid _].
  match goal with |- consistent (mkState (Save _ _ ?task) ?c ?p ?ws) =>
    destruct (accepts task) eqn:Hok;
    [apply (consistent_write s now task c p ws)|
     rewrite (Save_refused _ _ _ Hok); apply consistent_shrink] end;
      [done|done|simpl; by rewrite Hid, Hrow|simpl; tauto|simpl|simpl|done| |done].
  - intros m sc. rewrite zget_RemoveTask. intros [Hne Hm]%lookup_delete_Some.
    split; [done|]. congruence.
  - intros w tk Hw. case_decide; [tauto|done].
  - intros m sc. rewrite zget_RemoveTask. by intros [Hne Hm]%lookup_delete_Some.
Qed.

Lemma consistent_UploadResult s now taskID userID req :
  consistent s -> consistent (UploadResult s now taskID userID req).2.
Proof.
  intros Hs. unfold UploadResult. destruct req as [req|]; [|done].
  destruct (First (DB s) taskID userID) as [task|] eqn:Hfirst; [|done]. simpl.
  apply First_Some in Hfirst as [Hrow _].
  pose proof Hs as (Hrows & _ & _). destruct (Hrows _ _ Hrow) as [Hid _].
  match goal with |- consistent (mkState (Save _ _ ?task) ?c ?p ?ws) =>
    destruct (accepts task) eqn:Hok;
    [apply (consistent_write s now task c p ws)|
     rewrite (Save_refused _ _ _ Hok); by apply consistent_shrink] end;
      [done|done|simpl; by rewrite Hid, Hrow|simpl; tauto|simpl|simpl].
  - intros m sc Hm. tauto.
  - intros w tk Hw. case_decide; [tauto|done].
Qed.

Lemma consistent_step s op : consistent s -> consistent (step s op).
Proof.
  destruct op; simpl.
  - apply consistent_CreateTask.
  - apply consistent_pickup.
  - apply consistent_complete.
  - apply consistent_CancelTask.
  - apply consistent_UploadResult.
  - intros Hs. exact Hs.
  - intros Hs. exact Hs.
Qed.

Lemma consistent_run ops : consistent (run init ops).
Proof.
  unfold run. induction ops as [|op ops IH] using rev_ind; [apply consistent_init|].
  rewrite foldl_app. simpl. by apply consistent_step.
Qed.

(** The status of a task after a row write. *)
Lemma status_of_write s now task c p ws id :
  accepts task = true ->
  status_of (mkState (Save (DB s) now task) c p ws) id =
  if decide (ID task = id) then Some (Status task) else status_of s id.
Proof. intros Hok. unfold status_of. simpl. rewrite lookup_Save by done. by case_decide. Qed.

Lemma status_of_refused s now task c p ws id :
  accepts task = false ->
  status_of (mkState (Save (DB s) now task) c p ws) id = status_of s id.
Proof. intros Hok. unfold status_of. simpl. by rewrite Save_refused. Qed.

Lemma transition_same op s s' id :
  DB s' = DB s -> transition op (status_of s id) (status_of s' id).
Proof.
  intros Hdb. unfold transition, status_of. rewrite Hdb.
  destruct (DB s !! id); simpl; [by left|done].
Qed.

Lemma step_transition s op id :
  consistent s -> transition op (status_of s id) (status_of (step s op) id).
Proof.
  intros Hs. pose proof Hs as (Hrows & Hindex & Hheld). destruct op; simpl.
  - (* create *)
    destruct req as [req|]; [|by apply transition_same]. unfold CreateTask, Create. simpl.
    set (id0 := "task_" +:+ String.substring 0 8 uuid).
    destruct (accepts _); [|by apply transition_same].
    destruct (DB s !! id0) eqn:Hfresh; [by apply transition_same|]. simpl.
    unfold status_of at 2. simpl. rewrite lookup_insert. case_decide as Hid.
    + subst id. unfold status_of. rewrite Hfresh. done.
    + by apply transition_same.
  - (* pickup *)
    unfold worker_pickup.
    destruct (workers s !! worker) eqn:Hw; [by apply transition_same|].
    destruct (paused s); [by apply transition_same|].
    destruct (Redis.BZPopMin _ _) as [[[taskID sc]|] c] eqn:Hpop; [|by apply transition_same].
    apply BZPopMin_Some in Hpop as [Hmem Hc].
    destruct (DB s !! taskID) as [task|] eqn:Hrow; [|by apply transition_same].
    destruct (accepts _) eqn:Hok; [|by apply transition_same].
    destruct (Hrows _ _ Hrow) as [Hid _].
    rewrite status_of_write by done. simpl. rewrite Hid.
    case_decide as Hsame; [|by apply transition_same].
    subst id. unfold status_of. rewrite Hrow. simpl. right. simpl.
    destruct (Hindex _ _ Hmem) as (t & Ht & Hst). rewrite Hrow in Ht. injection Ht as <-.
    done.
  - (* completion *)
    unfold worker_complete.
    destruct (workers s !! worker) as [tk|] eqn:Hw; [|by apply transition_same].
    destruct (accepts _) eqn:Hok; [|by apply transition_same].
    rewrite status_of_write by done. simpl. case_decide as Hsame; [|by apply transition_same].
    subst id. destruct (Hheld _ _ Hw) as (t & Ht & Hst).
    unfold status_of. rewrite Ht. simpl.
    destruct Hst as [Hst|[Hst|Hst]]; rewrite Hst; [right|right|left]; simpl; tauto.
  - (* cancel *)
    unfold CancelTask. destruct req as [req|]; [|by apply transition_same].
    destruct (First (DB s) taskID userID) as [task|] eqn:Hfirst; [|by apply transition_same].
    case_decide as Hdone; [by apply transition_same|]. simpl.
    apply First_Some in Hfirst as [Hrow _]. destruct (Hrows _ _ Hrow) as [Hid Hst].
    match goal with |- context [Save _ _ ?task] => destruct (accepts task) eqn:Hok end.
    2:{ rewrite status_of_refused by done. by apply transition_same. }
    rewrite status_of_write by done. simpl. rewrite Hid.
    case_decide as Hsame; [|by apply transition_same].
    subst id. unfold status_of. rewrite Hrow. simpl. right. simpl. tauto.
  - (* upload *)
    unfold UploadResult. destruct req as [req|]; [|by apply transition_same].
    destruct (First (DB s) taskID userID) as [task|] eqn:Hfirst; [|by apply transition_same].
    simpl. apply First_Some in Hfirst as [Hrow _]. destruct (Hrows _ _ Hrow) as [Hid Hst].
    match goal with |- context [Save _ _ ?task] => destruct (accepts task) eqn:Hok end.
    2:{ rewrite status_of_refused by done. by apply transition_same. }
    rewrite status_of_write by done. simpl. rewrite Hid.
    case_decide as Hsame; [|by apply transition_same].
    subst id. unfold status_of. rewrite Hrow. simpl. by right.
  - by apply transition_same.
  - by apply transition_same.
Qed.

End V1Facts.

(** C3, as the code has it.  Over any sequence of the operations create,
    worker pickup, worker completion, cancel and upload-result (and pause
    and resume of the queue), starting from the empty service, every
    operation leaves the persisted status of
    every task unchanged or moves it along one of these edges: pickup
    takes queued, or completed (a result uploaded while the task was still
    queued), to running; completion takes running or cancelled to
    completed; cancel takes queued or running to cancelled; upload-result
    takes any status to completed.  A task gets its row with status
    queued and never loses it. *)
Theorem task_status_transitions ops op taskID :
  V1.transition op (V1.status_of (V1.run V1.init ops) taskID)
                   (V1.status_of (V1.step (V1.run V1.init ops) op) taskID).
Proof. apply step_transition, consistent_run. Qed.

(** C3 as stated fails: a task whose result is uploaded right after its
    creation goes from queued directly to completed, which is no edge of
    the graph of the specification. *)
Lemma task_status_queued_to_completed :
  let req := V1.mkCreateTaskReq "train" ∅ 0 None in
  let s1 := V1.run V1.init [V1.OpCreate 0 "0a1b2c3d-0000" "u1" (Some req)] in
  let s2 := V1.step s1 (V1.OpUpload 1 "task_0a1b2c3d" "u1"
                          (Some (V1.mkUploadResultReq ∅ None))) in
  V1.status_of s1 "task_0a1b2c3d" = Some V1.TaskStatusQueued ∧
  V1.status_of s2 "task_0a1b2c3d" = Some V1.TaskStatusCompleted ∧
  ¬ V1.dag_edge V1.TaskStatusQueued V1.TaskStatusCompleted.
Proof.
  split; [by vm_compute|]. split; [by vm_compute|].
  unfold V1.dag_edge. intros [[_ H]|[[H _]|[_ H]]]; discriminate.
Qed.

(** ** Upload and cancel *)

(** A row that the table holds and whose [result] is replaced is taken
    exactly when the new [result] is a [jsonb] value. *)
Lemma accepts_set_Result t r :
  V1.accepts t = true -> V1.accepts (V1.set_Result t r) = Postgres.jsonb r.
Proof.
  unfold V1.accepts. simpl. rewrite !andb_true_iff.
  intros ((((((H1 & H2) & H3) & H4) & _) & H6) & H7).
  rewrite H1, H2, H3, H4, H6, H7. simpl. by rewrite !andb_true_r.
Qed.

(** [UploadResult] on a body that binds and a task of the caller whose
    row the table holds, whatever the status of the task: the answer is
    200 with status completed; when the result is a [jsonb] value the row
    is saved completed with [completed_at = now], otherwise the save is
    refused, its error is dropped and the table stays as it was; the Redis
    client is left as it was; and when the task is the first entry of the
    index, the next pickup of an idle worker takes it and sets it
    running. *)
Lemma UploadResult_found s now taskID userID req task :
  V1.First (V1.DB s) taskID userID = Some task ->
  V1.ID task = taskID ->
  V1.accepts task = true ->
  let result :=
    match V1.req_Artifacts req with
    | Some a => <["artifacts" := JObj (map_to_list a)]> (V1.req_Result req)
    | None => V1.req_Result req
    end in
  let r := V1.UploadResult s now taskID userID (Some req) in
  r.1 = Some (V1.mkResponse 200 [("success", JBool true); ("task_id", JStr taskID);
                              ("status", JStr "completed")]) ∧
  (Postgres.jsonb (Some result) = true ->
   ∃ t, V1.DB r.2 !! taskID = Some t ∧ V1.Result t = Some result ∧
        V1.Status t = V1.TaskStatusCompleted ∧ V1.CompletedAt t = Some now) ∧
  (Postgres.jsonb (Some result) = false -> V1.DB r.2 = V1.DB s) ∧
  V1.RedisClient r.2 = V1.RedisClient s ∧
  (∀ w now' sc,
     Redis.zmin (Redis.zget (V1.RedisClient s) Queue.TaskQueueKey) = Some (taskID, sc) ->
     V1.workers s !! w = None -> V1.paused s = false ->
     V1.status_of (V1.worker_pickup r.2 now' w) taskID = Some V1.TaskStatusRunning).
Proof.
  intros Hfirst Hid Hok. cbv zeta. unfold V1.UploadResult. rewrite Hfirst. cbn [fst snd].
  set (result := match V1.req_Artifacts req with
                 | Some a => <["artifacts" := JObj (map_to_list a)]> (V1.req_Result req)
                 | None => V1.req_Result req
                 end).
  set (task' := V1.set_CompletedAt
                  (V1.set_Status (V1.set_Result task (Some result)) V1.TaskStatusCompleted)
                  (Some now)).
  assert (V1.accepts task' = Postgres.jsonb (Some result)) as Hnew.
  { unfold task'. rewrite accepts_set_CompletedAt, accepts_set_Status.
    by apply accepts_set_Result. }
  assert (V1.ID task' = taskID) as Hid' by done.
  pose proof Hfirst as [Hrow _]%First_Some.
  split; [done|]. split; [|split; [|split]].
  - intros Hjson. rewrite Hjson in Hnew. cbn [V1.DB].
    rewrite lookup_Save by done. rewrite decide_True by done.
    eexists. split; [done|]. by simpl.
  - intros Hjson. rewrite Hjson in Hnew. cbn [V1.DB]. by apply Save_refused.
  - done.
  - intros w now' sc Hmin Hw Hp. unfold V1.worker_pickup.
    cbn [V1.workers V1.paused V1.RedisClient V1.DB].
    rewrite Hw, Hp. unfold Redis.BZPopMin. rewrite Hmin.
    destruct (V1.accepts task') eqn:Hacc.
    + rewrite lookup_Save by done. rewrite decide_True by done.
      rewrite accepts_set_StartedAt, accepts_set_Status, accepts_set_UpdatedAt, Hacc.
      unfold V1.status_of. cbn [V1.DB]. rewrite lookup_Save.
      * by rewrite decide_True.
      * by rewrite accepts_set_StartedAt, accepts_set_Status, accepts_set_UpdatedAt.
    + rewrite Save_refused by done. rewrite Hrow.
      rewrite accepts_set_StartedAt, accepts_set_Status, Hok.
      unfold V1.status_of. cbn [V1.DB]. rewrite lookup_Save.
      * by rewrite decide_True.
      * by rewrite accepts_set_StartedAt, accepts_set_Status.
Qed.

(** C9.  [UploadResult] looks at no status and never touches Redis: on a
    body that binds and a task of the caller it answers 200 with status
    completed, leaves the index and the membership set as they were, and a
    task that is the first entry of the index is still taken and set
    running by the next pickup.  The row becomes completed with
    [completed_at = now] when the table takes the result; the handler
    drops the error of [Save], so a result with a NUL character in a
    string (which [jsonb] refuses) is answered 200 with status completed
    while the row stays queued with no [completed_at] and no result. *)
Theorem upload_result_reports_unsaved_completion :
  (∀ s now taskID userID req task,
     V1.First (V1.DB s) taskID userID = Some task ->
     V1.ID task = taskID ->
     V1.accepts task = true ->
     let result :=
       match V1.req_Artifacts req with
       | Some a => <["artifacts" := JObj (map_to_list a)]> (V1.req_Result req)
       | None => V1.req_Result req
       end in
     let r := V1.UploadResult s now taskID userID (Some req) in
     r.1 = Some (V1.mkResponse 200 [("success", JBool true); ("task_id", JStr taskID);
                                 ("status", JStr "completed")]) ∧
     (Postgres.jsonb (Some result) = true ->
      ∃ t, V1.DB r.2 !! taskID = Some t ∧ V1.Result t = Some result ∧
           V1.Status t = V1.TaskStatusCompleted ∧ V1.CompletedAt t = Some now) ∧
     (Postgres.jsonb (Some result) = false -> V1.DB r.2 = V1.DB s) ∧
     V1.RedisClient r.2 = V1.RedisClient s ∧
     (∀ w now' sc,
        Redis.zmin (Redis.zget (V1.RedisClient s) Queue.TaskQueueKey)
          = Some (taskID, sc) ->
        V1.workers s !! w = None -> V1.paused s = false ->
        V1.status_of (V1.worker_pickup r.2 now' w) taskID = Some V1.TaskStatusRunning)) ∧
  let create := V1.mkCreateTaskReq "train" ∅ 0 None in
  let s := V1.run V1.init [V1.OpCreate 0 "0a1b2c3d-0000" "u1" (Some create)] in
  let nul := String Ascii.zero EmptyString in
  let ok := V1.mkUploadResultReq {["log" := JStr "done"]} None in
  let bad := V1.mkUploadResultReq {["log" := JStr nul]} None in
  let completed :=
    Some (V1.mkResponse 200 [("success", JBool true); ("task_id", JStr "task_0a1b2c3d");
                          ("status", JStr "completed")]) in
  V1.status_of s "task_0a1b2c3d" = Some V1.TaskStatusQueued ∧
  (V1.UploadResult s 1 "task_0a1b2c3d" "u1" (Some ok)).1 = completed ∧
  V1.status_of (V1.UploadResult s 1 "task_0a1b2c3d" "u1" (Some ok)).2 "task_0a1b2c3d"
    = Some V1.TaskStatusCompleted ∧
  (V1.UploadResult s 1 "task_0a1b2c3d" "u1" (Some bad)).1 = completed ∧
  (V1.UploadResult s 1 "task_0a1b2c3d" "u1" (Some bad)).2 = s ∧
  V1.status_of (V1.UploadResult s 1 "task_0a1b2c3d" "u1" (Some bad)).2 "task_0a1b2c3d"
    = Some V1.TaskStatusQueued ∧
  (V1.CompletedAt <$>
     V1.DB (V1.UploadResult s 1 "task_0a1b2c3d" "u1" (Some bad)).2 !! "task_0a1b2c3d")
    = Some None.
Proof.
  split; [intros s now taskID userID req task Hfirst Hid Hok;
         exact (UploadResult_found s now taskID userID req task Hfirst Hid Hok)|].
  cbv zeta. repeat split; vm_compute; reflexivity.
Qed.

(** C10.  [CancelTask] on a body that fails to bind writes no response and
    leaves the state as it was: the row of the task, its entry in the
    index and its membership are untouched. *)
Theorem cancel_unbound_body_is_silent s now taskID userID :
  let r := V1.CancelTask s now taskID userID None in
  r.1 = None ∧ r.2 = s ∧
  V1.DB r.2 !! taskID = V1.DB s !! taskID ∧
  Redis.zget (V1.RedisClient r.2) Queue.TaskQueueKey !! taskID =
    Redis.zget (V1.RedisClient s) Queue.TaskQueueKey !! taskID ∧
  Redis.sget (V1.RedisClient r.2) Queue.TaskQueueSetKey =
    Redis.sget (V1.RedisClient s) Queue.TaskQueueSetKey.
Proof. by repeat split. Qed.

(** ** The V2 store *)

Section V2Store.
Import V2.

Lemma elem_rows {A} (m : gmap string A) (x : A) :
  x ∈ (map_to_list m).*2 <-> ∃ id, m !! id = Some x.
Proof.
  rewrite list_elem_of_fmap. split.
  - intros ([id y] & -> & Hin). exists id. by apply elem_of_map_to_list.
  - intros (id & Hid). exists (id, x). split; [done|]. by apply elem_of_map_to_list.
Qed.

Lemma elem_queues_of_unit db unitID q :
  q ∈ queues_of_unit db unitID <->
  (∃ id, queues db !! id = Some q) ∧ TrainingQueue.UnitID q = unitID.
Proof.
  unfold queues_of_unit. rewrite list_elem_of_filter, elem_rows. tauto.
Qed.

Lemma foldr_max_ge (o : Z) (os : list Z) :
  o <= foldr Z.max o os ∧ ∀ x, x ∈ os -> x <= foldr Z.max o os.
Proof.
  induction os as [|a os [IH1 IH2]]; simpl.
  - split; [lia|]. by intros x Hx%elem_of_nil.
  - split; [lia|]. intros x [->|Hx]%elem_of_cons; [lia|]. specialize (IH2 x Hx). lia.
Qed.

Lemma foldr_max_in (o : Z) (os : list Z) : foldr Z.max o os ∈ o :: os.
Proof.
  induction os as [|a os IH]; simpl; [left|].
  destruct (Z.max_spec a (foldr Z.max o os)) as [[_ ->]|[_ ->]].
  - apply elem_of_cons in IH as [->|IH]; [left|right; by right].
  - right. left.
Qed.

Lemma max_order_upper db unitID q :
  q ∈ queues_of_unit db unitID -> TrainingQueue.Order q <= max_order db unitID.
Proof.
  intros Hq. unfold max_order.
  assert (TrainingQueue.Order q ∈ TrainingQueue.Order <$> queues_of_unit db unitID) as Hin.
  { apply list_elem_of_fmap. by exists q. }
  destruct (TrainingQueue.Order <$> queues_of_unit db unitID) as [|o os].
  - by apply elem_of_nil in Hin.
  - destruct (foldr_max_ge o os) as [H1 H2].
    apply elem_of_cons in Hin as [->|Hin]; [done|by apply H2].
Qed.

Lemma max_order_attained db unitID :
  (queues_of_unit db unitID = [] ∧ max_order db unitID = -1) ∨
  (∃ q, q ∈ queues_of_unit db unitID ∧ TrainingQueue.Order q = max_order db unitID).
Proof.
  unfold max_order. destruct (queues_of_unit db unitID) as [|q qs] eqn:Hqs; [by left|].
  right. rewrite fmap_cons.
  pose proof (foldr_max_in (TrainingQueue.Order q) (TrainingQueue.Order <$> qs)) as Hin.
  rewrite <- fmap_cons in Hin.
  apply list_elem_of_fmap in Hin as (q' & Heq & Hq'). by exists q'.
Qed.

Lemma first_unit_Some db unitID userID u :
  first_unit db unitID userID = Some u ->
  units db !! unitID = Some u ∧ TrainingUnit.UserID u = userID.
Proof.
  unfold first_unit. destruct (units db !! unitID) as [u'|]; [|done].
  case_decide; [|done]. by intros [= <-].
Qed.

Lemma first_queue_Some db queueID userID q :
  first_queue db queueID userID = Some q ->
  queues db !! queueID = Some q ∧ TrainingQueue.UserID q = userID.
Proof.
  unfold first_queue. destruct (queues db !! queueID) as [q'|]; [|done].
  case_decide; [|done]. by intros [= <-].
Qed.

(** What a write that succeeds has done. *)
Lemma create_queue_Some db now q q' db' :
  create_queue db now q = Some (q', db') ->
  accepts_queue q = true ∧ queues db !! TrainingQueue.ID q = None ∧
  q' = TrainingQueue.set_UpdatedAt (TrainingQueue.set_CreatedAt q now) now ∧
  db' = mkDB (groups db) (units db) (<[TrainingQueue.ID q := q']> (queues db)).
Proof.
  unfold create_queue. destruct (accepts_queue q); [|done].
  destruct (queues db !! TrainingQueue.ID q); [done|]. by intros [= <- <-].
Qed.

Lemma save_queue_Some db now q q' db' :
  save_queue db now q = Some (q', db') ->
  accepts_queue q = true ∧ q' = TrainingQueue.set_UpdatedAt q now ∧
  db' = mkDB (groups db) (units db) (<[TrainingQueue.ID q := q']> (queues db)).
Proof. unfold save_queue. destruct (accepts_queue q); [|done]. by intros [= <- <-]. Qed.

Lemma create_unit_Some db now u u' db' :
  create_unit db now u = Some (u', db') ->
  let u0 := if decide (TrainingUnit.ConnectionStatus u = "")
            then TrainingUnit.set_ConnectionStatus u "disconnected" else u in
  accepts_unit u0 = true ∧ units db !! TrainingUnit.ID u = None ∧
  u' = TrainingUnit.set_UpdatedAt (TrainingUnit.set_CreatedAt u0 now) now ∧
  db' = mkDB (groups db) (<[TrainingUnit.ID u := u']> (units db)) (queues db).
Proof.
  unfold create_unit. cbv zeta.
  assert (TrainingUnit.ID (if decide (TrainingUnit.ConnectionStatus u = "")
                           then TrainingUnit.set_ConnectionStatus u "disconnected" else u)
          = TrainingUnit.ID u) as Hid by by case_decide.
  destruct (accepts_unit _); [|done]. rewrite Hid.
  destruct (units db !! TrainingUnit.ID u); [done|]. intros [= <- <-].
  cbn [TrainingUnit.ID TrainingUnit.set_UpdatedAt TrainingUnit.set_CreatedAt].
  by rewrite Hid.
Qed.

Lemma save_unit_Some db now u u' db' :
  save_unit db now u = Some (u', db') ->
  accepts_unit u = true ∧ u' = TrainingUnit.set_UpdatedAt u now ∧
  db' = mkDB (groups db) (<[TrainingUnit.ID u := u']> (units db)) (queues db).
Proof. unfold save_unit. destruct (accepts_unit u); [|done]. by intros [= <- <-]. Qed.

Lemma create_group_Some db now g g' db' :
  create_group db now g = Some (g', db') ->
  accepts_group g = true ∧ groups db !! Group.ID g = None ∧
  g' = Group.mk (Group.ID g) (Group.Name g) (Group.Description g) (Group.UserID g) now now ∧
  db' = mkDB (<[Group.ID g := g']> (groups db)) (units db) (queues db).
Proof.
  unfold create_group. destruct (accepts_group g); [|done].
  destruct (groups db !! Group.ID g); [done|]. by intros [= <- <-].
Qed.

Lemma save_group_Some db now g g' db' :
  save_group db now g = Some (g', db') ->
  accepts_group g = true ∧
  g' = Group.mk (Group.ID g) (Group.Name g) (Group.Description g) (Group.UserID g)
                (Group.CreatedAt g) now ∧
  db' = mkDB (<[Group.ID g := g']> (groups db)) (units db) (queues db).
Proof. unfold save_group. destruct (accepts_group g); [|done]. by intros [= <- <-]. Qed.

(** The rows that [training_queues] takes: the order and the time
    stamps fit their columns whatever they are. *)
Lemma accepts_new_queue id unitID name params order createdBy createdAt updatedAt userID :
  Postgres.varchar 100 id = true -> Postgres.varchar 100 unitID = true ->
  Postgres.varchar 255 name = true -> Postgres.jsonb params = true ->
  Postgres.varchar 20 createdBy = true -> Postgres.varchar 100 userID = true ->
  accepts_queue (TrainingQueue.mk id unitID name params order "pending" None None None None
                                  "" createdBy createdAt updatedAt userID) = true.
Proof.
  intros H1 H2 H3 H4 H5 H6. unfold accepts_queue.
  cbn [TrainingQueue.ID TrainingQueue.UnitID TrainingQueue.Name TrainingQueue.Parameters
       TrainingQueue.Status TrainingQueue.Result TrainingQueue.Metrics TrainingQueue.ErrorMsg
       TrainingQueue.CreatedBy TrainingQueue.UserID].
  rewrite H1, H2, H3, H4, H5, H6. vm_compute. reflexivity.
Qed.

(** The loop of the batch handler when every insert succeeds: the ids of
    the items [i, i + length items) are free and pairwise distinct, and
    the table takes the row of every item. *)
Lemma batch_loop_spec now uuids unitID userID createdBy maxOrder items :
  ∀ db i queueIDs,
  in_int64 maxOrder ->
  maxOrder + Z.of_nat i + Z.of_nat (length items) <= max_int64 ->
  (∀ j, (j < length items)%nat -> queues db !! queue_id (uuids (i + j)%nat) = None) ->
  (∀ j1 j2, (j1 < j2 < length items)%nat ->
     queue_id (uuids (i + j1)%nat) ≠ queue_id (uuids (i + j2)%nat)) ->
  (∀ j item order, items !! j = Some item ->
     accepts_queue (TrainingQueue.mk (queue_id (uuids (i + j)%nat)) unitID item.1 item.2
                      order "pending" None None None None "" createdBy 0 0 userID) = true) ->
  let r := batch_loop db now uuids unitID userID createdBy maxOrder i items queueIDs in
  r.1 = queueIDs ++ ((λ j, queue_id (uuids (i + j)%nat)) <$> seq 0 (length items)) ∧
  units r.2 = units db ∧ groups r.2 = groups db ∧
  (∀ id, (∀ j, (j < length items)%nat -> id ≠ queue_id (uuids (i + j)%nat)) ->
     queues r.2 !! id = queues db !! id) ∧
  (∀ j item, items !! j = Some item ->
     queues r.2 !! queue_id (uuids (i + j)%nat) =
       Some (TrainingQueue.mk (queue_id (uuids (i + j)%nat)) unitID item.1 item.2
               (maxOrder + 1 + Z.of_nat (i + j)) "pending" None None None None ""
               createdBy now now userID)).
Proof.
  induction items as [|item items IH];
    intros db i queueIDs Hrange Hmax Hfresh Hdistinct Htaken.
  - simpl. rewrite app_nil_r. repeat split; try done.
  - simpl length in *. cbn [batch_loop]. fold (queue_id (uuids i)).
    unfold create_queue. cbn [TrainingQueue.ID].
    pose proof (Htaken 0%nat item) as Htaken0. rewrite Nat.add_0_r in Htaken0.
    rewrite Htaken0 by done.
    pose proof (Hfresh 0%nat ltac:(lia)) as Hfresh0. rewrite Nat.add_0_r in Hfresh0.
    rewrite Hfresh0. cbn [TrainingQueue.ID TrainingQueue.set_UpdatedAt
                          TrainingQueue.set_CreatedAt].
    match goal with |- context [batch_loop ?db1 _ _ _ _ _ _ (S i) items ?ids1] =>
      specialize (IH db1 (S i) ids1 Hrange) end.
    cbn [queues units groups] in IH.
    destruct IH as (Hids & Hunits & Hgroups & Hother & Hrows).
    + lia.
    + intros j Hj. rewrite lookup_insert_ne.
      * replace (S i + j)%nat with (i + S j)%nat by lia. apply Hfresh. lia.
      * replace (S i + j)%nat with (i + S j)%nat by lia.
        rewrite <- (Nat.add_0_r i) at 1. apply Hdistinct. lia.
    + intros j1 j2 Hj. replace (S i + j1)%nat with (i + S j1)%nat by lia.
      replace (S i + j2)%nat with (i + S j2)%nat by lia. apply Hdistinct. lia.
    + intros j item' order Hitem. replace (S i + j)%nat with (i + S j)%nat by lia.
      by apply Htaken.
    + split; [|split; [done|split; [done|split]]].
      * rewrite Hids, <- app_assoc. f_equal. simpl. rewrite Nat.add_0_r. f_equal.
        rewrite <- fmap_S_seq, <- list_fmap_compose. apply list_fmap_ext.
        intros ? j _. simpl. f_equal. f_equal. lia.
      * intros id Hid. rewrite Hother.
        -- rewrite lookup_insert_ne; [done|].
           specialize (Hid 0%nat ltac:(lia)). rewrite Nat.add_0_r in Hid. done.
        -- intros j Hj. replace (S i + j)%nat with (i + S j)%nat by lia. apply Hid. lia.
      * intros [|j] item' Hitem.
        -- injection Hitem as <-. rewrite Nat.add_0_r. rewrite Hother.
           ++ rewrite lookup_insert_eq. f_equal.
              unfold in_int64, min_int64, max_int64 in *.
              rewrite (wrap64_id (maxOrder + 1)) by (unfold in_int64, min_int64, max_int64; lia).
              rewrite wrap64_id by (unfold in_int64, min_int64, max_int64; lia).
              unfold TrainingQueue.set_UpdatedAt, TrainingQueue.set_CreatedAt. simpl.
              done.
           ++ intros j Hj'. replace (S i + j)%nat with (i + S j)%nat by lia.
              rewrite <- (Nat.add_0_r i) at 1. apply Hdistinct. lia.
        -- replace (i + S j)%nat with (S i + j)%nat by lia. by apply Hrows.
Qed.

End V2Store.

(** ** Creating queues *)

Section V2Create.
Import V2.

Lemma create_queue_single db now uuid unitID userID unit req :
  first_unit db unitID userID = Some unit ->
  in_int64 (max_order db unitID) ->
  Postgres.varchar 100 unitID = true -> Postgres.varchar 100 userID = true ->
  let createdBy := if decide (create_CreatedBy req = "") then "web"
                   else create_CreatedBy req in
  queues db !! queue_id uuid = None ->
  max_order db unitID < max_int64 ->
  Postgres.varchar 100 (queue_id uuid) = true ->
  Postgres.varchar 255 (create_Name req) = true ->
  Postgres.jsonb (Some (create_Parameters req)) = true ->
  Postgres.varchar 20 createdBy = true ->
  let r := CreateTrainingQueue db now uuid unitID userID (Some req) in
  status r.1 = 201 ∧
  order_of r.2 (queue_id uuid) = Some (max_order db unitID + 1) ∧
  (queues_of_unit db unitID = [] -> order_of r.2 (queue_id uuid) = Some 0) ∧
  ∃ q, queues r.2 !! queue_id uuid = Some q ∧
       TrainingQueue.Name q = create_Name req ∧
       TrainingQueue.Parameters q = Some (create_Parameters req) ∧
       TrainingQueue.Order q = max_order db unitID + 1.
Proof.
  intros Hunit Hrange Hun Hus createdBy Hfresh Hmax Hid Hname Hparams Hby. cbv zeta.
  unfold CreateTrainingQueue. rewrite Hunit. fold (queue_id uuid). fold createdBy.
  unfold create_queue. cbn [TrainingQueue.ID].
  rewrite accepts_new_queue by done. rewrite Hfresh.
  cbn [fst snd status]. split; [done|].
  match goal with |- order_of ?d _ = _ ∧ _ => set (db' := d) end.
  assert (queues db' !! queue_id uuid =
            Some (TrainingQueue.mk (queue_id uuid) unitID (create_Name req)
                    (Some (create_Parameters req)) (max_order db unitID + 1) "pending"
                    None None None None "" createdBy now now userID)) as Hrow.
  { unfold db', update_unit. cbn [queues]. rewrite lookup_insert_eq. simpl.
    by rewrite wrap64_succ. }
  assert (order_of db' (queue_id uuid) = Some (max_order db unitID + 1)) as Horder.
  { unfold order_of. by rewrite Hrow. }
  split; [exact Horder|]. split; [|by eexists].
  intros Hnone. rewrite Horder. f_equal.
  destruct (max_order_attained db unitID) as [[_ ->]|(q & Hq & _)]; [done|].
  rewrite Hnone in Hq. by apply elem_of_nil in Hq.
Qed.

Lemma create_queue_batch db now uuids unitID userID unit req :
  first_unit db unitID userID = Some unit ->
  in_int64 (max_order db unitID) ->
  Postgres.varchar 100 unitID = true -> Postgres.varchar 100 userID = true ->
  let k := length (batch_Queues req) in
  let createdBy := if decide (batch_CreatedBy req = "") then "web"
                   else batch_CreatedBy req in
  (∀ i, (i < k)%nat -> queues db !! queue_id (uuids i) = None) ->
  (∀ i j, (i < j < k)%nat -> queue_id (uuids i) ≠ queue_id (uuids j)) ->
  max_order db unitID + Z.of_nat k <= max_int64 ->
  (∀ i, (i < k)%nat -> Postgres.varchar 100 (queue_id (uuids i)) = true) ->
  (∀ i name params, batch_Queues req !! i = Some (name, params) ->
     Postgres.varchar 255 name = true ∧ Postgres.jsonb params = true) ->
  Postgres.varchar 20 createdBy = true ->
  let r := BatchCreateQueues db now uuids unitID userID (Some req) in
  status r.1 = 201 ∧
  field r.1 "queue_ids" = Some (FStrs ((λ i, queue_id (uuids i)) <$> seq 0 k)) ∧
  ∀ i name params, batch_Queues req !! i = Some (name, params) ->
    order_of r.2 (queue_id (uuids i)) = Some (max_order db unitID + 1 + Z.of_nat i) ∧
    ∃ q, queues r.2 !! queue_id (uuids i) = Some q ∧
         TrainingQueue.Name q = name ∧ TrainingQueue.Parameters q = params ∧
         TrainingQueue.Order q = max_order db unitID + 1 + Z.of_nat i.
Proof.
  intros Hunit Hrange Hun Hus k createdBy Hfresh Hdistinct Hmax Hids Hitems Hby. cbv zeta.
  unfold BatchCreateQueues. rewrite Hunit. fold createdBy.
  pose proof (batch_loop_spec now uuids unitID userID createdBy
                (max_order db unitID) (batch_Queues req) db 0%nat [] Hrange) as Hloop.
  cbv zeta in Hloop. fold k in Hloop.
  destruct (batch_loop _ _ _ _ _ _ _ _ _ _) as [queueIDs db1].
  destruct Hloop as (Hqids & _ & _ & _ & Hrows); [lia|done|done| |].
  { intros j [name params] order Hitem. simpl.
    destruct (Hitems j name params Hitem) as [Hname Hparams].
    apply accepts_new_queue; try done. apply Hids. by eapply lookup_lt_Some. }
  cbn [fst snd] in *. split; [done|]. split.
  - unfold field. simpl. by rewrite Hqids.
  - intros i name params Hitem. specialize (Hrows i (name, params) Hitem). simpl in Hrows.
    unfold order_of, update_unit. cbn [queues]. rewrite Hrows. split; [done|].
    eexists. split; [done|]. done.
Qed.

End V2Create.

(** C8.  With [maxOrder] the largest order among the queues of the unit,
    and -1 when it has none: a created queue receives [maxOrder + 1],
    hence 0 in a unit without queues, and holds the name and the
    parameters of the request; the item at index [i] of a batch of [k]
    items receives [maxOrder + 1 + i] and holds the name and the
    parameters of that item, so that the batch takes [maxOrder + 1 ..
    maxOrder + k] in the order of the request, which is also the order
    of the ids in the response.  The inserts are required to succeed:
    the ids are free and distinct and the values fit the columns of
    [training_queues].  The orders are Go integers: the sums are
    required to stay in range. *)
Theorem create_queue_appends_after_max db now unitID userID unit :
  V2.first_unit db unitID userID = Some unit ->
  in_int64 (V2.max_order db unitID) ->
  Postgres.varchar 100 unitID = true ->
  Postgres.varchar 100 userID = true ->
  let maxOrder := V2.max_order db unitID in
  ((V2.queues_of_unit db unitID = [] ∧ maxOrder = -1) ∨
   (∃ q, q ∈ V2.queues_of_unit db unitID ∧ V2.TrainingQueue.Order q = maxOrder)) ∧
  (∀ q, q ∈ V2.queues_of_unit db unitID -> V2.TrainingQueue.Order q <= maxOrder) ∧
  (∀ uuid req,
     let createdBy := if decide (V2.create_CreatedBy req = "") then "web"
                      else V2.create_CreatedBy req in
     V2.queues db !! V2.queue_id uuid = None -> maxOrder < max_int64 ->
     Postgres.varchar 100 (V2.queue_id uuid) = true ->
     Postgres.varchar 255 (V2.create_Name req) = true ->
     Postgres.jsonb (Some (V2.create_Parameters req)) = true ->
     Postgres.varchar 20 createdBy = true ->
     let r := V2.CreateTrainingQueue db now uuid unitID userID (Some req) in
     V2.status r.1 = 201 ∧
     V2.order_of r.2 (V2.queue_id uuid) = Some (maxOrder + 1) ∧
     (V2.queues_of_unit db unitID = [] -> V2.order_of r.2 (V2.queue_id uuid) = Some 0) ∧
     ∃ q, V2.queues r.2 !! V2.queue_id uuid = Some q ∧
          V2.TrainingQueue.Name q = V2.create_Name req ∧
          V2.TrainingQueue.Parameters q = Some (V2.create_Parameters req) ∧
          V2.TrainingQueue.Order q = maxOrder + 1) ∧
  (∀ uuids req,
     let k := length (V2.batch_Queues req) in
     let createdBy := if decide (V2.batch_CreatedBy req = "") then "web"
                      else V2.batch_CreatedBy req in
     (∀ i, (i < k)%nat -> V2.queues db !! V2.queue_id (uuids i) = None) ->
     (∀ i j, (i < j < k)%nat -> V2.queue_id (uuids i) ≠ V2.queue_id (uuids j)) ->
     maxOrder + Z.of_nat k <= max_int64 ->
     (∀ i, (i < k)%nat -> Postgres.varchar 100 (V2.queue_id (uuids i)) = true) ->
     (∀ i name params, V2.batch_Queues req !! i = Some (name, params) ->
        Postgres.varchar 255 name = true ∧ Postgres.jsonb params = true) ->
     Postgres.varchar 20 createdBy = true ->
     let r := V2.BatchCreateQueues db now uuids unitID userID (Some req) in
     V2.status r.1 = 201 ∧
     V2.field r.1 "queue_ids"
       = Some (V2.FStrs ((λ i, V2.queue_id (uuids i)) <$> seq 0 k)) ∧
     ∀ i name params, V2.batch_Queues req !! i = Some (name, params) ->
       V2.order_of r.2 (V2.queue_id (uuids i)) = Some (maxOrder + 1 + Z.of_nat i) ∧
       ∃ q, V2.queues r.2 !! V2.queue_id (uuids i) = Some q ∧
            V2.TrainingQueue.Name q = name ∧ V2.TrainingQueue.Parameters q = params ∧
            V2.TrainingQueue.Order q = maxOrder + 1 + Z.of_nat i).
Proof.
  intros Hunit Hrange Hun Hus maxOrder. split; [|split; [|split]].
  - apply max_order_attained.
  - intros q. apply max_order_upper.
  - intros uuid req. by apply create_queue_single with (unit := unit).
  - intros uuids req. by apply create_queue_batch with (unit := unit).
Qed.

Lemma create_queue_appends_after_max_witness :
  let r := V2.CreateTrainingQueue V2.store_with_queues 9 "0000000d-aaaa"
             "unit_00000001" "u1" (Some (V2.mkCreateQueueReq "lr=0.4" ∅ "web")) in
  let uuids := λ i : nat, match i with
                          | O => "0000000e-aaaa"
                          | _ => "0000000f-aaaa"
                          end in
  let b := V2.BatchCreateQueues V2.store_with_queues 9 uuids "unit_00000001" "u1"
             (Some (V2.mkBatchCreateReq [("lr=0.5", Some ∅); ("lr=0.6", None)] "")) in
  V2.max_order V2.store_with_queues "unit_00000001" = 2 ∧
  (V2.status r.1 = 201 ∧ V2.order_of r.2 "queue_0000000d" = Some 3) ∧
  V2.status b.1 = 201 ∧
  V2.field b.1 "queue_ids" = Some (V2.FStrs ["queue_0000000e"; "queue_0000000f"]) ∧
  (∃ q, V2.queues b.2 !! "queue_0000000e" = Some q ∧
        V2.TrainingQueue.Name q = "lr=0.5" ∧ V2.TrainingQueue.Parameters q = Some ∅ ∧
        V2.TrainingQueue.Order q = 3) ∧
  (∃ q, V2.queues b.2 !! "queue_0000000f" = Some q ∧
        V2.TrainingQueue.Name q = "lr=0.6" ∧ V2.TrainingQueue.Parameters q = None ∧
        V2.TrainingQueue.Order q = 4).
Proof.
  intros r uuids b.
  assert (V2.max_order V2.store_with_queues "unit_00000001" = 2) as Hmax
    by (vm_compute; reflexivity).
  split; [exact Hmax|].
  pose proof (create_queue_appends_after_max V2.store_with_queues 9 "unit_00000001" "u1"
    (V2.TrainingUnit.mk "unit_00000001" "group_1" "resnet" "" None 4 "idle" "disconnected"
                        None 1 4 "u1")
    ltac:(vm_compute; reflexivity)
    ltac:(rewrite Hmax; vm_compute; split; discriminate)
    ltac:(vm_compute; reflexivity) ltac:(vm_compute; reflexivity))
    as (_ & _ & Hcreate & Hbatch).
  split.
  - destruct (Hcreate "0000000d-aaaa" (V2.mkCreateQueueReq "lr=0.4" ∅ "web")
                ltac:(vm_compute; reflexivity) ltac:(rewrite Hmax; reflexivity)
                ltac:(vm_compute; reflexivity) ltac:(vm_compute; reflexivity)
                ltac:(vm_compute; reflexivity) ltac:(vm_compute; reflexivity))
      as (Hstatus & Horder & _).
    rewrite Hmax in Horder. split; [exact Hstatus|exact Horder].
  - destruct (Hbatch uuids
                (V2.mkBatchCreateReq [("lr=0.5", Some ∅); ("lr=0.6", None)] ""))
      as (Hstatus & Hids & Hrows).
    + intros [|[|i]] Hi; simpl in Hi; [vm_compute; reflexivity..|lia].
    + intros [|[|i]] [|[|j]] Hij; simpl in Hij; try lia. vm_compute. discriminate.
    + rewrite Hmax. vm_compute. discriminate.
    + intros [|[|i]] Hi; simpl in Hi; [vm_compute; reflexivity..|lia].
    + intros [|[|i]] name params; simpl; intros Hitem; [| |done];
        injection Hitem as <- <-; split; vm_compute; reflexivity.
    + vm_compute. reflexivity.
    + split; [exact Hstatus|]. split; [exact Hids|]. rewrite Hmax in Hrows. split.
      * destruct (Hrows 0%nat "lr=0.5" (Some ∅) ltac:(reflexivity)) as [_ Hrow]. exact Hrow.
      * destruct (Hrows 1%nat "lr=0.6" None ltac:(reflexivity)) as [_ Hrow]. exact Hrow.
Defined.

(** ** Reordering queues *)

Section V2Reorder.
Import V2.

Lemma last_occurrence (ids : list string) id :
  id ∈ ids -> ∃ j, ids !! j = Some id ∧ id ∉ drop (S j) ids.
Proof.
  induction ids as [|a ids IH]; [by intros ?%elem_of_nil|].
  intros Hin. destruct (decide (id ∈ ids)) as [Hlater|Hlast].
  - destruct (IH Hlater) as (j & Hj & Hdrop). by exists (S j).
  - apply elem_of_cons in Hin as [->|Hin]; [|done]. exists 0%nat. simpl.
    by rewrite drop_0.
Qed.

Lemma accepts_queue_set_Order q o :
  accepts_queue (TrainingQueue.set_Order q o) = accepts_queue q.
Proof. done. Qed.

Lemma accepts_queue_set_UpdatedAt q now :
  accepts_queue (TrainingQueue.set_UpdatedAt q now) = accepts_queue q.
Proof. done. Qed.

(** The loop of [ReorderQueues].  The rows of [queueMap] are rows of the
    table, each under its own id.  Whether the loop ends or stops at a
    save that fails, it writes rows of listed ids only, and only their
    order and [updated_at]; when the table takes the rows of [queueMap]
    no save fails and every listed id holds the order of its last
    occurrence. *)
Lemma reorder_loop_spec now startOrder ids :
  ∀ db queueMap i,
  (∀ id q, queueMap !! id = Some q ->
     TrainingQueue.ID q = id ∧ queues db !! id = Some q) ->
  let r := reorder_loop db now queueMap startOrder i ids in
  units r.2 = units db ∧ groups r.2 = groups db ∧
  (∀ id, id ∉ ids -> queues r.2 !! id = queues db !! id) ∧
  (∀ id q', queues r.2 !! id = Some q' ->
     ∃ q, queues db !! id = Some q ∧
          TrainingQueue.Status q' = TrainingQueue.Status q ∧
          TrainingQueue.UnitID q' = TrainingQueue.UnitID q ∧
          TrainingQueue.UserID q' = TrainingQueue.UserID q ∧
          TrainingQueue.ID q' = TrainingQueue.ID q) ∧
  (∀ id, is_Some (queues r.2 !! id) <-> is_Some (queues db !! id)) ∧
  ((∀ id q, queueMap !! id = Some q -> accepts_queue q = true) ->
   r.1 = true ∧
   ∀ j id, ids !! j = Some id -> id ∉ drop (S j) ids -> is_Some (queueMap !! id) ->
     order_of r.2 id = Some (startOrder + Z.of_nat (i + j))).
Proof.
  induction ids as [|id0 ids IH]; intros db queueMap i Hmap; cbv zeta.
  - cbn [reorder_loop fst snd]. split; [done|]. split; [done|]. split; [done|].
    split; [|split; [done|]].
    + intros id q' Hq'. by exists q'.
    + intros _. split; [done|]. intros j id Hj. by rewrite lookup_nil in Hj.
  - cbn [reorder_loop]. destruct (queueMap !! id0) as [q0|] eqn:Hq0.
    + destruct (Hmap _ _ Hq0) as [Hid0 Hrow0].
      unfold save_queue. rewrite accepts_queue_set_Order.
      destruct (accepts_queue q0) eqn:Hok0.
      2:{ cbn [fst snd]. split; [done|]. split; [done|]. split; [done|].
          split; [|split; [done|]].
          - intros id q' Hq'. by exists q'.
          - intros Hall. rewrite (Hall _ _ Hq0) in Hok0. done. }
      cbn [TrainingQueue.ID TrainingQueue.set_UpdatedAt].
      set (q1 := TrainingQueue.set_UpdatedAt
                   (TrainingQueue.set_Order q0 (startOrder + Z.of_nat i)) now).
      change (TrainingQueue.mk _ _ _ _ _ _ _ _ _ _ _ _ _ _ _) with q1.
      cbn [TrainingQueue.set_Order TrainingQueue.ID]. rewrite Hid0.
      set (db1 := mkDB (groups db) (units db) (<[id0 := q1]> (queues db))).
      destruct (IH db1 (<[id0 := q1]> queueMap) (S i))
        as (Hu & Hg & Hother & Hrows & Hdom & Hord).
      { intros id q. rewrite lookup_insert. case_decide as Heq.
        - intros [= <-]. subst id. split; [done|]. unfold db1. cbn [queues].
          apply lookup_insert_eq.
        - intros Hq. destruct (Hmap _ _ Hq) as [Hid Hrow]. split; [done|].
          unfold db1. cbn [queues]. by rewrite lookup_insert_ne. }
      split; [done|]. split; [done|]. split; [|split; [|split]].
      * intros id Hid. apply not_elem_of_cons in Hid as [Hne Hid].
        rewrite Hother by done. unfold db1. cbn [queues]. by rewrite lookup_insert_ne.
      * intros id q' Hq'. destruct (Hrows _ _ Hq') as (q & Hq & Hst & Hun & Hus & Hidq).
        unfold db1 in Hq. cbn [queues] in Hq. rewrite lookup_insert in Hq.
        case_decide as Heq; [|by exists q].
        injection Hq as <-. subst id. exists q0. split; [done|].
        rewrite Hst, Hun, Hus, Hidq. done.
      * intros id. rewrite Hdom. unfold db1. cbn [queues]. rewrite lookup_insert.
        case_decide as Heq; [|done]. subst id. rewrite Hrow0. split; by eexists.
      * intros Hall. destruct Hord as [Htrue Hord].
        { intros id q. rewrite lookup_insert. case_decide as Heq; [|by apply Hall].
          intros [= <-]. unfold q1.
          rewrite accepts_queue_set_UpdatedAt, accepts_queue_set_Order. done. }
        split; [done|]. intros [|j] id Hj Hdrop Hsome.
        -- injection Hj as <-. simpl in Hdrop. rewrite drop_0 in Hdrop.
           unfold order_of. rewrite Hother by done. unfold db1. cbn [queues].
           rewrite lookup_insert_eq. simpl. f_equal. lia.
        -- simpl in Hj, Hdrop. rewrite (Hord j id Hj Hdrop).
           ++ f_equal. lia.
           ++ rewrite lookup_insert. case_decide; [done|]. done.
    + destruct (IH db queueMap (S i) Hmap) as (Hu & Hg & Hother & Hrows & Hdom & Hord).
      split; [done|]. split; [done|]. split; [|split; [done|split; [done|]]].
      * intros id Hid. apply not_elem_of_cons in Hid as [Hne Hid]. by apply Hother.
      * intros Hall. destruct (Hord Hall) as [Htrue Hord']. split; [done|].
        intros [|j] id Hj Hdrop Hsome.
        -- injection Hj as <-. rewrite Hq0 in Hsome. by destruct Hsome.
        -- simpl in Hj, Hdrop. rewrite (Hord' j id Hj Hdrop Hsome). f_equal. lia.
Qed.

Lemma reorder_spec db now unitID userID unit ids :
  well_keyed db ->
  first_unit db unitID userID = Some unit ->
  (∀ id, id ∈ ids ->
     ∃ q, queues db !! id = Some q ∧ TrainingQueue.UnitID q = unitID ∧
          TrainingQueue.UserID q = userID ∧ TrainingQueue.Status q = "pending" ∧
          accepts_queue q = true) ->
  in_int64 (TrainingUnit.Version unit) -> TrainingUnit.Version unit < max_int64 ->
  let P := count_status_in db unitID ["running"; "completed"; "failed"] in
  let r := ReorderQueues db now unitID userID (Some ids) in
  status r.1 = 200 ∧
  (∀ i id, ids !! i = Some id -> id ∉ drop (S i) ids ->
     order_of r.2 id = Some (P + Z.of_nat i)) ∧
  version_of r.2 unitID = Some (TrainingUnit.Version unit + 1) ∧
  (∀ id, id ∉ ids -> queues r.2 !! id = queues db !! id) ∧
  ((∀ id q, queues db !! id = Some q -> TrainingQueue.UnitID q = unitID ->
      TrainingQueue.Status q ≠ "pending" -> TrainingQueue.Order q < P) ->
   non_pending_first r.2 unitID ids).
Proof.
  intros [Hkeyu Hkeyq] Hunit Hids Hvr Hvm P.
  apply first_unit_Some in Hunit as Hu. destruct Hu as [Hurow _].
  pose proof (Hkeyu _ _ Hurow) as Huid.
  set (rows := filter (λ q, TrainingQueue.ID q ∈ ids ∧ TrainingQueue.UserID q = userID)
                      (map_to_list (queues db)).*2).
  assert (∀ q, q ∈ rows ->
            queues db !! TrainingQueue.ID q = Some q ∧ TrainingQueue.UnitID q = unitID ∧
            TrainingQueue.Status q = "pending" ∧ accepts_queue q = true) as Hrows.
  { intros q [[Hin _] [id Hq]%elem_rows]%list_elem_of_filter.
    pose proof (Hkeyq _ _ Hq) as Hid. rewrite Hid in *.
    destruct (Hids _ Hin) as (q2 & Hq2 & Hun & _ & Hst & Hok).
    rewrite Hq in Hq2. injection Hq2 as <-. done. }
  set (queueMap := list_to_map ((λ q, (TrainingQueue.ID q, q)) <$> rows)
                   : gmap string TrainingQueue.t).
  assert (∀ id q, queueMap !! id = Some q ->
            (TrainingQueue.ID q = id ∧ queues db !! id = Some q) ∧
            accepts_queue q = true) as Hmap.
  { intros id q Hq. apply elem_of_list_to_map_2 in Hq.
    apply list_elem_of_fmap in Hq as (q' & [= -> ->] & Hq').
    destruct (Hrows _ Hq') as (? & _ & _ & ?). done. }
  destruct (reorder_loop_spec now P ids db queueMap 0%nat (λ id q Hq, proj1 (Hmap id q Hq)))
    as (Hu & Hg & Hother & Hsame & _ & Hord).
  destruct (Hord (λ id q Hq, proj2 (Hmap id q Hq))) as [Hdone Hord']. clear Hord.
  rename Hord' into Hord.
  destruct (reorder_loop db now queueMap P 0 ids) as [saved db1] eqn:Hloop.
  cbn [fst snd] in Hu, Hg, Hother, Hsame, Hord, Hdone. subst saved.
  set (db2 := update_unit db1 now (TrainingUnit.ID unit)
                (λ u, TrainingUnit.set_Version u (wrap64 (TrainingUnit.Version unit + 1)))).
  assert (ReorderQueues db now unitID userID (Some ids) =
          (mkResponse 200 [("success", FBool true); ("message", FStr "队列顺序已更新");
                           ("count", FInt (Z.of_nat (length rows)))], db2)) as Hr.
  { unfold ReorderQueues. rewrite Hunit. fold rows.
    rewrite decide_False.
    2:{ intros (q & Hq & Hne)%Exists_exists. by destruct (Hrows _ Hq) as (_ & ? & _). }
    rewrite decide_False.
    2:{ intros (q & Hq & Hne)%Exists_exists. by destruct (Hrows _ Hq) as (_ & _ & ? & _). }
    fold queueMap. fold P. by rewrite Hloop. }
  cbv zeta. rewrite Hr. cbn [fst snd status].
  assert (∀ id, id ∈ ids -> is_Some (queueMap !! id)) as Hsome.
  { intros id Hin. destruct (queueMap !! id) eqn:Hq; [done|]. exfalso.
    apply not_elem_of_list_to_map in Hq. apply Hq.
    destruct (Hids _ Hin) as (q & Hq' & _ & Huser & _ & _).
    apply list_elem_of_fmap. exists (id, q). split; [done|].
    apply list_elem_of_fmap. exists q. split; [by rewrite (Hkeyq _ _ Hq')|].
    apply list_elem_of_filter. split; [by rewrite (Hkeyq _ _ Hq')|].
    apply elem_rows. by exists id. }
  assert (∀ i id, ids !! i = Some id -> id ∉ drop (S i) ids ->
            order_of db2 id = Some (P + Z.of_nat i)) as Horders.
  { intros i id Hi Hdrop. unfold order_of, db2, update_unit. cbn [queues].
    apply (Hord i id Hi Hdrop). apply Hsome. by eapply list_elem_of_lookup_2. }
  split; [done|]. split; [exact Horders|]. split; [|split].
  - unfold version_of, db2, update_unit. cbn [units]. rewrite Huid, Hu.
    rewrite lookup_alter_eq, Hurow. simpl. by rewrite wrap64_succ.
  - intros id Hid. unfold db2, update_unit. cbn [queues]. by apply Hother.
  - intros Hbelow id q id' q' Hq Hun Hst Hin' Hq'.
    unfold db2, update_unit in Hq, Hq'. cbn [queues] in Hq, Hq'.
    assert (TrainingQueue.Order q < P) as Hlow.
    { destruct (decide (id ∈ ids)) as [Hin|Hout].
      - exfalso. destruct (Hsame _ _ Hq) as (q0 & Hq0 & Hst0 & _).
        destruct (Hids _ Hin) as (q2 & Hq2 & _ & _ & Hst2 & _).
        rewrite Hq0 in Hq2. injection Hq2 as <-. congruence.
      - rewrite Hother in Hq by done. by eapply Hbelow. }
    destruct (last_occurrence ids id' Hin') as (j & Hj & Hdrop).
    specialize (Horders j id' Hj Hdrop). unfold order_of, db2, update_unit in Horders.
    cbn [queues] in Horders. rewrite Hq' in Horders. simpl in Horders.
    injection Horders as ->. lia.
Qed.

End V2Reorder.

Lemma well_keyed_by_computation db :
  map_Forall (λ id u, V2.TrainingUnit.ID u = id) (V2.units db) ->
  map_Forall (λ id q, V2.TrainingQueue.ID q = id) (V2.queues db) ->
  V2.well_keyed db.
Proof. intros Hu Hq. split; intros id x Hx; [by apply Hu in Hx|by apply Hq in Hx]. Qed.

(** C1.  [ReorderQueues] counts the non-pending queues of the unit and
    never looks at the orders they hold.  For a unit of the caller and a
    list of ids of pending queues of that unit and caller it answers 200,
    gives the i-th id the order P + i, with P the number of queues of the
    unit whose status is running, completed or failed, and raises the
    version of the unit by exactly one.  The non-pending queues come
    before the reordered ones only when their orders were below P, and
    nothing makes them so: three queues are created with orders 0, 1 and
    2, the client starts the last one, and the two pending ones are
    reordered; P is 1, they receive the orders 1 and 2, and the running
    queue keeps its order 2, after the first pending queue and level with
    the second. *)
Theorem reorder_puts_pending_before_running :
  (∀ db now unitID userID unit ids,
     V2.well_keyed db ->
     V2.first_unit db unitID userID = Some unit ->
     (∀ id, id ∈ ids ->
        ∃ q, V2.queues db !! id = Some q ∧ V2.TrainingQueue.UnitID q = unitID ∧
             V2.TrainingQueue.UserID q = userID ∧ V2.TrainingQueue.Status q = "pending" ∧
             V2.accepts_queue q = true) ->
     in_int64 (V2.TrainingUnit.Version unit) -> V2.TrainingUnit.Version unit < max_int64 ->
     let P := V2.count_status_in db unitID ["running"; "completed"; "failed"] in
     let r := V2.ReorderQueues db now unitID userID (Some ids) in
     V2.status r.1 = 200 ∧
     (∀ i id, ids !! i = Some id -> id ∉ drop (S i) ids ->
        V2.order_of r.2 id = Some (P + Z.of_nat i)) ∧
     V2.version_of r.2 unitID = Some (V2.TrainingUnit.Version unit + 1) ∧
     (∀ id, id ∉ ids -> V2.queues r.2 !! id = V2.queues db !! id) ∧
     ((∀ id q, V2.queues db !! id = Some q -> V2.TrainingQueue.UnitID q = unitID ->
         V2.TrainingQueue.Status q ≠ "pending" -> V2.TrainingQueue.Order q < P) ->
      V2.non_pending_first r.2 unitID ids)) ∧
  let db := V2.store_last_started in
  let ids := ["queue_0000000a"; "queue_0000000b"] in
  let r := V2.ReorderQueues db 6 "unit_00000001" "u1" (Some ids) in
  ((λ id, V2.TrainingQueue.Status <$> V2.queues db !! id) <$> ["queue_0000000a"; "queue_0000000b"; "queue_0000000c"])
    = [Some "pending"; Some "pending"; Some "running"] ∧
  (V2.order_of db <$> ["queue_0000000a"; "queue_0000000b"; "queue_0000000c"])
    = [Some 0; Some 1; Some 2] ∧
  (∀ id, id ∈ ids ->
     ∃ q, V2.queues db !! id = Some q ∧ V2.TrainingQueue.UnitID q = "unit_00000001" ∧
          V2.TrainingQueue.UserID q = "u1" ∧ V2.TrainingQueue.Status q = "pending") ∧
  V2.count_status_in db "unit_00000001" ["running"; "completed"; "failed"] = 1 ∧
  V2.status r.1 = 200 ∧
  ((λ id, V2.TrainingQueue.Status <$> V2.queues r.2 !! id) <$> ["queue_0000000a"; "queue_0000000b"; "queue_0000000c"])
    = [Some "pending"; Some "pending"; Some "running"] ∧
  (V2.order_of r.2 <$> ["queue_0000000a"; "queue_0000000b"; "queue_0000000c"])
    = [Some 1; Some 2; Some 2] ∧
  ¬ V2.non_pending_first r.2 "unit_00000001" ids.
Proof.
  split; [exact reorder_spec|].
  intros db ids r. repeat split; try (vm_compute; reflexivity).
  - intros id Hin. apply elem_of_cons in Hin as [->|Hin].
    + vm_compute. eexists. repeat split.
    + apply elem_of_cons in Hin as [->|Hin].
      * vm_compute. eexists. repeat split.
      * exfalso. eapply not_elem_of_nil, Hin.
  - intros H.
    assert (∃ q, V2.queues r.2 !! "queue_0000000c" = Some q ∧
                 V2.TrainingQueue.UnitID q = "unit_00000001" ∧
                 V2.TrainingQueue.Status q = "running" ∧ V2.TrainingQueue.Order q = 2)
      as (qc & Hqc & Hunit & Hstatus & Horder) by (vm_compute; eexists; repeat split).
    assert (∃ q, V2.queues r.2 !! "queue_0000000a" = Some q ∧ V2.TrainingQueue.Order q = 1)
      as (qa & Hqa & Horder') by (vm_compute; eexists; repeat split).
    specialize (H "queue_0000000c" qc "queue_0000000a" qa Hqc Hunit).
    rewrite Hstatus, Horder, Horder' in H.
    assert (2 < 1) as Habs; [|lia].
    apply H; [discriminate| |exact Hqa]. left.
Qed.

(** ** The version of a unit *)

Section V2Version.
Import V2.

Lemma version_of_units db db' id :
  units db' = units db -> version_of db' id = version_of db id.
Proof. unfold version_of. by intros ->. Qed.

Lemma version_update_unit_keep db now k f id :
  (∀ u, TrainingUnit.Version (f u) = TrainingUnit.Version u) ->
  version_of (update_unit db now k f) id = version_of db id.
Proof.
  intros Hf. unfold version_of, update_unit. cbn [units]. rewrite lookup_alter.
  case_decide as Hk; [subst k|done]. destruct (units db !! id) as [u|]; simpl; [|done].
  by rewrite Hf.
Qed.

Lemma version_update_unit_set db now k x id :
  version_of (update_unit db now k (λ u, TrainingUnit.set_Version u x)) id =
  if decide (k = id) then (λ _, x) <$> version_of db id else version_of db id.
Proof.
  unfold version_of, update_unit. cbn [units]. rewrite lookup_alter.
  case_decide as Hk; [subst k|done]. by destruct (units db !! id).
Qed.

Lemma version_sql_increment db now k id :
  version_of (sql_increment_version db now k) id =
  if decide (k = id)
  then (λ v, if v <? max_int64 then v + 1 else v) <$> version_of db id
  else version_of db id.
Proof.
  unfold version_of, sql_increment_version. cbn [units]. rewrite lookup_alter.
  case_decide as Hk; [subst k|done]. destruct (units db !! id) as [u|]; simpl; [|done].
  by destruct (TrainingUnit.Version u <? max_int64).
Qed.

Lemma version_save_unit db now u u' db' id :
  save_unit db now u = Some (u', db') ->
  version_of db' id =
  if decide (TrainingUnit.ID u = id) then Some (TrainingUnit.Version u)
  else version_of db id.
Proof.
  intros (_ & -> & ->)%save_unit_Some. unfold version_of. cbn [units].
  rewrite lookup_insert. by case_decide.
Qed.

Lemma units_save_queue db now q q' db' :
  save_queue db now q = Some (q', db') -> units db' = units db.
Proof. by intros (_ & _ & ->)%save_queue_Some. Qed.

Lemma units_create_queue db now q q' db' :
  create_queue db now q = Some (q', db') -> units db' = units db.
Proof. by intros (_ & _ & _ & ->)%create_queue_Some. Qed.

Lemma units_batch_loop now uuids unitID userID createdBy maxOrder items :
  ∀ db i queueIDs,
  units (batch_loop db now uuids unitID userID createdBy maxOrder i items queueIDs).2
  = units db.
Proof.
  induction items as [|item items IH]; intros db i queueIDs; [done|].
  cbn [batch_loop].
  destruct (create_queue db now _) as [[q' db']|] eqn:Hc; rewrite IH; [|done].
  by eapply units_create_queue.
Qed.

Lemma units_reorder_loop now startOrder ids :
  ∀ db queueMap i, units (reorder_loop db now queueMap startOrder i ids).2 = units db.
Proof.
  induction ids as [|id ids IH]; intros db queueMap i; [done|].
  cbn [reorder_loop]. destruct (queueMap !! id); [|apply IH].
  destruct (save_queue db now _) as [[q' db']|] eqn:Hs; [|done].
  rewrite IH. by eapply units_save_queue.
Qed.

Lemma version_checkConnectionStatus db now u id :
  version_of (checkConnectionStatus db now u).2 id = version_of db id.
Proof.
  unfold checkConnectionStatus. destruct (TrainingUnit.LastHeartbeat u); [|done].
  destruct (_ <? _); [|done]. case_decide; [|done]. cbn [snd].
  by apply version_update_unit_keep.
Qed.

Lemma version_list_units_loop now us :
  ∀ db id, version_of (list_units_loop db now us).2 id = version_of db id.
Proof.
  induction us as [|u us IH]; intros db id; [done|].
  cbn [list_units_loop].
  destruct (checkConnectionStatus db now u) as [u' db1] eqn:Hc.
  specialize (IH db1 id). destruct (list_units_loop db1 now us) as [l db2].
  cbn [snd] in *. rewrite IH.
  change db1 with (u', db1).2. rewrite <- Hc. apply version_checkConnectionStatus.
Qed.

Lemma not_succeeded_failure code message :
  code ≠ 200 -> code ≠ 201 -> ¬ succeeded (failure code message).
Proof. unfold succeeded, failure. simpl. intros ? ? [?|?]; done. Qed.

(** The requests that read. *)
Lemma read_keeps_version db op id :
  well_keyed db -> is_read op = true ->
  version_of (handle db op).2 id = version_of db id.
Proof.
  intros [Hku Hkq] Hread. destruct op; try discriminate; cbn [handle].
  - unfold ListTrainingQueues. destruct (first_unit _ _ _); [|done]. by destruct (Find _ _ _).
  - unfold GetTrainingQueue. by destruct (first_queue _ _ _).
  - unfold StartQueue. destruct (first_queue _ _ _); [|done]. case_decide; [done|].
    destruct (save_queue db now _) as [[q' db']|] eqn:Hs; [|done].
    cbn [snd]. rewrite version_update_unit_keep by done.
    apply version_of_units. by eapply units_save_queue.
  - unfold CompleteQueue. destruct req; [|done]. destruct (first_queue _ _ _); [|done].
    destruct (save_queue db now _) as [[q' db']|] eqn:Hs; [|done].
    apply version_of_units. by eapply units_save_queue.
  - unfold FailQueue. destruct req; [|done]. destruct (first_queue _ _ _); [|done].
    destruct (save_queue db now _) as [[q' db']|] eqn:Hs; [|done].
    apply version_of_units. by eapply units_save_queue.
  - unfold ListTrainingUnits. destruct (first_group _ _ _); [|done].
    pose proof (version_list_units_loop now (units_of_group db groupID) db id) as Hl.
    by destruct (list_units_loop _ _ _).
  - unfold GetTrainingUnit. destruct (first_unit _ _ _) as [u|]; [|done].
    pose proof (version_checkConnectionStatus db now u id) as Hc.
    by destruct (checkConnectionStatus _ _ _).
  - unfold SyncTrainingUnit. destruct req; [|done]. by destruct (first_unit _ _ _).
  - unfold Heartbeat. destruct (first_unit _ _ _) as [u|] eqn:Hu; [|done].
    apply first_unit_Some in Hu as [Hu _]. pose proof (Hku _ _ Hu) as Hid.
    destruct (save_unit db now _) as [[u2 db2]|] eqn:Hs; [|done].
    cbn [snd]. rewrite (version_save_unit _ _ _ _ _ id Hs).
    cbn [TrainingUnit.ID TrainingUnit.set_ConnectionStatus
         TrainingUnit.set_LastHeartbeat TrainingUnit.Version]. rewrite Hid.
    case_decide as Heq; [|done]. subst id. unfold version_of. by rewrite Hu.
  - done.
  - unfold GetGroup. by destruct (first_group _ _ _).
Qed.

(** The five requests that are to advance the version of their unit. *)
Lemma mutation_advances_version db op id v :
  well_keyed db -> version_of db id = Some v -> in_int64 v -> v < max_int64 ->
  is_Some (target_unit db op) ∨ (∃ now q u r, op = OpUpdateQueue now q u r) ∨
    (∃ now q u, op = OpDeleteQueue now q u) ->
  (succeeded (handle db op).1 ∧ target_unit db op = Some id ∧
   version_of (handle db op).2 id = Some (v + 1)) ∨
  ((¬ succeeded (handle db op).1 ∨ target_unit db op ≠ Some id) ∧
   version_of (handle db op).2 id = Some v).
Proof.
  intros [Hku Hkq] Hv Hrange Hmax Hop.
  assert (∀ u, units db !! id = Some u -> TrainingUnit.Version u = v) as Hrow.
  { intros u Hu. unfold version_of in Hv. rewrite Hu in Hv. by injection Hv. }
  destruct op; cbn [handle target_unit] in *;
    try (destruct Hop as [[? [=]]|[(? & ? & ? & ? & [=])|(? & ? & ? & [=])]]; fail).
  - (* create-queue *)
    unfold CreateTrainingQueue. destruct req as [req|];
      [|right; split; [left; by apply not_succeeded_failure|done]].
    destruct (first_unit db unitID userID) as [u|] eqn:Hu;
      [|right; split; [left; by apply not_succeeded_failure|done]].
    apply first_unit_Some in Hu as [Hu _]. pose proof (Hku _ _ Hu) as Hid.
    destruct (create_queue db now _) as [[q' db']|] eqn:Hc;
      [|right; split; [left; by apply not_succeeded_failure|done]].
    cbn [fst snd]. rewrite version_update_unit_set, Hid.
    rewrite !(version_of_units db db' id) by by eapply units_create_queue. rewrite Hv.
    match goal with |- context [decide (?a = id)] =>
      destruct (decide (a = id)) as [Heq|Heq] end.
    + left. subst id. split; [by right|]. split; [done|]. simpl.
      rewrite (Hrow _ Hu). by rewrite wrap64_succ.
    + right. split; [right; congruence|done].
  - (* batch-create *)
    unfold BatchCreateQueues. destruct req as [req|];
      [|right; split; [left; by apply not_succeeded_failure|done]].
    destruct (first_unit db unitID userID) as [u|] eqn:Hu;
      [|right; split; [left; by apply not_succeeded_failure|done]].
    apply first_unit_Some in Hu as [Hu _]. pose proof (Hku _ _ Hu) as Hid.
    match goal with |- context [batch_loop ?a ?b ?c ?d ?e ?f ?g ?h ?i ?j] =>
      pose proof (units_batch_loop b c d e f g i a h j) as Hunits;
      destruct (batch_loop a b c d e f g h i j) as [queueIDs db1] end.
    cbn [fst snd] in *. rewrite version_update_unit_set, Hid.
    rewrite !(version_of_units db db1 id) by done. rewrite Hv.
    match goal with |- context [decide (?a = id)] =>
      destruct (decide (a = id)) as [Heq|Heq] end.
    + left. subst id. split; [by right|]. split; [done|]. simpl.
      rewrite (Hrow _ Hu). by rewrite wrap64_succ.
    + right. split; [right; congruence|done].
  - (* update-queue *)
    unfold UpdateTrainingQueue. destruct req as [req|];
      [|right; split; [left; by apply not_succeeded_failure|done]].
    destruct (first_queue db queueID userID) as [q|] eqn:Hq;
      [|right; split; [left; by apply not_succeeded_failure|done]].
    case_decide; [right; split; [left; by apply not_succeeded_failure|done]|].
    case_decide; [right; split; [left; by apply not_succeeded_failure|done]|].
    destruct (save_queue db now _) as [[q' db']|] eqn:Hs;
      [|right; split; [left; by apply not_succeeded_failure|done]].
    cbn [fst snd]. rewrite version_sql_increment.
    rewrite !(version_of_units db db' id) by by eapply units_save_queue. rewrite Hv.
    apply save_queue_Some in Hs as (_ & -> & _).
    match goal with |- context [decide (?k = id)] =>
      replace k with (TrainingQueue.UnitID q)
        by (destruct (decide (req_Name req = "")); by destruct (req_Parameters req)) end.
    simpl. match goal with |- context [decide (?a = id)] =>
      destruct (decide (a = id)) as [Heq|Heq] end.
    + left. split; [by left|]. split; [by rewrite Heq|].
      apply Z.ltb_lt in Hmax. by rewrite Hmax.
    + right. split; [right; congruence|done].
  - (* delete-queue *)
    unfold DeleteTrainingQueue.
    destruct (first_queue db queueID userID) as [q|] eqn:Hq;
      [|right; split; [left; by apply not_succeeded_failure|done]].
    case_decide; [right; split; [left; by apply not_succeeded_failure|done]|].
    cbn [fst snd]. rewrite version_sql_increment.
    rewrite !(version_of_units db (delete_queue _ _) id) by done. rewrite Hv.
    simpl. match goal with |- context [decide (?a = id)] =>
      destruct (decide (a = id)) as [Heq|Heq] end.
    + left. split; [by left|]. split; [by rewrite Heq|].
      apply Z.ltb_lt in Hmax. by rewrite Hmax.
    + right. split; [right; congruence|done].
  - (* update-unit *)
    unfold UpdateTrainingUnit. destruct req as [req|];
      [|right; split; [left; by apply not_succeeded_failure|done]].
    destruct (first_unit db unitID userID) as [u|] eqn:Hu;
      [|right; split; [left; by apply not_succeeded_failure|done]].
    apply first_unit_Some in Hu as [Hu _]. pose proof (Hku _ _ Hu) as Hid.
    match goal with |- context [save_unit db now ?u'] =>
      assert (TrainingUnit.ID u' = unitID ∧
              TrainingUnit.Version u' = wrap64 (TrainingUnit.Version u + 1)) as [Hid' Hver]
        by (destruct (decide (unit_Name req = "")); by destruct (unit_Config req));
      destruct (save_unit db now u') as [[u2 db2]|] eqn:Hs end;
      [|right; split; [left; by apply not_succeeded_failure|done]].
    cbn [fst snd] in *. rewrite (version_save_unit _ _ _ _ _ id Hs), Hid', Hver.
    match goal with |- context [decide (?a = id)] =>
      destruct (decide (a = id)) as [Heq|Heq] end.
    + left. subst id. split; [by left|]. split; [done|].
      rewrite (Hrow _ Hu). by rewrite wrap64_succ.
    + right. split; [right; congruence|done].
Qed.

Lemma reorder_version db now unitID userID req id v :
  well_keyed db -> version_of db id = Some v -> in_int64 v -> v < max_int64 ->
  version_of (ReorderQueues db now unitID userID req).2 id = Some v ∨
  (version_of (ReorderQueues db now unitID userID req).2 id = Some (v + 1) ∧
   unitID = id ∧ status (ReorderQueues db now unitID userID req).1 = 200).
Proof.
  intros [Hku Hkq] Hv Hrange Hmax. unfold ReorderQueues.
  destruct req as [ids|]; [|by left].
  destruct (first_unit db unitID userID) as [u|] eqn:Hu; [|by left].
  apply first_unit_Some in Hu as [Hu _]. pose proof (Hku _ _ Hu) as Hid.
  case_decide; [by left|]. case_decide; [by left|].
  match goal with |- context [reorder_loop ?a ?b ?c ?d ?e ?f] =>
    pose proof (units_reorder_loop b d f a c e) as Hunits;
    destruct (reorder_loop a b c d e f) as [[] db1] end; cbn [fst snd] in *.
  2:{ left. by rewrite (version_of_units db db1 id). }
  rewrite version_update_unit_set, Hid.
  rewrite !(version_of_units db db1 id) by done.
  rewrite Hv.
  match goal with |- context [decide (?a = id)] =>
    destruct (decide (a = id)) as [Heq|Heq] end; [|by left]. right. subst id. simpl.
  unfold version_of in Hv. rewrite Hu in Hv. injection Hv as ->. by rewrite wrap64_succ.
Qed.

Lemma create_unit_version db now uuid groupID userID req id v :
  version_of db id = Some v ->
  version_of (CreateTrainingUnit db now uuid groupID userID req).2 id = Some v.
Proof.
  intros Hv. unfold CreateTrainingUnit. destruct req as [req|]; [|done].
  destruct (first_group _ _ _); [|done].
  destruct (create_unit db now _) as [[u' db']|] eqn:Hc; [|done].
  apply create_unit_Some in Hc as (_ & Hfresh & _ & ->). cbn [snd].
  unfold version_of. cbn [units]. rewrite lookup_insert_ne; [done|].
  intros Heq. unfold version_of in Hv. rewrite <- Heq, Hfresh in Hv. done.
Qed.

(** The group requests: only the deletion of a group touches the units,
    and it removes the units of the group. *)
Lemma delete_group_version db groupID userID id v :
  version_of db id = Some v ->
  version_of (DeleteGroup db groupID userID).2 id = Some v ∨
  version_of (DeleteGroup db groupID userID).2 id = None.
Proof.
  intros Hv. unfold DeleteGroup. destruct (first_group _ _ _); [|by left]. cbn [snd].
  unfold version_of, delete_group in *. cbn [units].
  destruct (units db !! id) as [u|] eqn:Hu; [|done].
  destruct (filter _ (units db) !! id) as [u'|] eqn:Hf; [|by right].
  apply map_lookup_filter_Some in Hf as [Hf _]. rewrite Hu in Hf. injection Hf as <-.
  by left.
Qed.

Lemma group_write_version db op id :
  (∃ now uuid userID req, op = OpCreateGroup now uuid userID req) ∨
  (∃ now groupID userID req, op = OpUpdateGroup now groupID userID req) ->
  version_of (handle db op).2 id = version_of db id.
Proof.
  intros [(now & uuid & userID & req & ->)|(now & groupID & userID & req & ->)];
    cbn [handle].
  - unfold CreateGroup. destruct req; [|done].
    destruct (create_group db now _) as [[g' db']|] eqn:Hc; [|done].
    by apply create_group_Some in Hc as (_ & _ & _ & ->).
  - unfold UpdateGroup. destruct req; [|done]. destruct (first_group _ _ _); [|done].
    destruct (save_group db now _) as [[g' db']|] eqn:Hs; [|done].
    by apply save_group_Some in Hs as (_ & _ & ->).
Qed.

Lemma delete_unit_version db unitID userID id v :
  version_of db id = Some v ->
  version_of (DeleteTrainingUnit db unitID userID).2 id = Some v ∨
  (version_of (DeleteTrainingUnit db unitID userID).2 id = None ∧ unitID = id).
Proof.
  intros Hv. unfold DeleteTrainingUnit. destruct (0 <? _); [by left|].
  destruct (first_unit _ _ _); [|by left]. cbn [snd]. unfold version_of. cbn [units].
  rewrite lookup_delete. case_decide; [by right|by left].
Qed.

(** The table takes a row that it holds and whose name and parameters,
    or name, description and configuration, are replaced by values that
    fit their columns. *)
Lemma accepts_updated_queue q name params :
  accepts_queue q = true -> Postgres.varchar 255 name = true ->
  Postgres.jsonb params = true ->
  accepts_queue (match params with
                 | None => if decide (name = "") then q else TrainingQueue.set_Name q name
                 | Some p => TrainingQueue.set_Parameters
                               (if decide (name = "") then q
                                else TrainingQueue.set_Name q name) (Some p)
                 end) = true.
Proof.
  unfold accepts_queue. rewrite !andb_true_iff.
  intros (((((((((H1 & H2) & H3) & H4) & H5) & H6) & H7) & H8) & H9) & H10) Hn Hp.
  destruct params as [p|]; case_decide; simpl;
    rewrite ?H1, ?H2, ?H3, ?H4, ?H5, ?H6, ?H7, ?H8, ?H9, ?H10, ?Hn, ?Hp; done.
Qed.

Lemma accepts_updated_unit u name description config version :
  accepts_unit u = true -> Postgres.varchar 255 name = true ->
  Postgres.text description = true -> Postgres.jsonb config = true ->
  accepts_unit
    (TrainingUnit.set_Version
       (match config with
        | None => TrainingUnit.set_Description
                    (if decide (name = "") then u else TrainingUnit.set_Name u name)
                    description
        | Some cfg => TrainingUnit.set_Config
                        (TrainingUnit.set_Description
                           (if decide (name = "") then u else TrainingUnit.set_Name u name)
                           description) (Some cfg)
        end) version) = true.
Proof.
  unfold accepts_unit. rewrite !andb_true_iff.
  intros (((((((H1 & H2) & H3) & H4) & H5) & H6) & H7) & H8) Hn Hd Hc.
  destruct config as [cfg|]; case_decide; simpl;
    rewrite ?H1, ?H2, ?H3, ?H4, ?H5, ?H6, ?H7, ?H8, ?Hn, ?Hd, ?Hc; done.
Qed.

(** When the five requests are answered 200 or 201. *)
Lemma create_queue_status db now uuid unitID userID unit req :
  first_unit db unitID userID = Some unit ->
  queues db !! queue_id uuid = None ->
  Postgres.varchar 100 (queue_id uuid) = true ->
  Postgres.varchar 100 unitID = true -> Postgres.varchar 100 userID = true ->
  Postgres.varchar 255 (create_Name req) = true ->
  Postgres.jsonb (Some (create_Parameters req)) = true ->
  Postgres.varchar 20 (if decide (create_CreatedBy req = "") then "web"
                       else create_CreatedBy req) = true ->
  status (CreateTrainingQueue db now uuid unitID userID (Some req)).1 = 201.
Proof.
  intros Hunit Hfresh Hid Hun Hus Hname Hparams Hby.
  unfold CreateTrainingQueue. rewrite Hunit. fold (queue_id uuid).
  unfold create_queue. cbn [TrainingQueue.ID].
  rewrite accepts_new_queue by done. by rewrite Hfresh.
Qed.

Lemma batch_create_status db now uuids unitID userID unit req :
  first_unit db unitID userID = Some unit ->
  status (BatchCreateQueues db now uuids unitID userID (Some req)).1 = 201.
Proof.
  intros Hunit. unfold BatchCreateQueues. rewrite Hunit.
  by destruct (batch_loop _ _ _ _ _ _ _ _ _ _).
Qed.

Lemma update_queue_status db now queueID userID q req :
  first_queue db queueID userID = Some q ->
  TrainingQueue.Status q ≠ "running" -> TrainingQueue.Status q ≠ "completed" ->
  accepts_queue q = true -> Postgres.varchar 255 (req_Name req) = true ->
  Postgres.jsonb (req_Parameters req) = true ->
  status (UpdateTrainingQueue db now queueID userID (Some req)).1 = 200.
Proof.
  intros Hq Hrun Hdone Hok Hname Hparams. unfold UpdateTrainingQueue. rewrite Hq.
  rewrite !decide_False by done. unfold save_queue.
  pose proof (accepts_updated_queue q (req_Name req) (req_Parameters req) Hok Hname Hparams)
    as Hnew.
  destruct (req_Parameters req); by rewrite Hnew.
Qed.

Lemma delete_queue_status db now queueID userID q :
  first_queue db queueID userID = Some q -> TrainingQueue.Status q ≠ "running" ->
  status (DeleteTrainingQueue db now queueID userID).1 = 200 ∧
  queues (DeleteTrainingQueue db now queueID userID).2 !! TrainingQueue.ID q = None.
Proof.
  intros Hq Hrun. unfold DeleteTrainingQueue. rewrite Hq. rewrite decide_False by done.
  split; [done|]. cbn [snd]. unfold sql_increment_version, delete_queue. cbn [queues].
  apply lookup_delete_eq.
Qed.

Lemma update_unit_status db now unitID userID unit req :
  first_unit db unitID userID = Some unit ->
  accepts_unit unit = true -> Postgres.varchar 255 (unit_Name req) = true ->
  Postgres.text (unit_Description req) = true -> Postgres.jsonb (unit_Config req) = true ->
  status (UpdateTrainingUnit db now unitID userID (Some req)).1 = 200.
Proof.
  intros Hunit Hok Hname Hdesc Hcfg. unfold UpdateTrainingUnit. rewrite Hunit.
  unfold save_unit.
  pose proof (accepts_updated_unit unit (unit_Name req) (unit_Description req)
                (unit_Config req) (wrap64 (TrainingUnit.Version unit + 1))
                Hok Hname Hdesc Hcfg) as Hnew.
  destruct (unit_Config req); cbn [TrainingUnit.Version] in *.
  - replace (TrainingUnit.Version _) with (TrainingUnit.Version unit)
      by by case_decide.
    by rewrite Hnew.
  - replace (TrainingUnit.Version _) with (TrainingUnit.Version unit)
      by by case_decide.
    by rewrite Hnew.
Qed.

(** A request of the five kinds that is answered 200 or 201 and aimed at
    the unit takes the version from [v] to [v + 1]. *)
Lemma success_advances_version db op id v :
  well_keyed db -> version_of db id = Some v -> in_int64 v -> v < max_int64 ->
  succeeded (handle db op).1 -> target_unit db op = Some id ->
  version_of (handle db op).2 id = Some (v + 1).
Proof.
  intros Hkeyed Hv Hrange Hmax Hs Ht.
  destruct (mutation_advances_version db op id v Hkeyed Hv Hrange Hmax)
    as [(_ & _ & Hv')|([Hs'|Ht'] & _)]; [|done..].
  left. by rewrite Ht.
Qed.

End V2Version.

(** C7.  On a store whose rows lie under their own keys, for a unit with
    a version [v] below the largest Go integer.  Whatever the request,
    the version afterwards is [v] or [v + 1], unless the request deletes
    the unit or its group, so it never decreases; it is [v + 1] only after
    one of the five mutating requests aimed at the unit, or a reorder of
    the unit, was answered 200 or 201; a read (get, list, sync,
    heartbeat, queue start, complete and fail) leaves it at [v].  Each of
    the five mutating requests is answered 200 or 201 and makes the
    version exactly [v + 1]: create-queue on a unit of the caller with a
    free id and values that fit the columns; batch-create on a unit of
    the caller, once for the whole batch whatever its elements;
    update-queue on a queue of the caller in this unit that is neither
    running nor completed; delete-queue on such a queue that is not
    running, which is gone afterwards; update-unit on the unit of the
    caller. *)
Theorem unit_version_advances_by_one db unitID v :
  V2.well_keyed db ->
  V2.version_of db unitID = Some v -> in_int64 v -> v < max_int64 ->
  (∀ op,
     let r := V2.handle db op in
     (V2.version_of r.2 unitID = Some v ∨
      (V2.version_of r.2 unitID = Some (v + 1) ∧ V2.succeeded r.1 ∧
       (V2.target_unit db op = Some unitID ∨
        ∃ now userID req, op = V2.OpReorderQueues now unitID userID req)) ∨
      (V2.version_of r.2 unitID = None ∧
       ((∃ userID, op = V2.OpDeleteUnit unitID userID) ∨
        (∃ groupID userID, op = V2.OpDeleteGroup groupID userID)))) ∧
     (V2.is_read op = true -> V2.version_of r.2 unitID = Some v) ∧
     (V2.succeeded r.1 -> V2.target_unit db op = Some unitID ->
      V2.version_of r.2 unitID = Some (v + 1))) ∧
  (∀ now uuid userID unit req,
     V2.first_unit db unitID userID = Some unit ->
     V2.queues db !! V2.queue_id uuid = None ->
     Postgres.varchar 100 (V2.queue_id uuid) = true ->
     Postgres.varchar 100 unitID = true -> Postgres.varchar 100 userID = true ->
     Postgres.varchar 255 (V2.create_Name req) = true ->
     Postgres.jsonb (Some (V2.create_Parameters req)) = true ->
     Postgres.varchar 20 (if decide (V2.create_CreatedBy req = "") then "web"
                          else V2.create_CreatedBy req) = true ->
     let r := V2.CreateTrainingQueue db now uuid unitID userID (Some req) in
     V2.status r.1 = 201 ∧ V2.version_of r.2 unitID = Some (v + 1)) ∧
  (∀ now uuids userID unit req,
     V2.first_unit db unitID userID = Some unit ->
     let r := V2.BatchCreateQueues db now uuids unitID userID (Some req) in
     V2.status r.1 = 201 ∧ V2.version_of r.2 unitID = Some (v + 1)) ∧
  (∀ now queueID userID q req,
     V2.first_queue db queueID userID = Some q ->
     V2.TrainingQueue.UnitID q = unitID ->
     V2.TrainingQueue.Status q ≠ "running" -> V2.TrainingQueue.Status q ≠ "completed" ->
     V2.accepts_queue q = true -> Postgres.varchar 255 (V2.req_Name req) = true ->
     Postgres.jsonb (V2.req_Parameters req) = true ->
     let r := V2.UpdateTrainingQueue db now queueID userID (Some req) in
     V2.status r.1 = 200 ∧ V2.version_of r.2 unitID = Some (v + 1)) ∧
  (∀ now queueID userID q,
     V2.first_queue db queueID userID = Some q ->
     V2.TrainingQueue.UnitID q = unitID ->
     V2.TrainingQueue.Status q ≠ "running" ->
     let r := V2.DeleteTrainingQueue db now queueID userID in
     V2.status r.1 = 200 ∧ V2.version_of r.2 unitID = Some (v + 1) ∧
     V2.queues r.2 !! queueID = None) ∧
  (∀ now userID unit req,
     V2.first_unit db unitID userID = Some unit ->
     V2.accepts_unit unit = true -> Postgres.varchar 255 (V2.unit_Name req) = true ->
     Postgres.text (V2.unit_Description req) = true ->
     Postgres.jsonb (V2.unit_Config req) = true ->
     let r := V2.UpdateTrainingUnit db now unitID userID (Some req) in
     V2.status r.1 = 200 ∧ V2.version_of r.2 unitID = Some (v + 1)).
Proof.
  intros Hkeyed Hv Hrange Hmax.
  pose proof (λ op, success_advances_version db op unitID v Hkeyed Hv Hrange Hmax) as Hup.
  split; [|split; [|split; [|split; [|split]]]].
  - intros op r. subst r.
    assert (V2.is_read op = true ->
            V2.version_of (V2.handle db op).2 unitID = Some v) as Hread.
    { intros Hr. by rewrite read_keeps_version. }
    assert ((∃ o, V2.target_unit db op = Some o) ∨
            (∃ now q u r, op = V2.OpUpdateQueue now q u r) ∨
            (∃ now q u, op = V2.OpDeleteQueue now q u) ->
            (V2.version_of (V2.handle db op).2 unitID = Some v ∨
             (V2.version_of (V2.handle db op).2 unitID = Some (v + 1) ∧
              V2.succeeded (V2.handle db op).1 ∧ V2.target_unit db op = Some unitID)) ∧
            (V2.succeeded (V2.handle db op).1 -> V2.target_unit db op = Some unitID ->
             V2.version_of (V2.handle db op).2 unitID = Some (v + 1))) as Hmut.
    { intros Hop.
      destruct (mutation_advances_version db op unitID v Hkeyed Hv Hrange Hmax)
        as [(Hs & Ht & Hv')|([Hs|Ht] & Hv')].
      - destruct Hop as [[o Ho]|Hop]; [left; by rewrite Ho|by right].
      - split; [by right|done].
      - split; [by left|done].
      - split; [by left|done]. }
    destruct op;
      try (split; [left; by apply Hread|split; [done|by intros _ [=]]]);
      try (destruct Hmut as [[Ha|(Ha & Hs & Ht)] Hc];
           [first [left; by eexists | right; left; by repeat eexists
                  | right; right; by repeat eexists]
           |by (split; [left|split; [done|]])
           |by (split; [right; left; split; [done|split; [done|by left]]|split; [done|]])]).
    + (* reorder *)
      split; [|split; [done|by intros _ [=]]].
      destruct (reorder_version db now unitID0 userID req unitID v Hkeyed Hv Hrange Hmax)
        as [H|(H & -> & Hst)]; [by left|]. right. left. split; [done|].
      split; [by left|]. right. by repeat eexists.
    + (* create-unit *)
      split; [|split; [done|by intros _ [=]]]. left.
      by apply create_unit_version.
    + (* delete-unit *)
      split; [|split; [done|by intros _ [=]]].
      destruct (delete_unit_version db unitID0 userID unitID v Hv) as [H|[H ->]];
        [by left|]. right. right. split; [done|]. left. by exists userID.
    + (* create-group *)
      split; [|split; [done|by intros _ [=]]]. left.
      rewrite group_write_version; [done|]. left. by repeat eexists.
    + (* update-group *)
      split; [|split; [done|by intros _ [=]]]. left.
      rewrite group_write_version; [done|]. right. by repeat eexists.
    + (* delete-group *)
      split; [|split; [done|by intros _ [=]]].
      destruct (delete_group_version db groupID userID unitID v Hv) as [H|H];
        [by left|]. right. right. split; [done|]. right. by repeat eexists.
  - intros now uuid userID unit req Hunit Hfresh Hid Hun Hus Hname Hparams Hby r.
    assert (V2.status r.1 = 201) as Hst by by eapply create_queue_status.
    split; [done|].
    apply (Hup (V2.OpCreateQueue now uuid unitID userID (Some req))); [by right|done].
  - intros now uuids userID unit req Hunit r.
    assert (V2.status r.1 = 201) as Hst by by eapply batch_create_status.
    split; [done|].
    apply (Hup (V2.OpBatchCreateQueues now uuids unitID userID (Some req)));
      [by right|done].
  - intros now queueID userID q req Hq Hun Hrun Hdone Hok Hname Hparams r.
    assert (V2.status r.1 = 200) as Hst by by eapply update_queue_status.
    split; [done|].
    apply (Hup (V2.OpUpdateQueue now queueID userID (Some req))); [by left|].
    cbn [V2.target_unit]. rewrite Hq. simpl. by rewrite Hun.
  - intros now queueID userID q Hq Hun Hrun r.
    destruct (delete_queue_status db now queueID userID q Hq Hrun) as [Hst Hgone].
    split; [done|]. split.
    + apply (Hup (V2.OpDeleteQueue now queueID userID)); [by left|].
      cbn [V2.target_unit]. rewrite Hq. simpl. by rewrite Hun.
    + apply first_queue_Some in Hq as [Hq _]. destruct Hkeyed as [_ Hkq].
      by rewrite (Hkq _ _ Hq) in Hgone.
  - intros now userID unit req Hunit Hok Hname Hdesc Hcfg r.
    assert (V2.status r.1 = 200) as Hst by by eapply update_unit_status.
    split; [done|].
    apply (Hup (V2.OpUpdateUnit now unitID userID (Some req))); [by left|done].
Qed.

Lemma unit_version_advances_by_one_witness :
  let db := V2.store_with_queues in
  let uuids := λ i : nat, match i with
                          | O => "0000000e-aaaa"
                          | _ => "0000000f-aaaa"
                          end in
  let after := λ op, (V2.status (V2.handle db op).1,
                      V2.version_of (V2.handle db op).2 "unit_00000001") in
  V2.version_of db "unit_00000001" = Some 4 ∧
  after (V2.OpCreateQueue 9 "0000000d-aaaa" "unit_00000001" "u1"
           (Some (V2.mkCreateQueueReq "lr=0.4" ∅ "web"))) = (201, Some 5) ∧
  after (V2.OpBatchCreateQueues 9 uuids "unit_00000001" "u1"
           (Some (V2.mkBatchCreateReq [("lr=0.5", Some ∅); ("lr=0.6", None)] "")))
    = (201, Some 5) ∧
  after (V2.OpUpdateQueue 9 "queue_0000000a" "u1" (Some (V2.mkQueueReq "lr=0.5" None)))
    = (200, Some 5) ∧
  after (V2.OpDeleteQueue 9 "queue_0000000b" "u1") = (200, Some 5) ∧
  after (V2.OpUpdateUnit 9 "unit_00000001" "u1" (Some (V2.mkUnitReq "resnet50" "" None)))
    = (200, Some 5) ∧
  after (V2.OpSyncUnit "unit_00000001" "u1" (Some 1)) = (200, Some 4).
Proof.
  intros db uuids after.
  assert (V2.well_keyed db) as Hkeyed.
  { apply well_keyed_by_computation; apply (bool_decide_unpack _); vm_compute; exact I. }
  assert (V2.version_of db "unit_00000001" = Some 4) as Hv by (vm_compute; reflexivity).
  assert (in_int64 4) as Hrange by (vm_compute; split; discriminate).
  assert (4 < max_int64) as Hmax by reflexivity.
  destruct (unit_version_advances_by_one db "unit_00000001" 4 Hkeyed Hv Hrange Hmax)
    as (Hany & Hcreate & Hbatch & Hupdate & Hdelete & Hunit).
  set (unit := V2.TrainingUnit.mk "unit_00000001" "group_1" "resnet" "" None 4 "idle"
                                  "disconnected" None 1 4 "u1").
  split; [exact Hv|]. unfold after. cbn [V2.handle].
  split; [|split; [|split; [|split; [|split]]]].
  - destruct (Hcreate 9 "0000000d-aaaa" "u1" unit (V2.mkCreateQueueReq "lr=0.4" ∅ "web"))
      as [Hst Hver]; [vm_compute; reflexivity..|].
    rewrite Hver. f_equal; exact Hst.
  - destruct (Hbatch 9 uuids "u1" unit
                (V2.mkBatchCreateReq [("lr=0.5", Some ∅); ("lr=0.6", None)] ""))
      as [Hst Hver]; [vm_compute; reflexivity|].
    rewrite Hver. f_equal; exact Hst.
  - destruct (Hupdate 9 "queue_0000000a" "u1"
                (V2.TrainingQueue.mk "queue_0000000a" "unit_00000001" "lr=0.1" (Some ∅) 0
                   "pending" None None None None "" "client" 2 2 "u1")
                (V2.mkQueueReq "lr=0.5" None))
      as [Hst Hver]; [vm_compute; reflexivity|reflexivity|discriminate|discriminate
                     |vm_compute; reflexivity..|].
    rewrite Hver. f_equal; exact Hst.
  - destruct (Hdelete 9 "queue_0000000b" "u1"
                (V2.TrainingQueue.mk "queue_0000000b" "unit_00000001" "lr=0.2" (Some ∅) 1
                   "pending" None None None None "" "client" 3 3 "u1"))
      as (Hst & Hver & _); [vm_compute; reflexivity|reflexivity|discriminate|].
    rewrite Hver. f_equal; exact Hst.
  - destruct (Hunit 9 "u1" unit (V2.mkUnitReq "resnet50" "" None)) as [Hst Hver];
      [vm_compute; reflexivity..|].
    rewrite Hver. f_equal; exact Hst.
  - destruct (Hany (V2.OpSyncUnit "unit_00000001" "u1" (Some 1))) as (_ & Hread & _).
    cbn [V2.handle] in Hread. rewrite (Hread eq_refl). reflexivity.
Defined.

(** The stores that the handlers reach from a store whose rows lie under
    their own keys have their rows under their own keys. *)
Section V2Keys.
Import V2.

Lemma well_keyed_insert_queue db q :
  well_keyed db ->
  well_keyed (mkDB (groups db) (units db) (<[TrainingQueue.ID q := q]> (queues db))).
Proof.
  intros [Hu Hq]. split; [done|]. cbn [queues]. intros id q'. rewrite lookup_insert.
  case_decide; [by intros [= <-]|apply Hq].
Qed.

Lemma well_keyed_insert_unit db u :
  well_keyed db ->
  well_keyed (mkDB (groups db) (<[TrainingUnit.ID u := u]> (units db)) (queues db)).
Proof.
  intros [Hu Hq]. split; [|done]. cbn [units]. intros id u'. rewrite lookup_insert.
  case_decide; [by intros [= <-]|apply Hu].
Qed.

Lemma well_keyed_alter_unit db k f :
  (∀ u, TrainingUnit.ID (f u) = TrainingUnit.ID u) ->
  well_keyed db -> well_keyed (mkDB (groups db) (alter f k (units db)) (queues db)).
Proof.
  intros Hf [Hu Hq]. split; [|done]. cbn [units]. intros id u'.
  intros [[-> (u & Hrow & ->)]|[_ Hrow]]%lookup_alter_Some; [|by apply Hu].
  rewrite Hf. by apply Hu.
Qed.

Lemma well_keyed_update_unit db now k f :
  (∀ u, TrainingUnit.ID (f u) = TrainingUnit.ID u) ->
  well_keyed db -> well_keyed (update_unit db now k f).
Proof. intros Hf. apply well_keyed_alter_unit. intros u. simpl. apply Hf. Qed.

Lemma well_keyed_sql_increment db now k :
  well_keyed db -> well_keyed (sql_increment_version db now k).
Proof. apply well_keyed_alter_unit. intros u. by destruct (_ <? _). Qed.

Lemma well_keyed_delete_queue db k : well_keyed db -> well_keyed (delete_queue db k).
Proof.
  intros [Hu Hq]. split; [done|]. cbn [queues delete_queue]. intros id q.
  intros [_ Hrow]%lookup_delete_Some. by apply Hq.
Qed.

Lemma well_keyed_delete_unit db k :
  well_keyed db -> well_keyed (mkDB (groups db) (delete k (units db)) (queues db)).
Proof.
  intros [Hu Hq]. split; [|done]. cbn [units]. intros id u.
  intros [_ Hrow]%lookup_delete_Some. by apply Hu.
Qed.

Lemma well_keyed_save_queue db now q r :
  well_keyed db -> save_queue db now q = Some r -> well_keyed r.2.
Proof.
  intros Hk. destruct r as [q' db']. intros (_ & -> & ->)%save_queue_Some.
  exact (well_keyed_insert_queue db (TrainingQueue.set_UpdatedAt q now) Hk).
Qed.

Lemma well_keyed_save_unit db now u r :
  well_keyed db -> save_unit db now u = Some r -> well_keyed r.2.
Proof.
  intros Hk. destruct r as [u' db']. intros (_ & -> & ->)%save_unit_Some.
  exact (well_keyed_insert_unit db (TrainingUnit.set_UpdatedAt u now) Hk).
Qed.

Lemma well_keyed_create_queue db now q r :
  well_keyed db -> create_queue db now q = Some r -> well_keyed r.2.
Proof.
  intros Hk. destruct r as [q' db']. intros (_ & _ & -> & ->)%create_queue_Some.
  exact (well_keyed_insert_queue db
           (TrainingQueue.set_UpdatedAt (TrainingQueue.set_CreatedAt q now) now) Hk).
Qed.

Lemma well_keyed_create_unit db now u r :
  well_keyed db -> create_unit db now u = Some r -> well_keyed r.2.
Proof.
  intros Hk. destruct r as [u' db']. intros (_ & _ & -> & ->)%create_unit_Some.
  match goal with |- well_keyed (_, mkDB _ (<[?k := ?u]> _) _).2 =>
    replace k with (TrainingUnit.ID u) by by case_decide end.
  by apply well_keyed_insert_unit.
Qed.

Lemma well_keyed_groups db gs :
  well_keyed db -> well_keyed (mkDB gs (units db) (queues db)).
Proof. by intros [Hu Hq]. Qed.

Lemma well_keyed_delete_group db groupID : well_keyed db -> well_keyed (delete_group db groupID).
Proof.
  intros [Hu Hq]. split; unfold delete_group; simpl.
  - intros id u [Hrow _]%map_lookup_filter_Some. by apply Hu.
  - intros id q [Hrow _]%map_lookup_filter_Some. by apply Hq.
Qed.

Lemma well_keyed_batch_loop now uuids unitID userID createdBy maxOrder items :
  ∀ db i queueIDs, well_keyed db ->
  well_keyed (batch_loop db now uuids unitID userID createdBy maxOrder i items queueIDs).2.
Proof.
  induction items as [|item items IH]; intros db i queueIDs Hk; [done|].
  cbn [batch_loop]. destruct (create_queue db now _) as [[q db1]|] eqn:Hc; [|by apply IH].
  apply IH. by apply (well_keyed_create_queue _ _ _ _ Hk Hc).
Qed.

Lemma well_keyed_reorder_loop now startOrder ids :
  ∀ db queueMap i, well_keyed db ->
  well_keyed (reorder_loop db now queueMap startOrder i ids).2.
Proof.
  induction ids as [|id ids IH]; intros db queueMap i Hk; [done|].
  cbn [reorder_loop]. destruct (queueMap !! id) as [q|]; [|by apply IH].
  destruct (save_queue db now _) as [[q2 db2]|] eqn:Hs; [|done].
  apply IH. by apply (well_keyed_save_queue _ _ _ _ Hk Hs).
Qed.

Lemma well_keyed_checkConnectionStatus db now u :
  well_keyed db -> well_keyed (checkConnectionStatus db now u).2.
Proof.
  intros Hk. unfold checkConnectionStatus.
  destruct (TrainingUnit.LastHeartbeat u); [|done]. destruct (_ <? _); [|done].
  case_decide; [|done]. by apply well_keyed_update_unit.
Qed.

Lemma well_keyed_list_units_loop now us :
  ∀ db, well_keyed db -> well_keyed (list_units_loop db now us).2.
Proof.
  induction us as [|u us IH]; intros db Hk; [done|]. cbn [list_units_loop].
  pose proof (well_keyed_checkConnectionStatus db now u Hk) as Hc.
  destruct (checkConnectionStatus db now u) as [u' db1].
  specialize (IH db1 Hc). by destruct (list_units_loop db1 now us).
Qed.

Lemma well_keyed_handle db op : well_keyed db -> well_keyed (handle db op).2.
Proof.
  intros Hk. destruct op; cbn [handle].
  - unfold CreateTrainingQueue. destruct req; [|done]. destruct (first_unit _ _ _); [|done].
    destruct (create_queue db now _) as [[q db1]|] eqn:Hc; [|done].
    apply well_keyed_update_unit; [done|]. by apply (well_keyed_create_queue _ _ _ _ Hk Hc).
  - unfold BatchCreateQueues. destruct req; [|done]. destruct (first_unit _ _ _); [|done].
    match goal with |- context [batch_loop ?a ?b ?c ?d ?e ?f ?g ?h ?i ?j] =>
      pose proof (well_keyed_batch_loop b c d e f g i a h j Hk) as Hl;
      destruct (batch_loop a b c d e f g h i j) as [queueIDs db1] end.
    by apply well_keyed_update_unit.
  - unfold ListTrainingQueues. destruct (first_unit _ _ _); [|done]. by destruct (Find _ _ _).
  - unfold GetTrainingQueue. by destruct (first_queue _ _ _).
  - unfold UpdateTrainingQueue. destruct req; [|done]. destruct (first_queue _ _ _); [|done].
    case_decide; [done|]. case_decide; [done|].
    destruct (save_queue db now _) as [[q2 db2]|] eqn:Hs; [|done].
    apply well_keyed_sql_increment. by apply (well_keyed_save_queue _ _ _ _ Hk Hs).
  - unfold DeleteTrainingQueue. destruct (first_queue _ _ _); [|done].
    case_decide; [done|]. by apply well_keyed_sql_increment, well_keyed_delete_queue.
  - unfold StartQueue. destruct (first_queue _ _ _); [|done]. case_decide; [done|].
    destruct (save_queue db now _) as [[q2 db2]|] eqn:Hs; [|done].
    apply well_keyed_update_unit; [done|]. by apply (well_keyed_save_queue _ _ _ _ Hk Hs).
  - unfold CompleteQueue. destruct req; [|done]. destruct (first_queue _ _ _); [|done].
    destruct (save_queue db now _) as [[q2 db2]|] eqn:Hs; [|done].
    by apply (well_keyed_save_queue _ _ _ _ Hk Hs).
  - unfold FailQueue. destruct req; [|done]. destruct (first_queue _ _ _); [|done].
    destruct (save_queue db now _) as [[q2 db2]|] eqn:Hs; [|done].
    by apply (well_keyed_save_queue _ _ _ _ Hk Hs).
  - unfold ReorderQueues. destruct req; [|done]. destruct (first_unit _ _ _); [|done].
    case_decide; [done|]. case_decide; [done|].
    match goal with |- context [reorder_loop ?a ?b ?c ?d ?e ?f] =>
      pose proof (well_keyed_reorder_loop b d f a c e Hk) as Hl;
      destruct (reorder_loop a b c d e f) as [[] db1] end; [|done].
    by apply well_keyed_update_unit.
  - unfold CreateTrainingUnit. destruct req; [|done]. destruct (first_group _ _ _); [|done].
    destruct (create_unit db now _) as [[u2 db2]|] eqn:Hc; [|done].
    by apply (well_keyed_create_unit _ _ _ _ Hk Hc).
  - unfold ListTrainingUnits. destruct (first_group _ _ _); [|done].
    pose proof (well_keyed_list_units_loop now (units_of_group db groupID) db Hk) as Hl.
    by destruct (list_units_loop _ _ _).
  - unfold GetTrainingUnit. destruct (first_unit _ _ _) as [u|]; [|done].
    pose proof (well_keyed_checkConnectionStatus db now u Hk) as Hc.
    by destruct (checkConnectionStatus _ _ _).
  - unfold SyncTrainingUnit. destruct req; [|done]. by destruct (first_unit _ _ _).
  - unfold UpdateTrainingUnit. destruct req; [|done]. destruct (first_unit _ _ _); [|done].
    destruct (save_unit db now _) as [[u2 db2]|] eqn:Hs; [|done].
    by apply (well_keyed_save_unit _ _ _ _ Hk Hs).
  - unfold DeleteTrainingUnit. destruct (_ <? _); [done|].
    destruct (first_unit _ _ _); [|done]. by apply well_keyed_delete_unit.
  - unfold Heartbeat. destruct (first_unit _ _ _); [|done].
    destruct (save_unit db now _) as [[u2 db2]|] eqn:Hs; [|done].
    by apply (well_keyed_save_unit _ _ _ _ Hk Hs).
  - unfold CreateGroup. destruct req; [|done].
    destruct (create_group db now _) as [[g2 db2]|] eqn:Hc; [|done].
    apply create_group_Some in Hc as (_ & _ & _ & ->). by apply well_keyed_groups.
  - done.
  - unfold GetGroup. by destruct (first_group _ _ _).
  - unfold UpdateGroup. destruct req; [|done]. destruct (first_group _ _ _); [|done].
    destruct (save_group db now _) as [[g2 db2]|] eqn:Hs; [|done].
    apply save_group_Some in Hs as (_ & _ & ->). by apply well_keyed_groups.
  - unfold DeleteGroup. destruct (first_group _ _ _); [|done].
    by apply well_keyed_delete_group.
Qed.

End V2Keys.

(** A unit that never sent a heartbeat is stored as disconnected, in every
    store that the handlers reach: [checkConnectionStatus] has nothing to
    persist for such a unit. *)
Section V2Unseen.
Import V2.

Lemma unseen_same_units db db' :
  units db' = units db -> unseen_disconnected db -> unseen_disconnected db'.
Proof. unfold unseen_disconnected. by intros ->. Qed.

Lemma unseen_insert_unit db k u :
  unseen u -> unseen_disconnected db ->
  unseen_disconnected (mkDB (groups db) (<[k := u]> (units db)) (queues db)).
Proof.
  intros Hu Hdb id u'. cbn [units]. rewrite lookup_insert.
  case_decide; [by intros [= <-]|apply Hdb].
Qed.

Lemma unseen_alter_unit db k f :
  (∀ u, unseen u -> unseen (f u)) -> unseen_disconnected db ->
  unseen_disconnected (mkDB (groups db) (alter f k (units db)) (queues db)).
Proof.
  intros Hf Hdb id u'. cbn [units].
  intros [[-> (u & Hrow & ->)]|[_ Hrow]]%lookup_alter_Some; [|by apply (Hdb id)].
  apply Hf. exact (Hdb id u Hrow).
Qed.

Lemma unseen_update_unit db now k f :
  (∀ u, unseen u -> unseen (f u)) -> unseen_disconnected db ->
  unseen_disconnected (update_unit db now k f).
Proof. intros Hf. apply unseen_alter_unit. intros u Hu. by apply Hf in Hu. Qed.

Lemma unseen_sql_increment db now k :
  unseen_disconnected db -> unseen_disconnected (sql_increment_version db now k).
Proof. apply unseen_alter_unit. intros u Hu. by destruct (_ <? _). Qed.

Lemma unseen_checkConnectionStatus db now u :
  unseen_disconnected db -> unseen_disconnected (checkConnectionStatus db now u).2.
Proof.
  intros Hdb. unfold checkConnectionStatus.
  destruct (TrainingUnit.LastHeartbeat u); [|done]. destruct (_ <? _); [|done].
  case_decide; [|done]. by apply unseen_update_unit.
Qed.

Lemma unseen_list_units_loop now us :
  ∀ db, unseen_disconnected db -> unseen_disconnected (list_units_loop db now us).2.
Proof.
  induction us as [|u us IH]; intros db Hdb; [done|]. cbn [list_units_loop].
  pose proof (unseen_checkConnectionStatus db now u Hdb) as Hc.
  destruct (checkConnectionStatus db now u) as [u' db1].
  specialize (IH db1 Hc). by destruct (list_units_loop db1 now us).
Qed.

Lemma unseen_handle db op :
  unseen_disconnected db -> unseen_disconnected (handle db op).2.
Proof.
  intros Hdb. destruct op; cbn [handle].
  - unfold CreateTrainingQueue. destruct req; [|done]. destruct (first_unit _ _ _); [|done].
    destruct (create_queue db now _) as [[q2 db2]|] eqn:Hc; [|done].
    apply unseen_update_unit; [done|].
    apply (unseen_same_units db); [|done]. by eapply units_create_queue.
  - unfold BatchCreateQueues. destruct req; [|done]. destruct (first_unit _ _ _); [|done].
    match goal with |- context [batch_loop ?a ?b ?c ?d ?e ?f ?g ?h ?i ?j] =>
      pose proof (units_batch_loop b c d e f g i a h j) as Hl;
      destruct (batch_loop a b c d e f g h i j) as [queueIDs db1] end.
    apply unseen_update_unit; [done|]. by apply (unseen_same_units db).
  - unfold ListTrainingQueues. destruct (first_unit _ _ _); [|done]. by destruct (Find _ _ _).
  - unfold GetTrainingQueue. by destruct (first_queue _ _ _).
  - unfold UpdateTrainingQueue. destruct req; [|done]. destruct (first_queue _ _ _); [|done].
    case_decide; [done|]. case_decide; [done|].
    destruct (save_queue db now _) as [[q2 db2]|] eqn:Hs; [|done].
    apply unseen_sql_increment.
    apply (unseen_same_units db); [|done]. by eapply units_save_queue.
  - unfold DeleteTrainingQueue. destruct (first_queue _ _ _); [|done].
    case_decide; [done|]. by apply unseen_sql_increment.
  - unfold StartQueue. destruct (first_queue _ _ _); [|done]. case_decide; [done|].
    destruct (save_queue db now _) as [[q2 db2]|] eqn:Hs; [|done].
    apply unseen_update_unit; [done|].
    apply (unseen_same_units db); [|done]. by eapply units_save_queue.
  - unfold CompleteQueue. destruct req; [|done]. destruct (first_queue _ _ _); [|done].
    destruct (save_queue db now _) as [[q2 db2]|] eqn:Hs; [|done].
    apply (unseen_same_units db); [|done]. by eapply units_save_queue.
  - unfold FailQueue. destruct req; [|done]. destruct (first_queue _ _ _); [|done].
    destruct (save_queue db now _) as [[q2 db2]|] eqn:Hs; [|done].
    apply (unseen_same_units db); [|done]. by eapply units_save_queue.
  - unfold ReorderQueues. destruct req; [|done]. destruct (first_unit _ _ _); [|done].
    case_decide; [done|]. case_decide; [done|].
    match goal with |- context [reorder_loop ?a ?b ?c ?d ?e ?f] =>
      pose proof (units_reorder_loop b d f a c e) as Hl;
      destruct (reorder_loop a b c d e f) as [[] db1] end; cbn [snd] in *.
    + apply unseen_update_unit; [done|]. by apply (unseen_same_units db).
    + by apply (unseen_same_units db).
  - unfold CreateTrainingUnit. destruct req; [|done]. destruct (first_group _ _ _); [|done].
    destruct (create_unit db now _) as [[u2 db2]|] eqn:Hc; [|done].
    apply create_unit_Some in Hc as (_ & _ & -> & ->).
    by apply unseen_insert_unit.
  - unfold ListTrainingUnits. destruct (first_group _ _ _); [|done].
    pose proof (unseen_list_units_loop now (units_of_group db groupID) db Hdb) as Hl.
    by destruct (list_units_loop _ _ _).
  - unfold GetTrainingUnit. destruct (first_unit _ _ _) as [u|]; [|done].
    pose proof (unseen_checkConnectionStatus db now u Hdb) as Hc.
    by destruct (checkConnectionStatus _ _ _).
  - unfold SyncTrainingUnit. destruct req; [|done]. by destruct (first_unit _ _ _).
  - unfold UpdateTrainingUnit. destruct req as [r|]; [|done].
    destruct (first_unit _ _ _) as [unit|] eqn:Hfirst; [|done].
    apply first_unit_Some in Hfirst as [Hrow _].
    destruct (save_unit db now _) as [[u2 db2]|] eqn:Hs; [|done].
    apply save_unit_Some in Hs as (_ & -> & ->).
    apply unseen_insert_unit; [|done].
    pose proof (Hdb _ _ Hrow) as Hu. intros Hnone. cbn in Hnone |- *.
    destruct (unit_Config r), (decide (unit_Name r = "")); cbn in Hnone |- *; by apply Hu.
  - unfold DeleteTrainingUnit. destruct (_ <? _); [done|].
    destruct (first_unit _ _ _); [|done]. intros id u. cbn [units snd].
    intros [_ Hrow]%lookup_delete_Some. exact (Hdb id u Hrow).
  - unfold Heartbeat. destruct (first_unit _ _ _); [|done].
    destruct (save_unit db now _) as [[u2 db2]|] eqn:Hs; [|done].
    apply save_unit_Some in Hs as (_ & -> & ->). by apply unseen_insert_unit.
  - unfold CreateGroup. destruct req; [|done].
    destruct (create_group db now _) as [[g2 db2]|] eqn:Hc; [|done].
    by apply create_group_Some in Hc as (_ & _ & _ & ->).
  - done.
  - unfold GetGroup. by destruct (first_group _ _ _).
  - unfold UpdateGroup. destruct req; [|done]. destruct (first_group _ _ _); [|done].
    destruct (save_group db now _) as [[g2 db2]|] eqn:Hs; [|done].
    by apply save_group_Some in Hs as (_ & _ & ->).
  - unfold DeleteGroup. destruct (first_group _ _ _); [|done].
    intros id u. unfold delete_group. cbn [units snd].
    intros [Hrow _]%map_lookup_filter_Some. exact (Hdb id u Hrow).
Qed.

Lemma unseen_reachable ops :
  unseen_disconnected (foldl (λ db op, (handle db op).2) empty_store ops).
Proof.
  induction ops as [|op ops IH] using rev_ind; [done|].
  rewrite foldl_app. by apply unseen_handle.
Qed.

End V2Unseen.

(** ** The read paths of a unit *)

Section V2Reads.
Import V2.

Lemma well_keyed_empty_store : well_keyed empty_store.
Proof. apply well_keyed_by_computation; apply (bool_decide_unpack _); vm_compute; exact I. Qed.

Lemma well_keyed_reachable ops : well_keyed (foldl (λ db op, (handle db op).2) empty_store ops).
Proof.
  induction ops as [|op ops IH] using rev_ind; [apply well_keyed_empty_store|].
  rewrite foldl_app. simpl. by apply well_keyed_handle.
Qed.

(** [ListTrainingQueues] sorts by the [order] column. *)
Lemma insert_row_by_order a l :
  Sorted (λ x y, TrainingQueue.Order x <= TrainingQueue.Order y) l ->
  Sorted (λ x y, TrainingQueue.Order x <= TrainingQueue.Order y)
         (insert_row [(ColOrder, false)] a l).
Proof.
  induction l as [|b l IH]; intros Hs; simpl.
  - by repeat constructor.
  - destruct (Z.compare_spec (TrainingQueue.Order a) (TrainingQueue.Order b)) as [Heq|Hlt|Hgt].
    + constructor; [done|]. constructor. lia.
    + constructor; [done|]. constructor. lia.
    + apply Sorted_inv in Hs as [Hs Hhd]. constructor; [by apply IH|].
      destruct l as [|c l]; simpl.
      * constructor. lia.
      * apply HdRel_inv in Hhd.
        destruct (Z.compare_spec (TrainingQueue.Order a) (TrainingQueue.Order c));
          constructor; lia.
Qed.

Lemma sort_rows_by_order l :
  Sorted (λ x y, TrainingQueue.Order x <= TrainingQueue.Order y)
         (sort_rows [(ColOrder, false)] l).
Proof.
  unfold sort_rows. induction l as [|a l IH]; simpl; [constructor|].
  by apply insert_row_by_order.
Qed.

Lemma list_queues_sorted db unitID userID status qs :
  field (ListTrainingQueues db unitID userID status).1 "queues" = Some (FQueues qs) ->
  Sorted (λ x y, TrainingQueue.Order x <= TrainingQueue.Order y) qs.
Proof.
  unfold ListTrainingQueues. destruct (first_unit _ _ _); [|done].
  unfold Find. simpl. intros [= <-]. apply sort_rows_by_order.
Qed.

(** [SyncTrainingUnit] orders by a column that the table does not have:
    the statement fails and the response carries no queue at all. *)
Lemma sync_queues_empty db unitID userID clientVersion unit :
  first_unit db unitID userID = Some unit ->
  field (SyncTrainingUnit db unitID userID (Some clientVersion)).1 "queues"
    = Some (FQueues []).
Proof. intros Hu. unfold SyncTrainingUnit. rewrite Hu. reflexivity. Qed.

(** [SyncTrainingUnit] hands out the row of the unit as it is stored. *)
Lemma sync_unit_as_stored db unitID userID clientVersion unit :
  first_unit db unitID userID = Some unit ->
  field (SyncTrainingUnit db unitID userID (Some clientVersion)).1 "unit"
    = Some (FUnit unit).
Proof. intros Hu. unfold SyncTrainingUnit. rewrite Hu. reflexivity. Qed.

(** [checkConnectionStatus]: what the caller holds afterwards. *)
Lemma checkConnectionStatus_surfaced db now unit :
  TrainingUnit.ConnectionStatus (checkConnectionStatus db now unit).1 =
  match TrainingUnit.LastHeartbeat unit with
  | None => "disconnected"
  | Some t => if 10 * second <? now - t then "disconnected"
              else TrainingUnit.ConnectionStatus unit
  end.
Proof.
  unfold checkConnectionStatus. destruct (TrainingUnit.LastHeartbeat unit) as [t|]; [|done].
  destruct (10 * second <? now - t); [|done]. case_decide as Hc; [done|].
  done.
Qed.

Lemma checkConnectionStatus_boundary db now unit t :
  TrainingUnit.LastHeartbeat unit = Some t -> now - t = 10 * second ->
  checkConnectionStatus db now unit = (unit, db).
Proof.
  intros Ht Hnow. unfold checkConnectionStatus. rewrite Ht, Hnow.
  by rewrite Z.ltb_irrefl.
Qed.

Lemma accepts_unit_heartbeat unit now :
  accepts_unit unit = true ->
  accepts_unit (TrainingUnit.set_ConnectionStatus
                  (TrainingUnit.set_LastHeartbeat unit (Some now)) "connected") = true.
Proof.
  unfold accepts_unit. rewrite !andb_true_iff.
  intros (((((((H1 & H2) & H3) & H4) & H5) & H6) & H7) & H8). simpl.
  rewrite H1, H2, H3, H4, H5, H6, H8. done.
Qed.

Lemma heartbeat_sets_connected db now unitID userID unit :
  well_keyed db -> first_unit db unitID userID = Some unit -> accepts_unit unit = true ->
  ∃ u, units (Heartbeat db now unitID userID).2 !! unitID = Some u ∧
       TrainingUnit.LastHeartbeat u = Some now ∧
       TrainingUnit.ConnectionStatus u = "connected".
Proof.
  intros [Hku _] Hu Hok. unfold Heartbeat. rewrite Hu.
  apply first_unit_Some in Hu as [Hu _]. pose proof (Hku _ _ Hu) as Hid.
  unfold save_unit. rewrite accepts_unit_heartbeat by done.
  cbn [snd units TrainingUnit.ID TrainingUnit.set_UpdatedAt
    TrainingUnit.set_ConnectionStatus TrainingUnit.set_LastHeartbeat].
  rewrite Hid, lookup_insert_eq. by eexists.
Qed.

End V2Reads.

(** C2, the code at a unit with three queues of orders 0, 1 and 2: the
    list endpoint returns them by ascending order, the sync endpoint
    returns none of them. *)
Theorem sync_does_not_return_queues_in_order :
  let list := V2.ListTrainingQueues V2.store_with_queues "unit_00000001" "u1" "" in
  let sync := V2.SyncTrainingUnit V2.store_with_queues "unit_00000001" "u1" (Some 1) in
  (∃ qs, V2.field list.1 "queues" = Some (V2.FQueues qs) ∧
         V2.TrainingQueue.ID <$> qs
           = ["queue_0000000a"; "queue_0000000b"; "queue_0000000c"] ∧
         V2.TrainingQueue.Order <$> qs = [0; 1; 2]) ∧
  V2.status sync.1 = 200 ∧
  V2.field sync.1 "queues" = Some (V2.FQueues []).
Proof.
  split; [|split].
  - vm_compute. eexists. repeat split.
  - vm_compute. reflexivity.
  - vm_compute. reflexivity.
Qed.

(** C6, the code at a unit whose only heartbeat is 11 seconds old: the
    get endpoint surfaces it as disconnected and persists that, the sync
    endpoint surfaces it as connected. *)
Theorem sync_surfaces_stale_connection_status :
  let db := (V2.Heartbeat V2.store_with_unit 2 "unit_00000001" "u1").2 in
  let now := 2 + 11 * second in
  let get := V2.GetTrainingUnit db now "unit_00000001" "u1" in
  let sync := V2.SyncTrainingUnit db "unit_00000001" "u1" (Some 1) in
  (∃ u, V2.field get.1 "unit" = Some (V2.FUnit u) ∧
        V2.TrainingUnit.LastHeartbeat u = Some 2 ∧
        V2.TrainingUnit.ConnectionStatus u = "disconnected") ∧
  (V2.TrainingUnit.ConnectionStatus <$> V2.units get.2 !! "unit_00000001")
    = Some "disconnected" ∧
  (∃ u, V2.field sync.1 "unit" = Some (V2.FUnit u) ∧
        V2.TrainingUnit.LastHeartbeat u = Some 2 ∧
        V2.TrainingUnit.ConnectionStatus u = "connected") ∧
  (V2.TrainingUnit.ConnectionStatus <$> V2.units sync.2 !! "unit_00000001")
    = Some "connected".
Proof.
  split; [|split; [|split]].
  - vm_compute. eexists. repeat split.
  - vm_compute. reflexivity.
  - vm_compute. eexists. repeat split.
  - vm_compute. reflexivity.
Qed.

(** ** The order of the index *)

Section IndexOrder.
Import Queue.

Lemma ascii_compare_trans a b c :
  Ascii.compare a b = Lt -> Ascii.compare b c = Lt -> Ascii.compare a c = Lt.
Proof. unfold Ascii.compare. rewrite !N.compare_lt_iff. lia. Qed.

Lemma string_compare_trans a :
  ∀ b c, String.compare a b = Lt -> String.compare b c = Lt -> String.compare a c = Lt.
Proof.
  induction a as [|x a IH]; intros [|y b] [|z c]; simpl; try done.
  destruct (Ascii.compare x y) eqn:Hxy; try done.
  - apply Ascii.compare_eq_iff in Hxy as ->.
    destruct (Ascii.compare y z); try done. apply IH.
  - intros _. destruct (Ascii.compare y z) eqn:Hyz; try done.
    + apply Ascii.compare_eq_iff in Hyz as <-. by rewrite Hxy.
    + by rewrite (ascii_compare_trans _ _ _ Hxy Hyz).
Qed.

Lemma string_ltb_trans a b c :
  String.ltb a b = true -> String.ltb b c = true -> String.ltb a c = true.
Proof.
  unfold String.ltb.
  destruct (String.compare a b) eqn:Hab; try done.
  destruct (String.compare b c) eqn:Hbc; try done.
  by rewrite (string_compare_trans _ _ _ Hab Hbc).
Qed.

Lemma string_ltb_total a b : a ≠ b -> String.ltb a b = true ∨ String.ltb b a = true.
Proof.
  intros Hne. unfold String.ltb. rewrite (String.compare_antisym b a).
  destruct (String.compare a b) eqn:Hab; simpl; auto.
  by apply String.compare_eq_iff in Hab.
Qed.

Lemma zless_trans e1 e2 e3 :
  Redis.zless e1 e2 = true -> Redis.zless e2 e3 = true -> Redis.zless e1 e3 = true.
Proof.
  unfold Redis.zless. intros H12 H23.
  apply orb_true_iff in H12 as [H12|[H12 L12]%andb_true_iff];
  apply orb_true_iff in H23 as [H23|[H23 L23]%andb_true_iff];
  apply orb_true_iff.
  - left. apply Z.ltb_lt. apply Z.ltb_lt in H12, H23. lia.
  - left. apply Z.ltb_lt. apply Z.ltb_lt in H12. apply Z.eqb_eq in H23. lia.
  - left. apply Z.ltb_lt. apply Z.eqb_eq in H12. apply Z.ltb_lt in H23. lia.
  - right. apply andb_true_iff. split.
    + apply Z.eqb_eq. apply Z.eqb_eq in H12, H23. lia.
    + by apply (string_ltb_trans _ e2.1).
Qed.

Lemma zless_total e1 e2 :
  e1.1 ≠ e2.1 -> Redis.zless e1 e2 = true ∨ Redis.zless e2 e1 = true.
Proof.
  intros Hne. unfold Redis.zless.
  destruct (Z.lt_trichotomy e1.2 e2.2) as [Hlt|[Heq|Hgt]].
  - left. apply orb_true_iff. left. by apply Z.ltb_lt.
  - destruct (string_ltb_total _ _ Hne) as [Hl|Hl]; [left|right];
      apply orb_true_iff; right; rewrite Hl, andb_true_r; apply Z.eqb_eq; lia.
  - right. apply orb_true_iff. left. by apply Z.ltb_lt.
Qed.

Lemma zless_asym e1 e2 : Redis.zless e1 e2 = true -> Redis.zless e2 e1 = false.
Proof.
  intros H. destruct (Redis.zless e2 e1) eqn:H'; [|done].
  pose proof (zless_trans _ _ _ H H') as Hrefl. by rewrite zless_irrefl in Hrefl.
Qed.

(** The entries of a sorted set that come before an entry. *)
Lemma before_lt (z : gmap string Z) a sa b sb :
  z !! a = Some sa -> Redis.zless (a, sa) (b, sb) = true ->
  (size (filter (λ e : string * Z, Redis.zless e (a, sa) = true) z) <
   size (filter (λ e : string * Z, Redis.zless e (b, sb) = true) z))%nat.
Proof.
  intros Ha Hab. apply map_subset_size. split.
  - apply map_subseteq_spec. intros m s [Hm Hless]%map_lookup_filter_Some.
    apply map_lookup_filter_Some. split; [done|]. simpl in *.
    by apply (zless_trans _ (a, sa)).
  - intros Hsub. rewrite map_subseteq_spec in Hsub.
    specialize (Hsub a sa). rewrite !map_lookup_filter_Some in Hsub. simpl in Hsub.
    destruct Hsub as [_ Hsub]; [done|]. by rewrite zless_irrefl in Hsub.
Qed.

Lemma before_delete (z : gmap string Z) x sx m sm :
  z !! x = Some sx -> m ≠ x ->
  size (filter (λ e : string * Z, Redis.zless e (m, sm) = true) (delete x z)) =
  (size (filter (λ e : string * Z, Redis.zless e (m, sm) = true) z) -
   (if Redis.zless (x, sx) (m, sm) then 1 else 0))%nat.
Proof.
  intros Hx Hne. rewrite map_filter_delete, map_size_delete.
  destruct (Redis.zless (x, sx) (m, sm)) eqn:Hless.
  - rewrite (map_lookup_filter_Some_2 _ _ x sx) by done. lia.
  - rewrite map_lookup_filter_None_2; [simpl; lia|].
    right. intros s Hs. simpl. rewrite Hx in Hs. injection Hs as <-. by rewrite Hless.
Qed.

(** [zmin] yields the least entry. *)
Lemma zmin_least_list (l : list (string * Z)) b :
  NoDup l.*1 ->
  foldr (λ e acc, match acc with
                  | None => Some e
                  | Some b => if Redis.zless e b then Some e else Some b
                  end) None l = Some b ->
  b ∈ l ∧ ∀ e, e ∈ l -> e ≠ b -> Redis.zless b e = true.
Proof.
  revert b. induction l as [|a l IH]; intros b Hnd; [done|].
  simpl in *. apply NoDup_cons in Hnd as [Ha Hnd].
  destruct (foldr _ None l) as [b0|] eqn:Hfold.
  - destruct (IH b0 Hnd eq_refl) as [Hin Hleast].
    assert (a.1 ≠ b0.1) as Hne.
    { intros Heq. apply Ha. rewrite Heq. by apply list_elem_of_fmap_2. }
    destruct (Redis.zless a b0) eqn:Hless; intros [= <-].
    + split; [left|]. intros e [->|He]%elem_of_cons Hneq; [done|].
      destruct (decide (e = b0)) as [->|Hne0]; [done|].
      apply (zless_trans _ b0); [done|]. by apply Hleast.
    + split; [by right|]. intros e [->|He]%elem_of_cons Hneq.
      * destruct (zless_total a b0 Hne) as [H|H]; [|exact H].
        rewrite H in Hless. discriminate Hless.
      * by apply Hleast.
  - intros [= <-]. destruct l as [|a' l].
    2:{ simpl in Hfold. destruct (foldr _ None l) as [p|]; [destruct (Redis.zless a' p)|];
        discriminate. }
    split; [left|]. intros e [->|He]%elem_of_cons; [done|]. by apply elem_of_nil in He.
Qed.

Lemma zmin_least (z : gmap string Z) b m s :
  Redis.zmin z = Some b -> z !! m = Some s -> m ≠ b.1 -> Redis.zless b (m, s) = true.
Proof.
  intros Hmin Hm Hne. unfold Redis.zmin in Hmin.
  apply zmin_least_list in Hmin as [_ Hleast]; [|apply NoDup_fst_map_to_list].
  apply Hleast; [by apply elem_of_map_to_list|]. intros <-. done.
Qed.

Lemma zget_RemoveTask_index c taskID :
  Redis.zget (RemoveTask c taskID) TaskQueueKey = delete taskID (Redis.zget c TaskQueueKey).
Proof. unfold RemoveTask, Redis.SRem, Redis.ZRem. by rewrite zget_sput, zget_zput. Qed.

(** The position of a task in terms of the entries before it. *)
Lemma position_rank c m s :
  Redis.zget c TaskQueueKey !! m = Some s ->
  GetQueuePosition c m =
  Z.of_nat (size (filter (λ e : string * Z, Redis.zless e (m, s) = true)
                         (Redis.zget c TaskQueueKey))) + 1.
Proof. intros H. unfold GetQueuePosition, Redis.ZRank. by rewrite H. Qed.

Lemma position_lt_iff c a sa b sb :
  Redis.zget c TaskQueueKey !! a = Some sa ->
  Redis.zget c TaskQueueKey !! b = Some sb -> a ≠ b ->
  GetQueuePosition c a < GetQueuePosition c b <-> Redis.zless (a, sa) (b, sb) = true.
Proof.
  intros Ha Hb Hne. rewrite (position_rank c a sa Ha), (position_rank c b sb Hb). split.
  - intros Hlt. destruct (zless_total (a, sa) (b, sb) Hne) as [H|H]; [done|].
    pose proof (before_lt _ _ _ _ _ Hb H). lia.
  - intros H. pose proof (before_lt _ _ _ _ _ Ha H). lia.
Qed.

(** The positions in an index that has lost the entry [x]. *)
Lemma position_delete c c' x sx m :
  Redis.zget c TaskQueueKey !! x = Some sx ->
  Redis.zget c' TaskQueueKey = delete x (Redis.zget c TaskQueueKey) ->
  m ≠ x ->
  GetQueuePosition c' m =
  if decide (GetQueuePosition c x < GetQueuePosition c m)
  then GetQueuePosition c m - 1 else GetQueuePosition c m.
Proof.
  intros Hx Hz Hne.
  destruct (Redis.zget c TaskQueueKey !! m) as [sm|] eqn:Hm.
  - assert (Redis.zget c' TaskQueueKey !! m = Some sm) as Hm'.
    { by rewrite Hz, lookup_delete_ne. }
    pose proof (position_lt_iff c x sx m sm Hx Hm (not_eq_sym Hne)) as Hiff.
    pose proof (position_rank c m sm Hm) as Hpos.
    pose proof (position_rank c' m sm Hm') as Hpos'.
    rewrite Hz, (before_delete _ x sx m sm Hx Hne) in Hpos'. rewrite Hpos'.
    destruct (Redis.zless (x, sx) (m, sm)) eqn:Hless.
    + rewrite decide_True by by apply Hiff.
      pose proof (before_lt _ _ _ _ _ Hx Hless). lia.
    + rewrite decide_False; [lia|]. intros Hlt. apply Hiff in Hlt. discriminate Hlt.
  - rewrite (position_absent c m Hm), (position_absent c' m).
    + destruct (position_present c x sx Hx) as (r & _ & -> & ?).
      rewrite decide_False; [done|lia].
    + by rewrite Hz, lookup_delete_ne.
Qed.

Lemma V1_accepts_running task now :
  V1.accepts (V1.set_StartedAt (V1.set_Status task V1.TaskStatusRunning) (Some now))
  = V1.accepts task.
Proof. done. Qed.

(** What a pickup does, given the head of the index. *)
Lemma worker_pickup_pop s now w t sc :
  V1.workers s !! w = None -> V1.paused s = false ->
  Redis.zmin (Redis.zget (V1.RedisClient s) TaskQueueKey) = Some (t, sc) ->
  V1.RedisClient (V1.worker_pickup s now w) =
    Redis.zput (V1.RedisClient s) TaskQueueKey
               (delete t (Redis.zget (V1.RedisClient s) TaskQueueKey)) ∧
  (∀ task, V1.DB s !! t = Some task -> V1.ID task = t -> V1.accepts task = true ->
   let running :=
     V1.set_UpdatedAt
       (V1.set_StartedAt (V1.set_Status task V1.TaskStatusRunning) (Some now)) now in
   V1.DB (V1.worker_pickup s now w) !! t = Some running ∧
   V1.workers (V1.worker_pickup s now w) !! w = Some running) ∧
  (V1.DB s !! t = None -> V1.workers (V1.worker_pickup s now w) !! w = None).
Proof.
  intros Hidle Hrun Hmin. unfold V1.worker_pickup, Redis.BZPopMin.
  rewrite Hidle, Hrun, Hmin. simpl.
  destruct (V1.DB s !! t) as [task|] eqn:Hrow; simpl.
  - destruct (V1.accepts _) eqn:Hok; (split; [done|]); (split; [|done]).
    + intros ? [= <-] Hid _. split.
      * unfold V1.Save. rewrite Hok. simpl. by rewrite Hid, lookup_insert_eq.
      * simpl. by rewrite lookup_insert_eq.
    + intros ? [= <-] Hid Hacc. exfalso. revert Hok.
      by rewrite V1_accepts_running, Hacc.
  - split; [done|]. split; [by intros ? [=]|done].
Qed.

End IndexOrder.

(** Of two tasks in the index the one with the higher priority (the lower
    score) has the smaller position; with equal priorities the one whose
    id is smaller byte-wise comes first; no two tasks share a position. *)
Theorem queue_position_follows_priority c a b pa pb :
  Redis.zget c Queue.TaskQueueKey !! a = Some (- pa) ->
  Redis.zget c Queue.TaskQueueKey !! b = Some (- pb) ->
  a ≠ b ->
  (pb < pa -> Queue.GetQueuePosition c a < Queue.GetQueuePosition c b) ∧
  (pa = pb -> String.ltb a b = true ->
   Queue.GetQueuePosition c a < Queue.GetQueuePosition c b) ∧
  Queue.GetQueuePosition c a ≠ Queue.GetQueuePosition c b.
Proof.
  intros Ha Hb Hne.
  pose proof (position_lt_iff c a _ b _ Ha Hb Hne) as Hab.
  pose proof (position_lt_iff c b _ a _ Hb Ha (not_eq_sym Hne)) as Hba.
  split; [|split].
  - intros Hlt. apply Hab. unfold Redis.zless. simpl.
    apply orb_true_iff. left. apply Z.ltb_lt. lia.
  - intros -> Hl. apply Hab. unfold Redis.zless. simpl.
    by rewrite Z.eqb_refl, Hl, orb_true_r.
  - destruct (zless_total (a, - pa) (b, - pb) Hne) as [H|H].
    + apply Hab in H. lia.
    + apply Hba in H. lia.
Qed.

Lemma queue_position_follows_priority_witness :
  let c := Queue.EnqueueTask (Queue.EnqueueTask Redis.empty "task_a" 2) "task_b" 7 in
  Queue.GetQueuePosition c "task_b" < Queue.GetQueuePosition c "task_a".
Proof.
  intros c.
  apply (proj1 (queue_position_follows_priority c "task_b" "task_a" 7 2
                  eq_refl eq_refl ltac:(discriminate))).
  reflexivity.
Defined.

(** [RemoveTask] takes the task out of the index and closes the gap: the
    tasks behind it move up by one position, the others stay. *)
Theorem remove_task_closes_gap c taskID m :
  m ≠ taskID ->
  Queue.GetQueuePosition (Queue.RemoveTask c taskID) taskID = -1 ∧
  Queue.GetQueuePosition (Queue.RemoveTask c taskID) m =
    (if decide (0 < Queue.GetQueuePosition c taskID < Queue.GetQueuePosition c m)
     then Queue.GetQueuePosition c m - 1
     else Queue.GetQueuePosition c m).
Proof.
  intros Hne. split.
  - apply position_absent. rewrite zget_RemoveTask_index. apply lookup_delete_eq.
  - destruct (Redis.zget c Queue.TaskQueueKey !! taskID) as [s|] eqn:Ht.
    + rewrite (position_delete c _ taskID s m Ht (zget_RemoveTask_index c taskID) Hne).
      destruct (position_present c taskID s Ht) as (r & _ & Hpos & ?).
      repeat case_decide; try done; lia.
    + rewrite (position_absent c taskID Ht).
      rewrite decide_False by lia.
      unfold Queue.GetQueuePosition, Redis.ZRank.
      by rewrite zget_RemoveTask_index, delete_id.
Qed.

Lemma remove_task_closes_gap_witness :
  let c := Queue.EnqueueTask
             (Queue.EnqueueTask (Queue.EnqueueTask Redis.empty "task_a" 1) "task_b" 5)
             "task_c" 3 in
  Queue.GetQueuePosition (Queue.RemoveTask c "task_b") "task_b" = -1 ∧
  Queue.GetQueuePosition (Queue.RemoveTask c "task_b") "task_a" = 2.
Proof.
  intros c.
  destruct (remove_task_closes_gap c "task_b" "task_a" ltac:(discriminate)) as [H1 H2].
  split; [exact H1|]. rewrite H2. reflexivity.
Defined.

(** An idle worker of a queue that is not paused takes the task at
    position 1 out of the index; every other task of the index moves up by
    one position; when the task has a row under its id (a row that the
    table holds), that row is stored with status running and
    [started_at = now] and the worker holds this very row; when the task
    has no row the worker holds nothing. *)
Theorem worker_pickup_takes_head s now w :
  V1.workers s !! w = None ->
  V1.paused s = false ->
  0 < Queue.GetQueueLength (V1.RedisClient s) ->
  ∃ taskID,
    Queue.GetQueuePosition (V1.RedisClient s) taskID = 1 ∧
    Queue.GetQueuePosition (V1.RedisClient (V1.worker_pickup s now w)) taskID = -1 ∧
    Queue.GetQueueLength (V1.RedisClient (V1.worker_pickup s now w)) =
      Queue.GetQueueLength (V1.RedisClient s) - 1 ∧
    (∀ m, m ≠ taskID ->
          0 < Queue.GetQueuePosition (V1.RedisClient s) m ->
          Queue.GetQueuePosition (V1.RedisClient (V1.worker_pickup s now w)) m =
          Queue.GetQueuePosition (V1.RedisClient s) m - 1) ∧
    (∀ task, V1.DB s !! taskID = Some task -> V1.ID task = taskID ->
     V1.accepts task = true ->
     let running :=
       V1.set_UpdatedAt
         (V1.set_StartedAt (V1.set_Status task V1.TaskStatusRunning) (Some now)) now in
     V1.DB (V1.worker_pickup s now w) !! taskID = Some running ∧
     V1.workers (V1.worker_pickup s now w) !! w = Some running) ∧
    (V1.DB s !! taskID = None -> V1.workers (V1.worker_pickup s now w) !! w = None).
Proof.
  intros Hidle Hrun Hlen.
  set (z := Redis.zget (V1.RedisClient s) Queue.TaskQueueKey).
  destruct (Redis.zmin z) as [[t sc]|] eqn:Hmin.
  2:{ apply zmin_None in Hmin. unfold Queue.GetQueueLength, Redis.ZCard in Hlen.
      fold z in Hlen. rewrite Hmin, map_size_empty in Hlen. lia. }
  pose proof (zmin_elem z _ Hmin) as Ht. simpl in Ht.
  destruct (worker_pickup_pop s now w t sc Hidle Hrun Hmin) as [Hc Hrow].
  fold z in Hc.
  set (c' := V1.RedisClient (V1.worker_pickup s now w)) in *.
  assert (Redis.zget c' Queue.TaskQueueKey = delete t z) as Hz'
    by (rewrite Hc; apply zget_zput).
  assert (Queue.GetQueuePosition (V1.RedisClient s) t = 1) as Hhead.
  { rewrite (position_rank _ t sc Ht). fold z.
    rewrite (map_empty_filter_2 _ z); [by rewrite map_size_empty|].
    intros m sm Hm. simpl. destruct (decide (m = t)) as [->|Hne].
    - rewrite Ht in Hm. injection Hm as <-. by rewrite zless_irrefl.
    - by rewrite (zless_asym _ _ (zmin_least z _ m sm Hmin Hm Hne)). }
  exists t. split; [done|]. split; [|split; [|split]].
  - apply position_absent. rewrite Hz'. apply lookup_delete_eq.
  - unfold Queue.GetQueueLength, Redis.ZCard. rewrite Hz'. fold z.
    rewrite map_size_delete, Ht.
    assert (size z ≠ 0%nat)
      by (intros H0; apply map_size_empty_iff in H0; by rewrite H0 in Ht).
    lia.
  - intros m Hne Hpos.
    rewrite (position_delete (V1.RedisClient s) c' t sc m Ht Hz' Hne), Hhead.
    rewrite decide_True; [done|].
    destruct (Redis.zget (V1.RedisClient s) Queue.TaskQueueKey !! m) as [sm|] eqn:Hm.
    + destruct (decide (Queue.GetQueuePosition (V1.RedisClient s) m = 1)) as [H1|H1]; [|lia].
      exfalso.
      destruct (zless_total (t, sc) (m, sm) (not_eq_sym Hne)) as [H|H].
      * apply (position_lt_iff _ t sc m sm Ht Hm (not_eq_sym Hne)) in H. lia.
      * apply (position_lt_iff _ m sm t sc Hm Ht Hne) in H. lia.
    + rewrite (position_absent _ m Hm) in Hpos. lia.
  - exact Hrow.
Qed.

Lemma worker_pickup_takes_head_witness :
  let s := V1.run V1.init
             [V1.OpCreate 1 "0000000a-aaaa" "u1"
                (Some (V1.mkCreateTaskReq "a" ∅ 1 None));
              V1.OpCreate 2 "0000000b-aaaa" "u1"
                (Some (V1.mkCreateTaskReq "b" ∅ 5 None))] in
  ∃ taskID task,
    Queue.GetQueuePosition (V1.RedisClient s) taskID = 1 ∧
    Queue.GetQueuePosition (V1.RedisClient (V1.worker_pickup s 3 0)) taskID = -1 ∧
    V1.DB s !! taskID = Some task ∧
    V1.workers (V1.worker_pickup s 3 0) !! 0 =
      Some (V1.set_UpdatedAt
              (V1.set_StartedAt (V1.set_Status task V1.TaskStatusRunning) (Some 3)) 3).
Proof.
  intros s.
  destruct (worker_pickup_takes_head s 3 0) as (t & H1 & H2 & _ & _ & Hrow & _).
  - reflexivity.
  - reflexivity.
  - vm_compute. reflexivity.
  - assert (Redis.zget (V1.RedisClient s) Queue.TaskQueueKey =
            <["task_0000000a" := -1]> (<["task_0000000b" := -5]> ∅)) as Hz
      by (vm_compute; reflexivity).
    assert (t = "task_0000000b") as ->.
    { destruct (decide (t = "task_0000000b")) as [Heq|Hne]; [exact Heq|]. exfalso.
      destruct (decide (t = "task_0000000a")) as [->|Hne'].
      - vm_compute in H1. discriminate H1.
      - rewrite position_absent in H1; [discriminate H1|].
        rewrite Hz. rewrite lookup_insert_ne by done. rewrite lookup_insert_ne by done.
        apply lookup_empty. }
    exists "task_0000000b",
           (V1.mkTask "task_0000000b" "b" (Some ∅) 5 V1.TaskStatusQueued None None
                      "" 2 None None "u1" 2).
    split; [exact H1|]. split; [exact H2|]. split; [vm_compute; reflexivity|].
    apply Hrow; vm_compute; reflexivity.
Defined.

(** ** The quota gate on a stream of requests *)

Section QuotaFacts.
Import RateLimit Quota.

Variable cfg : RateLimitConfig.

Let swept' (c : Redis.Client) (now : Z) (key : string) : Redis.Client :=
  Redis.ZRemRangeByScore (Redis.elapse c now) key 0 (Unix (now - window)).

Lemma middleware_swept b c now u tr :
  RateLimitMiddleware cfg b c now u tr =
  if applicableLimit cfg b tr <=? Redis.ZCard (swept' c now (rateLimitKey u b)) (rateLimitKey u b)
  then (Abort 429 "RATE_LIMIT_EXCEEDED", swept' c now (rateLimitKey u b))
  else (Next, Redis.Expire
                (Redis.ZAdd (swept' c now (rateLimitKey u b)) (rateLimitKey u b) (Unix now)
                            (pretty (UnixNano now)))
                (rateLimitKey u b) now (window + 60 * second)).
Proof.
  unfold RateLimitMiddleware, checkRateLimit.
  fold (swept' c now (rateLimitKey u b)).
  by destruct (applicableLimit cfg b tr <=? _).
Qed.

Lemma Unix_nonneg t : 0 <= t -> 0 <= Unix t.
Proof. intros H. unfold Unix, second. by apply Z.div_pos. Qed.

(** The expiry step keeps the entries of the last 60 seconds and leaves
    the other keys alone, apart from the keys whose deadline has
    passed. *)
Lemma swept_member c now key key' m s :
  Redis.zget (swept' c now key') key !! m = Some s ->
  Redis.zget c key !! m = Some s ∧ (key' = key -> ¬ (0 <= s <= Unix now - 60)).
Proof.
  unfold swept', Redis.ZRemRangeByScore. rewrite Unix_window.
  destruct (decide (key' = key)) as [->|Hne].
  - rewrite zget_zput, zget_elapse.
    intros [Hm Hs]%map_lookup_filter_Some. simpl in Hs.
    destruct (Redis.expired c now key); [by rewrite lookup_empty in Hm|]. done.
  - rewrite zget_zput_ne, zget_elapse by done.
    destruct (Redis.expired c now key); [by rewrite lookup_empty|]. done.
Qed.

Lemma swept_recent c now key key' m s :
  Redis.expired c now key = false ->
  Redis.zget c key !! m = Some s ->
  Unix now - 60 < s ->
  Redis.zget (swept' c now key') key !! m = Some s.
Proof.
  intros Hexp Hm Hs. unfold swept', Redis.ZRemRangeByScore.
  destruct (decide (key' = key)) as [->|Hne].
  - rewrite zget_zput, zget_elapse, Hexp.
    apply map_lookup_filter_Some_2; [done|]. simpl. rewrite Unix_window. lia.
  - rewrite zget_zput_ne by done. by rewrite zget_elapse, Hexp.
Qed.

Lemma swept_deadline' c now key key' d :
  Redis.deadlines (swept' c now key') !! key = Some d -> Redis.deadlines c !! key = Some d.
Proof.
  unfold swept', Redis.ZRemRangeByScore. intros Hd.
  apply deadlines_zput in Hd. by apply deadlines_elapse in Hd as [? _].
Qed.

Lemma recorded_recent key acc T c now key' t :
  recorded key acc T c -> T < now -> t ∈ acc -> Unix now - 60 < Unix t ->
  Redis.zget (swept' c now key') key !! pretty t = Some (Unix t).
Proof.
  intros (Hnd & Hle & Hin & Hfrom & Hdl) HT Ht Hrec.
  apply swept_recent; [| |done].
  - unfold Redis.expired. destruct (Redis.deadlines c !! key) as [d|] eqn:Hd; [|done].
    apply Z.leb_gt. specialize (Hdl d t eq_refl Ht).
    destruct (Z.le_gt_cases d now) as [Hdn|]; [|done]. exfalso.
    assert (Unix (t + 120 * second) <= Unix now) as Hu.
    { apply Unix_mono. unfold window in Hdl. lia. }
    rewrite Unix_add_seconds in Hu. lia.
  - apply Hin; [done|]. pose proof (Unix_mono T now ltac:(lia)). lia.
Qed.

(** After the expiry step of a request under the key, the sorted set
    holds the accepted requests of the last 60 whole seconds and nothing
    else. *)
Lemma recorded_card key acc T c now :
  recorded key acc T c -> T < now ->
  Redis.ZCard (swept' c now key) key = Z.of_nat (length (recent now acc)).
Proof.
  intros Hinv HT.
  pose proof (λ t, recorded_recent key acc T c now key t Hinv HT) as Hrec.
  destruct Hinv as (Hnd & Hle & Hin & Hfrom & Hdl).
  unfold Redis.ZCard. f_equal.
  rewrite <- (length_fmap pretty).
  rewrite <- (size_list_to_set (C := gset string)).
  2:{ apply (NoDup_fmap_2 _). by apply NoDup_filter. }
  rewrite <- size_dom. f_equal. apply set_eq. intros m.
  rewrite elem_of_dom, elem_of_list_to_set, list_elem_of_fmap. split.
  - intros [s Hm]. apply swept_member in Hm as [Hm Hs].
    destruct (Hfrom m s Hm) as (t & Ht & -> & ->).
    exists t. split; [done|]. apply list_elem_of_filter. split; [|done].
    specialize (Hs eq_refl). pose proof (Unix_nonneg t ltac:(by apply Hle)). lia.
  - intros (t & -> & [Hr Ht]%list_elem_of_filter). exists (Unix t). by apply Hrec.
Qed.

Lemma recorded_other key acc T c r :
  recorded key acc T c -> T < arrival r -> key_of r ≠ key ->
  recorded key acc (arrival r)
           (RateLimitMiddleware cfg (isBatch r) c (arrival r) (userID r) (tier r)).2.
Proof.
  intros Hinv HT Hkey.
  pose proof (λ t, recorded_recent key acc T c (arrival r) (key_of r) t Hinv HT) as Hrec.
  destruct Hinv as (Hnd & Hle & Hin & Hfrom & Hdl).
  rewrite middleware_swept. fold (key_of r).
  destruct (_ <=? _); cbn [snd].
  - split; [done|]. split; [|split; [|split]].
    + intros t Ht. specialize (Hle t Ht). lia.
    + intros t Ht Hr. by apply Hrec.
    + intros m s Hm. apply swept_member in Hm as [Hm _]. by apply Hfrom.
    + intros d t Hd Ht. apply swept_deadline' in Hd. by eapply Hdl.
  - split; [done|]. split; [|split; [|split]].
    + intros t Ht. specialize (Hle t Ht). lia.
    + intros t Ht Hr. rewrite zget_Expire. unfold Redis.ZAdd.
      rewrite zget_zput_ne by done. by apply Hrec.
    + intros m s. rewrite zget_Expire. unfold Redis.ZAdd.
      rewrite zget_zput_ne by done.
      intros Hm. apply swept_member in Hm as [Hm _]. by apply Hfrom.
    + intros d t Hd Ht. unfold Redis.Expire in Hd.
      case_decide; simpl in Hd.
      * rewrite lookup_insert_ne in Hd by done.
        unfold Redis.ZAdd in Hd. apply deadlines_zput, swept_deadline' in Hd. by eapply Hdl.
      * unfold Redis.ZAdd in Hd. apply deadlines_zput, swept_deadline' in Hd. by eapply Hdl.
Qed.

Lemma recorded_same key acc T c r :
  recorded key acc T c -> T < arrival r -> 0 <= arrival r -> key_of r = key ->
  match RateLimitMiddleware cfg (isBatch r) c (arrival r) (userID r) (tier r) with
  | (Next, c') => recorded key (arrival r :: acc) (arrival r) c'
  | (Abort _ _, c') => recorded key acc (arrival r) c'
  end.
Proof.
  intros Hinv HT Hpos Hkey.
  pose proof (λ t, recorded_recent key acc T c (arrival r) key t Hinv HT) as Hrec.
  destruct Hinv as (Hnd & Hle & Hin & Hfrom & Hdl).
  rewrite middleware_swept. fold (key_of r). rewrite Hkey.
  destruct (_ <=? _) eqn:Hlim.
  - split; [done|]. split; [|split; [|split]].
    + intros t Ht. specialize (Hle t Ht). lia.
    + intros t Ht Hr. by apply Hrec.
    + intros m s Hm. apply swept_member in Hm as [Hm _]. by apply Hfrom.
    + intros d t Hd Ht. apply swept_deadline' in Hd. by eapply Hdl.
  - assert (arrival r ∉ acc) as Hfresh.
    { intros Hn. specialize (Hle _ Hn). lia. }
    split; [by constructor|]. split; [|split; [|split]].
    + intros t [->|Ht]%elem_of_cons; [lia|]. specialize (Hle t Ht). lia.
    + intros t Ht Hr. rewrite zget_Expire. unfold Redis.ZAdd. rewrite zget_zput.
      unfold UnixNano.
      apply elem_of_cons in Ht as [->|Ht].
      * apply lookup_insert_eq.
      * rewrite lookup_insert_ne; [by apply Hrec|].
        intros Heq. apply (inj pretty) in Heq. by subst.
    + intros m s. rewrite zget_Expire. unfold Redis.ZAdd. rewrite zget_zput.
      unfold UnixNano. rewrite lookup_insert. case_decide as Hm.
      * intros [= <-]. exists (arrival r). split; [left|done].
      * intros Hl. apply swept_member in Hl as [Hl _].
        destruct (Hfrom m s Hl) as (t & Ht & -> & ->). exists t. split; [by right|done].
    + intros d t Hd Ht.
      rewrite deadlines_Expire in Hd.
      2:{ unfold Redis.ZAdd. rewrite zsets_zput_nonempty; [done|].
          apply insert_non_empty. }
      injection Hd as <-.
      assert (t <= arrival r).
      { apply elem_of_cons in Ht as [->|Ht]; [lia|]. specialize (Hle t Ht). lia. }
      unfold window. lia.
Qed.

Lemma recorded_step key accepted T c r :
  recorded key (accepted_at key accepted) T c -> T < arrival r -> 0 <= arrival r ->
  recorded key (accepted_at key (serve1 cfg (accepted, c) r).1) (arrival r)
           (serve1 cfg (accepted, c) r).2.
Proof.
  intros Hinv HT Hpos. unfold serve1. cbn [fst snd].
  destruct (decide (key_of r = key)) as [Hkey|Hkey].
  - pose proof (recorded_same key _ T c r Hinv HT Hpos Hkey) as Hstep.
    destruct (RateLimitMiddleware _ _ _ _ _ _) as [[|code msg] c']; cbn [fst snd].
    + unfold accepted_at. rewrite filter_cons_True by done. by rewrite fmap_cons.
    + done.
  - pose proof (recorded_other key _ T c r Hinv HT Hkey) as Hstep.
    destruct (RateLimitMiddleware _ _ _ _ _ _) as [[|code msg] c']; cbn [fst snd] in *.
    + unfold accepted_at. by rewrite filter_cons_False.
    + done.
Qed.

Lemma recorded_run key reqs :
  ∀ accepted T c,
  recorded key (accepted_at key accepted) T c ->
  Forall (λ r, T < arrival r ∧ 0 <= arrival r) reqs ->
  StronglySorted (λ a b, arrival a < arrival b) reqs ->
  ∃ T', recorded key (accepted_at key (foldl (serve1 cfg) (accepted, c) reqs).1) T'
                     (foldl (serve1 cfg) (accepted, c) reqs).2 ∧
        (T' = T ∨ ∃ r, r ∈ reqs ∧ T' = arrival r).
Proof.
  induction reqs as [|r reqs IH]; intros accepted T c Hinv Hgt Hsorted.
  - exists T. split; [done|]. by left.
  - simpl. apply Forall_cons in Hgt as [[Hnow Hpos] Hgt].
    apply StronglySorted_inv in Hsorted as [Hsorted Hnext].
    pose proof (recorded_step key accepted T c r Hinv Hnow Hpos) as Hstep.
    destruct (serve1 cfg (accepted, c) r) as [accepted' c'] eqn:Hs.
    destruct (IH accepted' (arrival r) c') as (T' & Hinv' & HT'); [done| |done|].
    + apply Forall_forall. intros r' Hr'. rewrite Forall_forall in Hgt, Hnext.
      split; [by apply Hnext|by apply Hgt].
    + exists T'. split; [done|]. right. destruct HT' as [->|(r' & Hr' & ->)].
      * exists r. split; [left|done].
      * exists r'. split; [by right|done].
Qed.

Lemma recorded_init key c T :
  Redis.zget c key = ∅ -> recorded key [] T c.
Proof.
  intros Hz. split; [constructor|]. repeat split.
  - by apply elem_of_nil in H.
  - by apply elem_of_nil in H.
  - by intros t Ht%elem_of_nil.
  - intros m s. by rewrite Hz, lookup_empty.
  - by intros d t _ Ht%elem_of_nil.
Qed.

(** The decision on a request that arrives after a stream of requests. *)
Lemma decision_after_stream c reqs r :
  Redis.zget c (key_of r) = ∅ ->
  StronglySorted (λ a b, arrival a < arrival b) (reqs ++ [r]) ->
  Forall (λ r', 0 <= arrival r') (reqs ++ [r]) ->
  (RateLimitMiddleware cfg (isBatch r) (serve cfg c reqs).2 (arrival r) (userID r) (tier r)).1
  = if limit_of cfg r <=?
         Z.of_nat (length (recent (arrival r) (accepted_at (key_of r) (serve cfg c reqs).1)))
    then Abort 429 "RATE_LIMIT_EXCEEDED" else Next.
Proof.
  intros Hz Hsorted Hpos.
  assert (∃ T, recorded (key_of r) (accepted_at (key_of r) (serve cfg c reqs).1) T
                        (serve cfg c reqs).2 ∧ T < arrival r) as (T & Hinv & HT).
  { unfold serve. destruct reqs as [|r0 reqs].
    - exists (arrival r - 1). split; [by apply recorded_init|lia].
    - pose proof (StronglySorted_app_1_l _ _ _ Hsorted) as Hsorted0.
      pose proof (λ r', StronglySorted_app_1_elem_of _ _ _ r' r Hsorted) as Hlast.
      apply Forall_app in Hpos as [Hpos _].
      destruct (recorded_run (key_of r) (r0 :: reqs) [] (arrival r0 - 1) c)
        as (T' & Hinv & HT').
      + by apply recorded_init.
      + apply StronglySorted_inv in Hsorted0 as [_ Hnext].
        apply Forall_cons in Hpos as [Hp0 Hpos]. constructor; [lia|].
        apply Forall_forall. intros r' Hr'. rewrite Forall_forall in Hnext, Hpos.
        specialize (Hnext r' Hr'). specialize (Hpos r' Hr'). lia.
      + done.
      + exists T'. split; [done|]. destruct HT' as [->|(r' & Hr' & ->)].
        * specialize (Hlast r0 ltac:(left) ltac:(left)). simpl in Hlast. lia.
        * apply (Hlast r'); [done|left]. }
  rewrite middleware_swept. fold (key_of r). fold (limit_of cfg r).
  rewrite (recorded_card _ _ T _ _ Hinv HT).
  by destruct (_ <=? _).
Qed.

End QuotaFacts.

(** A request that arrives after a stream of requests of any principals
    (stamps increasing, none before the epoch; a store that held nothing
    under the key of the request) is accepted exactly when fewer accepted
    requests of its key than its limit are stamped in the last 60 whole
    seconds: nothing else is counted against it. *)
Theorem rate_limit_accepts_below_limit cfg c reqs r :
  Redis.zget c (RateLimit.key_of r) = ∅ ->
  StronglySorted (λ a b, RateLimit.arrival a < RateLimit.arrival b) (reqs ++ [r]) ->
  Forall (λ r', 0 <= RateLimit.arrival r') (reqs ++ [r]) ->
  (RateLimit.RateLimitMiddleware cfg (RateLimit.isBatch r) (RateLimit.serve cfg c reqs).2
     (RateLimit.arrival r) (RateLimit.userID r) (RateLimit.tier r)).1 = RateLimit.Next
  <->
  Z.of_nat (length (Quota.recent (RateLimit.arrival r)
                      (RateLimit.accepted_at (RateLimit.key_of r)
                                             (RateLimit.serve cfg c reqs).1)))
  < RateLimit.limit_of cfg r.
Proof.
  intros Hz Hsorted Hpos. rewrite (decision_after_stream cfg c reqs r Hz Hsorted Hpos).
  destruct (_ <=? _) eqn:Hlim.
  - apply Z.leb_le in Hlim. split; [discriminate|lia].
  - apply Z.leb_gt in Hlim. done.
Qed.

Lemma rate_limit_accepts_below_limit_witness :
  let cfg := RateLimit.mkRateLimitConfig 1 1000 10 in
  let reqs := [RateLimit.mkRequest "u1" "standard" false 900000000;
               RateLimit.mkRequest "u2" "standard" false 30000000000] in
  let r := RateLimit.mkRequest "u1" "standard" false 61000000000 in
  (RateLimit.RateLimitMiddleware cfg (RateLimit.isBatch r) (RateLimit.serve cfg Redis.empty reqs).2
     (RateLimit.arrival r) (RateLimit.userID r) (RateLimit.tier r)).1 = RateLimit.Next.
Proof.
  intros cfg reqs r.
  apply (proj2 (rate_limit_accepts_below_limit cfg Redis.empty reqs r eq_refl
                  ltac:(repeat constructor) ltac:(repeat constructor; discriminate))).
  vm_compute. reflexivity.
Defined.

Section QuotaKeys.
Import RateLimit Quota.

Variable cfg : RateLimitConfig.

Lemma StronglySorted_filter_arrival (P : Request -> Prop) `{∀ r, Decision (P r)} reqs :
  StronglySorted (λ a b, arrival a < arrival b) reqs ->
  StronglySorted (λ a b, arrival a < arrival b) (filter P reqs).
Proof.
  induction 1 as [|r reqs Hs IH Hall]; [constructor|].
  rewrite filter_cons. case_decide; [|done].
  constructor; [done|]. apply Forall_forall. intros r' [_ Hr']%list_elem_of_filter.
  rewrite Forall_forall in Hall. by apply Hall.
Qed.

Lemma serve_snoc c reqs r : serve cfg c (reqs ++ [r]) = serve1 cfg (serve cfg c reqs) r.
Proof. unfold serve. by rewrite foldl_app. Qed.

Lemma accepted_at_serve1 key st r :
  accepted_at key (serve1 cfg st r).1 =
  if decide (key_of r = key)
  then match (RateLimitMiddleware cfg (isBatch r) st.2 (arrival r) (userID r) (tier r)).1 with
       | Next => arrival r :: accepted_at key st.1
       | Abort _ _ => accepted_at key st.1
       end
  else accepted_at key st.1.
Proof.
  unfold serve1.
  destruct (RateLimitMiddleware _ _ _ _ _ _) as [[|code msg] c']; cbn [fst snd];
    unfold accepted_at; case_decide.
  - rewrite filter_cons_True by done. by rewrite fmap_cons.
  - by rewrite filter_cons_False.
  - done.
  - done.
Qed.

(** The requests that are counted under other keys have no part in the
    decisions on the requests of a key. *)
Lemma accepted_at_filter c reqs key :
  Redis.zget c key = ∅ ->
  StronglySorted (λ a b, arrival a < arrival b) reqs ->
  Forall (λ r, 0 <= arrival r) reqs ->
  accepted_at key (serve cfg c reqs).1 =
  accepted_at key (serve cfg c (filter (λ r, key_of r = key) reqs)).1.
Proof.
  intros Hz. induction reqs as [|r reqs IH] using rev_ind; intros Hsorted Hpos; [done|].
  pose proof (StronglySorted_app_1_l _ _ _ Hsorted) as Hsorted0.
  pose proof (proj1 (proj1 (Forall_app _ _ _) Hpos)) as Hpos0.
  specialize (IH Hsorted0 Hpos0).
  rewrite filter_app, filter_cons, filter_nil.
  case_decide as Hkey.
  - rewrite !serve_snoc, !accepted_at_serve1, !decide_True by done.
    subst key.
    rewrite (decision_after_stream cfg c reqs r Hz Hsorted Hpos).
    rewrite (decision_after_stream cfg c (filter (λ r', key_of r' = key_of r) reqs) r Hz).
    + rewrite <- IH. by destruct (_ <=? _).
    + apply StronglySorted_app_2;
        [|by apply StronglySorted_filter_arrival|repeat constructor].
      intros r1 r2 [_ Hr1]%list_elem_of_filter Hr2%list_elem_of_singleton. subst r2.
      apply (StronglySorted_app_1_elem_of _ _ _ r1 r Hsorted); [done|left].
    + apply Forall_app. split; [|by apply Forall_app in Hpos as [_ ?]].
      apply Forall_forall. intros r' [_ Hr']%list_elem_of_filter.
      rewrite Forall_forall in Hpos0. by apply Hpos0.
  - rewrite app_nil_r, serve_snoc, accepted_at_serve1, decide_False by done. exact IH.
Qed.

Lemma rateLimitKey_alias u b v b' :
  rateLimitKey u b = rateLimitKey v b' <->
  (b = b' ∧ u = v) ∨ (b = false ∧ b' = true ∧ u = "batch:" +:+ v) ∨
  (b = true ∧ b' = false ∧ v = "batch:" +:+ u).
Proof.
  unfold rateLimitKey. destruct b, b'; split.
  - intros Heq%(inj (String.append _)). by left.
  - intros [[_ ->]|[(? & _)|(_ & ? & _)]]; done.
  - change ("ratelimit:batch:" +:+ u) with ("ratelimit:" +:+ ("batch:" +:+ u)).
    intros Heq%(inj (String.append _)). right. by right.
  - intros [[? _]|[(? & _)|(_ & _ & ->)]]; done.
  - change ("ratelimit:batch:" +:+ v) with ("ratelimit:" +:+ ("batch:" +:+ v)).
    intros Heq%(inj (String.append _)). right. by left.
  - intros [[? _]|[(_ & _ & ->)|(? & _)]]; done.
  - intros Heq%(inj (String.append _)). by left.
  - intros [[_ ->]|[(_ & ? & _)|(? & _)]]; done.
Qed.

End QuotaKeys.

(** The counters of the quota gate are kept per Redis key.  (a) The
    decisions on the requests of a key are the ones the gate would take
    if the requests of all other keys had never arrived.  (b) Two
    requests share a key exactly when they are of the same principal and
    class, or when one is an ordinary request of a principal whose id is
    [batch:] followed by the id of the principal of the other, a batch
    request. *)
Theorem rate_limit_counts_per_key cfg :
  (∀ c reqs key,
     Redis.zget c key = ∅ ->
     StronglySorted (λ a b, RateLimit.arrival a < RateLimit.arrival b) reqs ->
     Forall (λ r, 0 <= RateLimit.arrival r) reqs ->
     RateLimit.accepted_at key (RateLimit.serve cfg c reqs).1 =
     RateLimit.accepted_at key
       (RateLimit.serve cfg c (filter (λ r, RateLimit.key_of r = key) reqs)).1) ∧
  (∀ u b v b',
     RateLimit.rateLimitKey u b = RateLimit.rateLimitKey v b' <->
     (b = b' ∧ u = v) ∨ (b = false ∧ b' = true ∧ u = "batch:" +:+ v) ∨
     (b = true ∧ b' = false ∧ v = "batch:" +:+ u)).
Proof.
  split.
  - intros c reqs key. apply accepted_at_filter.
  - apply rateLimitKey_alias.
Qed.

Lemma rate_limit_counts_per_key_witness :
  let cfg := RateLimit.mkRateLimitConfig 1 1000 10 in
  let reqs := [RateLimit.mkRequest "u1" "standard" false 900000000;
               RateLimit.mkRequest "u2" "standard" false 30000000000;
               RateLimit.mkRequest "u1" "standard" false 31000000000] in
  RateLimit.accepted_at "ratelimit:u1" (RateLimit.serve cfg Redis.empty reqs).1 =
  RateLimit.accepted_at "ratelimit:u1"
    (RateLimit.serve cfg Redis.empty
       (filter (λ r, RateLimit.key_of r = "ratelimit:u1") reqs)).1.
Proof.
  intros cfg reqs.
  apply (proj1 (rate_limit_counts_per_key cfg) Redis.empty reqs "ratelimit:u1" eq_refl).
  - repeat constructor.
  - repeat constructor; discriminate.
Defined.

(** ** The V2 handlers, request by request *)

Section V2Requests.
Import V2.

Lemma reorder_map_keys (rows : list TrainingQueue.t) id q :
  (list_to_map ((λ q, (TrainingQueue.ID q, q)) <$> rows) : gmap string TrainingQueue.t)
    !! id = Some q ->
  TrainingQueue.ID q = id ∧ q ∈ rows.
Proof.
  intros Hq. apply elem_of_list_to_map_2 in Hq.
  by apply list_elem_of_fmap in Hq as (q' & [= -> ->] & Hq').
Qed.

(** The loop of [ReorderQueues] in any store: whether it ends or stops at
    a save that fails, it writes under listed ids only. *)
Lemma reorder_loop_frame now startOrder ids :
  ∀ db queueMap i,
  (∀ id q, queueMap !! id = Some q -> TrainingQueue.ID q = id) ->
  let r := reorder_loop db now queueMap startOrder i ids in
  units r.2 = units db ∧ groups r.2 = groups db ∧
  (∀ id, id ∉ ids -> queues r.2 !! id = queues db !! id).
Proof.
  induction ids as [|id0 ids IH]; intros db queueMap i Hkeys; cbv zeta; [done|].
  cbn [reorder_loop]. destruct (queueMap !! id0) as [q0|] eqn:Hq0.
  - destruct (save_queue db now _) as [[q1 db1]|] eqn:Hs; [|done].
    apply save_queue_Some in Hs as (_ & -> & ->).
    cbn [TrainingQueue.ID TrainingQueue.set_UpdatedAt TrainingQueue.set_Order].
    rewrite (Hkeys _ _ Hq0).
    match goal with |- context [reorder_loop ?d _ ?m _ _ ids] =>
      destruct (IH d m (S i)) as (Hu & Hg & Hother) end.
    { intros id q. rewrite lookup_insert. case_decide as Heq; [|by apply Hkeys].
      intros [= <-]. simpl. by rewrite (Hkeys _ _ Hq0). }
    split; [done|]. split; [done|]. intros id Hid.
    apply not_elem_of_cons in Hid as [Hne Hid]. rewrite Hother by done.
    cbn [queues]. by rewrite lookup_insert_ne.
  - destruct (IH db queueMap (S i) Hkeys) as (Hu & Hg & Hother).
    split; [done|]. split; [done|]. intros id Hid.
    apply not_elem_of_cons in Hid as [Hne Hid]. by apply Hother.
Qed.

(** When the rows of [queueMap] are rows of the table, a row that the
    loop has written is the row of the table with a new order and a new
    [updated_at]. *)
Lemma reorder_loop_writes now startOrder ids :
  ∀ db queueMap i,
  (∀ id q, queueMap !! id = Some q ->
     TrainingQueue.ID q = id ∧ queues db !! id = Some q) ->
  let r := reorder_loop db now queueMap startOrder i ids in
  ∀ id, queues r.2 !! id = queues db !! id ∨
        ∃ q o, queues db !! id = Some q ∧
               queues r.2 !! id
                 = Some (TrainingQueue.set_UpdatedAt (TrainingQueue.set_Order q o) now).
Proof.
  induction ids as [|id0 ids IH]; intros db queueMap i Hmap; cbv zeta; [by left|].
  cbn [reorder_loop]. destruct (queueMap !! id0) as [q0|] eqn:Hq0; [|by apply IH].
  destruct (Hmap _ _ Hq0) as [Hid0 Hrow0].
  destruct (save_queue db now _) as [[q1 db1]|] eqn:Hs; [|by left].
  apply save_queue_Some in Hs as (_ & -> & ->).
  cbn [TrainingQueue.ID TrainingQueue.set_UpdatedAt TrainingQueue.set_Order].
  rewrite Hid0.
  match goal with |- context [reorder_loop ?d _ ?m _ _ ids] =>
    pose proof (IH d m (S i)) as IH' end.
  cbv zeta in IH'. intros id. destruct IH' with (id := id) as [Hsame|(q & o & Hq & Hnew)].
  { intros id' q. rewrite lookup_insert. case_decide as Heq.
    - intros [= <-]. subst id'. simpl. split; [done|]. by rewrite lookup_insert_eq.
    - intros Hq. destruct (Hmap _ _ Hq) as [Hid Hrow]. split; [done|].
      simpl. by rewrite lookup_insert_ne. }
  - rewrite Hsame. cbn [queues]. rewrite lookup_insert.
    case_decide as Heq; [|by left]. subst id. right.
    exists q0, (startOrder + Z.of_nat i). done.
  - cbn [queues] in Hq. rewrite lookup_insert in Hq. case_decide as Heq.
    + injection Hq as <-. subst id. right. exists q0, o. split; [done|].
      by rewrite Hnew.
    + right. by exists q, o.
Qed.

(** A request that is not answered 200 or 201 has written nothing, with
    one exception: [ReorderQueues] saves row after row and answers 500 at
    the first save that fails, leaving the rows that it has saved. *)
Lemma handle_rejected db op :
  ¬ succeeded (handle db op).1 ->
  (handle db op).2 = db ∨
  ∃ now unitID userID ids,
    op = OpReorderQueues now unitID userID (Some ids) ∧
    status (handle db op).1 = 500 ∧
    groups (handle db op).2 = groups db ∧ units (handle db op).2 = units db ∧
    (∀ id, id ∉ ids -> queues (handle db op).2 !! id = queues db !! id) ∧
    (well_keyed db ->
     ∀ id, queues (handle db op).2 !! id = queues db !! id ∨
           ∃ q o, queues db !! id = Some q ∧
                  queues (handle db op).2 !! id
                    = Some (TrainingQueue.set_UpdatedAt (TrainingQueue.set_Order q o) now)).
Proof.
  intros Hrej.
  assert (∀ body (db' : DB), ¬ succeeded (mkResponse 200 body, db').1 -> False) as H200.
  { intros body db' H. apply H. by left. }
  assert (∀ body (db' : DB), ¬ succeeded (mkResponse 201 body, db').1 -> False) as H201.
  { intros body db' H. apply H. by right. }
  destruct op; cbn [handle] in *;
    match goal with |- context [ReorderQueues] => idtac | _ => left end.
  - unfold CreateTrainingQueue in *. destruct req; [|done].
    destruct (first_unit _ _ _); [|done].
    destruct (create_queue _ _ _) as [[q' db1]|]; [|done]. by apply H201 in Hrej.
  - unfold BatchCreateQueues in *. destruct req; [|done].
    destruct (first_unit _ _ _); [|done].
    destruct (batch_loop _ _ _ _ _ _ _ _ _ _) as [ids db1]. by apply H201 in Hrej.
  - unfold ListTrainingQueues in *. destruct (first_unit _ _ _); [|done].
    by destruct (Find _ _ _).
  - unfold GetTrainingQueue in *. by destruct (first_queue _ _ _).
  - unfold UpdateTrainingQueue in *. destruct req; [|done].
    destruct (first_queue _ _ _); [|done].
    case_decide; [done|]. case_decide; [done|].
    destruct (save_queue _ _ _) as [[q' db1]|]; [|done]. by apply H200 in Hrej.
  - unfold DeleteTrainingQueue in *. destruct (first_queue _ _ _); [|done].
    case_decide; [done|]. by apply H200 in Hrej.
  - unfold StartQueue in *. destruct (first_queue _ _ _); [|done].
    case_decide; [done|].
    destruct (save_queue _ _ _) as [[q' db1]|]; [|done]. by apply H200 in Hrej.
  - unfold CompleteQueue in *. destruct req; [|done].
    destruct (first_queue _ _ _); [|done].
    destruct (save_queue _ _ _) as [[q' db1]|]; [|done]. by apply H200 in Hrej.
  - unfold FailQueue in *. destruct req; [|done].
    destruct (first_queue _ _ _); [|done].
    destruct (save_queue _ _ _) as [[q' db1]|]; [|done]. by apply H200 in Hrej.
  - unfold ReorderQueues in *. destruct req as [ids|]; [|by left].
    destruct (first_unit _ _ _); [|by left].
    case_decide; [by left|]. case_decide; [by left|].
    match type of Hrej with context [reorder_loop ?a ?b ?c ?d ?e ?f] =>
      pose proof (reorder_loop_frame b d f a c e) as Hframe;
      pose proof (reorder_loop_writes b d f a c e) as Hwrites;
      destruct (reorder_loop a b c d e f) as [[] db1] end.
    { exfalso. by apply H200 in Hrej. }
    right. exists now, unitID, userID, ids. cbn [fst snd] in *.
    destruct Hframe as (Hu & Hg & Hother).
    { intros id q Hq. by apply reorder_map_keys in Hq as [? _]. }
    split; [done|]. split; [done|]. split; [done|]. split; [done|]. split; [done|].
    intros [_ Hkq]. apply Hwrites. intros id q Hq.
    apply reorder_map_keys in Hq as [Hid Hin]. split; [done|].
    apply list_elem_of_filter in Hin as [_ [id0 Hrow]%elem_rows].
    by rewrite <- Hid, (Hkq _ _ Hrow).
  - unfold CreateTrainingUnit in *. destruct req; [|done].
    destruct (first_group _ _ _); [|done].
    destruct (create_unit _ _ _) as [[u' db1]|]; [|done]. by apply H201 in Hrej.
  - unfold ListTrainingUnits in *. destruct (first_group _ _ _); [|done].
    destruct (list_units_loop _ _ _) as [l db1]. by apply H200 in Hrej.
  - unfold GetTrainingUnit in *. destruct (first_unit _ _ _); [|done].
    destruct (checkConnectionStatus _ _ _) as [unit db1]. by apply H200 in Hrej.
  - unfold SyncTrainingUnit in *. destruct req; [|done]. by destruct (first_unit _ _ _).
  - unfold UpdateTrainingUnit in *. destruct req; [|done].
    destruct (first_unit _ _ _); [|done].
    destruct (save_unit _ _ _) as [[u' db1]|]; [|done]. by apply H200 in Hrej.
  - unfold DeleteTrainingUnit in *. destruct (_ <? _); [done|]. by apply H200 in Hrej.
  - unfold Heartbeat in *. destruct (first_unit _ _ _); [|done].
    destruct (save_unit _ _ _) as [[u' db1]|]; [|done]. by apply H200 in Hrej.
  - unfold CreateGroup in *. destruct req; [|done].
    destruct (create_group _ _ _) as [[g' db1]|]; [|done]. by apply H201 in Hrej.
  - by apply H200 in Hrej.
  - unfold GetGroup in *. by destruct (first_group _ _ _).
  - unfold UpdateGroup in *. destruct req; [|done].
    destruct (first_group _ _ _); [|done].
    destruct (save_group _ _ _) as [[g' db1]|]; [|done]. by apply H200 in Hrej.
  - by apply H200 in Hrej.
Qed.

End V2Requests.

(** A request to a V2 handler that is not answered 200 or 201 leaves the
    store as it was: a handler writes nothing before its last check, and
    the liveness check of a read path runs only on a unit that the read
    then returns.  The one exception is the reorder request, which saves
    the rows one by one and answers 500 at the first save that fails: the
    groups, the units and the queues that are not listed are then as they
    were, and a listed queue is as it was or has a new order and a new
    [updated_at]. *)
Theorem rejected_keeps_store db op :
  ¬ V2.succeeded (V2.handle db op).1 ->
  (V2.handle db op).2 = db ∨
  ∃ now unitID userID ids,
    op = V2.OpReorderQueues now unitID userID (Some ids) ∧
    V2.status (V2.handle db op).1 = 500 ∧
    V2.groups (V2.handle db op).2 = V2.groups db ∧
    V2.units (V2.handle db op).2 = V2.units db ∧
    (∀ id, id ∉ ids -> V2.queues (V2.handle db op).2 !! id = V2.queues db !! id) ∧
    (V2.well_keyed db ->
     ∀ id, V2.queues (V2.handle db op).2 !! id = V2.queues db !! id ∨
           ∃ q o, V2.queues db !! id = Some q ∧
                  V2.queues (V2.handle db op).2 !! id
                    = Some (V2.TrainingQueue.set_UpdatedAt
                              (V2.TrainingQueue.set_Order q o) now)).
Proof. apply handle_rejected. Qed.

Lemma rejected_keeps_store_witness :
  let delete := V2.OpDeleteUnit "unit_00000001" "u1" in
  let reorder := V2.OpReorderQueues 9 "unit_00000001" "u1"
                   (Some ["queue_0000000c"; "queue_0000000b"; "queue_0000000a"]) in
  (V2.status (V2.handle V2.store_with_queues delete).1 = 400 ∧
   (V2.handle V2.store_with_queues delete).2 = V2.store_with_queues) ∧
  V2.status (V2.handle V2.store_refused_row reorder).1 = 500 ∧
  V2.units (V2.handle V2.store_refused_row reorder).2 = V2.units V2.store_refused_row ∧
  (V2.order_of V2.store_refused_row <$>
     ["queue_0000000a"; "queue_0000000b"; "queue_0000000c"]) = [Some 0; Some 1; Some 2] ∧
  (V2.order_of (V2.handle V2.store_refused_row reorder).2 <$>
     ["queue_0000000a"; "queue_0000000b"; "queue_0000000c"]) = [Some 0; Some 1; Some 0].
Proof.
  intros delete reorder. split; [|split; [|split; [|split]]].
  - split; [vm_compute; reflexivity|].
    destruct (rejected_keeps_store V2.store_with_queues delete)
      as [Hsame|(now & unitID & userID & ids & Hop & _)].
    + vm_compute. intros [H|H]; discriminate H.
    + exact Hsame.
    + discriminate Hop.
  - vm_compute. reflexivity.
  - destruct (rejected_keeps_store V2.store_refused_row reorder)
      as [Hsame|(now & unitID & userID & ids & _ & _ & _ & Hunits & _)].
    + vm_compute. intros [H|H]; discriminate H.
    + by rewrite Hsame.
    + exact Hunits.
  - vm_compute. reflexivity.
  - vm_compute. reflexivity.
Defined.

(** ** Ownership *)

Section TenancyFacts.
Import V2 Tenancy.

Lemma rows_refl {A} (owner : A -> string) u (m : gmap string A) :
  ∀ k, m !! k = m !! k ∨ (own_row owner u (m !! k) ∧ own_row owner u (m !! k)).
Proof. intros k. by left. Qed.

Lemma rows_trans {A} (owner : A -> string) u (m1 m2 m3 : gmap string A) :
  (∀ k, m2 !! k = m1 !! k ∨ (own_row owner u (m1 !! k) ∧ own_row owner u (m2 !! k))) ->
  (∀ k, m3 !! k = m2 !! k ∨ (own_row owner u (m2 !! k) ∧ own_row owner u (m3 !! k))) ->
  ∀ k, m3 !! k = m1 !! k ∨ (own_row owner u (m1 !! k) ∧ own_row owner u (m3 !! k)).
Proof.
  intros H1 H2 k. destruct (H1 k) as [E1|[A1 B1]], (H2 k) as [E2|[A2 B2]].
  - left. congruence.
  - right. split; [by rewrite <- E1|done].
  - right. split; [done|by rewrite E2].
  - right. done.
Qed.

Lemma touches_refl u db : owned db -> touches u db db.
Proof. intros H. split; [done|]. split; [|split]; apply rows_refl. Qed.

Lemma touches_trans u db1 db2 db3 : touches u db1 db2 -> touches u db2 db3 -> touches u db1 db3.
Proof.
  intros (_ & Hg1 & Hu1 & Hq1) (Ho & Hg2 & Hu2 & Hq2).
  split; [done|]. split; [|split]; by eapply rows_trans.
Qed.

Lemma others_filter {A} (owner : A -> string) u (m m' : gmap string A) :
  (∀ k, m' !! k = m !! k ∨ (own_row owner u (m !! k) ∧ own_row owner u (m' !! k))) ->
  filter (λ e : string * A, owner e.2 ≠ u) m' = filter (λ e : string * A, owner e.2 ≠ u) m.
Proof.
  intros H. apply map_eq. intros k. apply option_eq. intros x.
  rewrite !map_lookup_filter_Some. simpl.
  destruct (H k) as [->|[Hm Hm']]; [done|]. split.
  - intros [Hx Hne]. by specialize (Hm' x Hx).
  - intros [Hx Hne]. by specialize (Hm x Hx).
Qed.

Lemma touches_others u db db' :
  touches u db db' ->
  groups_of_others u db' = groups_of_others u db ∧
  units_of_others u db' = units_of_others u db ∧
  queues_of_others u db' = queues_of_others u db.
Proof.
  intros (_ & Hg & Hu & Hq). split; [|split]; by apply others_filter.
Qed.

(** The writes of the handlers. *)
Lemma touches_put_queue u db k y :
  owned db -> own_row TrainingQueue.UserID u (queues db !! k) ->
  TrainingQueue.ID y = k -> TrainingQueue.UserID y = u ->
  (∃ unit, units db !! TrainingQueue.UnitID y = Some unit ∧ TrainingUnit.UserID unit = u) ->
  touches u db (mkDB (groups db) (units db) (<[k := y]> (queues db))).
Proof.
  intros ([Hku Hkq] & HI & HJ & HG) Hown Hid Huser Hunit.
  split; [|split; [apply rows_refl|split; [apply rows_refl|]]].
  - split; [split; [done|]|split; [|done]]; cbn [queues units].
    + intros id q. rewrite lookup_insert. case_decide; [by intros [= <-]; subst|apply Hkq].
    + intros id q. rewrite lookup_insert. case_decide.
      * intros [= <-]. by rewrite Huser.
      * apply HI.
  - intros k'. cbn [queues]. rewrite lookup_insert. case_decide; [subst k'|by left].
    right. split; [done|]. by intros x [= <-].
Qed.

Lemma touches_delete_queue u db k :
  owned db -> own_row TrainingQueue.UserID u (queues db !! k) ->
  touches u db (delete_queue db k).
Proof.
  intros ([Hku Hkq] & HI & HJ & HG) Hown.
  split; [|split; [apply rows_refl|split; [apply rows_refl|]]].
  - split; [split; [done|]|split; [|done]]; cbn [queues units delete_queue].
    + intros id q [_ Hq]%lookup_delete_Some. by apply Hkq.
    + intros id q [_ Hq]%lookup_delete_Some. by eapply HI.
  - intros k'. cbn [queues delete_queue]. rewrite lookup_delete. case_decide; [subst k'|by left].
    right. split; [done|]. by intros x.
Qed.

Lemma touches_alter_unit u db k f :
  owned db -> own_row TrainingUnit.UserID u (units db !! k) ->
  (∀ x, units db !! k = Some x ->
        TrainingUnit.ID (f x) = TrainingUnit.ID x ∧
        TrainingUnit.UserID (f x) = TrainingUnit.UserID x ∧
        TrainingUnit.GroupID (f x) = TrainingUnit.GroupID x) ->
  touches u db (mkDB (groups db) (alter f k (units db)) (queues db)).
Proof.
  intros ([Hku Hkq] & HI & HJ & HG) Hown Hf.
  split; [|split; [apply rows_refl|split; [|apply rows_refl]]].
  - split; [split; [|done]|split; [|split; [|done]]]; cbn [queues units groups].
    + intros id x [[<- (x0 & Hx0 & ->)]|[_ Hx]]%lookup_alter_Some; [|by apply Hku].
      destruct (Hf x0 Hx0) as (-> & _). by apply Hku.
    + intros id q Hq. destruct (HI id q Hq) as (x & Hx & Hux).
      rewrite lookup_alter. case_decide as Hk; [|by exists x].
      subst k. rewrite Hx. simpl. exists (f x). split; [done|].
      destruct (Hf x Hx) as (_ & -> & _). done.
    + intros id x [[<- (x0 & Hx0 & ->)]|[_ Hx]]%lookup_alter_Some; [|by apply (HJ id)].
      destruct (Hf x0 Hx0) as (_ & -> & ->). by apply (HJ k).
  - intros k'. cbn [units]. rewrite lookup_alter. case_decide; [subst k'|by left].
    right. split; [done|]. intros y Hy.
    destruct (units db !! k) as [x|] eqn:Hx; [|done]. simpl in Hy. injection Hy as <-.
    destruct (Hf x eq_refl) as (_ & -> & _). by apply Hown.
Qed.

Lemma touches_update_unit u db now k f :
  owned db -> own_row TrainingUnit.UserID u (units db !! k) ->
  (∀ x, TrainingUnit.ID (f x) = TrainingUnit.ID x ∧
        TrainingUnit.UserID (f x) = TrainingUnit.UserID x ∧
        TrainingUnit.GroupID (f x) = TrainingUnit.GroupID x) ->
  touches u db (update_unit db now k f).
Proof.
  intros Ho Hown Hf. apply touches_alter_unit; [done|done|].
  intros x _. cbn. apply Hf.
Qed.

Lemma touches_sql_increment u db now k :
  owned db -> own_row TrainingUnit.UserID u (units db !! k) ->
  touches u db (sql_increment_version db now k).
Proof.
  intros Ho Hown. apply touches_alter_unit; [done|done|].
  intros x _. by destruct (_ <? _).
Qed.

Lemma touches_save_unit u db now x y r :
  owned db -> units db !! TrainingUnit.ID y = Some x -> TrainingUnit.UserID x = u ->
  TrainingUnit.UserID y = u -> TrainingUnit.GroupID y = TrainingUnit.GroupID x ->
  save_unit db now y = Some r -> touches u db r.2.
Proof.
  intros Ho Hx Hux Huy Hg Hs. destruct r as [y2 db2].
  apply save_unit_Some in Hs as (_ & -> & ->). cbn [snd].
  set (y' := TrainingUnit.set_UpdatedAt y now).
  assert (<[TrainingUnit.ID y := y']> (units db) =
          alter (λ _, y') (TrainingUnit.ID y) (units db)) as ->.
  { apply map_eq. intros k. rewrite lookup_insert, lookup_alter.
    case_decide; [subst k; by rewrite Hx|done]. }
  apply touches_alter_unit; [done| |].
  - intros x0. rewrite Hx. by intros [= <-].
  - intros x0. rewrite Hx. intros [= <-]. unfold y'. simpl.
    destruct Ho as ([Hku _] & _). rewrite (Hku _ _ Hx). split; [done|]. by rewrite Hux, Huy, Hg.
Qed.

Lemma touches_new_unit u db y :
  owned db -> units db !! TrainingUnit.ID y = None -> TrainingUnit.UserID y = u ->
  (∃ g, groups db !! TrainingUnit.GroupID y = Some g ∧ Group.UserID g = u) ->
  touches u db (mkDB (groups db) (<[TrainingUnit.ID y := y]> (units db)) (queues db)).
Proof.
  intros ([Hku Hkq] & HI & HJ & HG) Hfresh Huser Hgroup.
  split; [|split; [apply rows_refl|split; [|apply rows_refl]]].
  - split; [split; [|done]|split; [|split; [|done]]]; cbn [queues units groups].
    + intros id x. rewrite lookup_insert. case_decide; [by intros [= <-]|apply Hku].
    + intros id q Hq. destruct (HI id q Hq) as (x & Hx & Hux). exists x. split; [|done].
      rewrite lookup_insert_ne; [done|]. intros Heq. by rewrite <- Heq, Hfresh in Hx.
    + intros id x. rewrite lookup_insert. case_decide.
      * intros [= <-]. by rewrite Huser.
      * apply HJ.
  - intros k'. cbn [units]. rewrite lookup_insert. case_decide; [subst k'|by left].
    right. split; [by rewrite Hfresh|]. by intros x [= <-].
Qed.

Lemma no_queues_no_reference db k :
  ¬ 0 < count_queues db k -> ∀ id q, queues db !! id = Some q -> TrainingQueue.UnitID q ≠ k.
Proof.
  unfold count_queues. intros Hcount id q Hq Hk.
  assert (q ∈ queues_of_unit db k) as Hin by (apply elem_queues_of_unit; eauto).
  destruct (queues_of_unit db k); [by apply elem_of_nil in Hin|]. simpl in Hcount. lia.
Qed.

Lemma touches_delete_unit u db k :
  owned db -> own_row TrainingUnit.UserID u (units db !! k) ->
  ¬ 0 < count_queues db k ->
  touches u db (mkDB (groups db) (delete k (units db)) (queues db)).
Proof.
  intros ([Hku Hkq] & HI & HJ & HG) Hown Hcount.
  split; [|split; [apply rows_refl|split; [|apply rows_refl]]].
  - split; [split; [|done]|split; [|split; [|done]]]; cbn [queues units groups].
    + intros id x [_ Hx]%lookup_delete_Some. by apply Hku.
    + intros id q Hq. destruct (HI id q Hq) as (x & Hx & Hux). exists x. split; [|done].
      rewrite lookup_delete_ne; [done|]. intros Heq.
      by apply (no_queues_no_reference db k Hcount id q Hq).
    + intros id x [_ Hx]%lookup_delete_Some. by apply (HJ id).
  - intros k'. cbn [units]. rewrite lookup_delete. case_decide; [subst k'|by left].
    right. split; [done|]. by intros x.
Qed.

Lemma touches_create_queue u db now q r :
  owned db -> create_queue db now q = Some r -> TrainingQueue.UserID q = u ->
  (∃ unit, units db !! TrainingQueue.UnitID q = Some unit ∧ TrainingUnit.UserID unit = u) ->
  touches u db r.2.
Proof.
  intros Ho Hc Hu Hunit. destruct r as [q2 db2].
  apply create_queue_Some in Hc as (_ & Hfresh & -> & ->). cbn [snd].
  apply touches_put_queue; [done|by rewrite Hfresh|done|done|done].
Qed.

Lemma touches_save_queue u db now x y r :
  owned db -> queues db !! TrainingQueue.ID y = Some x -> TrainingQueue.UserID x = u ->
  TrainingQueue.UserID y = u -> TrainingQueue.UnitID y = TrainingQueue.UnitID x ->
  save_queue db now y = Some r -> touches u db r.2.
Proof.
  intros Ho Hx Hux Huy Hunit Hs. destruct r as [y2 db2].
  apply save_queue_Some in Hs as (_ & -> & ->). cbn [snd].
  apply touches_put_queue; [done| |done|done|].
  - rewrite Hx. by intros ? [= <-].
  - destruct Ho as (_ & HI & _). destruct (HI _ _ Hx) as (unit & Hrow & Ho').
    exists unit. cbn. rewrite Hunit. split; [done|]. by rewrite Ho'.
Qed.

Lemma touches_new_group u db g :
  owned db -> groups db !! Group.ID g = None -> Group.UserID g = u ->
  touches u db (mkDB (<[Group.ID g := g]> (groups db)) (units db) (queues db)).
Proof.
  intros ([Hku Hkq] & HI & HJ & HG) Hfresh Huser.
  split; [|split; [|split; apply rows_refl]].
  - split; [done|]. split; [done|]. split; cbn [queues units groups].
    + intros id x Hx. destruct (HJ id x Hx) as (g0 & Hg0 & Hu0). exists g0.
      split; [|done]. rewrite lookup_insert_ne; [done|]. intros Heq.
      by rewrite <- Heq, Hfresh in Hg0.
    + intros id g0. rewrite lookup_insert. case_decide; [by intros [= <-]|apply HG].
  - intros k'. cbn [groups]. rewrite lookup_insert. case_decide; [subst k'|by left].
    right. split; [by rewrite Hfresh|]. by intros x [= <-].
Qed.

Lemma touches_save_group u db g0 g :
  owned db -> groups db !! Group.ID g = Some g0 -> Group.UserID g0 = u ->
  Group.UserID g = u ->
  touches u db (mkDB (<[Group.ID g := g]> (groups db)) (units db) (queues db)).
Proof.
  intros ([Hku Hkq] & HI & HJ & HG) Hrow Hu0 Hu.
  split; [|split; [|split; apply rows_refl]].
  - split; [done|]. split; [done|]. split; cbn [queues units groups].
    + intros id x Hx. destruct (HJ id x Hx) as (g1 & Hg1 & Hu1).
      rewrite lookup_insert. case_decide as Heq; [|by exists g1].
      exists g. split; [done|]. rewrite <- Heq, Hrow in Hg1. injection Hg1 as <-.
      congruence.
    + intros id g1. rewrite lookup_insert. case_decide; [by intros [= <-]|apply HG].
  - intros k'. cbn [groups]. rewrite lookup_insert. case_decide; [subst k'|by left].
    right. split; [rewrite Hrow; by intros ? [= <-]|]. by intros x [= <-].
Qed.

Lemma touches_delete_group u db k g :
  owned db -> groups db !! k = Some g -> Group.UserID g = u ->
  touches u db (delete_group db k).
Proof.
  intros Ho Hrow Hu. pose proof Ho as ([Hku Hkq] & HI & HJ & HG).
  assert (∀ id x, units db !! id = Some x -> TrainingUnit.GroupID x = k ->
            TrainingUnit.UserID x = u) as Hunits.
  { intros id x Hx Hk. destruct (HJ id x Hx) as (g1 & Hg1 & Hu1).
    rewrite Hk, Hrow in Hg1. injection Hg1 as <-. congruence. }
  assert (∀ id q, queues db !! id = Some q -> in_group db k q = true ->
            TrainingQueue.UserID q = u) as Hqueues.
  { intros id q Hq Hin. destruct (HI id q Hq) as (x & Hx & Hux).
    unfold in_group in Hin. rewrite Hx in Hin. apply bool_decide_eq_true in Hin.
    rewrite <- Hux. by eapply Hunits. }
  split; [|split; [|split]].
  - split; [by apply well_keyed_delete_group|]. unfold delete_group.
    split; [|split]; cbn [queues units groups].
    + intros id q [Hq Hout]%map_lookup_filter_Some. simpl in Hout.
      destruct (HI id q Hq) as (x & Hx & Hux). exists x. split; [|done].
      apply map_lookup_filter_Some. split; [done|]. simpl.
      unfold in_group in Hout. rewrite Hx in Hout. by apply bool_decide_eq_false in Hout.
    + intros id x [Hx Hout]%map_lookup_filter_Some. simpl in Hout.
      destruct (HJ id x Hx) as (g1 & Hg1 & Hu1). exists g1. split; [|done].
      by rewrite lookup_delete_ne.
    + intros id g1 [_ Hg1]%lookup_delete_Some. by apply HG.
  - intros k'. unfold delete_group. cbn [groups]. rewrite lookup_delete.
    case_decide; [subst k'|by left].
    right. split; [rewrite Hrow; by intros ? [= <-]|done].
  - intros k'. unfold delete_group. cbn [units].
    destruct (units db !! k') as [x|] eqn:Hx.
    + destruct (decide (TrainingUnit.GroupID x = k)) as [Hk|Hk].
      * right. split; [intros ? [= <-]; by eapply Hunits|].
        intros y [Hy Hout]%map_lookup_filter_Some. rewrite Hx in Hy.
        injection Hy as <-. by eapply Hunits.
      * left. by apply map_lookup_filter_Some.
    + left. apply map_lookup_filter_None. by left.
  - intros k'. unfold delete_group. cbn [queues].
    destruct (queues db !! k') as [q|] eqn:Hq.
    + destruct (in_group db k q) eqn:Hin.
      * right. split; [intros ? [= <-]; by eapply Hqueues|].
        intros y [Hy Hout]%map_lookup_filter_Some. rewrite Hq in Hy.
        injection Hy as <-. by eapply Hqueues.
      * left. by apply map_lookup_filter_Some.
    + left. apply map_lookup_filter_None. by left.
Qed.

(** The unit of a queue of the caller is a unit of the caller. *)
Lemma unit_of_own_queue u db k q :
  owned db -> queues db !! k = Some q -> TrainingQueue.UserID q = u ->
  own_row TrainingUnit.UserID u (units db !! TrainingQueue.UnitID q).
Proof.
  intros (_ & HI & _) Hq Hu x Hx. destruct (HI _ _ Hq) as (x' & Hx' & Hux).
  rewrite Hx in Hx'. injection Hx' as <-. by rewrite Hux.
Qed.

Lemma touches_batch_loop u now uuids unitID createdBy maxOrder items :
  ∀ db i queueIDs,
  owned db ->
  (∃ unit, units db !! unitID = Some unit ∧ TrainingUnit.UserID unit = u) ->
  touches u db (batch_loop db now uuids unitID u createdBy maxOrder i items queueIDs).2.
Proof.
  induction items as [|item items IH]; intros db i queueIDs Ho Hunit.
  - by apply touches_refl.
  - cbn [batch_loop].
    destruct (create_queue db now _) as [[q db1]|] eqn:Hc; [|by apply IH].
    pose proof (touches_create_queue u db now _ _ Ho Hc eq_refl Hunit) as Ht.
    cbn [snd] in Ht. eapply touches_trans; [exact Ht|].
    apply IH; [by destruct Ht|].
    rewrite (units_create_queue _ _ _ _ _ Hc). done.
Qed.

Lemma touches_reorder_loop u now startOrder ids :
  ∀ db queueMap i,
  owned db ->
  (∀ id q, queueMap !! id = Some q ->
     TrainingQueue.ID q = id ∧ TrainingQueue.UserID q = u ∧
     ∃ x, queues db !! id = Some x ∧ TrainingQueue.UserID x = u ∧
          TrainingQueue.UnitID x = TrainingQueue.UnitID q) ->
  touches u db (reorder_loop db now queueMap startOrder i ids).2.
Proof.
  induction ids as [|id ids IH]; intros db queueMap i Ho Hmap.
  - by apply touches_refl.
  - cbn [reorder_loop]. destruct (queueMap !! id) as [q|] eqn:Hq; [|by apply IH].
    destruct (Hmap _ _ Hq) as (Hid & Hu & x & Hx & Hux & Hunit).
    set (q1 := TrainingQueue.set_Order q (startOrder + Z.of_nat i)).
    destruct (save_queue db now q1) as [[q2 db1]|] eqn:Hs; [|by apply touches_refl].
    assert (touches u db db1) as Ht.
    { apply (touches_save_queue u db now x q1 (q2, db1)); [done| |done|done|done|done].
      unfold q1. cbn. by rewrite Hid. }
    eapply touches_trans; [exact Ht|]. apply IH; [by destruct Ht|].
    apply save_queue_Some in Hs as (_ & -> & ->).
    intros id' q'. rewrite lookup_insert. case_decide as Heq.
    + intros [= <-]. subst id'. cbn. rewrite Hid. split; [done|]. split; [done|].
      eexists. rewrite lookup_insert_eq. split; [done|]. cbn. done.
    + intros Hq'. destruct (Hmap _ _ Hq') as (Hid' & Hu' & x' & Hx' & Hux' & Hunit').
      split; [done|]. split; [done|]. exists x'. cbn [queues].
      rewrite lookup_insert_ne; [done|]. cbn. by rewrite Hid.
Qed.

Lemma touches_checkConnectionStatus u db now unit :
  owned db -> units db !! TrainingUnit.ID unit = Some unit -> TrainingUnit.UserID unit = u ->
  touches u db (checkConnectionStatus db now unit).2.
Proof.
  intros Ho Hrow Hu. unfold checkConnectionStatus.
  destruct (TrainingUnit.LastHeartbeat unit); [|by apply touches_refl].
  destruct (_ <? _); [|by apply touches_refl]. case_decide; [|by apply touches_refl].
  cbn [snd]. apply touches_update_unit; [done| |done].
  cbn. rewrite Hrow. by intros ? [= <-].
Qed.

Lemma touches_list_units_loop u now us :
  ∀ db, owned db ->
  (∀ unit, unit ∈ us -> own_row TrainingUnit.UserID u (units db !! TrainingUnit.ID unit)) ->
  touches u db (list_units_loop db now us).2.
Proof.
  induction us as [|unit us IH]; intros db Ho Hus; [by apply touches_refl|].
  cbn [list_units_loop].
  assert (touches u db (checkConnectionStatus db now unit).2) as Ht.
  { unfold checkConnectionStatus.
    destruct (TrainingUnit.LastHeartbeat unit); [|by apply touches_refl].
    destruct (_ <? _); [|by apply touches_refl]. case_decide; [|by apply touches_refl].
    cbn [snd]. apply touches_update_unit; [done| |done].
    cbn. apply Hus. left. }
  destruct (checkConnectionStatus db now unit) as [unit' db1]. cbn [snd] in Ht.
  assert (touches u db1 (list_units_loop db1 now us).2) as Ht'.
  { apply IH; [by destruct Ht|]. intros unit2 Hin.
    destruct Ht as (_ & _ & Hu' & _).
    destruct (Hu' (TrainingUnit.ID unit2)) as [->|[_ B]]; [|done].
    apply Hus. by right. }
  destruct (list_units_loop db1 now us) as [l db2]. cbn [snd] in *.
  by eapply touches_trans.
Qed.

Lemma elem_insert_unit x u l : x ∈ insert_unit u l <-> x = u ∨ x ∈ l.
Proof.
  induction l as [|v l IH]; simpl.
  - rewrite list_elem_of_singleton. split; [by left|]. intros [?|H]; [done|].
    by apply elem_of_nil in H.
  - destruct (_ <? _).
    + rewrite !elem_of_cons, IH. tauto.
    + rewrite !elem_of_cons. tauto.
Qed.

Lemma elem_units_of_group db groupID x :
  x ∈ units_of_group db groupID <->
  (∃ id, units db !! id = Some x) ∧ TrainingUnit.GroupID x = groupID.
Proof.
  unfold units_of_group.
  transitivity (x ∈ filter (λ u, TrainingUnit.GroupID u = groupID) (map_to_list (units db)).*2).
  - induction (filter _ _) as [|u l IH]; simpl; [done|].
    rewrite elem_insert_unit, elem_of_cons, IH. tauto.
  - rewrite list_elem_of_filter, elem_rows. tauto.
Qed.

Lemma touches_own_unit u db db' k :
  touches u db db' -> own_row TrainingUnit.UserID u (units db !! k) ->
  own_row TrainingUnit.UserID u (units db' !! k).
Proof. intros (_ & _ & Hu & _) Hown. by destruct (Hu k) as [->|[_ ?]]. Qed.

Lemma own_first_unit db unitID userID unit :
  first_unit db unitID userID = Some unit ->
  own_row TrainingUnit.UserID userID (units db !! unitID).
Proof. intros [Hrow Hu]%first_unit_Some. rewrite Hrow. by intros ? [= <-]. Qed.

Lemma own_first_queue db queueID userID q :
  first_queue db queueID userID = Some q ->
  own_row TrainingQueue.UserID userID (queues db !! queueID).
Proof. intros [Hrow Hu]%first_queue_Some. rewrite Hrow. by intros ? [= <-]. Qed.

Lemma first_group_Some db groupID userID g :
  first_group db groupID userID = Some g ->
  groups db !! groupID = Some g ∧ Group.UserID g = userID.
Proof.
  unfold first_group. destruct (groups db !! groupID) as [g'|]; [|done].
  case_decide; [|done]. by intros [= <-].
Qed.

(** Every handler writes rows of its caller only, and keeps the store
    consistent. *)
Lemma touches_handle db op : owned db -> touches (caller op) db (handle db op).2.
Proof.
  intros Ho. pose proof Ho as ([Hku Hkq] & HI & HJ & HG).
  destruct op; cbn [handle caller].
  - unfold CreateTrainingQueue. destruct req as [req|]; [|by apply touches_refl].
    destruct (first_unit db unitID userID) as [unit|] eqn:Hunit; [|by apply touches_refl].
    pose proof Hunit as [Hrow Hu]%first_unit_Some.
    destruct (create_queue db now _) as [[q db1]|] eqn:Hc; [|by apply touches_refl].
    pose proof (touches_create_queue userID db now _ _ Ho Hc eq_refl
                  ltac:(by exists unit)) as Ht.
    cbn [snd] in *. eapply touches_trans; [exact Ht|].
    apply touches_update_unit; [by destruct Ht| |done].
    apply (touches_own_unit _ db); [done|]. rewrite (Hku _ _ Hrow).
    by apply (own_first_unit _ _ _ unit).
  - unfold BatchCreateQueues. destruct req as [req|]; [|by apply touches_refl].
    destruct (first_unit db unitID userID) as [unit|] eqn:Hunit; [|by apply touches_refl].
    pose proof Hunit as [Hrow Hu]%first_unit_Some.
    match goal with |- context [batch_loop ?a ?b ?c ?d ?e ?f ?g ?h ?i ?j] =>
      pose proof (touches_batch_loop userID b c d f g i a h j Ho
                    ltac:(by exists unit)) as Ht;
      destruct (batch_loop a b c d e f g h i j) as [queueIDs db1] end.
    cbn [snd] in *. eapply touches_trans; [exact Ht|].
    apply touches_update_unit; [by destruct Ht| |done].
    apply (touches_own_unit _ db); [done|]. rewrite (Hku _ _ Hrow).
    by apply (own_first_unit _ _ _ unit).
  - unfold ListTrainingQueues. destruct (first_unit _ _ _); [|by apply touches_refl].
    destruct (Find _ _ _); by apply touches_refl.
  - unfold GetTrainingQueue. destruct (first_queue _ _ _); by apply touches_refl.
  - unfold UpdateTrainingQueue. destruct req as [req|]; [|by apply touches_refl].
    destruct (first_queue db queueID userID) as [q|] eqn:Hq; [|by apply touches_refl].
    pose proof Hq as [Hrow Hu]%first_queue_Some. pose proof (Hkq _ _ Hrow) as Hid.
    case_decide; [by apply touches_refl|]. case_decide; [by apply touches_refl|].
    destruct (save_queue db now _) as [[q2 db1]|] eqn:Hs; [|by apply touches_refl].
    assert (touches userID db db1) as Ht.
    { apply (touches_save_queue userID db now q _ _ Ho) in Hs; [done|..];
        destruct (decide (req_Name req = "")), (req_Parameters req); cbn;
        by rewrite ?Hid. }
    assert (TrainingQueue.UnitID q2 = TrainingQueue.UnitID q) as Hun.
    { apply save_queue_Some in Hs as (_ & -> & _).
      by destruct (decide (req_Name req = "")), (req_Parameters req). }
    cbn [fst snd] in *. eapply touches_trans; [exact Ht|].
    apply touches_sql_increment; [by destruct Ht|]. rewrite Hun.
    apply (touches_own_unit _ db); [done|]. by apply (unit_of_own_queue _ _ queueID).
  - unfold DeleteTrainingQueue.
    destruct (first_queue db queueID userID) as [q|] eqn:Hq; [|by apply touches_refl].
    pose proof Hq as [Hrow Hu]%first_queue_Some. pose proof (Hkq _ _ Hrow) as Hid.
    case_decide; [by apply touches_refl|]. cbn [snd].
    assert (touches userID db (delete_queue db (TrainingQueue.ID q))) as Ht.
    { apply touches_delete_queue; [done|]. rewrite Hid. by apply (own_first_queue _ _ _ q). }
    eapply touches_trans; [exact Ht|].
    apply touches_sql_increment; [by destruct Ht|].
    apply (touches_own_unit _ db); [done|]. by apply (unit_of_own_queue _ _ queueID).
  - unfold StartQueue.
    destruct (first_queue db queueID userID) as [q|] eqn:Hq; [|by apply touches_refl].
    pose proof Hq as [Hrow Hu]%first_queue_Some. pose proof (Hkq _ _ Hrow) as Hid.
    case_decide; [by apply touches_refl|].
    destruct (save_queue db now _) as [[q2 db1]|] eqn:Hs; [|by apply touches_refl].
    assert (touches userID db db1) as Ht.
    { apply (touches_save_queue userID db now q _ _ Ho) in Hs; [done|..]; cbn;
        by rewrite ?Hid. }
    assert (TrainingQueue.UnitID q2 = TrainingQueue.UnitID q) as Hun
      by by apply save_queue_Some in Hs as (_ & -> & _).
    cbn [fst snd] in *. eapply touches_trans; [exact Ht|].
    apply touches_update_unit; [by destruct Ht| |done]. rewrite Hun.
    apply (touches_own_unit _ db); [done|]. by apply (unit_of_own_queue _ _ queueID).
  - unfold CompleteQueue. destruct req as [req|]; [|by apply touches_refl].
    destruct (first_queue db queueID userID) as [q|] eqn:Hq; [|by apply touches_refl].
    pose proof Hq as [Hrow Hu]%first_queue_Some. pose proof (Hkq _ _ Hrow) as Hid.
    destruct (save_queue db now _) as [[q2 db1]|] eqn:Hs; [|by apply touches_refl].
    apply (touches_save_queue userID db now q _ _ Ho) in Hs; [done|..]; cbn;
      by rewrite ?Hid.
  - unfold FailQueue. destruct req as [req|]; [|by apply touches_refl].
    destruct (first_queue db queueID userID) as [q|] eqn:Hq; [|by apply touches_refl].
    pose proof Hq as [Hrow Hu]%first_queue_Some. pose proof (Hkq _ _ Hrow) as Hid.
    destruct (save_queue db now _) as [[q2 db1]|] eqn:Hs; [|by apply touches_refl].
    apply (touches_save_queue userID db now q _ _ Ho) in Hs; [done|..]; cbn;
      by rewrite ?Hid.
  - unfold ReorderQueues. destruct req as [ids|]; [|by apply touches_refl].
    destruct (first_unit db unitID userID) as [unit|] eqn:Hunit; [|by apply touches_refl].
    pose proof Hunit as [Hrow Hu]%first_unit_Some.
    case_decide; [by apply touches_refl|]. case_decide; [by apply touches_refl|].
    match goal with |- context [reorder_loop db now ?m ?p 0 ids] =>
      assert (touches userID db (reorder_loop db now m p 0 ids).2) as Ht;
      [|destruct (reorder_loop db now m p 0 ids) as [[] db1]] end.
    { apply touches_reorder_loop; [done|]. intros id q Hq.
      apply reorder_map_keys in Hq as [Hid Hq'].
      apply list_elem_of_filter in Hq' as [[_ Hown] [id0 Hrow0]%elem_rows].
      pose proof (Hkq _ _ Hrow0) as Hid0. subst id0 id.
      split; [done|]. split; [done|]. by exists q. }
    + cbn [snd] in *. eapply touches_trans; [exact Ht|].
      apply touches_update_unit; [by destruct Ht| |done].
      apply (touches_own_unit _ db); [done|]. rewrite (Hku _ _ Hrow).
      by apply (own_first_unit _ _ _ unit).
    + done.
  - unfold CreateTrainingUnit. destruct req as [req|]; [|by apply touches_refl].
    destruct (first_group db groupID userID) as [group|] eqn:Hgroup; [|by apply touches_refl].
    apply first_group_Some in Hgroup as [Hgrow Hgu].
    destruct (create_unit db now _) as [[u2 db1]|] eqn:Hc; [|by apply touches_refl].
    apply create_unit_Some in Hc as (_ & Hfresh & -> & ->).
    cbn [TrainingUnit.ConnectionStatus] in *. rewrite decide_True in * by done.
    cbn [snd].
    match goal with |- touches _ _ (mkDB _ (<[?k := ?y]> _) _) =>
      change k with (TrainingUnit.ID y) end.
    apply touches_new_unit; [done|exact Hfresh|done|]. by exists group.
  - unfold ListTrainingUnits.
    destruct (first_group db groupID userID) as [group|] eqn:Hgroup; [|by apply touches_refl].
    apply first_group_Some in Hgroup as [Hgrow Hgu].
    pose proof (touches_list_units_loop userID now (units_of_group db groupID) db Ho) as Ht.
    destruct (list_units_loop _ _ _) as [l db1]. cbn [snd] in *. apply Ht.
    intros unit Hin x Hx.
    assert (∃ id, units db !! id = Some unit ∧ TrainingUnit.GroupID unit = groupID)
      as (id & Hrow & Hg).
    { apply elem_units_of_group in Hin as [[id Hrow] Hg]. by exists id. }
    rewrite (Hku _ _ Hrow), Hrow in Hx. injection Hx as <-.
    destruct (HJ id unit Hrow) as (g & Hg' & Hug). rewrite Hg, Hgrow in Hg'.
    injection Hg' as <-. congruence.
  - unfold GetTrainingUnit.
    destruct (first_unit db unitID userID) as [unit|] eqn:Hunit; [|by apply touches_refl].
    pose proof Hunit as [Hrow Hu]%first_unit_Some.
    assert (touches userID db (checkConnectionStatus db now unit).2) as Ht.
    { apply touches_checkConnectionStatus; [done| |done]. by rewrite (Hku _ _ Hrow). }
    by destruct (checkConnectionStatus _ _ _).
  - unfold SyncTrainingUnit. destruct req; [|by apply touches_refl].
    destruct (first_unit _ _ _); by apply touches_refl.
  - unfold UpdateTrainingUnit. destruct req as [req|]; [|by apply touches_refl].
    destruct (first_unit db unitID userID) as [unit|] eqn:Hunit; [|by apply touches_refl].
    pose proof Hunit as [Hrow Hu]%first_unit_Some. pose proof (Hku _ _ Hrow) as Hid.
    destruct (save_unit db now _) as [[u2 db1]|] eqn:Hs; [|by apply touches_refl].
    apply (touches_save_unit userID db now unit _ _ Ho) in Hs; [done|..];
      destruct (unit_Config req), (decide (unit_Name req = "")); cbn; by rewrite ?Hid.
  - unfold DeleteTrainingUnit. destruct (0 <? count_queues db unitID) eqn:Hcount;
      [by apply touches_refl|]. apply Z.ltb_ge in Hcount.
    destruct (first_unit db unitID userID) as [unit|] eqn:Hunit; [|by apply touches_refl].
    cbn [snd]. apply touches_delete_unit; [done| |lia].
    by apply (own_first_unit _ _ _ unit).
  - unfold Heartbeat.
    destruct (first_unit db unitID userID) as [unit|] eqn:Hunit; [|by apply touches_refl].
    pose proof Hunit as [Hrow Hu]%first_unit_Some. pose proof (Hku _ _ Hrow) as Hid.
    destruct (save_unit db now _) as [[u2 db1]|] eqn:Hs; [|by apply touches_refl].
    apply (touches_save_unit userID db now unit _ _ Ho) in Hs; [done|..]; cbn;
      by rewrite ?Hid.
  - unfold CreateGroup. destruct req as [req|]; [|by apply touches_refl].
    destruct (create_group db now _) as [[g2 db1]|] eqn:Hc; [|by apply touches_refl].
    apply create_group_Some in Hc as (_ & Hfresh & -> & ->). cbn [snd].
    match goal with |- touches _ _ (mkDB (<[?k := ?g]> _) _ _) =>
      change k with (Group.ID g) end.
    by apply touches_new_group.
  - by apply touches_refl.
  - unfold GetGroup. destruct (first_group _ _ _); by apply touches_refl.
  - unfold UpdateGroup. destruct req as [req|]; [|by apply touches_refl].
    destruct (first_group db groupID userID) as [group|] eqn:Hgroup; [|by apply touches_refl].
    apply first_group_Some in Hgroup as [Hgrow Hgu]. pose proof (HG _ _ Hgrow) as Hid.
    destruct (save_group db now _) as [[g2 db1]|] eqn:Hs; [|by apply touches_refl].
    apply save_group_Some in Hs as (_ & -> & ->). cbn [snd Group.ID].
    match goal with |- touches _ _ (mkDB (<[?k := ?g]> _) _ _) =>
      change k with (Group.ID g) end.
    apply (touches_save_group userID db group); [done|cbn; by rewrite Hid|done|done].
  - unfold DeleteGroup.
    destruct (first_group db groupID userID) as [group|] eqn:Hgroup; [|by apply touches_refl].
    apply first_group_Some in Hgroup as [Hgrow Hgu]. cbn [snd].
    by apply (touches_delete_group userID db groupID group).
Qed.

Lemma owned_handle db op : owned db -> owned (handle db op).2.
Proof. intros Ho. by destruct (touches_handle db op Ho). Qed.

End TenancyFacts.

Lemma owned_empty_store : Tenancy.owned V2.empty_store.
Proof.
  split; [split|split; [|split]]; cbn.
  - intros id u. by rewrite lookup_empty.
  - intros id q. by rewrite lookup_empty.
  - intros id q. by rewrite lookup_empty.
  - intros id u. by rewrite lookup_empty.
  - intros id g [<- <-]%lookup_singleton_Some. done.
Qed.

Lemma owned_CreateTrainingQueue db now uuid unitID userID req :
  Tenancy.owned db -> Tenancy.owned (V2.CreateTrainingQueue db now uuid unitID userID req).2.
Proof. apply (owned_handle db (V2.OpCreateQueue now uuid unitID userID req)). Qed.

Lemma owned_StartQueue db now queueID userID :
  Tenancy.owned db -> Tenancy.owned (V2.StartQueue db now queueID userID).2.
Proof. apply (owned_handle db (V2.OpStartQueue now queueID userID)). Qed.

Lemma owned_CreateTrainingUnit db now uuid groupID userID req :
  Tenancy.owned db -> Tenancy.owned (V2.CreateTrainingUnit db now uuid groupID userID req).2.
Proof. apply (owned_handle db (V2.OpCreateUnit now uuid groupID userID req)). Qed.

Lemma owned_CreateGroup db now uuid userID req :
  Tenancy.owned db -> Tenancy.owned (V2.CreateGroup db now uuid userID req).2.
Proof. apply (owned_handle db (V2.OpCreateGroup now uuid userID req)). Qed.

Lemma owned_store_last_started : Tenancy.owned V2.store_last_started.
Proof.
  unfold V2.store_last_started, V2.store_with_queues, V2.store_with_unit. cbv zeta.
  apply owned_StartQueue. do 3 apply owned_CreateTrainingQueue.
  apply owned_CreateTrainingUnit. apply owned_empty_store.
Qed.

Lemma owned_store_two_users : Tenancy.owned V2.store_two_users.
Proof.
  unfold V2.store_two_users. cbv zeta.
  apply owned_CreateTrainingQueue, owned_CreateTrainingUnit, owned_CreateGroup.
  apply owned_store_last_started.
Qed.

(** A request changes rows of its caller only.  In a store that is
    consistent in its ownership, whatever the request and its answer: the
    store stays consistent, and the groups, the units and the queues of
    all other principals are the same rows before and after.  This holds
    for the deletion of a group as well, which takes the units of the
    group and their queues with it. *)
Theorem request_touches_rows_of_its_caller db op :
  Tenancy.owned db ->
  Tenancy.owned (V2.handle db op).2 ∧
  Tenancy.groups_of_others (Tenancy.caller op) (V2.handle db op).2 =
    Tenancy.groups_of_others (Tenancy.caller op) db ∧
  Tenancy.units_of_others (Tenancy.caller op) (V2.handle db op).2 =
    Tenancy.units_of_others (Tenancy.caller op) db ∧
  Tenancy.queues_of_others (Tenancy.caller op) (V2.handle db op).2 =
    Tenancy.queues_of_others (Tenancy.caller op) db.
Proof.
  intros Ho. pose proof (touches_handle db op Ho) as Ht.
  destruct (touches_others _ _ _ Ht) as (Hg & Hu & Hq).
  destruct Ht as (Ho' & _). done.
Qed.

Lemma request_touches_rows_of_its_caller_witness :
  let db := V2.store_two_users in
  let op := V2.OpDeleteGroup "group_1" "u1" in
  (dom (V2.groups db), dom (V2.units db), dom (V2.queues db)) =
    ({["group_1"; "group_00000002"]}, {["unit_00000001"; "unit_00000002"]},
     {["queue_0000000a"; "queue_0000000b"; "queue_0000000c"; "queue_0000000d"]}) ∧
  (dom (Tenancy.groups_of_others "u1" db), dom (Tenancy.units_of_others "u1" db),
   dom (Tenancy.queues_of_others "u1" db)) =
    ({["group_00000002"]}, {["unit_00000002"]}, {["queue_0000000d"]}) ∧
  (dom (V2.groups (V2.handle db op).2), dom (V2.units (V2.handle db op).2),
   dom (V2.queues (V2.handle db op).2)) =
    ({["group_00000002"]}, {["unit_00000002"]}, {["queue_0000000d"]}) ∧
  Tenancy.groups_of_others "u1" (V2.handle db op).2 = Tenancy.groups_of_others "u1" db ∧
  Tenancy.units_of_others "u1" (V2.handle db op).2 = Tenancy.units_of_others "u1" db ∧
  Tenancy.queues_of_others "u1" (V2.handle db op).2 = Tenancy.queues_of_others "u1" db.
Proof.
  intros db op.
  split; [vm_compute; reflexivity|]. split; [vm_compute; reflexivity|].
  split; [vm_compute; reflexivity|].
  exact (proj2 (request_touches_rows_of_its_caller db op owned_store_two_users)).
Defined.

(** ** Listing queues *)

Section V2Listing.
Import V2 Lifecycle.



End V2Listing.



(** ** The life cycle of a queue *)

Section LifecycleFacts.
Import V2 Lifecycle.

Lemma queue_step_refl o : queue_step o o.
Proof. destruct o as [x|]; simpl; [|done]. split; [by left|done]. Qed.

Lemma queues_list_units_loop now us :
  ∀ db, queues (list_units_loop db now us).2 = queues db.
Proof.
  induction us as [|u us IH]; intros db; [done|]. cbn [list_units_loop].
  assert (queues (checkConnectionStatus db now u).2 = queues db) as Hc.
  { unfold checkConnectionStatus. destruct (TrainingUnit.LastHeartbeat u); [|done].
    destruct (_ <? _); [|done]. by case_decide. }
  destruct (checkConnectionStatus db now u) as [u' db1]. cbn [snd] in Hc.
  specialize (IH db1). destruct (list_units_loop db1 now us) as [l db2].
  cbn [snd] in *. congruence.
Qed.

(** The rows after the loop of the batch handler: the rows before, and
    new pending rows. *)
Lemma batch_loop_rows now uuids unitID userID createdBy maxOrder items id :
  ∀ db i queueIDs,
  let db' := (batch_loop db now uuids unitID userID createdBy maxOrder i items queueIDs).2 in
  queues db' !! id = queues db !! id ∨
  (queues db !! id = None ∧
   ∃ y, queues db' !! id = Some y ∧ TrainingQueue.Status y = "pending").
Proof.
  induction items as [|item items IH]; intros db i queueIDs; cbv zeta; [by left|].
  cbn [batch_loop].
  destruct (create_queue db now _) as [[q1 db1]|] eqn:Hc; [|apply IH].
  apply create_queue_Some in Hc as (_ & Hfresh & -> & ->).
  match goal with |- context [batch_loop ?db1 _ _ _ _ _ _ _ _ ?ids] =>
    destruct (IH db1 (S i) ids) as [Heq|(Hnone & y & Hy & Hst)] end.
  - rewrite Heq. cbn [queues]. rewrite lookup_insert. case_decide as Hk; [|by left].
    right. subst id. split; [done|]. by eexists.
  - cbn [queues] in Hnone. apply lookup_insert_None in Hnone as [Hnone _].
    right. split; [done|]. by exists y.
Qed.

(** The rows after the loop of the reorder handler. *)
Lemma reorder_loop_rows now startOrder ids :
  ∀ db queueMap i,
  (∀ id q, queueMap !! id = Some q ->
     TrainingQueue.ID q = id ∧
     ∃ x, queues db !! id = Some x ∧ TrainingQueue.Status x = TrainingQueue.Status q) ->
  ∀ id,
    (queueMap !! id = None ->
     queues (reorder_loop db now queueMap startOrder i ids).2 !! id = queues db !! id) ∧
    (∀ q, queueMap !! id = Some q ->
     ∃ y, queues (reorder_loop db now queueMap startOrder i ids).2 !! id = Some y ∧
          TrainingQueue.Status y = TrainingQueue.Status q).
Proof.
  induction ids as [|id0 ids IH]; intros db queueMap i Hmap id.
  - cbn [reorder_loop]. split; [done|]. intros q Hq.
    destruct (Hmap _ _ Hq) as (_ & x & Hx & Hst). by exists x.
  - cbn [reorder_loop]. destruct (queueMap !! id0) as [q0|] eqn:Hq0; [|by apply IH].
    destruct (Hmap _ _ Hq0) as (Hid0 & x0 & Hx0 & Hst0).
    destruct (save_queue db now _) as [[q1 db1]|] eqn:Hs.
    2:{ cbn [snd]. split; [done|]. intros q Hq.
        destruct (Hmap _ _ Hq) as (_ & x & Hx & Hst). by exists x. }
    apply save_queue_Some in Hs as (_ & -> & ->).
    cbn [TrainingQueue.ID TrainingQueue.set_UpdatedAt TrainingQueue.set_Order].
    rewrite Hid0.
    match goal with |- context [reorder_loop ?db1 now ?m1 startOrder (S i) ids] =>
      specialize (IH db1 m1 (S i)) end.
    match type of IH with ?P -> _ => assert P as Hpre end.
    2: destruct (IH Hpre id) as [IHnone IHsome].
    { intros id' q'. rewrite lookup_insert. case_decide as Hk.
      - intros [= <-]. subst id'. cbn. split; [done|]. eexists.
        rewrite lookup_insert_eq. split; [done|]. done.
      - intros Hq'. destruct (Hmap _ _ Hq') as (Hid' & x' & Hx' & Hst').
        split; [done|]. exists x'. cbn [queues]. by rewrite lookup_insert_ne. }
    split.
    + intros Hnone. assert (id0 ≠ id) as Hne by (intros ->; congruence).
      rewrite IHnone by (by rewrite lookup_insert_ne).
      cbn [queues]. by rewrite lookup_insert_ne.
    + intros q Hq. destruct (decide (id0 = id)) as [->|Hne].
      * rewrite Hq0 in Hq. injection Hq as <-.
        destruct (IHsome _ ltac:(apply lookup_insert_eq)) as (y & Hy & Hst). by exists y.
      * apply IHsome. by rewrite lookup_insert_ne.
Qed.

(** The row of a queue, request by request. *)
Lemma queue_step_handle db op id :
  well_keyed db -> (∀ groupID userID, op ≠ OpDeleteGroup groupID userID) ->
  queue_step (queues db !! id) (queues (handle db op).2 !! id).
Proof.
  intros [Hku Hkq] Hop.
  assert (∀ x y : TrainingQueue.t,
            queues db !! id = Some x ->
            (TrainingQueue.Status y = TrainingQueue.Status x ∨
             (TrainingQueue.Status x = "pending" ∧ TrainingQueue.Status y = "running") ∨
             TrainingQueue.Status y = "completed" ∨ TrainingQueue.Status y = "failed") ->
            (TrainingQueue.Status x = "running" ->
             TrainingQueue.Name y = TrainingQueue.Name x ∧
             TrainingQueue.Parameters y = TrainingQueue.Parameters x ∧
             TrainingQueue.Order y = TrainingQueue.Order x ∧
             TrainingQueue.UnitID y = TrainingQueue.UnitID x) ->
            queue_step (queues db !! id) (Some y)) as Hwrite.
  { intros x y Hx H1 H2. by rewrite Hx. }
  destruct op; cbn [handle].
  - unfold CreateTrainingQueue. destruct req as [req|]; [|apply queue_step_refl].
    destruct (first_unit _ _ _); [|apply queue_step_refl].
    destruct (create_queue db now _) as [[q1 db1]|] eqn:Hc; [|apply queue_step_refl].
    apply create_queue_Some in Hc as (_ & Hfresh & -> & ->).
    cbn [snd update_unit queues]. rewrite lookup_insert.
    match goal with |- context [decide (?a = id)] => destruct (decide (a = id)) as [Hk|Hk] end.
    + rewrite <- Hk. cbn [TrainingQueue.ID TrainingQueue.set_UpdatedAt
                           TrainingQueue.set_CreatedAt] in *. by rewrite Hfresh.
    + apply queue_step_refl.
  - unfold BatchCreateQueues. destruct req as [req|]; [|apply queue_step_refl].
    destruct (first_unit _ _ _); [|apply queue_step_refl].
    match goal with |- context [batch_loop ?a ?b ?c ?d ?e ?f ?g ?h ?i ?j] =>
      pose proof (batch_loop_rows b c d e f g i id a h j) as Hl;
      destruct (batch_loop a b c d e f g h i j) as [queueIDs db1] end.
    cbn [snd update_unit queues] in *. destruct Hl as [->|(-> & y & -> & Hst)].
    + apply queue_step_refl.
    + done.
  - unfold ListTrainingQueues. destruct (first_unit _ _ _); [|apply queue_step_refl].
    destruct (Find _ _ _); apply queue_step_refl.
  - unfold GetTrainingQueue. destruct (first_queue _ _ _); apply queue_step_refl.
  - unfold UpdateTrainingQueue. destruct req as [req|]; [|apply queue_step_refl].
    destruct (first_queue db queueID userID) as [q|] eqn:Hq; [|apply queue_step_refl].
    apply first_queue_Some in Hq as [Hrow _]. pose proof (Hkq _ _ Hrow) as Hid.
    case_decide as Hrun; [apply queue_step_refl|].
    case_decide as Hdone; [apply queue_step_refl|].
    destruct (save_queue db now _) as [[q1 db1]|] eqn:Hs; [|apply queue_step_refl].
    apply save_queue_Some in Hs as (_ & -> & ->).
    cbn [snd sql_increment_version queues]. rewrite lookup_insert.
    match goal with |- context [decide (?a = id)] => destruct (decide (a = id)) as [Hk|Hk] end;
      [|apply queue_step_refl].
    assert (id = queueID) as ->.
    { rewrite <- Hk, <- Hid.
      by destruct (decide (req_Name req = "")), (req_Parameters req). }
    apply (Hwrite q); [done| |].
    + left. by destruct (decide (req_Name req = "")), (req_Parameters req).
    + intros Hr. by rewrite Hr in Hrun.
  - unfold DeleteTrainingQueue.
    destruct (first_queue db queueID userID) as [q|] eqn:Hq; [|apply queue_step_refl].
    apply first_queue_Some in Hq as [Hrow _]. pose proof (Hkq _ _ Hrow) as Hid.
    case_decide as Hrun; [apply queue_step_refl|].
    cbn [snd sql_increment_version delete_queue queues]. rewrite Hid, lookup_delete.
    case_decide as Hk; [|apply queue_step_refl]. subst id. by rewrite Hrow.
  - unfold StartQueue.
    destruct (first_queue db queueID userID) as [q|] eqn:Hq; [|apply queue_step_refl].
    apply first_queue_Some in Hq as [Hrow _]. pose proof (Hkq _ _ Hrow) as Hid.
    case_decide as Hpend; [apply queue_step_refl|].
    destruct (save_queue db now _) as [[q1 db1]|] eqn:Hs; [|apply queue_step_refl].
    apply save_queue_Some in Hs as (_ & -> & ->).
    cbn [snd update_unit queues TrainingQueue.ID
      TrainingQueue.set_UpdatedAt TrainingQueue.set_StartedAt TrainingQueue.set_Status].
    rewrite Hid, lookup_insert. case_decide as Hk; [|apply queue_step_refl]. subst id.
    assert (TrainingQueue.Status q = "pending") as Hp.
    { by destruct (decide (TrainingQueue.Status q = "pending")). }
    apply (Hwrite q); [done| |].
    + right. left. done.
    + intros Hr. by rewrite Hr in Hp.
  - unfold CompleteQueue. destruct req as [req|]; [|apply queue_step_refl].
    destruct (first_queue db queueID userID) as [q|] eqn:Hq; [|apply queue_step_refl].
    apply first_queue_Some in Hq as [Hrow _]. pose proof (Hkq _ _ Hrow) as Hid.
    destruct (save_queue db now _) as [[q1 db1]|] eqn:Hs; [|apply queue_step_refl].
    apply save_queue_Some in Hs as (_ & -> & ->).
    cbn [snd queues TrainingQueue.ID TrainingQueue.set_UpdatedAt
      TrainingQueue.set_Metrics TrainingQueue.set_Result TrainingQueue.set_CompletedAt
      TrainingQueue.set_Status].
    rewrite Hid, lookup_insert. case_decide as Hk; [|apply queue_step_refl]. subst id.
    apply (Hwrite q); [done| |done]. right. right. by left.
  - unfold FailQueue. destruct req as [req|]; [|apply queue_step_refl].
    destruct (first_queue db queueID userID) as [q|] eqn:Hq; [|apply queue_step_refl].
    apply first_queue_Some in Hq as [Hrow _]. pose proof (Hkq _ _ Hrow) as Hid.
    destruct (save_queue db now _) as [[q1 db1]|] eqn:Hs; [|apply queue_step_refl].
    apply save_queue_Some in Hs as (_ & -> & ->).
    cbn [snd queues TrainingQueue.ID TrainingQueue.set_UpdatedAt
      TrainingQueue.set_ErrorMsg TrainingQueue.set_CompletedAt TrainingQueue.set_Status].
    rewrite Hid, lookup_insert. case_decide as Hk; [|apply queue_step_refl]. subst id.
    apply (Hwrite q); [done| |done]. right. right. by right.
  - unfold ReorderQueues. destruct req as [ids|]; [|apply queue_step_refl].
    destruct (first_unit _ _ _); [|apply queue_step_refl].
    case_decide as Hunits; [apply queue_step_refl|].
    case_decide as Hpending; [apply queue_step_refl|].
    set (rows := filter (λ q, TrainingQueue.ID q ∈ ids ∧ TrainingQueue.UserID q = userID)
                        (map_to_list (queues db)).*2) in *.
    assert (∀ k q, (list_to_map ((λ q, (TrainingQueue.ID q, q)) <$> rows)
                     : gmap string TrainingQueue.t) !! k = Some q ->
                   TrainingQueue.ID q = k ∧ queues db !! k = Some q ∧
                   TrainingQueue.Status q = "pending") as Hmap.
    { intros k q Hq. apply elem_of_list_to_map_2 in Hq.
      apply list_elem_of_fmap in Hq as (q' & [= -> ->] & Hq').
      assert (TrainingQueue.Status q' = "pending") as Hp.
      { destruct (decide (TrainingQueue.Status q' = "pending")) as [|Hn]; [done|].
        exfalso. apply Hpending. apply Exists_exists. by exists q'. }
      apply list_elem_of_filter in Hq' as [_ [id0 Hrow0]%elem_rows].
      pose proof (Hkq _ _ Hrow0) as Hid0. subst id0. done. }
    match goal with |- context [reorder_loop db now ?m ?p 0 ids] =>
      destruct (reorder_loop_rows now p ids db m 0%nat) with (id := id) as [Hnone Hsome] end.
    { intros k q Hq. destruct (Hmap k q Hq) as (Hid & Hrow & _). split; [done|]. by exists q. }
    match goal with |- context [reorder_loop db now ?m ?p 0 ids] =>
      assert (queue_step (queues db !! id) (queues (reorder_loop db now m p 0 ids).2 !! id))
        as Hstep;
      [destruct (m !! id) as [q|] eqn:Hq|
       by destruct (reorder_loop db now m p 0 ids) as [[] db1]] end.
    + destruct (Hmap _ _ Hq) as (_ & Hrow & Hp).
      destruct (Hsome q eq_refl) as (y & -> & Hst).
      apply (Hwrite q); [done|by left|]. intros Hr. by rewrite Hr in Hp.
    + rewrite (Hnone eq_refl). apply queue_step_refl.
  - unfold CreateTrainingUnit. destruct req as [req|]; [|apply queue_step_refl].
    destruct (first_group _ _ _); [|apply queue_step_refl].
    destruct (create_unit db now _) as [[u1 db1]|] eqn:Hc; [|apply queue_step_refl].
    apply create_unit_Some in Hc as (_ & _ & _ & ->). apply queue_step_refl.
  - unfold ListTrainingUnits. destruct (first_group _ _ _); [|apply queue_step_refl].
    pose proof (queues_list_units_loop now (units_of_group db groupID) db) as Hl.
    destruct (list_units_loop _ _ _) as [l db1]. cbn [snd] in *. rewrite Hl.
    apply queue_step_refl.
  - unfold GetTrainingUnit. destruct (first_unit _ _ _) as [unit|]; [|apply queue_step_refl].
    pose proof (queues_list_units_loop now [unit] db) as Hl. cbn [list_units_loop] in Hl.
    destruct (checkConnectionStatus _ _ _) as [unit' db1]. cbn [snd] in *. rewrite Hl.
    apply queue_step_refl.
  - unfold SyncTrainingUnit. destruct req; [|apply queue_step_refl].
    destruct (first_unit _ _ _); apply queue_step_refl.
  - unfold UpdateTrainingUnit. destruct req as [req|]; [|apply queue_step_refl].
    destruct (first_unit _ _ _); [|apply queue_step_refl].
    destruct (save_unit db now _) as [[u1 db1]|] eqn:Hs; [|apply queue_step_refl].
    apply save_unit_Some in Hs as (_ & _ & ->). apply queue_step_refl.
  - unfold DeleteTrainingUnit. destruct (_ <? _); [apply queue_step_refl|].
    destruct (first_unit _ _ _); apply queue_step_refl.
  - unfold Heartbeat. destruct (first_unit _ _ _); [|apply queue_step_refl].
    destruct (save_unit db now _) as [[u1 db1]|] eqn:Hs; [|apply queue_step_refl].
    apply save_unit_Some in Hs as (_ & _ & ->). apply queue_step_refl.
  - unfold CreateGroup. destruct req as [req|]; [|apply queue_step_refl].
    destruct (create_group db now _) as [[g1 db1]|] eqn:Hc; [|apply queue_step_refl].
    apply create_group_Some in Hc as (_ & _ & _ & ->). apply queue_step_refl.
  - apply queue_step_refl.
  - unfold GetGroup. destruct (first_group _ _ _); apply queue_step_refl.
  - unfold UpdateGroup. destruct req as [req|]; [|apply queue_step_refl].
    destruct (first_group _ _ _); [|apply queue_step_refl].
    destruct (save_group db now _) as [[g1 db1]|] eqn:Hs; [|apply queue_step_refl].
    apply save_group_Some in Hs as (_ & _ & ->). apply queue_step_refl.
  - by destruct (Hop groupID userID).
Qed.

(** The deletion of a group takes the queues of the units of the group
    with it, whatever their status. *)
Lemma delete_group_queues db groupID userID id :
  queues (DeleteGroup db groupID userID).2 !! id =
  match first_group db groupID userID, queues db !! id with
  | Some _, Some q => if in_group db groupID q then None else Some q
  | _, o => o
  end.
Proof.
  unfold DeleteGroup. destruct (first_group db groupID userID);
    [|cbn [snd]; by destruct (queues db !! id)].
  cbn [snd]. unfold delete_group. cbn [queues].
  destruct (queues db !! id) as [q|] eqn:Hq.
  - destruct (in_group db groupID q) eqn:Hin.
    + apply map_lookup_filter_None. right. intros q' Hq'. rewrite Hq in Hq'.
      injection Hq' as <-. simpl. by rewrite Hin.
    + by apply map_lookup_filter_Some.
  - apply map_lookup_filter_None. by left.
Qed.

End LifecycleFacts.

(** The life cycle of a queue, in a store whose rows lie under their own
    keys.  Whatever the request to a queue or unit handler, or to a group
    handler other than the deletion: a queue that the request creates is
    pending; a stored queue keeps its status, or goes from pending to
    running, or becomes completed or failed (from any status); a running
    queue is not deleted and keeps its name, parameters, order and unit.
    The deletion of a group of the caller is the exception: it deletes
    every queue of the units of the group, the running ones too, and
    leaves the other queues as they are. *)
Theorem queue_life_cycle db op queueID :
  V2.well_keyed db ->
  ((∀ groupID userID, op ≠ V2.OpDeleteGroup groupID userID) ->
   Lifecycle.queue_step (V2.queues db !! queueID)
                        (V2.queues (V2.handle db op).2 !! queueID)) ∧
  (∀ groupID userID, op = V2.OpDeleteGroup groupID userID ->
   V2.queues (V2.handle db op).2 !! queueID =
   match V2.first_group db groupID userID, V2.queues db !! queueID with
   | Some _, Some q => if V2.in_group db groupID q then None else Some q
   | _, o => o
   end).
Proof.
  intros Hkeyed. split; [by apply queue_step_handle|].
  intros groupID userID ->. apply delete_group_queues.
Qed.

Lemma queue_life_cycle_witness :
  let db := V2.store_last_started in
  (V2.TrainingQueue.Status <$> V2.queues db !! "queue_0000000c") = Some "running" ∧
  Lifecycle.queue_step
    (V2.queues db !! "queue_0000000c")
    (V2.queues (V2.handle db (V2.OpDeleteQueue 6 "queue_0000000c" "u1")).2
       !! "queue_0000000c") ∧
  V2.queues (V2.handle db (V2.OpDeleteQueue 6 "queue_0000000c" "u1")).2
    !! "queue_0000000c" = V2.queues db !! "queue_0000000c" ∧
  V2.queues (V2.handle db (V2.OpDeleteGroup "group_1" "u1")).2 !! "queue_0000000c" = None.
Proof.
  intros db.
  assert (V2.well_keyed db) as Hkeyed.
  { apply well_keyed_by_computation; apply (bool_decide_unpack _); vm_compute; exact I. }
  split; [vm_compute; reflexivity|]. split; [|split].
  - apply (queue_life_cycle db (V2.OpDeleteQueue 6 "queue_0000000c" "u1")
             "queue_0000000c" Hkeyed).
    intros groupID userID. discriminate.
  - vm_compute. reflexivity.
  - rewrite (proj2 (queue_life_cycle db (V2.OpDeleteGroup "group_1" "u1")
                      "queue_0000000c" Hkeyed) "group_1" "u1" eq_refl).
    vm_compute. reflexivity.
Defined.

(** ** The whole V1 service *)

Section TasksFacts.
Import V1 Tasks.

Let status4 (t : Task) : Prop :=
  Status t = TaskStatusQueued ∨ Status t = TaskStatusRunning ∨
  Status t = TaskStatusCompleted ∨ Status t = TaskStatusCancelled.

Lemma zget_UpdatePriority c taskID p :
  Redis.zget (Queue.UpdatePriority c taskID p) Queue.TaskQueueKey =
  <[taskID := - p]> (Redis.zget c Queue.TaskQueueKey).
Proof. unfold Queue.UpdatePriority, Redis.ZAdd. by rewrite zget_zput. Qed.

Lemma sound_init : sound init.
Proof.
  unfold init. split; [|split]; simpl.
  - intros id t. by rewrite lookup_empty.
  - intros m sc. unfold Redis.zget, Redis.empty. simpl.
    rewrite lookup_empty. simpl. by rewrite lookup_empty.
  - intros w tk. by rewrite lookup_empty.
Qed.

(** A sound state stays sound when one row is written under its own id
    with one of the four statuses, the index gains at most that id, and
    the workers hold running copies of stored tasks. *)
Lemma sound_write s k t' c p ws :
  sound s -> ID t' = k -> status4 t' -> accepts t' = true ->
  (∀ m sc, Redis.zget c Queue.TaskQueueKey !! m = Some sc ->
     m = k ∨ is_Some (Redis.zget (RedisClient s) Queue.TaskQueueKey !! m)) ->
  (∀ w tk, ws !! w = Some tk ->
     Status tk = TaskStatusRunning ∧ (ID tk = k ∨ is_Some (DB s !! ID tk))) ->
  sound (mkState (<[k := t']> (DB s)) c p ws).
Proof.
  intros (Hrows & Hindex & Hheld) Hid Hst Hok Hc Hws. split; [|split]; simpl.
  - intros id t. rewrite lookup_insert. case_decide; [|by apply Hrows].
    intros [= <-]. by subst.
  - intros m sc Hm. rewrite lookup_insert. case_decide; [done|].
    destruct (Hc m sc Hm) as [->|[sc' Hm']]; [done|]. by eapply Hindex.
  - intros w tk Hw. destruct (Hws w tk Hw) as [Hrun Hrow]. split; [|done].
    rewrite lookup_insert. case_decide; [done|]. by destruct Hrow.
Qed.

(** A sound state stays sound when the index loses members and the
    workers lose tasks. *)
Lemma sound_shrink s c p ws :
  sound s ->
  (∀ m sc, Redis.zget c Queue.TaskQueueKey !! m = Some sc ->
     is_Some (Redis.zget (RedisClient s) Queue.TaskQueueKey !! m)) ->
  (∀ w tk, ws !! w = Some tk -> workers s !! w = Some tk) ->
  sound (mkState (DB s) c p ws).
Proof.
  intros (Hrows & Hindex & Hheld) Hc Hws. split; [|split]; simpl; [done| |].
  - intros m sc Hm. destruct (Hc m sc Hm) as [sc' Hm']. by eapply Hindex.
  - intros w tk Hw. apply (Hheld w). by apply Hws.
Qed.

Lemma held_kept s k : sound s ->
  ∀ w tk, workers s !! w = Some tk ->
          Status tk = TaskStatusRunning ∧ (ID tk = k ∨ is_Some (DB s !! ID tk)).
Proof. intros (_ & _ & Hheld) w tk Hw. destruct (Hheld w tk Hw). auto. Qed.

Lemma sound_CreateTask s now uuid userID req :
  sound s -> sound (CreateTask s now uuid userID req).2.
Proof.
  intros Hs. destruct req as [req|]; [|done]. unfold CreateTask, Create. simpl.
  set (id := "task_" +:+ String.substring 0 8 uuid).
  destruct (accepts _) eqn:Hok; [|done].
  destruct (DB s !! id) eqn:Hfresh; [done|]. simpl.
  apply sound_write; [done|done|by left|exact Hok| |by apply held_kept].
  intros m sc. rewrite zget_EnqueueTask, lookup_insert. case_decide; [by left|].
  intros Hm. right. by eexists.
Qed.

Lemma sound_batch_loop now uuids userID p ws tasks :
  ∀ db c i taskIDs,
  sound (mkState db c p ws) ->
  sound (mkState (batch_loop db c now uuids userID i tasks taskIDs).1.2
                 (batch_loop db c now uuids userID i tasks taskIDs).2 p ws).
Proof.
  induction tasks as [|taskReq tasks IH]; intros db c i taskIDs Hs; [done|].
  cbn [batch_loop]. unfold Create. cbn [ID].
  set (id := "task_" +:+ String.substring 0 8 (uuids i)).
  destruct (accepts _) eqn:Hok; [|by apply IH].
  destruct (db !! id) eqn:Hfresh; [by apply IH|]. apply IH.
  apply (sound_write (mkState db c p ws));
    [done|done|by left|exact Hok| |by apply (held_kept (mkState db c p ws))].
  intros m sc. rewrite zget_EnqueueTask, lookup_insert. case_decide; [by left|].
  intros Hm. right. by eexists.
Qed.

Lemma sound_Save_row s now task c ws :
  sound s -> is_Some (DB s !! ID task) -> status4 task ->
  (∀ m sc, Redis.zget c Queue.TaskQueueKey !! m = Some sc ->
     m = ID task ∨ is_Some (Redis.zget (RedisClient s) Queue.TaskQueueKey !! m)) ->
  (∀ w tk, ws !! w = Some tk ->
     Status tk = TaskStatusRunning ∧ (ID tk = ID task ∨ is_Some (DB s !! ID tk))) ->
  sound (mkState (Save (DB s) now task) c (paused s) ws).
Proof.
  intros Hs Hrow Hst Hc Hws. unfold Save. destruct (accepts task) eqn:Hok.
  - by apply sound_write.
  - destruct Hs as (Hrows & Hindex & Hheld). split; [|split]; simpl; [done| |].
    + intros m sc Hm. destruct (Hc m sc Hm) as [->|[sc' Hm']]; [done|]. by eapply Hindex.
    + intros w tk Hw. destruct (Hws w tk Hw) as [Hrun [Hid|Hin]]; [|done].
      by rewrite Hid.
Qed.

Lemma sound_reorder_loop now n p ws taskIDs :
  ∀ db c i,
  sound (mkState db c p ws) ->
  (∀ id, id ∈ taskIDs -> is_Some (db !! id)) ->
  sound (mkState (reorder_loop db c now n i taskIDs).1
                 (reorder_loop db c now n i taskIDs).2 p ws).
Proof.
  induction taskIDs as [|taskID taskIDs IH]; intros db c i Hs Hrows; [done|].
  cbn [reorder_loop].
  destruct (Hrows taskID ltac:(left)) as [task Hrow]. rewrite Hrow.
  pose proof Hs as (Hkeyed & _ & _). destruct (Hkeyed _ _ Hrow) as (Hid & Hst & Hok).
  apply IH.
  - apply (sound_Save_row (mkState db c p ws));
      [done|cbn; rewrite Hid, Hrow; by eexists|done|
      |cbn; rewrite Hid; by apply (held_kept (mkState db c p ws))].
    intros m sc. cbn [ID set_Priority]. rewrite Hid.
    rewrite zget_UpdatePriority, lookup_insert. case_decide; [by left|].
    intros Hm. right. by eexists.
  - intros id Hin. unfold Save. destruct (accepts _); [|apply Hrows; by right].
    rewrite lookup_insert. case_decide; [done|].
    apply Hrows. by right.
Qed.

(** The ids of the rows of a table that lies under its own keys. *)
Lemma NoDup_row_ids (db : gmap string Task) (P : Task -> Prop) `{∀ t, Decision (P t)} :
  (∀ id t, db !! id = Some t -> ID t = id) ->
  NoDup (ID <$> filter P (map_to_list db).*2).
Proof.
  intros Hkeyed.
  assert (ID <$> filter P (map_to_list db).*2 =
          (filter (λ e : string * Task, P e.2) (map_to_list db)).*1) as ->.
  { assert (∀ l : list (string * Task), (∀ e, e ∈ l -> ID e.2 = e.1) ->
              ID <$> filter P l.*2 = (filter (λ e : string * Task, P e.2) l).*1) as Hl.
    { induction l as [|e l IH]; intros He; [done|]. rewrite fmap_cons, !filter_cons.
      simpl. case_decide.
      - rewrite !fmap_cons, IH; [|intros; apply He; by right].
        f_equal. apply He. left.
      - apply IH. intros; apply He; by right. }
    apply Hl. intros [id t] Hin%elem_of_map_to_list. by apply Hkeyed. }
  apply NoDup_fmap_fst.
  - intros id t1 t2 [_ H1%elem_of_map_to_list]%list_elem_of_filter
                    [_ H2%elem_of_map_to_list]%list_elem_of_filter. congruence.
  - apply NoDup_filter, NoDup_map_to_list.
Qed.

(** The check of [ReorderQueue]: when as many rows of the caller carry a
    listed id as ids are listed, every listed id is the id of a row of the
    caller, and no id is listed twice. *)
Lemma count_owned_all (db : gmap string Task) taskIDs userID :
  (∀ id t, db !! id = Some t -> ID t = id) ->
  count_owned db taskIDs userID = Z.of_nat (length taskIDs) ->
  NoDup taskIDs ∧ ∀ id, id ∈ taskIDs -> ∃ t, db !! id = Some t ∧ UserID t = userID.
Proof.
  intros Hkeyed Hcount. unfold count_owned in Hcount. apply Nat2Z.inj in Hcount.
  set (rows := filter (λ t, ID t ∈ taskIDs ∧ UserID t = userID) (map_to_list db).*2) in *.
  assert (NoDup (ID <$> rows)) as Hnd by by apply NoDup_row_ids.
  assert ((ID <$> rows) ≡ₚ taskIDs) as Hperm.
  { apply submseteq_length_Permutation.
    - apply NoDup_submseteq; [done|].
      intros id (t & -> & [[Hin _] _]%list_elem_of_filter)%list_elem_of_fmap. done.
    - rewrite length_fmap. lia. }
  split; [by rewrite <- Hperm|]. intros id Hin. rewrite <- Hperm in Hin.
  apply list_elem_of_fmap in Hin as (t & -> & [[_ Hu] [id Hrow]%elem_rows]%list_elem_of_filter).
  exists t. by rewrite (Hkeyed _ _ Hrow).
Qed.

Lemma sound_pickup s now w : sound s -> sound (worker_pickup s now w).
Proof.
  intros Hs. unfold worker_pickup.
  destruct (workers s !! w) eqn:Hw; [done|]. destruct (paused s) eqn:Hp; [done|].
  destruct (Redis.BZPopMin _ _) as [[[taskID sc]|] c] eqn:Hpop; [|done].
  apply BZPopMin_Some in Hpop as [Hmem Hc].
  assert (sound (mkState (DB s) c (paused s) (workers s))) as Hpopped.
  { apply sound_shrink; [done| |done].
    intros m sc'. rewrite Hc. intros [Hne Hm]%lookup_delete_Some. by eexists. }
  rewrite Hp in Hpopped.
  destruct (DB s !! taskID) as [task|] eqn:Hrow; [|done].
  destruct (accepts _) eqn:Hok; [|done].
  pose proof Hs as (Hrows & _ & _). destruct (Hrows _ _ Hrow) as [Hid _].
  unfold Save. rewrite Hok. cbn [ID set_StartedAt set_Status set_UpdatedAt]. rewrite Hid.
  rewrite <- Hp.
  apply sound_write; [done|done|by (right; left)|exact Hok| |].
  + intros m sc'. rewrite Hc. intros [Hne Hm]%lookup_delete_Some. right. by eexists.
  + intros w' tk. rewrite lookup_insert. case_decide.
    * intros [= <-]. split; [done|]. by left.
    * by apply held_kept.
Qed.

Lemma sound_complete s now w : sound s -> sound (worker_complete s now w).
Proof.
  intros Hs. unfold worker_complete.
  destruct (workers s !! w) as [tk|] eqn:Hw; [|done].
  destruct (accepts _) eqn:Hok.
  2:{ apply sound_shrink; [done|by eexists|]. by intros w' tk' [_ ?]%lookup_delete_Some. }
  unfold Save. rewrite Hok. cbn [ID set_Result set_CompletedAt set_Status set_UpdatedAt].
  apply sound_write; [done|done|by (right; right; left)|exact Hok| |].
  - intros m sc'. unfold Redis.SRem. rewrite zget_sput. intros Hm. right. by eexists.
  - intros w' tk' [Hne Hw']%lookup_delete_Some. by apply (held_kept s _ Hs w' tk').
Qed.

Lemma sound_serve s call : sound s -> sound (serve s call).2.
Proof.
  intros Hs. pose proof Hs as (Hrows & Hindex & Hheld).
  destruct call; cbn [serve snd].
  - by apply sound_CreateTask.
  - unfold BatchCreateTasks. destruct req as [tasks|]; [|done].
    pose proof (sound_batch_loop now uuids userID (paused s) (workers s) tasks
                  (DB s) (RedisClient s) 0%nat [] Hs) as Hl.
    by destruct (batch_loop _ _ _ _ _ _ _ _) as [[ids db] c].
  - unfold GetTask. by destruct (First _ _ _).
  - unfold UpdateTaskPriority. destruct req as [priority|]; [|done].
    case_decide; [done|].
    destruct (First (DB s) taskID userID) as [task|] eqn:Hrow; [|done].
    apply First_Some in Hrow as [Hrow _]. destruct (Hrows _ _ Hrow) as (Hid & Hst & Hok).
    case_decide; [done|]. cbn [snd].
    apply sound_Save_row;
      [done|cbn; rewrite Hid, Hrow; by eexists|done| |cbn; rewrite Hid; by apply held_kept].
    intros m sc. cbn [ID set_Priority]. rewrite Hid.
    rewrite zget_UpdatePriority, lookup_insert. case_decide; [by left|].
    intros Hm. right. by eexists.
  - unfold CancelTask. destruct req as [req|]; [|done].
    destruct (First (DB s) taskID userID) as [task|] eqn:Hrow; [|done].
    apply First_Some in Hrow as [Hrow _]. destruct (Hrows _ _ Hrow) as (Hid & Hst & Hok).
    case_decide; [done|]. cbn [snd].
    apply sound_Save_row;
      [done|cbn; rewrite Hid, Hrow; by eexists|by (right; right; right)|
      |cbn; rewrite Hid; by apply held_kept].
    intros m sc. rewrite zget_RemoveTask. intros [_ Hm]%lookup_delete_Some.
    right. by eexists.
  - unfold UploadResult. destruct req as [req|]; [|done].
    destruct (First (DB s) taskID userID) as [task|] eqn:Hrow; [|done].
    apply First_Some in Hrow as [Hrow _]. destruct (Hrows _ _ Hrow) as (Hid & Hst & Hok).
    cbn [snd].
    apply sound_Save_row;
      [done|cbn; rewrite Hid, Hrow; by eexists|by (right; right; left)|
      |cbn; rewrite Hid; by apply held_kept].
    intros m sc Hm. right. by eexists.
  - unfold ReorderQueue. destruct req as [taskIDs|]; [|done].
    case_decide as Hcount; [done|].
    destruct (count_owned_all (DB s) taskIDs userID) as [_ Hall]; [|done|].
    { intros id t Ht. by destruct (Hrows _ _ Ht). }
    pose proof (sound_reorder_loop now (Z.of_nat (length taskIDs)) (paused s) (workers s)
                  taskIDs (DB s) (RedisClient s) 0%nat Hs) as Hl.
    destruct (reorder_loop _ _ _ _ _ _) as [db c]. cbn [fst snd] in *. apply Hl.
    intros id Hin. destruct (Hall id Hin) as (t & Ht & _). by eexists.
  - exact Hs.
  - exact Hs.
  - by apply sound_pickup.
  - by apply sound_complete.
Qed.

Lemma sound_run calls : sound (run init calls).
Proof.
  unfold run. induction calls as [|call calls IH] using rev_ind; [apply sound_init|].
  rewrite foldl_app. by apply sound_serve.
Qed.

End TasksFacts.

(** Whatever requests the task and queue handlers have served and
    whatever steps the workers have taken since the service started: every
    row lies under its own id and holds values that the table takes; its
    status is queued, running, completed or cancelled (no code path stores
    pending or failed); and every member of
    the index, like every task that a worker holds, has a row, so that a
    worker never pops an id that it cannot load. *)
Theorem service_state_is_sound calls : Tasks.sound (Tasks.run V1.init calls).
Proof. apply sound_run. Qed.

Section TasksTenancy.
Import V1 Tasks.

Let own_change (u : string) (db db' : gmap string Task) : Prop :=
  ∀ k, db' !! k = db !! k ∨
       (Tenancy.own_row UserID u (db !! k) ∧ Tenancy.own_row UserID u (db' !! k)).

Lemma own_change_refl u db : own_change u db db.
Proof. intros k. by left. Qed.

Lemma own_change_trans u db1 db2 db3 :
  own_change u db1 db2 -> own_change u db2 db3 -> own_change u db1 db3.
Proof.
  intros H1 H2 k. destruct (H1 k) as [E1|[A1 B1]], (H2 k) as [E2|[A2 B2]].
  - left. congruence.
  - right. split; [by rewrite <- E1|done].
  - right. split; [done|by rewrite E2].
  - right. done.
Qed.

Lemma own_change_insert u db k t :
  Tenancy.own_row UserID u (db !! k) -> UserID t = u -> own_change u db (<[k := t]> db).
Proof.
  intros Hown Hu k'. rewrite lookup_insert. case_decide; [subst k'|by left].
  right. split; [done|]. by intros ? [= <-].
Qed.

Lemma own_change_Save u db now t :
  Tenancy.own_row UserID u (db !! ID t) -> UserID t = u -> own_change u db (Save db now t).
Proof.
  intros Hown Hu. unfold Save. destruct (accepts t); [|apply own_change_refl].
  by apply own_change_insert.
Qed.

Lemma own_change_batch_loop now uuids userID tasks :
  ∀ db c i taskIDs,
  own_change userID db (batch_loop db c now uuids userID i tasks taskIDs).1.2.
Proof.
  induction tasks as [|taskReq tasks IH]; intros db c i taskIDs; [apply own_change_refl|].
  cbn [batch_loop]. unfold Create. cbn [ID].
  set (id := "task_" +:+ String.substring 0 8 (uuids i)).
  destruct (accepts _); [|by apply IH].
  destruct (db !! id) eqn:Hfresh; [by apply IH|].
  eapply own_change_trans; [|apply IH].
  apply own_change_insert; [|done]. by rewrite Hfresh.
Qed.

Lemma own_change_reorder_loop now n userID taskIDs :
  ∀ db c i,
  (∀ id t, db !! id = Some t -> ID t = id) ->
  (∀ id, id ∈ taskIDs -> ∃ t, db !! id = Some t ∧ UserID t = userID) ->
  own_change userID db (reorder_loop db c now n i taskIDs).1.
Proof.
  induction taskIDs as [|taskID taskIDs IH]; intros db c i Hkeyed Hrows;
    [apply own_change_refl|].
  cbn [reorder_loop].
  destruct (Hrows taskID ltac:(left)) as (task & Hrow & Hu). rewrite Hrow.
  pose proof (Hkeyed _ _ Hrow) as Hid.
  eapply own_change_trans; [|apply IH].
  - apply own_change_Save; [|done]. cbn. rewrite Hid, Hrow. by intros ? [= <-].
  - intros id t. unfold Save. destruct (accepts _); [|apply Hkeyed].
    cbn [ID set_Priority set_UpdatedAt]. rewrite Hid.
    rewrite lookup_insert. case_decide as Hk; [|apply Hkeyed].
    intros [= <-]. cbn. by rewrite Hid.
  - intros id Hin. unfold Save. destruct (accepts _); [|apply Hrows; by right].
    cbn [ID set_Priority set_UpdatedAt]. rewrite Hid.
    rewrite lookup_insert. case_decide.
    + eexists. split; [done|]. exact Hu.
    + apply Hrows. by right.
Qed.

(** A request writes rows of its caller only. *)
Lemma own_change_serve s call u :
  sound s -> caller call = Some u -> own_change u (DB s) (DB (serve s call).2).
Proof.
  intros (Hrows & _ & _) Hcaller.
  assert (∀ id t, DB s !! id = Some t -> ID t = id) as Hkeyed
    by (intros id t Ht; by destruct (Hrows _ _ Ht)).
  destruct call; cbn [caller] in Hcaller; try discriminate;
    injection Hcaller as ->; cbn [serve].
  - unfold CreateTask. destruct req as [req|]; [|apply own_change_refl].
    unfold Create. cbn [ID].
    set (id := "task_" +:+ String.substring 0 8 uuid).
    destruct (accepts _); [|apply own_change_refl].
    destruct (DB s !! id) eqn:Hfresh; [apply own_change_refl|]. cbn [snd DB].
    apply own_change_insert; [|done]. by rewrite Hfresh.
  - unfold BatchCreateTasks. destruct req as [tasks|]; [|apply own_change_refl].
    pose proof (own_change_batch_loop now uuids u tasks (DB s) (RedisClient s) 0%nat [])
      as Hl.
    by destruct (batch_loop _ _ _ _ _ _ _ _) as [[ids db] c].
  - unfold GetTask. destruct (First _ _ _); apply own_change_refl.
  - unfold UpdateTaskPriority. destruct req as [priority|]; [|apply own_change_refl].
    case_decide; [apply own_change_refl|].
    destruct (First (DB s) taskID u) as [task|] eqn:Hrow; [|apply own_change_refl].
    apply First_Some in Hrow as [Hrow Hu]. pose proof (Hkeyed _ _ Hrow) as Hid.
    case_decide; [apply own_change_refl|]. cbn [snd DB].
    apply own_change_Save; [|done]. cbn. rewrite Hid, Hrow. by intros ? [= <-].
  - unfold CancelTask. destruct req as [req|]; [|apply own_change_refl].
    destruct (First (DB s) taskID u) as [task|] eqn:Hrow; [|apply own_change_refl].
    apply First_Some in Hrow as [Hrow Hu]. pose proof (Hkeyed _ _ Hrow) as Hid.
    case_decide; [apply own_change_refl|]. cbn [snd DB].
    apply own_change_Save; [|done]. cbn. rewrite Hid, Hrow. by intros ? [= <-].
  - unfold UploadResult. destruct req as [req|]; [|apply own_change_refl].
    destruct (First (DB s) taskID u) as [task|] eqn:Hrow; [|apply own_change_refl].
    apply First_Some in Hrow as [Hrow Hu]. pose proof (Hkeyed _ _ Hrow) as Hid.
    cbn [snd DB].
    apply own_change_Save; [|done]. cbn. rewrite Hid, Hrow. by intros ? [= <-].
  - unfold ReorderQueue. destruct req as [taskIDs|]; [|apply own_change_refl].
    case_decide as Hcount; [apply own_change_refl|].
    destruct (count_owned_all (DB s) taskIDs u Hkeyed) as [_ Hall]; [done|].
    pose proof (own_change_reorder_loop now (Z.of_nat (length taskIDs)) u taskIDs
                  (DB s) (RedisClient s) 0%nat Hkeyed Hall) as Hl.
    by destruct (reorder_loop _ _ _ _ _ _) as [db c].
Qed.

End TasksTenancy.

(** A request to the task and queue handlers writes rows of its caller
    only: the tasks of all other principals are the same rows before and
    after.  A request for the task of another principal (get, a priority
    update, a cancel or an upload with a body that binds) is answered
    404. *)
Theorem task_requests_touch_rows_of_their_caller s call userID :
  Tasks.sound s ->
  Tasks.caller call = Some userID ->
  Tasks.tasks_of_others userID (Tasks.serve s call).2 = Tasks.tasks_of_others userID s ∧
  (∀ taskID t, V1.DB s !! taskID = Some t -> V1.UserID t ≠ userID ->
     (call = Tasks.GetTaskCall taskID userID ∨
      (∃ now p, p ≠ 0 ∧ call = Tasks.UpdateTaskPriorityCall now taskID userID (Some p)) ∨
      (∃ now req, call = Tasks.CancelTaskCall now taskID userID (Some req)) ∨
      (∃ now req, call = Tasks.UploadResultCall now taskID userID (Some req))) ->
     V1.status <$> (Tasks.serve s call).1 = Some 404).
Proof.
  intros Hs Hcaller. split.
  - unfold Tasks.tasks_of_others. apply others_filter.
    by apply own_change_serve.
  - intros taskID t Hrow Hother Hcall.
    assert (V1.First (V1.DB s) taskID userID = None) as Hnone.
    { unfold V1.First. rewrite Hrow. by rewrite decide_False. }
    destruct Hcall as [->|[(now & p & Hp & ->)|[(now & req & ->)|(now & req & ->)]]];
      cbn [Tasks.serve].
    + unfold Tasks.GetTask. by rewrite Hnone.
    + unfold Tasks.UpdateTaskPriority. rewrite decide_False by done. by rewrite Hnone.
    + unfold V1.CancelTask. by rewrite Hnone.
    + unfold V1.UploadResult. by rewrite Hnone.
Qed.

Lemma task_requests_touch_rows_of_their_caller_witness :
  let s := Tasks.run V1.init
             [Tasks.CreateTaskCall 1 "0000000a-aaaa" "u1"
                (Some (V1.mkCreateTaskReq "a" ∅ 1 None))] in
  V1.status <$> (Tasks.serve s (Tasks.GetTaskCall "task_0000000a" "u2")).1 = Some 404.
Proof.
  intros s.
  destruct (V1.DB s !! "task_0000000a") as [t|] eqn:Hrow.
  - apply (proj2 (task_requests_touch_rows_of_their_caller s
                    (Tasks.GetTaskCall "task_0000000a" "u2") "u2"
                    (sound_run _) eq_refl) "task_0000000a" t Hrow).
    + vm_compute in Hrow. injection Hrow as <-. discriminate.
    + by left.
  - vm_compute in Hrow. discriminate Hrow.
Defined.

(** ** Priorities in the V1 task API *)

Section TasksPriorities.
Import V1 Tasks.

Lemma position_by_score c a sa b sb :
  Redis.zget c Queue.TaskQueueKey !! a = Some sa ->
  Redis.zget c Queue.TaskQueueKey !! b = Some sb ->
  sa < sb ->
  Queue.GetQueuePosition c a < Queue.GetQueuePosition c b.
Proof.
  intros Ha Hb Hlt. assert (a ≠ b) as Hne by (intros ->; rewrite Ha in Hb; injection Hb; lia).
  apply (position_lt_iff c a sa b sb Ha Hb Hne).
  unfold Redis.zless. simpl. apply orb_true_iff. left. by apply Z.ltb_lt.
Qed.

(** [float64(priority)] is the priority itself up to 2^53. *)
Lemma float64_exact p : Z.abs p <= 2 ^ 53 -> Queue.float64 p = p.
Proof. unfold Queue.float64. intros H. apply Z.leb_le in H. by rewrite H. Qed.

Lemma accepts_set_Priority t p : accepts (set_Priority t p) = accepts t.
Proof. done. Qed.

(** The table takes the row of a new task whose id, name, config and
    owner fit their columns. *)
Lemma accepts_new_task id name config priority userID :
  Postgres.varchar 100 id = true -> Postgres.varchar 255 name = true ->
  Postgres.jsonb config = true -> Postgres.varchar 100 userID = true ->
  accepts (mkTask id name config priority TaskStatusQueued None None "" 0 None None
                  userID 0) = true.
Proof.
  intros H1 H2 H3 H4. unfold accepts.
  cbn [ID Name Config Metadata Result ErrorMessage UserID].
  rewrite H1, H2, H3, H4. vm_compute. reflexivity.
Qed.

(** The loop of [BatchCreateTasks]. *)
Lemma task_batch_loop_spec now uuids userID tasks :
  ∀ db c i taskIDs,
  ∃ new,
    (batch_loop db c now uuids userID i tasks taskIDs).1.1 = taskIDs ++ new ∧
    (length new <= length tasks)%nat ∧
    (∀ id, id ∈ new ->
       db !! id = None ∧
       ∃ t, (batch_loop db c now uuids userID i tasks taskIDs).1.2 !! id = Some t ∧
            ID t = id ∧ Status t = TaskStatusQueued ∧ UserID t = userID ∧
            accepts t = true ∧
            Redis.zget (batch_loop db c now uuids userID i tasks taskIDs).2
                       Queue.TaskQueueKey !! id = Some (- Queue.float64 (Priority t))) ∧
    (∀ id t, db !! id = Some t ->
       (batch_loop db c now uuids userID i tasks taskIDs).1.2 !! id = Some t) ∧
    (∀ id, id ∉ new ->
       Redis.zget (batch_loop db c now uuids userID i tasks taskIDs).2
                  Queue.TaskQueueKey !! id = Redis.zget c Queue.TaskQueueKey !! id) ∧
    ((∀ j, (j < length tasks)%nat ->
        db !! ("task_" +:+ String.substring 0 8 (uuids (i + j)%nat)) = None) ->
     (∀ j1 j2, (j1 < j2 < length tasks)%nat ->
        "task_" +:+ String.substring 0 8 (uuids (i + j1)%nat) ≠
        "task_" +:+ String.substring 0 8 (uuids (i + j2)%nat)) ->
     (∀ j taskReq, tasks !! j = Some taskReq ->
        accepts (mkTask ("task_" +:+ String.substring 0 8 (uuids (i + j)%nat))
                        (task_Name taskReq) (task_Config taskReq) (task_Priority taskReq)
                        TaskStatusQueued None None "" 0 None None userID 0) = true) ->
     new = (λ j, "task_" +:+ String.substring 0 8 (uuids (i + j)%nat))
             <$> seq 0 (length tasks)).
Proof.
  induction tasks as [|taskReq tasks IH]; intros db c i taskIDs.
  - exists []. cbn [batch_loop fst snd]. rewrite app_nil_r.
    split; [done|]. split; [done|]. split; [by intros id ?%elem_of_nil|].
    split; [done|]. split; [done|]. done.
  - cbn [batch_loop]. unfold Create. cbn [ID].
    set (id0 := "task_" +:+ String.substring 0 8 (uuids i)).
    destruct (accepts _) eqn:Hok.
    2:{ destruct (IH db c (S i) taskIDs) as (new & Hids & Hlen & Hnew & Hold & Hidx & Hall).
        exists new. split; [done|]. split; [simpl; lia|]. split; [done|].
        split; [done|]. split; [done|].
        intros _ _ Htaken. specialize (Htaken 0%nat taskReq eq_refl).
        rewrite Nat.add_0_r in Htaken. fold id0 in Htaken. congruence. }
    destruct (db !! id0) eqn:Hfresh.
    + destruct (IH db c (S i) taskIDs) as (new & Hids & Hlen & Hnew & Hold & Hidx & Hall).
      exists new. split; [done|]. split; [simpl; lia|]. split; [done|].
      split; [done|]. split; [done|].
      intros Hfree _ _. specialize (Hfree 0%nat ltac:(simpl; lia)).
      rewrite Nat.add_0_r in Hfree. fold id0 in Hfree. congruence.
    + match goal with |- context [batch_loop ?db1 ?c1 now uuids userID (S i) tasks ?ids1] =>
        destruct (IH db1 c1 (S i) ids1) as (new & Hids & Hlen & Hnew & Hold & Hidx & Hall);
        set (r := batch_loop db1 c1 now uuids userID (S i) tasks ids1) in *
      end.
      assert (id0 ∉ new) as Hnotin.
      { intros Hin. destruct (Hnew _ Hin) as [Hnone _].
        by rewrite lookup_insert_eq in Hnone. }
      exists (id0 :: new). split; [by rewrite Hids, <- app_assoc|].
      split; [simpl; lia|]. split; [|split; [|split]].
      * intros id [->|Hin]%elem_of_cons.
        -- split; [done|]. eexists. split; [apply Hold, lookup_insert_eq|].
           split; [done|]. split; [done|]. split; [done|]. split; [exact Hok|].
           rewrite Hidx by done. rewrite zget_EnqueueTask. apply lookup_insert_eq.
        -- destruct (Hnew _ Hin) as [Hnone Hrow].
           apply lookup_insert_None in Hnone as [Hnone _]. done.
      * intros id t Ht. apply Hold. rewrite lookup_insert_ne; [done|]. congruence.
      * intros id [Hne Hnin]%not_elem_of_cons. rewrite Hidx by done.
        rewrite zget_EnqueueTask. by rewrite lookup_insert_ne.
      * intros Hfree Hdistinct Htaken. simpl length. rewrite <- cons_seq. rewrite fmap_cons.
        rewrite Nat.add_0_r. fold id0. f_equal. rewrite Hall.
        -- rewrite <- fmap_S_seq, <- list_fmap_compose. apply list_fmap_ext.
           intros ? j _. simpl. do 3 f_equal. lia.
        -- intros j Hj. replace (S i + j)%nat with (i + S j)%nat by lia.
           rewrite lookup_insert_ne; [apply Hfree; simpl; lia|].
           unfold id0. rewrite <- (Nat.add_0_r i) at 1. apply Hdistinct. simpl. lia.
        -- intros j1 j2 Hj. replace (S i + j1)%nat with (i + S j1)%nat by lia.
           replace (S i + j2)%nat with (i + S j2)%nat by lia. apply Hdistinct. simpl. lia.
        -- intros j taskReq' Hj. replace (S i + j)%nat with (i + S j)%nat by lia.
           by apply Htaken.
Qed.

(** The loop of [ReorderQueue] on ids that are listed once and have a
    row. *)
Lemma task_reorder_loop_spec now n taskIDs :
  ∀ db c i,
  (∀ id t, db !! id = Some t -> ID t = id ∧ accepts t = true) ->
  NoDup taskIDs ->
  (∀ id, id ∈ taskIDs -> is_Some (db !! id)) ->
  (∀ j id, taskIDs !! j = Some id ->
     ∃ t, db !! id = Some t ∧
          (reorder_loop db c now n i taskIDs).1 !! id =
            Some (set_UpdatedAt (set_Priority t (n - Z.of_nat (i + j))) now) ∧
          Redis.zget (reorder_loop db c now n i taskIDs).2 Queue.TaskQueueKey !! id =
            Some (- Queue.float64 (n - Z.of_nat (i + j)))) ∧
  (∀ id, id ∉ taskIDs ->
     (reorder_loop db c now n i taskIDs).1 !! id = db !! id ∧
     Redis.zget (reorder_loop db c now n i taskIDs).2 Queue.TaskQueueKey !! id =
       Redis.zget c Queue.TaskQueueKey !! id).
Proof.
  induction taskIDs as [|taskID taskIDs IH]; intros db c i Hkeyed Hnd Hrows.
  - split; [by intros j id|done].
  - cbn [reorder_loop]. apply NoDup_cons in Hnd as [Hfresh Hnd].
    destruct (Hrows taskID ltac:(left)) as [task Hrow]. rewrite Hrow.
    destruct (Hkeyed _ _ Hrow) as [Hid Hok].
    unfold Save. rewrite accepts_set_Priority, Hok.
    cbn [ID set_Priority set_UpdatedAt]. rewrite Hid.
    match goal with |- context [reorder_loop ?db1 ?c1 now n (S i) taskIDs] =>
      destruct (IH db1 c1 (S i)) as [Hlisted Hother];
      [| | |set (r := reorder_loop db1 c1 now n (S i) taskIDs) in *] end.
    + intros id t. rewrite lookup_insert. case_decide as Hk; [|apply Hkeyed].
      intros [= <-]. cbn. by rewrite Hid.
    + done.
    + intros id Hin. rewrite lookup_insert. case_decide; [done|].
      apply Hrows. by right.
    + split.
      * intros [|j] id Hj.
        -- injection Hj as <-. exists task. split; [done|].
           destruct (Hother taskID Hfresh) as [Hdb Hc]. rewrite Hdb, Hc.
           rewrite lookup_insert_eq, zget_UpdatePriority, lookup_insert_eq.
           rewrite Nat.add_0_r. done.
        -- simpl in Hj. destruct (Hlisted j id Hj) as (t & Ht & Hdb & Hc).
           assert (id ≠ taskID) as Hne.
           { intros ->. apply Hfresh. by eapply list_elem_of_lookup_2. }
           rewrite lookup_insert_ne in Ht by done. exists t. split; [done|].
           replace (i + S j)%nat with (S i + j)%nat by lia. done.
      * intros id [Hne Hnin]%not_elem_of_cons.
        destruct (Hother id Hnin) as [Hdb Hc]. rewrite Hdb, Hc.
        rewrite lookup_insert_ne by done.
        rewrite zget_UpdatePriority. by rewrite lookup_insert_ne.
Qed.



End TasksPriorities.

(** [BatchCreateTasks] with a body that binds answers 201 with the ids of
    the tasks it has created, in the order of the request, and their
    number.  Each of these ids was free; its row is queued, belongs to the
    caller, holds values that the table takes, and is in the index with
    the score [- float64(priority)], which is the negated priority when
    the priority is at most 2^53 in absolute value.  The rows that were
    stored stay as they are.  An element whose id is taken, or whose row
    the table does not take, is skipped; when the ids are free and
    pairwise distinct and the ids, the names, the configs and the caller
    fit their columns, every element is created. *)
Theorem batch_create_enqueues_what_it_creates s now uuids userID tasks :
  ∃ taskIDs,
    (Tasks.BatchCreateTasks s now uuids userID (Some tasks)).1 =
      Some (V1.mkResponse 201 [("success", JBool true);
                               ("task_ids", JArr (JStr <$> taskIDs));
                               ("created_count", JNum (Z.of_nat (length taskIDs)) 1)]) ∧
    (length taskIDs <= length tasks)%nat ∧
    (∀ id, id ∈ taskIDs ->
       V1.DB s !! id = None ∧
       ∃ t, V1.DB (Tasks.BatchCreateTasks s now uuids userID (Some tasks)).2 !! id = Some t ∧
            V1.ID t = id ∧ V1.Status t = V1.TaskStatusQueued ∧ V1.UserID t = userID ∧
            V1.accepts t = true ∧
            Redis.zget (V1.RedisClient (Tasks.BatchCreateTasks s now uuids userID (Some tasks)).2)
                       Queue.TaskQueueKey !! id = Some (- Queue.float64 (V1.Priority t)) ∧
            (Z.abs (V1.Priority t) <= 2 ^ 53 ->
             Redis.zget
               (V1.RedisClient (Tasks.BatchCreateTasks s now uuids userID (Some tasks)).2)
               Queue.TaskQueueKey !! id = Some (- V1.Priority t))) ∧
    (∀ id t, V1.DB s !! id = Some t ->
       V1.DB (Tasks.BatchCreateTasks s now uuids userID (Some tasks)).2 !! id = Some t) ∧
    ((∀ j, (j < length tasks)%nat ->
        V1.DB s !! ("task_" +:+ String.substring 0 8 (uuids j)) = None) ->
     (∀ j1 j2, (j1 < j2 < length tasks)%nat ->
        "task_" +:+ String.substring 0 8 (uuids j1) ≠
        "task_" +:+ String.substring 0 8 (uuids j2)) ->
     (∀ j, (j < length tasks)%nat ->
        Postgres.varchar 100 ("task_" +:+ String.substring 0 8 (uuids j)) = true) ->
     Postgres.varchar 100 userID = true ->
     (∀ j taskReq, tasks !! j = Some taskReq ->
        Postgres.varchar 255 (Tasks.task_Name taskReq) = true ∧
        Postgres.jsonb (Tasks.task_Config taskReq) = true) ->
     taskIDs = (λ j, "task_" +:+ String.substring 0 8 (uuids j)) <$> seq 0 (length tasks)).
Proof.
  unfold Tasks.BatchCreateTasks.
  destruct (task_batch_loop_spec now uuids userID tasks (V1.DB s) (V1.RedisClient s) 0%nat [])
    as (new & Hids & Hlen & Hnew & Hold & _ & Hall).
  destruct (Tasks.batch_loop _ _ _ _ _ _ _ _) as [[ids db] c]. cbn [fst snd] in *.
  subst ids. exists new. cbn [V1.DB V1.RedisClient].
  split; [done|]. split; [done|]. split; [|split; [done|]].
  - intros id Hin. destruct (Hnew id Hin) as (Hfree & t & Ht & Hid & Hst & Hu & Hok & Hsc).
    split; [done|]. exists t. repeat (split; [done|]).
    intros Hsmall. by rewrite Hsc, float64_exact.
  - intros Hfree Hdistinct Hidfit Hufit Hfit. apply Hall; [done|done|].
    intros j taskReq Hj. destruct (Hfit j taskReq Hj) as [Hname Hconfig].
    apply accepts_new_task; [|done..]. apply Hidfit. by eapply lookup_lt_Some.
Qed.

Lemma batch_create_enqueues_what_it_creates_witness :
  ∃ taskIDs,
    (Tasks.BatchCreateTasks V1.init 1 (λ j, if j is O then "0000000a-aaaa" else "0000000b-aaaa")
       "u1" (Some [Tasks.mkBatchTaskReq "a" None 1; Tasks.mkBatchTaskReq "b" None 5])).1 =
      Some (V1.mkResponse 201 [("success", JBool true);
                               ("task_ids", JArr (JStr <$> taskIDs));
                               ("created_count", JNum (Z.of_nat (length taskIDs)) 1)]) ∧
    taskIDs = ["task_0000000a"; "task_0000000b"].
Proof.
  destruct (batch_create_enqueues_what_it_creates V1.init 1
              (λ j, if j is O then "0000000a-aaaa" else "0000000b-aaaa") "u1"
              [Tasks.mkBatchTaskReq "a" None 1; Tasks.mkBatchTaskReq "b" None 5])
    as (taskIDs & Hr & _ & _ & _ & Hall).
  exists taskIDs. split; [exact Hr|]. rewrite Hall; [reflexivity| | | | |].
  - intros j _. reflexivity.
  - intros [|[|j1]] [|[|j2]] Hj; simpl in *; try lia; discriminate.
  - intros [|[|j]] Hj; simpl in Hj; [vm_compute; reflexivity..|lia].
  - vm_compute. reflexivity.
  - intros [|[|j]] taskReq Hj; simpl in Hj; [| |done];
      injection Hj as <-; split; vm_compute; reflexivity.
Defined.

(** [ReorderQueue] answers 200 only when no id is listed twice and every
    listed id is a task of the caller.  It then gives the task listed at
    index [j] the priority [len - j] in its row and the score
    [- float64(len - j)] in the index, whatever the status of the task: a
    task that is running, completed or cancelled is put back into the
    index.  For a list of at most 2^53 ids the score is [- (len - j)],
    and in the index the listed tasks follow one another in the order of
    the list.  The rows and the scores of the tasks that are not listed
    are kept. *)
Theorem reorder_queue_orders_as_listed s now userID taskIDs :
  Tasks.sound s ->
  V1.status <$> (Tasks.ReorderQueue s now userID (Some taskIDs)).1 = Some 200 ->
  NoDup taskIDs ∧
  (∀ j id, taskIDs !! j = Some id ->
     ∃ t, V1.DB s !! id = Some t ∧ V1.UserID t = userID ∧
          V1.DB (Tasks.ReorderQueue s now userID (Some taskIDs)).2 !! id =
            Some (V1.set_UpdatedAt
                    (Tasks.set_Priority t (Z.of_nat (length taskIDs) - Z.of_nat j)) now) ∧
          Redis.zget (V1.RedisClient (Tasks.ReorderQueue s now userID (Some taskIDs)).2)
                     Queue.TaskQueueKey !! id =
            Some (- Queue.float64 (Z.of_nat (length taskIDs) - Z.of_nat j)) ∧
          (Z.of_nat (length taskIDs) <= 2 ^ 53 ->
           Redis.zget (V1.RedisClient (Tasks.ReorderQueue s now userID (Some taskIDs)).2)
                      Queue.TaskQueueKey !! id =
             Some (- (Z.of_nat (length taskIDs) - Z.of_nat j)))) ∧
  (Z.of_nat (length taskIDs) <= 2 ^ 53 ->
   ∀ j1 j2 a b, taskIDs !! j1 = Some a -> taskIDs !! j2 = Some b -> (j1 < j2)%nat ->
     Queue.GetQueuePosition
       (V1.RedisClient (Tasks.ReorderQueue s now userID (Some taskIDs)).2) a <
     Queue.GetQueuePosition
       (V1.RedisClient (Tasks.ReorderQueue s now userID (Some taskIDs)).2) b) ∧
  (∀ id, id ∉ taskIDs ->
     V1.DB (Tasks.ReorderQueue s now userID (Some taskIDs)).2 !! id = V1.DB s !! id ∧
     Redis.zget (V1.RedisClient (Tasks.ReorderQueue s now userID (Some taskIDs)).2)
                Queue.TaskQueueKey !! id =
       Redis.zget (V1.RedisClient s) Queue.TaskQueueKey !! id).
Proof.
  intros Hs. pose proof Hs as (Hrows & _ & _).
  assert (∀ id t, V1.DB s !! id = Some t -> V1.ID t = id) as Hkeyed
    by (intros id t Ht; by destruct (Hrows id t Ht)).
  assert (∀ id t, V1.DB s !! id = Some t -> V1.ID t = id ∧ V1.accepts t = true) as Hkept
    by (intros id t Ht; by destruct (Hrows id t Ht) as (? & _ & ?)).
  unfold Tasks.ReorderQueue. case_decide as Hcount; [by intros [=]|]. intros _.
  destruct (count_owned_all _ _ _ Hkeyed Hcount) as [Hnd Hown].
  destruct (task_reorder_loop_spec now (Z.of_nat (length taskIDs)) taskIDs
              (V1.DB s) (V1.RedisClient s) 0%nat Hkept Hnd) as [Hlisted Hother].
  { intros id Hin. destruct (Hown id Hin) as (t & Ht & _). by eexists. }
  destruct (Tasks.reorder_loop _ _ _ _ _ _) as [db c]. cbn [fst snd V1.DB V1.RedisClient] in *.
  assert (∀ j id, taskIDs !! j = Some id -> Z.of_nat (length taskIDs) <= 2 ^ 53 ->
            Queue.float64 (Z.of_nat (length taskIDs) - Z.of_nat j)
            = Z.of_nat (length taskIDs) - Z.of_nat j) as Hexact.
  { intros j id Hj Hlen. apply lookup_lt_Some in Hj. apply float64_exact. lia. }
  split; [done|]. split; [|split; [|done]].
  - intros j id Hj. destruct (Hlisted j id Hj) as (t & Ht & Hdb & Hc).
    destruct (Hown id) as (t' & Ht' & Hu); [by eapply list_elem_of_lookup_2|].
    rewrite Ht in Ht'. injection Ht' as <-. exists t.
    split; [done|]. split; [done|]. split; [done|]. split; [done|].
    intros Hlen. simpl in Hc. by rewrite Hc, (Hexact j id).
  - intros Hlen j1 j2 a b Ha Hb Hlt.
    destruct (Hlisted j1 a Ha) as (_ & _ & _ & Hca).
    destruct (Hlisted j2 b Hb) as (_ & _ & _ & Hcb).
    simpl in Hca, Hcb. rewrite (Hexact j1 a) in Hca by done.
    rewrite (Hexact j2 b) in Hcb by done.
    apply (position_by_score c a _ b _ Hca Hcb). lia.
Qed.

Lemma reorder_queue_orders_as_listed_witness :
  let s := Tasks.run V1.init
             [Tasks.CreateTaskCall 1 "0000000a-aaaa" "u1"
                (Some (V1.mkCreateTaskReq "a" ∅ 9 None));
              Tasks.CreateTaskCall 2 "0000000b-aaaa" "u1"
                (Some (V1.mkCreateTaskReq "b" ∅ 1 None))] in
  Queue.GetQueuePosition (V1.RedisClient s) "task_0000000a" = 1 ∧
  Queue.GetQueuePosition
    (V1.RedisClient (Tasks.ReorderQueue s 3 "u1"
                       (Some ["task_0000000b"; "task_0000000a"])).2) "task_0000000b" <
  Queue.GetQueuePosition
    (V1.RedisClient (Tasks.ReorderQueue s 3 "u1"
                       (Some ["task_0000000b"; "task_0000000a"])).2) "task_0000000a".
Proof.
  intros s. split; [by vm_compute|].
  assert (Tasks.sound s) as Hs by apply sound_run.
  assert (V1.status <$> (Tasks.ReorderQueue s 3 "u1"
                           (Some ["task_0000000b"; "task_0000000a"])).1 = Some 200) as Hok
    by by vm_compute.
  destruct (reorder_queue_orders_as_listed s 3 "u1" ["task_0000000b"; "task_0000000a"] Hs Hok)
    as (_ & _ & Horder & _).
  apply (Horder ltac:(vm_compute; discriminate)
                0%nat 1%nat "task_0000000b" "task_0000000a");
    [reflexivity|reflexivity|lia].
Defined.

(** [UpdateTaskPriority] answers 200 exactly when the body carries a
    priority other than 0 and the task is a queued or pending task of the
    caller; any other request leaves the service as it was.  On 200 the
    row carries the new priority, the score of the task in the index is
    [- float64(priority)] (the task is put into the index if it was not
    there), the position that is reported is the position in the index,
    and the task stands before every task of the index with a greater
    score and after every one with a smaller score.  The score is the
    negated priority when the priority is at most 2^53 in absolute value;
    beyond that the conversion rounds, and two priorities may share a
    score. *)
Theorem update_priority_moves_the_task s now taskID userID req :
  Tasks.sound s ->
  (V1.status <$> (Tasks.UpdateTaskPriority s now taskID userID req).1 = Some 200 <->
   ∃ p t, req = Some p ∧ p ≠ 0 ∧ V1.DB s !! taskID = Some t ∧ V1.UserID t = userID ∧
          (V1.Status t = V1.TaskStatusQueued ∨ V1.Status t = V1.TaskStatusPending)) ∧
  (V1.status <$> (Tasks.UpdateTaskPriority s now taskID userID req).1 ≠ Some 200 ->
   (Tasks.UpdateTaskPriority s now taskID userID req).2 = s) ∧
  (∀ p t, req = Some p -> V1.DB s !! taskID = Some t ->
     V1.status <$> (Tasks.UpdateTaskPriority s now taskID userID req).1 = Some 200 ->
     V1.DB (Tasks.UpdateTaskPriority s now taskID userID req).2 =
       <[taskID := V1.set_UpdatedAt (Tasks.set_Priority t p) now]> (V1.DB s) ∧
     Redis.zget (V1.RedisClient (Tasks.UpdateTaskPriority s now taskID userID req).2)
                Queue.TaskQueueKey =
       <[taskID := - Queue.float64 p]> (Redis.zget (V1.RedisClient s) Queue.TaskQueueKey) ∧
     (Z.abs p <= 2 ^ 53 -> Queue.float64 p = p) ∧
     V1.body <$> (Tasks.UpdateTaskPriority s now taskID userID req).1 =
       Some [("success", JBool true); ("task_id", JStr taskID);
             ("new_priority", JNum p 1);
             ("new_queue_position",
              JNum (Queue.GetQueuePosition
                      (V1.RedisClient (Tasks.UpdateTaskPriority s now taskID userID req).2)
                      taskID) 1)] ∧
     ∀ m sc, m ≠ taskID ->
       Redis.zget (V1.RedisClient s) Queue.TaskQueueKey !! m = Some sc ->
       (sc < - Queue.float64 p ->
        Queue.GetQueuePosition
          (V1.RedisClient (Tasks.UpdateTaskPriority s now taskID userID req).2) m <
        Queue.GetQueuePosition
          (V1.RedisClient (Tasks.UpdateTaskPriority s now taskID userID req).2) taskID) ∧
       (- Queue.float64 p < sc ->
        Queue.GetQueuePosition
          (V1.RedisClient (Tasks.UpdateTaskPriority s now taskID userID req).2) taskID <
        Queue.GetQueuePosition
          (V1.RedisClient (Tasks.UpdateTaskPriority s now taskID userID req).2) m)) ∧
  Queue.float64 (2 ^ 53 + 1) = Queue.float64 (2 ^ 53).
Proof.
  intros Hs. pose proof Hs as (Hrows & _ & _).
  split; [|split; [|split; [|vm_compute; reflexivity]]];
    revert Hrows; unfold Tasks.UpdateTaskPriority, V1.First; intros Hrows.
  all: destruct req as [p|]; [|first [by intros ? ? [=] | done |
         split; [by intros [=]|by intros (? & ? & [=] & _)]]].
  all: destruct (decide (p = 0)) as [Hz|Hz];
         [first [by intros ? ? _ _ [=] | done |
                 split; [by intros [=]|]; intros (? & ? & [= <-] & ? & _); done]|].
  all: destruct (V1.DB s !! taskID) as [t|] eqn:Hrow;
         [|first [by intros ? ? _ [=] | done |
                  split; [by intros [=]|by intros (? & ? & _ & _ & [=] & _)]]].
  all: destruct (decide (V1.UserID t = userID)) as [Hu|Hu];
         [|first [by intros ? ? _ _ [=] | done |
                  split; [by intros [=]|];
                  intros (? & ? & _ & _ & [= <-] & ? & _); done]].
  all: destruct (decide (V1.Status t ≠ V1.TaskStatusQueued ∧
                         V1.Status t ≠ V1.TaskStatusPending)) as [Hst|Hst];
         [first [by intros ? ? _ _ [=] | done |
                 split; [by intros [=]|];
                 intros (? & ? & _ & _ & [= <-] & _ & [?|?]); tauto]|].
  all: destruct (Hrows _ _ Hrow) as (Hid & _ & Hok);
       cbn [fst snd V1.DB V1.RedisClient V1.status V1.body fmap option_fmap option_map].
  - split; [|done]. intros _. exists p, t. split; [done|]. split; [done|].
    split; [done|]. split; [done|].
    destruct (decide (V1.Status t = V1.TaskStatusQueued)); [by left|].
    destruct (decide (V1.Status t = V1.TaskStatusPending)); [by right|]. tauto.
  - done.
  - intros p' t' [= <-] [= <-] _. unfold V1.Save. rewrite accepts_set_Priority, Hok.
    cbn [V1.ID Tasks.set_Priority V1.set_UpdatedAt]. rewrite Hid.
    split; [done|]. split; [apply zget_UpdatePriority|].
    split; [apply float64_exact|]. split; [done|].
    intros m sc Hne Hm.
    assert (Redis.zget (Queue.UpdatePriority (V1.RedisClient s) taskID (Queue.float64 p))
                       Queue.TaskQueueKey !! taskID = Some (- Queue.float64 p)) as Ht
      by (rewrite zget_UpdatePriority; apply lookup_insert_eq).
    assert (Redis.zget (Queue.UpdatePriority (V1.RedisClient s) taskID (Queue.float64 p))
                       Queue.TaskQueueKey !! m = Some sc) as Hm'
      by (rewrite zget_UpdatePriority; by rewrite lookup_insert_ne).
    split; intros Hlt; by eapply position_by_score.
Qed.

Lemma update_priority_moves_the_task_witness :
  let s := Tasks.run V1.init
             [Tasks.CreateTaskCall 1 "0000000a-aaaa" "u1"
                (Some (V1.mkCreateTaskReq "a" ∅ 9 None));
              Tasks.CreateTaskCall 2 "0000000b-aaaa" "u1"
                (Some (V1.mkCreateTaskReq "b" ∅ 1 None))] in
  V1.status <$> (Tasks.UpdateTaskPriority s 3 "task_0000000b" "u1" (Some 20)).1 = Some 200 ∧
  V1.status <$> (Tasks.UpdateTaskPriority s 3 "task_0000000b" "u1" (Some 0)).1 ≠ Some 200 ∧
  (Tasks.UpdateTaskPriority s 3 "task_0000000b" "u2" (Some 20)).2 = s ∧
  Queue.GetQueuePosition
    (V1.RedisClient (Tasks.UpdateTaskPriority s 3 "task_0000000b" "u1" (Some 20)).2)
    "task_0000000b" <
  Queue.GetQueuePosition
    (V1.RedisClient (Tasks.UpdateTaskPriority s 3 "task_0000000b" "u1" (Some 20)).2)
    "task_0000000a".
Proof.
  intros s. assert (Tasks.sound s) as Hs by apply sound_run.
  assert (V1.status <$> (Tasks.UpdateTaskPriority s 3 "task_0000000b" "u1" (Some 20)).1
          = Some 200) as Hok.
  { apply (update_priority_moves_the_task s 3 "task_0000000b" "u1" (Some 20) Hs).
    eexists 20, _. split; [done|]. split; [done|]. split; [by vm_compute|].
    split; [done|]. by left. }
  split; [exact Hok|]. split; [|split].
  - by vm_compute.
  - apply (update_priority_moves_the_task s 3 "task_0000000b" "u2" (Some 20) Hs).
    by vm_compute.
  - destruct (update_priority_moves_the_task s 3 "task_0000000b" "u1" (Some 20) Hs)
      as (_ & _ & Hmoved & _).
    destruct (Hmoved 20
                (V1.mkTask "task_0000000b" "b" (Some ∅) 1 V1.TaskStatusQueued None None
                           "" 2 None None "u1" 2) eq_refl ltac:(vm_compute; reflexivity) Hok)
      as (_ & _ & _ & _ & Horder).
    apply (Horder "task_0000000a" (-9)); [discriminate|vm_compute; reflexivity|].
    vm_compute. reflexivity.
Defined.

(** ** Authentication and the chain of a V1 route *)

Section AuthFacts.
Import Stdlib.Strings.Ascii RateLimit Auth.

Lemma app_String a (x y : string) : String a x +:+ y = String a (x +:+ y).
Proof. reflexivity. Qed.

Lemma app_empty (y : string) : "" +:+ y = y.
Proof. reflexivity. Qed.

Lemma cut_Some s x y : cut s = Some (x, y) -> s = x +:+ String " "%char y.
Proof.
  revert x y. induction s as [|a s IH]; intros x y; simpl; [done|].
  destruct (Ascii.eqb a " "%char) eqn:Ha.
  - apply Ascii.eqb_eq in Ha as ->. by intros [= <- <-].
  - destruct (cut s) as [[x' y']|]; [|done]. intros [= <- <-].
    rewrite app_String. f_equal. by apply IH.
Qed.

Lemma cut_None s : cut s = None -> ∀ x y, s ≠ x +:+ String " "%char y.
Proof.
  induction s as [|a s IH]; simpl.
  - intros _ [|b x] y; [rewrite app_empty|rewrite app_String]; discriminate.
  - destruct (Ascii.eqb a " "%char) eqn:Ha; [done|].
    destruct (cut s) as [[x' y']|] eqn:Hc; [done|].
    intros _ [|b x] y; [rewrite app_empty|rewrite app_String].
    + intros [= -> _]. by rewrite Ascii.eqb_refl in Ha.
    + intros [= _ Hs]. by eapply IH.
Qed.

Lemma least_id_member l :
  match foldr least_id None l with
  | Some u => u ∈ l
  | None => l = []
  end.
Proof.
  induction l as [|u l IH]; simpl; [done|].
  destruct (foldr least_id None l) as [b|]; simpl.
  - destruct (String.ltb _ _); [left|by right].
  - left.
Qed.

Lemma elem_users (users : gmap string User) u :
  u ∈ (map_to_list users).*2 <-> ∃ id, users !! id = Some u.
Proof.
  rewrite list_elem_of_fmap. split.
  - intros ([id u'] & -> & Hin%elem_of_map_to_list). by exists id.
  - intros [id Hu]. exists (id, u). split; [done|]. by apply elem_of_map_to_list.
Qed.

Lemma users_First_Some users token u :
  First users token = Some u -> APIKey u = token ∧ ∃ id, users !! id = Some u.
Proof.
  unfold First. intros H.
  pose proof (least_id_member (filter (λ u, APIKey u = token) (map_to_list users).*2)) as Hm.
  rewrite H in Hm. apply list_elem_of_filter in Hm as [Hk Hin]. split; [done|].
  by apply elem_users.
Qed.

Lemma users_First_None users token :
  First users token = None -> ∀ id u, users !! id = Some u -> APIKey u ≠ token.
Proof.
  unfold First. intros H id u Hu Hk.
  pose proof (least_id_member (filter (λ u, APIKey u = token) (map_to_list users).*2)) as Hm.
  rewrite H in Hm.
  assert (u ∈ filter (λ u, APIKey u = token) (map_to_list users).*2) as Hin.
  { apply list_elem_of_filter. split; [done|]. apply elem_users. by exists id. }
  rewrite Hm in Hin. by apply elem_of_nil in Hin.
Qed.

(** What [AuthMiddleware] does with a header. *)
Lemma AuthMiddleware_outcome users c authHeader :
  match AuthMiddleware users c authHeader with
  | (Next, ctx) =>
      ∃ id u, users !! id = Some u ∧ authHeader = "Bearer " +:+ APIKey u ∧
              ctx = <["user_tier" := Tier u]> (<["user_id" := ID u]> c)
  | (Abort status code, ctx) =>
      status = 401 ∧ ctx = c ∧
      (code = "AUTH_REQUIRED" ∧ authHeader = "" ∨
       code = "INVALID_TOKEN" ∧ authHeader ≠ "") ∧
      ¬ ∃ id u, users !! id = Some u ∧ authHeader = "Bearer " +:+ APIKey u
  end.
Proof.
  unfold AuthMiddleware. case_decide as Hempty.
  { subst. split; [done|]. split; [done|]. split; [by left|]. by intros (? & ? & _ & [=]). }
  assert (∀ k, cut ("Bearer " +:+ k) = Some ("Bearer", k)) as Hbearer by done.
  unfold SplitN. destruct (cut authHeader) as [[scheme token]|] eqn:Hcut.
  - case_decide as Hscheme.
    + split; [done|]. split; [done|]. split; [by right|].
      intros (id & u & _ & Hh). apply Hscheme.
      rewrite Hh, Hbearer in Hcut. by injection Hcut as <- _.
    + subst scheme.
      destruct (First users token) as [user|] eqn:Huser.
      * apply users_First_Some in Huser as [Hk [id Hu]]. exists id, user.
        split; [done|]. split; [|done]. rewrite (cut_Some _ _ _ Hcut), Hk. done.
      * split; [done|]. split; [done|]. split; [by right|].
        intros (id & u & Hu & Hh). rewrite Hh, Hbearer in Hcut.
        injection Hcut as Hk. by eapply users_First_None.
  - split; [done|]. split; [done|]. split; [by right|].
    intros (id & u & _ & Hh). by eapply (cut_None _ Hcut "Bearer" (APIKey u)).
Qed.

End AuthFacts.

(** [AuthMiddleware] lets a request pass exactly when its header is the
    word Bearer, one space and the API key of a stored user; the key may
    hold spaces, and the scheme is matched as it is written.  The context
    then carries the id and the tier of a user with that key.  Any other
    request is aborted with 401 and leaves the context as it was; the
    code is AUTH_REQUIRED for a header that is missing or empty and
    INVALID_TOKEN otherwise. *)
Theorem auth_accepts_bearer_keys users c authHeader :
  match Auth.AuthMiddleware users c authHeader with
  | (RateLimit.Next, ctx) =>
      ∃ id u, users !! id = Some u ∧ authHeader = "Bearer " +:+ Auth.APIKey u ∧
              Auth.GetUserID ctx = Auth.ID u ∧ Auth.GetUserTier ctx = Auth.Tier u ∧
              ∀ k, k ≠ "user_id" -> k ≠ "user_tier" -> ctx !! k = c !! k
  | (RateLimit.Abort status code, ctx) =>
      status = 401 ∧
      code = (if decide (authHeader = "") then "AUTH_REQUIRED" else "INVALID_TOKEN") ∧
      ctx = c ∧
      ¬ ∃ id u, users !! id = Some u ∧ authHeader = "Bearer " +:+ Auth.APIKey u
  end.
Proof.
  pose proof (AuthMiddleware_outcome users c authHeader) as H.
  destruct (Auth.AuthMiddleware users c authHeader) as [[|status code] ctx].
  - destruct H as (id & u & Hu & Hh & ->). exists id, u.
    split; [done|]. split; [done|]. unfold Auth.GetUserID, Auth.GetUserTier, Auth.Context in *.
    split; [by rewrite lookup_insert_ne, lookup_insert_eq|].
    split; [by rewrite lookup_insert_eq|].
    intros k H1 H2. by rewrite !lookup_insert_ne.
  - destruct H as (-> & -> & Hcode & Hno). split; [done|]. split; [|done].
    destruct Hcode as [[-> ->]|[-> Hne]]; [done|]. by rewrite decide_False.
Qed.

(** ** The quota gate and the queue manager on one Redis *)

Section RoutesFacts.
Import V1 Tasks Routes.

(** No command of the queue manager sets a deadline. *)
Let quiet (c c' : Redis.Client) : Prop :=
  ∀ k, Redis.deadlines c !! k = None -> Redis.deadlines c' !! k = None.

(** The keys of the queue manager carry no deadline. *)
Let apart (c : Redis.Client) : Prop :=
  Redis.deadlines c !! Queue.TaskQueueKey = None ∧
  Redis.deadlines c !! Queue.TaskQueueSetKey = None.

Lemma quiet_refl c : quiet c c.
Proof. by intros k. Qed.

Lemma quiet_trans c1 c2 c3 : quiet c1 c2 -> quiet c2 c3 -> quiet c1 c3.
Proof. intros H1 H2 k Hk. by apply H2, H1. Qed.

Lemma quiet_zput c key z : quiet c (Redis.zput c key z).
Proof.
  intros k Hk. unfold Redis.zput. case_decide; simpl; [|done].
  apply lookup_delete_None. by right.
Qed.

Lemma quiet_sput c key z : quiet c (Redis.sput c key z).
Proof.
  intros k Hk. unfold Redis.sput. case_decide; simpl; [|done].
  apply lookup_delete_None. by right.
Qed.

Lemma quiet_EnqueueTask c taskID p : quiet c (Queue.EnqueueTask c taskID p).
Proof.
  unfold Queue.EnqueueTask, Redis.ZAdd, Redis.SAdd.
  eapply quiet_trans; [apply quiet_zput|apply quiet_sput].
Qed.

Lemma quiet_UpdatePriority c taskID p : quiet c (Queue.UpdatePriority c taskID p).
Proof. unfold Queue.UpdatePriority, Redis.ZAdd. apply quiet_zput. Qed.

Lemma quiet_RemoveTask c taskID : quiet c (Queue.RemoveTask c taskID).
Proof.
  unfold Queue.RemoveTask, Redis.ZRem, Redis.SRem.
  eapply quiet_trans; [apply quiet_zput|apply quiet_sput].
Qed.

Lemma quiet_batch_loop now uuids userID tasks :
  ∀ db c i taskIDs, quiet c (batch_loop db c now uuids userID i tasks taskIDs).2.
Proof.
  induction tasks as [|taskReq tasks IH]; intros db c i taskIDs; [apply quiet_refl|].
  cbn [batch_loop]. destruct (Create _ _ _); [|apply IH].
  eapply quiet_trans; [apply quiet_EnqueueTask|apply IH].
Qed.

Lemma quiet_reorder_loop now n taskIDs :
  ∀ db c i, quiet c (reorder_loop db c now n i taskIDs).2.
Proof.
  induction taskIDs as [|taskID taskIDs IH]; intros db c i; [apply quiet_refl|].
  cbn [reorder_loop]. eapply quiet_trans; [apply quiet_UpdatePriority|apply IH].
Qed.

Lemma quiet_serve s call : quiet (RedisClient s) (RedisClient (serve s call).2).
Proof.
  destruct call; cbn [serve snd].
  - unfold CreateTask. destruct req; [|apply quiet_refl].
    destruct (Create _ _ _); [|apply quiet_refl]. apply quiet_EnqueueTask.
  - unfold BatchCreateTasks. destruct req as [tasks|]; [|apply quiet_refl].
    pose proof (quiet_batch_loop now uuids userID tasks (DB s) (RedisClient s) 0%nat [])
      as Hloop.
    by destruct (batch_loop _ _ _ _ _ _ _ _) as [[ids db] c].
  - unfold GetTask. destruct (First _ _ _); apply quiet_refl.
  - unfold UpdateTaskPriority. destruct req; [|apply quiet_refl].
    case_decide; [apply quiet_refl|]. destruct (First _ _ _); [|apply quiet_refl].
    case_decide; [apply quiet_refl|]. apply quiet_UpdatePriority.
  - unfold CancelTask. destruct req; [|apply quiet_refl].
    destruct (First _ _ _); [|apply quiet_refl].
    case_decide; [apply quiet_refl|]. apply quiet_RemoveTask.
  - unfold UploadResult. destruct req; [|apply quiet_refl].
    destruct (First _ _ _); apply quiet_refl.
  - unfold ReorderQueue. destruct req as [taskIDs|]; [|apply quiet_refl].
    case_decide; [apply quiet_refl|].
    pose proof (quiet_reorder_loop now (Z.of_nat (length taskIDs)) taskIDs
                  (DB s) (RedisClient s) 0%nat) as Hloop.
    by destruct (reorder_loop _ _ _ _ _ _) as [db c].
  - apply quiet_refl.
  - apply quiet_refl.
  - unfold worker_pickup. destruct (workers s !! worker); [apply quiet_refl|].
    destruct (paused s); [apply quiet_refl|].
    unfold Redis.BZPopMin. destruct (Redis.zmin _) as [[taskID sc]|]; [|apply quiet_refl].
    destruct (DB s !! taskID); [|apply quiet_zput].
    destruct (accepts _); apply quiet_zput.
  - unfold worker_complete. destruct (workers s !! worker); [|apply quiet_refl].
    destruct (accepts _); [apply quiet_sput|apply quiet_refl].
Qed.

Lemma rateLimitKey_apart u b :
  RateLimit.rateLimitKey u b ≠ Queue.TaskQueueKey ∧
  RateLimit.rateLimitKey u b ≠ Queue.TaskQueueSetKey.
Proof. unfold RateLimit.rateLimitKey. by destruct b. Qed.

Lemma sget_elapse c now key :
  Redis.sget (Redis.elapse c now) key =
  if Redis.expired c now key then ∅ else Redis.sget c key.
Proof.
  unfold Redis.sget, Redis.elapse. simpl.
  destruct (Redis.sets c !! key) as [z|] eqn:Hz.
  - destruct (Redis.expired c now key) eqn:He.
    + rewrite map_lookup_filter_None_2; [done|]. right. intros z' Hz'. simpl. congruence.
    + erewrite map_lookup_filter_Some_2; [done|done|]. done.
  - rewrite map_lookup_filter_None_2; [|by left]. by destruct (Redis.expired c now key).
Qed.

Lemma sget_Expire c key key' now d :
  Redis.sget (Redis.Expire c key now d) key' = Redis.sget c key'.
Proof. unfold Redis.Expire. by case_decide. Qed.

Lemma apart_zput c key z : apart c -> apart (Redis.zput c key z).
Proof. intros [H1 H2]. split; by apply quiet_zput. Qed.

(** [checkRateLimit] on a store whose queue keys carry no deadline. *)
Lemma checkRateLimit_apart c now u limit b :
  apart c ->
  Redis.zget (RateLimit.checkRateLimit c now u limit b).2 Queue.TaskQueueKey =
    Redis.zget c Queue.TaskQueueKey ∧
  Redis.sget (RateLimit.checkRateLimit c now u limit b).2 Queue.TaskQueueSetKey =
    Redis.sget c Queue.TaskQueueSetKey ∧
  apart (RateLimit.checkRateLimit c now u limit b).2.
Proof.
  intros [Hz Hs]. destruct (rateLimitKey_apart u b) as [Hk1 Hk2].
  assert (apart (Redis.elapse c now)) as Hel.
  { split; unfold Redis.elapse; simpl; apply map_lookup_filter_None_2; by left. }
  assert (Redis.zget (Redis.elapse c now) Queue.TaskQueueKey =
          Redis.zget c Queue.TaskQueueKey) as Hez.
  { rewrite zget_elapse. unfold Redis.expired. by rewrite Hz. }
  assert (Redis.sget (Redis.elapse c now) Queue.TaskQueueSetKey =
          Redis.sget c Queue.TaskQueueSetKey) as Hes.
  { rewrite sget_elapse. unfold Redis.expired. by rewrite Hs. }
  unfold RateLimit.checkRateLimit. cbv zeta.
  set (key := RateLimit.rateLimitKey u b) in *.
  set (c1 := Redis.ZRemRangeByScore (Redis.elapse c now) key 0 _).
  assert (Redis.zget c1 Queue.TaskQueueKey = Redis.zget c Queue.TaskQueueKey) as Hz1.
  { unfold c1, Redis.ZRemRangeByScore. by rewrite zget_zput_ne. }
  assert (Redis.sget c1 Queue.TaskQueueSetKey = Redis.sget c Queue.TaskQueueSetKey) as Hs1.
  { unfold c1, Redis.ZRemRangeByScore. by rewrite sget_zput. }
  assert (apart c1) as Ha1 by by apply apart_zput.
  destruct (limit <=? Redis.ZCard c1 key); cbn [snd]; [done|].
  split; [|split].
  - rewrite zget_Expire. unfold Redis.ZAdd. by rewrite zget_zput_ne.
  - rewrite sget_Expire. unfold Redis.ZAdd. by rewrite sget_zput.
  - pose proof (apart_zput c1 key (<[pretty (UnixNano now) := Unix now]> (Redis.zget c1 key)) Ha1)
      as [H1 H2].
    unfold Redis.ZAdd, Redis.Expire. case_decide; [|done].
    split; simpl; by rewrite lookup_insert_ne.
Qed.

Lemma RateLimitMiddleware_apart cfg b c now u tier :
  apart c ->
  Redis.zget (RateLimit.RateLimitMiddleware cfg b c now u tier).2 Queue.TaskQueueKey =
    Redis.zget c Queue.TaskQueueKey ∧
  Redis.sget (RateLimit.RateLimitMiddleware cfg b c now u tier).2 Queue.TaskQueueSetKey =
    Redis.sget c Queue.TaskQueueSetKey ∧
  apart (RateLimit.RateLimitMiddleware cfg b c now u tier).2.
Proof.
  intros Ha. unfold RateLimit.RateLimitMiddleware.
  pose proof (checkRateLimit_apart c now u (RateLimit.applicableLimit cfg b tier) b Ha) as H.
  destruct (RateLimit.checkRateLimit _ _ _ _ _) as [[|] c']; exact H.
Qed.

(** The invariant of the states that the chain reaches. *)
Let reached (s : State) : Prop := sound s ∧ apart (RedisClient s).

Lemma reached_init : reached init.
Proof. split; [apply sound_init|]. by split. Qed.

Lemma reached_serve s call : reached s -> reached (serve s call).2.
Proof.
  intros [Hs [H1 H2]]. split; [by apply sound_serve|].
  split; by apply quiet_serve.
Qed.

Lemma reached_gate cfg b s now u tier :
  reached s ->
  reached (with_redis s (RateLimit.RateLimitMiddleware cfg b (RedisClient s) now u tier).2).
Proof.
  intros [Hs Ha].
  destruct (RateLimitMiddleware_apart cfg b (RedisClient s) now u tier Ha) as (Hz & _ & Ha').
  split; [|done]. apply sound_shrink; [done| |done].
  intros m sc. rewrite Hz. by eexists.
Qed.

Lemma reached_v1 cfg users s arrival authHeader ep :
  reached s -> reached (v1 cfg users s arrival authHeader ep).2.
Proof.
  intros Hr. unfold v1.
  destruct (Auth.AuthMiddleware users ∅ authHeader) as [[|status code] ctx]; [|done].
  pose proof (reached_gate cfg (isBatch ep) s arrival (Auth.GetUserID ctx)
                (Auth.GetUserTier ctx) Hr) as Hg.
  destruct (RateLimit.RateLimitMiddleware _ _ _ _ _ _) as [[|status code] redis];
    cbn [snd] in *; [|done].
  pose proof (reached_serve _ (handler ep (Auth.GetUserID ctx)) Hg) as Hsv.
  by destruct (serve _ _) as [r s'].
Qed.

Lemma reached_run cfg users evs : reached (Routes.run cfg users init evs).
Proof.
  unfold Routes.run. induction evs as [|ev evs IH] using rev_ind; [apply reached_init|].
  rewrite foldl_app. cbn [foldl]. destruct ev as [arrival authHeader ep|now w|now w];
    cbn [step].
  - by apply reached_v1.
  - apply (reached_serve _ (WorkerPickup now w) IH).
  - apply (reached_serve _ (WorkerComplete now w) IH).
Qed.

End RoutesFacts.

Section RoutesTenancy.
Import V1 Tasks Routes.

Lemma tasks_of_own_change who u s s' :
  who ≠ u ->
  (∀ k, DB s' !! k = DB s !! k ∨
        (Tenancy.own_row UserID u (DB s !! k) ∧ Tenancy.own_row UserID u (DB s' !! k))) ->
  tasks_of who s' = tasks_of who s.
Proof.
  intros Hne Hchange. unfold tasks_of. apply map_eq. intros k.
  destruct (Hchange k) as [Heq|[H1 H2]].
  - by rewrite !map_lookup_filter, Heq.
  - rewrite !map_lookup_filter_None_2; [done| |]; right; intros t Ht; simpl; intros Hu.
    + apply Hne. rewrite <- Hu. by apply H1.
    + apply Hne. rewrite <- Hu. by apply H2.
Qed.

Lemma serve_without_caller s call : caller call = None -> DB (serve s call).2 = DB s ∨
  (∃ now w, call = WorkerPickup now w ∨ call = WorkerComplete now w).
Proof. destruct call; cbn [caller]; try discriminate; intros _; [by left|by left|right..]; eauto. Qed.

End RoutesTenancy.

(** The quota gate and the queue manager use one Redis, and the gate lets
    the keys that have run out expire; in every state that the service
    reaches this changes neither the index of the tasks nor the set of
    their ids.  A request that a middleware aborts is answered 401 and
    leaves the whole state as it was, or it is answered 429 with the code
    RATE_LIMIT_EXCEEDED and leaves the rows, the index, the set, the pause
    flag and the workers as they were.  The handler of a request that
    passes runs for a user whose key the request bears, on the state that
    the request found but for the record of the gate. *)
Theorem quota_gate_keeps_the_task_index cfg users evs arrival authHeader ep :
  (∀ isBatch userID tier,
     Redis.zget (RateLimit.RateLimitMiddleware cfg isBatch
                   (V1.RedisClient (Routes.run cfg users V1.init evs))
                   arrival userID tier).2 Queue.TaskQueueKey =
       Redis.zget (V1.RedisClient (Routes.run cfg users V1.init evs)) Queue.TaskQueueKey ∧
     Redis.sget (RateLimit.RateLimitMiddleware cfg isBatch
                   (V1.RedisClient (Routes.run cfg users V1.init evs))
                   arrival userID tier).2 Queue.TaskQueueSetKey =
       Redis.sget (V1.RedisClient (Routes.run cfg users V1.init evs))
                  Queue.TaskQueueSetKey) ∧
  match Routes.v1 cfg users (Routes.run cfg users V1.init evs) arrival authHeader ep with
  | (Routes.Aborted status code, s') =>
      V1.DB s' = V1.DB (Routes.run cfg users V1.init evs) ∧
      Redis.zget (V1.RedisClient s') Queue.TaskQueueKey =
        Redis.zget (V1.RedisClient (Routes.run cfg users V1.init evs)) Queue.TaskQueueKey ∧
      Redis.sget (V1.RedisClient s') Queue.TaskQueueSetKey =
        Redis.sget (V1.RedisClient (Routes.run cfg users V1.init evs))
                   Queue.TaskQueueSetKey ∧
      V1.paused s' = V1.paused (Routes.run cfg users V1.init evs) ∧
      V1.workers s' = V1.workers (Routes.run cfg users V1.init evs) ∧
      (status = 401 ∧ s' = Routes.run cfg users V1.init evs ∧
       ¬ (∃ userID, Routes.bears_key_of users authHeader userID) ∨
       status = 429 ∧ code = "RATE_LIMIT_EXCEEDED" ∧
       ∃ userID, Routes.bears_key_of users authHeader userID)
  | (Routes.Handled r, s') =>
      ∃ userID redis,
        Routes.bears_key_of users authHeader userID ∧
        Redis.zget redis Queue.TaskQueueKey =
          Redis.zget (V1.RedisClient (Routes.run cfg users V1.init evs))
                     Queue.TaskQueueKey ∧
        Redis.sget redis Queue.TaskQueueSetKey =
          Redis.sget (V1.RedisClient (Routes.run cfg users V1.init evs))
                     Queue.TaskQueueSetKey ∧
        Tasks.serve (Routes.with_redis (Routes.run cfg users V1.init evs) redis)
                    (Routes.handler ep userID) = (r, s')
  end.
Proof.
  destruct (reached_run cfg users evs) as [Hs Ha].
  set (s := Routes.run cfg users V1.init evs) in *.
  split.
  { intros isBatch userID tier.
    destruct (RateLimitMiddleware_apart cfg isBatch (V1.RedisClient s) arrival userID tier Ha)
      as (Hz & Hset & _). done. }
  unfold Routes.v1.
  pose proof (AuthMiddleware_outcome users ∅ authHeader) as Hauth.
  destruct (Auth.AuthMiddleware users ∅ authHeader) as [[|status code] ctx].
  - destruct Hauth as (id & u & Hu & Hh & Hctx).
    assert (Auth.GetUserID ctx = Auth.ID u) as Hid.
    { subst ctx. unfold Auth.GetUserID, Auth.Context in *.
      by rewrite lookup_insert_ne, lookup_insert_eq. }
    assert (Routes.bears_key_of users authHeader (Auth.GetUserID ctx)) as Hbears
      by (exists id, u; by rewrite Hid).
    destruct (RateLimitMiddleware_apart cfg (Routes.isBatch ep) (V1.RedisClient s) arrival
                (Auth.GetUserID ctx) (Auth.GetUserTier ctx) Ha) as (Hz & Hset & _).
    assert (∀ st c', (RateLimit.RateLimitMiddleware cfg (Routes.isBatch ep) (V1.RedisClient s)
                        arrival (Auth.GetUserID ctx) (Auth.GetUserTier ctx)).1
                     = RateLimit.Abort st c' -> st = 429 ∧ c' = "RATE_LIMIT_EXCEEDED")
      as Hcode.
    { intros st c'. unfold RateLimit.RateLimitMiddleware.
      destruct (RateLimit.checkRateLimit _ _ _ _ _) as [[|] ?]; [done|].
      by intros [= <- <-]. }
    destruct (RateLimit.RateLimitMiddleware _ _ _ _ _ _) as [[|status code] redis];
      cbn [fst snd] in *.
    + destruct (Tasks.serve _ _) as [r s'] eqn:Hserve.
      exists (Auth.GetUserID ctx), redis. done.
    + split; [done|]. split; [done|]. split; [done|]. split; [done|]. split; [done|].
      right. destruct (Hcode status code eq_refl) as [-> ->]. eauto.
  - destruct Hauth as (-> & _ & _ & Hno).
    split; [done|]. split; [done|]. split; [done|]. split; [done|]. split; [done|].
    left. split; [done|]. split; [done|].
    intros (userID & id & u & Hu & _ & Hh). apply Hno. eauto.
Qed.

(** Whatever the service has gone through, a request to a V1 route
    changes no row of a user whose key it does not bear: the rows of the
    tasks of that user are after the request what they were before it,
    whether the request is aborted, refused by its handler or served. *)
Theorem request_changes_tasks_of_its_bearer cfg users evs arrival authHeader ep who :
  ¬ Routes.bears_key_of users authHeader who ->
  Routes.tasks_of who
    (Routes.v1 cfg users (Routes.run cfg users V1.init evs) arrival authHeader ep).2 =
  Routes.tasks_of who (Routes.run cfg users V1.init evs).
Proof.
  intros Hnot. destruct (reached_run cfg users evs) as [Hs Ha].
  set (s := Routes.run cfg users V1.init evs) in *.
  unfold Routes.v1.
  pose proof (AuthMiddleware_outcome users ∅ authHeader) as Hauth.
  destruct (Auth.AuthMiddleware users ∅ authHeader) as [[|status code] ctx]; [|done].
  destruct Hauth as (id & u & Hu & Hh & Hctx).
  assert (Auth.GetUserID ctx = Auth.ID u) as Hid.
  { subst ctx. unfold Auth.GetUserID, Auth.Context in *.
    by rewrite lookup_insert_ne, lookup_insert_eq. }
  assert (who ≠ Auth.GetUserID ctx) as Hne.
  { intros ->. apply Hnot. exists id, u. by rewrite Hid in *. }
  pose proof (reached_gate cfg (Routes.isBatch ep) s arrival (Auth.GetUserID ctx)
                (Auth.GetUserTier ctx) (conj Hs Ha)) as [Hg _].
  destruct (RateLimit.RateLimitMiddleware _ _ _ _ _ _) as [[|status code] redis];
    cbn [snd] in *; [|done].
  set (s1 := Routes.with_redis s redis) in *.
  assert (Routes.tasks_of who (Tasks.serve s1 (Routes.handler ep (Auth.GetUserID ctx))).2 =
          Routes.tasks_of who s1) as Hserve.
  { destruct (Tasks.caller (Routes.handler ep (Auth.GetUserID ctx))) as [v|] eqn:Hcaller.
    - assert (v = Auth.GetUserID ctx) as -> by (destruct ep; cbn in Hcaller; congruence).
      apply (tasks_of_own_change who (Auth.GetUserID ctx)); [done|].
      by apply own_change_serve.
    - destruct (serve_without_caller s1 _ Hcaller) as [Hdb|(now & w & [Hc|Hc])].
      + unfold Routes.tasks_of. by rewrite Hdb.
      + destruct ep; discriminate Hc.
      + destruct ep; discriminate Hc. }
  destruct (Tasks.serve s1 _) as [r s2]. exact Hserve.
Qed.

Lemma request_changes_tasks_of_its_bearer_witness :
  let users : gmap string Auth.User :=
    {[ "u1" := Auth.mkUser "u1" "a@x" "k1" "standard" 0 0;
       "u2" := Auth.mkUser "u2" "b@x" "k2" "standard" 0 0 ]} in
  let cfg := RateLimit.mkRateLimitConfig 100 1000 10 in
  let evs := [Routes.Request 1 "Bearer k2" (Routes.PostTasks 1 "0000000a-aaaa"
                (Some (V1.mkCreateTaskReq "a" ∅ 9 None)))] in
  let cancel := Routes.PostTasksCancel 2 "task_0000000a" (Some (V1.mkCancelTaskReq "x")) in
  (V1.UserID <$> V1.DB (Routes.run cfg users V1.init evs) !! "task_0000000a") = Some "u2" ∧
  is_Some (Routes.tasks_of "u2" (Routes.run cfg users V1.init evs) !! "task_0000000a") ∧
  (Routes.v1 cfg users (Routes.run cfg users V1.init evs) 2 "Bearer k1" cancel).1 =
    Routes.Handled
      (Some (V1.mkResponse 404 [("success", JBool false); ("error", JStr "任务不存在");
                                ("code", JStr "TASK_NOT_FOUND")])) ∧
  Routes.tasks_of "u2"
    (Routes.v1 cfg users (Routes.run cfg users V1.init evs) 2 "Bearer k1" cancel).2 =
  Routes.tasks_of "u2" (Routes.run cfg users V1.init evs).
Proof.
  intros users cfg evs cancel.
  split; [vm_compute; reflexivity|]. split; [vm_compute; by eexists|].
  split; [vm_compute; reflexivity|].
  apply (request_changes_tasks_of_its_bearer cfg users evs 2 "Bearer k1" cancel "u2").
  intros (id & u & Hu & Hid & Hkey). unfold users in Hu.
  apply lookup_insert_Some in Hu as [[_ <-]|[_ Hu]]; [discriminate Hid|].
  apply lookup_singleton_Some in Hu as [_ <-]. discriminate Hkey.
Defined.

(** ** The webhook sender *)

Section WebhookFacts.
Import Webhook.

(** What the sender does for the attempt [j]. *)
Let turn (j : Z) : list Action :=
  (if 0 <? j then [Sleep (j * j * second)] else []) ++ [Post j].

(** Six times the sum of the squares up to [k]. *)
Let squares (k : Z) : Z := k * (k + 1) * (2 * k + 1).

Lemma backoff_square j : 0 <= j <= 96038 -> backoff j = j * j * second.
Proof.
  intros Hj. unfold backoff.
  assert (0 <= j * j <= 96038 * 96038) by nia.
  rewrite (wrap64_id (j * j)) by (unfold in_int64, min_int64, max_int64; lia).
  apply wrap64_id. unfold in_int64, min_int64, max_int64, second. lia.
Qed.

Lemma slept_app t1 t2 : slept (t1 ++ t2) = slept t1 + slept t2.
Proof.
  unfold slept. induction t1 as [|[d|j] t1 IH]; simpl; [done| |done]. rewrite IH. lia.
Qed.

Lemma posts_app t1 t2 : posts (t1 ++ t2) = posts t1 ++ posts t2.
Proof. unfold posts. apply omap_app. Qed.

Lemma slept_turn j : 0 <= j -> slept (turn j) = j * j * second.
Proof.
  intros Hj. unfold turn, slept, second. destruct (0 <? j) eqn:H0; simpl.
  - nia.
  - apply Z.ltb_ge in H0. assert (j = 0) as -> by lia. done.
Qed.

Lemma posts_turn j : posts (turn j) = [j].
Proof. unfold turn. by destruct (0 <? j). Qed.

Lemma slept_turns a m :
  0 <= a -> 6 * slept (flat_map turn (seqZ a (Z.of_nat m))) =
            second * (squares (a + Z.of_nat m - 1) - squares (a - 1)).
Proof.
  revert a. induction m as [|m IH]; intros a Ha.
  - simpl. unfold squares. lia.
  - rewrite seqZ_cons by lia. cbn [flat_map]. rewrite slept_app, slept_turn by done.
    replace (Z.pred (Z.of_nat (S m))) with (Z.of_nat m) by lia.
    rewrite Z.mul_add_distr_l, (IH (Z.succ a)) by lia.
    replace (Z.succ a + Z.of_nat m - 1) with (a + Z.of_nat (S m) - 1) by lia.
    replace (Z.succ a - 1) with a by lia. unfold squares. lia.
Qed.

Lemma posts_turns a m : posts (flat_map turn (seqZ a m)) = seqZ a m.
Proof.
  destruct (decide (m <= 0)) as [Hm|Hm]; [by rewrite seqZ_nil|].
  replace m with (Z.of_nat (Z.to_nat m)) by lia. generalize (Z.to_nat m). clear.
  intros n. revert a. induction n as [|n IH]; intros a; [done|].
  rewrite seqZ_cons by lia. cbn [flat_map]. rewrite posts_app, posts_turn.
  replace (Z.pred (Z.of_nat (S n))) with (Z.of_nat n) by lia. by rewrite IH.
Qed.

(** The loop, when the request can be built: it goes through the attempts
    in turn and stops after the first one that is delivered. *)
Lemma retry_loop_posts Do n a :
  0 <= a -> a + Z.of_nat n <= 96039 ->
  ∃ m : nat,
    (m <= n)%nat ∧
    (retry_loop true Do n a).1 = flat_map turn (seqZ a (Z.of_nat m)) ∧
    (∀ j, a <= j < a + Z.of_nat m - 1 -> delivered (Do j) = false) ∧
    ((retry_loop true Do n a).2 = true ->
       (1 <= m)%nat ∧ delivered (Do (a + Z.of_nat m - 1)) = true) ∧
    ((retry_loop true Do n a).2 = false ->
       m = n ∧ ((1 <= m)%nat -> delivered (Do (a + Z.of_nat m - 1)) = false)).
Proof.
  revert a. induction n as [|n IH]; intros a Ha Hn.
  - exists 0%nat. simpl. split; [done|]. split; [done|]. split; [lia|]. split; [done|].
    split; [done|]. lia.
  - cbn [retry_loop].
    assert ((if 0 <? a then [Sleep (backoff a)] else []) ++ [Post a] = turn a) as Hturn.
    { unfold turn. destruct (0 <? a); [|done]. by rewrite backoff_square by lia. }
    destruct (delivered (Do a)) eqn:Hd.
    + exists 1%nat. cbn [fst snd]. split; [lia|]. split.
      { rewrite Hturn. change (Z.of_nat 1) with 1. rewrite seqZ_cons, seqZ_nil by lia.
        simpl. by rewrite app_nil_r. }
      split; [lia|]. split.
      { intros _. split; [done|]. by replace (a + Z.of_nat 1 - 1) with a by lia. }
      done.
    + destruct (IH (a + 1)) as (m & Hm & Htr & Hbefore & Hok & Hno); [lia|lia|].
      destruct (retry_loop true Do n (a + 1)) as [rest ok]. cbn [fst snd] in *.
      exists (S m). split; [lia|]. split.
      { rewrite seqZ_cons by lia. cbn [flat_map]. rewrite <- Hturn, <- app_assoc. simpl.
        replace (Z.pred (Z.of_nat (S m))) with (Z.of_nat m) by lia.
        replace (Z.succ a) with (a + 1) by lia. by rewrite Htr. }
      split.
      { intros j Hj. destruct (decide (j = a)) as [->|Hne]; [done|]. apply Hbefore. lia. }
      split.
      { intros Htrue. destruct (Hok Htrue) as [H1 Hlast]. split; [lia|].
        by replace (a + Z.of_nat (S m) - 1) with (a + 1 + Z.of_nat m - 1) by lia. }
      intros Hfalse. destruct (Hno Hfalse) as [-> Hlast]. split; [done|]. intros _.
      destruct n as [|n].
      * by replace (a + Z.of_nat 1 - 1) with a by lia.
      * replace (a + Z.of_nat (S (S n)) - 1) with (a + 1 + Z.of_nat (S n) - 1) by lia. apply Hlast. lia.
Qed.

(** The loop, when the request cannot be built: it posts nothing, and
    sleeps as if every attempt had failed. *)
Lemma retry_loop_no_request Do n a :
  0 <= a -> a + Z.of_nat n <= 96039 ->
  posts (retry_loop false Do n a).1 = [] ∧
  (retry_loop false Do n a).2 = false ∧
  6 * slept (retry_loop false Do n a).1 =
    second * (squares (a + Z.of_nat n - 1) - squares (a - 1)).
Proof.
  revert a. induction n as [|n IH]; intros a Ha Hn.
  - simpl. split; [done|]. split; [done|].
    unfold squares. lia.
  - cbn [retry_loop]. destruct (IH (a + 1)) as (Hp & Hok & Hs); [lia|lia|].
    destruct (retry_loop false Do n (a + 1)) as [rest ok]. cbn [fst snd] in *.
    rewrite posts_app, slept_app, Hp. split; [by destruct (0 <? a)|]. split; [done|].
    rewrite Z.mul_add_distr_l, Hs.
    replace (a + 1 + Z.of_nat n - 1) with (a + Z.of_nat (S n) - 1) by lia.
    replace (a + 1 - 1) with a by lia.
    assert (slept (if 0 <? a then [Sleep (backoff a)] else []) = a * a * second) as ->.
    { destruct (0 <? a) eqn:H0.
      - rewrite backoff_square by lia. unfold slept, second. simpl. nia.
      - apply Z.ltb_ge in H0. assert (a = 0) as -> by lia. done. }
    unfold squares. lia.
Qed.

End WebhookFacts.

(** [sendWithRetry] with an event that can be written and a URL that can
    be requested, for at most 96038 retries (beyond, the backoff no longer
    fits a duration): it posts the attempts 0, 1, 2, ... in turn, at most
    [maxRetries + 1] of them and none when [maxRetries] is negative; it
    sleeps [j * j] seconds before the attempt [j], and not before the
    first; it stops after the first attempt that is answered with a
    status from 200 to 299, and reports a delivery exactly then.  With
    [k] attempts it has slept [1 + 4 + ... + (k - 1)^2] seconds. *)
Theorem send_with_retry_stops_at_first_delivery Do maxRetries :
  maxRetries <= 96038 ->
  ∃ k : Z,
    0 <= k <= Z.max 0 (maxRetries + 1) ∧
    (Webhook.sendWithRetry true true Do maxRetries).1 =
      flat_map (λ j, (if 0 <? j then [Webhook.Sleep (j * j * second)] else [])
                     ++ [Webhook.Post j]) (seqZ 0 k) ∧
    (∀ j, 0 <= j < k - 1 -> Webhook.delivered (Do j) = false) ∧
    ((Webhook.sendWithRetry true true Do maxRetries).2 = true ->
       1 <= k ∧ Webhook.delivered (Do (k - 1)) = true) ∧
    ((Webhook.sendWithRetry true true Do maxRetries).2 = false ->
       k = Z.max 0 (maxRetries + 1) ∧
       (1 <= k -> Webhook.delivered (Do (k - 1)) = false)) ∧
    6 * Webhook.slept (Webhook.sendWithRetry true true Do maxRetries).1 =
      second * ((k - 1) * k * (2 * k - 1)).
Proof.
  intros Hmax. unfold Webhook.sendWithRetry.
  destruct (retry_loop_posts Do (Z.to_nat (maxRetries + 1)) 0)
    as (m & Hm & Htr & Hbefore & Hok & Hno); [lia|lia|].
  exists (Z.of_nat m). split; [lia|]. split; [done|]. split.
  { intros j Hj. apply Hbefore. lia. }
  split.
  { intros Htrue. destruct (Hok Htrue) as [H1 Hlast]. split; [lia|].
    by replace (Z.of_nat m - 1) with (0 + Z.of_nat m - 1) by lia. }
  split.
  { intros Hfalse. destruct (Hno Hfalse) as [-> Hlast]. split; [lia|]. intros H1.
    replace (Z.of_nat (Z.to_nat (maxRetries + 1)) - 1)
      with (0 + Z.of_nat (Z.to_nat (maxRetries + 1)) - 1) by lia.
    apply Hlast. lia. }
  rewrite Htr, slept_turns by lia. lia.
Qed.

Lemma send_with_retry_stops_at_first_delivery_witness :
  ∃ k : Z,
    0 <= k <= Z.max 0 (3 + 1) ∧
    (Webhook.sendWithRetry true true
       (λ j, if j =? 2 then Webhook.Status 204 else Webhook.Status 503) 3).1 =
      flat_map (λ j, (if 0 <? j then [Webhook.Sleep (j * j * second)] else [])
                     ++ [Webhook.Post j]) (seqZ 0 k) ∧
    (∀ j, 0 <= j < k - 1 ->
       Webhook.delivered ((λ j, if j =? 2 then Webhook.Status 204 else Webhook.Status 503) j)
       = false) ∧
    ((Webhook.sendWithRetry true true
        (λ j, if j =? 2 then Webhook.Status 204 else Webhook.Status 503) 3).2 = true ->
       1 <= k ∧
       Webhook.delivered ((λ j, if j =? 2 then Webhook.Status 204 else Webhook.Status 503)
                            (k - 1)) = true) ∧
    ((Webhook.sendWithRetry true true
        (λ j, if j =? 2 then Webhook.Status 204 else Webhook.Status 503) 3).2 = false ->
       k = Z.max 0 (3 + 1) ∧
       (1 <= k ->
        Webhook.delivered ((λ j, if j =? 2 then Webhook.Status 204 else Webhook.Status 503)
                             (k - 1)) = false)) ∧
    6 * Webhook.slept (Webhook.sendWithRetry true true
                         (λ j, if j =? 2 then Webhook.Status 204 else Webhook.Status 503) 3).1 =
      second * ((k - 1) * k * (2 * k - 1)).
Proof.
  apply (send_with_retry_stops_at_first_delivery
           (λ j, if j =? 2 then Webhook.Status 204 else Webhook.Status 503) 3).
  lia.
Defined.

(** [sendWithRetry] with a URL that cannot be made into a request: it
    posts nothing and reports no delivery, and still sleeps before every
    retry, [1 + 4 + ... + maxRetries^2] seconds in all. *)
Theorem send_with_retry_sleeps_without_request Do maxRetries :
  0 <= maxRetries <= 96038 ->
  Webhook.posts (Webhook.sendWithRetry true false Do maxRetries).1 = [] ∧
  (Webhook.sendWithRetry true false Do maxRetries).2 = false ∧
  6 * Webhook.slept (Webhook.sendWithRetry true false Do maxRetries).1 =
    second * (maxRetries * (maxRetries + 1) * (2 * maxRetries + 1)).
Proof.
  intros Hmax. unfold Webhook.sendWithRetry.
  destruct (retry_loop_no_request Do (Z.to_nat (maxRetries + 1)) 0) as (Hp & Hok & Hs);
    [lia|lia|].
  split; [done|]. split; [done|]. rewrite Hs.
  replace (0 + Z.of_nat (Z.to_nat (maxRetries + 1)) - 1) with maxRetries by lia. lia.
Qed.

Lemma send_with_retry_sleeps_without_request_witness :
  Webhook.posts (Webhook.sendWithRetry true false (λ _, Webhook.Status 200) 3).1 = [] ∧
  (Webhook.sendWithRetry true false (λ _, Webhook.Status 200) 3).2 = false ∧
  6 * Webhook.slept (Webhook.sendWithRetry true false (λ _, Webhook.Status 200) 3).1 =
    second * (3 * (3 + 1) * (2 * 3 + 1)).
Proof. apply (send_with_retry_sleeps_without_request (λ _, Webhook.Status 200) 3). lia. Defined.

Section SubscriptionFacts.
Import Webhook.

(** The elements before the index [i] are strings other than [event]. *)
Let others_before (l : list JSON) (event : string) (i : nat) : Prop :=
  ∀ j y, (j < i)%nat -> l !! j = Some y -> ∃ s, y = JStr s ∧ s ≠ event.

Lemma subscribed_loop_spec l event :
  match subscribed_loop l event with
  | Some true => ∃ i, l !! i = Some (JStr event) ∧ others_before l event i
  | Some false => ∀ y, y ∈ l -> ∃ s, y = JStr s ∧ s ≠ event
  | None => ∃ i x, l !! i = Some x ∧ (∀ s, x ≠ JStr s) ∧ others_before l event i
  end.
Proof.
  induction l as [|e l IH]; [by intros y ?%elem_of_nil|].
  destruct e as [|b|num den|s|arr|obj]; simpl.
  1-3,5-6: (eexists 0%nat, _; split; [done|]; split; [done|]; intros j y Hj; lia).
  case_decide as Hs.
  - subst s. exists 0%nat. split; [done|]. intros j y Hj. lia.
  - assert (∀ i, others_before l event i -> others_before (JStr s :: l) event (S i)) as Hcons.
    { intros i Hi [|j] y Hj; simpl.
      - intros [= <-]. eauto.
      - apply Hi. lia. }
    destruct (subscribed_loop l event) as [[|]|].
    + destruct IH as (i & Hi & Hbefore). exists (S i). split; [done|]. by apply Hcons.
    + intros y [->|Hin]%elem_of_cons; [eauto|by apply IH].
    + destruct IH as (i & x & Hi & Hx & Hbefore). exists (S i), x.
      split; [done|]. split; [done|]. by apply Hcons.
Qed.

Lemma isEventSubscribed_strings events event :
  (∀ m l x, events = Some m -> m !! "events" = Some (JArr l) -> x ∈ l -> ∃ s, x = JStr s) ->
  ∃ b, isEventSubscribed events event = Some b ∧
       (b = true <-> ∀ m l, events = Some m -> m !! "events" = Some (JArr l) ->
                            JStr event ∈ l).
Proof.
  intros Hwf. unfold isEventSubscribed. destruct events as [m|].
  2:{ exists true. split; [done|]. split; [|done]. by intros _ m l [=]. }
  destruct (m !! "events") as [v|] eqn:Hv.
  2:{ exists true. split; [done|]. split; [|done]. intros _ m' l [= <-]. by rewrite Hv. }
  destruct v as [|b|num den|s|l|obj].
  1-4,6: (exists true; split; [done|]; split; [|done]; intros _ m' l' [= <-];
          rewrite Hv; discriminate).
  pose proof (subscribed_loop_spec l event) as Hl.
  destruct (subscribed_loop l event) as [[|]|].
  - exists true. split; [done|]. split; [|done]. intros _ m' l' [= <-]. rewrite Hv.
    intros [= <-]. destruct Hl as (i & Hi & _). by eapply list_elem_of_lookup_2.
  - exists false. split; [done|]. split; [done|]. intros Hin.
    destruct (Hl _ (Hin m l eq_refl Hv)) as (s & [= <-] & Hne). done.
  - destruct Hl as (i & x & Hi & Hx & _).
    destruct (Hwf m l x eq_refl Hv) as [s ->]; [by eapply list_elem_of_lookup_2|].
    by destruct (Hx s).
Qed.

Lemma send_loop_strings ws event :
  (∀ w m l x, w ∈ ws -> Events w = Some m -> m !! "events" = Some (JArr l) -> x ∈ l ->
              ∃ s, x = JStr s) ->
  ∃ hooks,
    send_loop ws event = (URL <$> hooks, true) ∧ sublist hooks ws ∧
    ∀ w, w ∈ hooks <->
         w ∈ ws ∧ ∀ m l, Events w = Some m -> m !! "events" = Some (JArr l) ->
                         JStr event ∈ l.
Proof.
  induction ws as [|w0 ws IH]; intros Hwf.
  - exists []. split; [done|]. split; [done|]. intros w. split; [by intros ?%elem_of_nil|].
    by intros [?%elem_of_nil _].
  - destruct IH as (hooks & Hloop & Hsub & Hiff).
    { intros w m l x Hin. apply Hwf. by right. }
    destruct (isEventSubscribed_strings (Events w0) event) as (b & Hb & Hbiff).
    { intros m l x. apply Hwf. left. }
    cbn [send_loop]. rewrite Hb, Hloop. destruct b.
    + exists (w0 :: hooks). split; [done|]. split; [by constructor|].
      intros w. rewrite !elem_of_cons, Hiff. split.
      * intros [->|[Hin Hs]]; [|by auto]. split; [by left|]. by apply Hbiff.
      * intros [[->|Hin] Hs]; [by left|]. right. done.
    + exists hooks. split; [done|]. split; [by constructor|].
      intros w. rewrite elem_of_cons, Hiff. split; [intros [? ?]; by auto|].
      intros [[->|Hin] Hs]; [|done].
      assert (false = true) as Habs by by apply Hbiff. discriminate Habs.
Qed.

End SubscriptionFacts.

(** [isEventSubscribed]: a hook without a map of events, or whose map has
    no array under the key events, is subscribed to every event.  With an
    array the hook is subscribed to the events that the array lists, read
    from the front: the check panics on an element that is not a string
    when the event does not stand before it, and an element after the
    event is never looked at. *)
Theorem event_subscription_reads_the_list events event :
  match Webhook.isEventSubscribed events event with
  | Some true =>
      ∀ m l, events = Some m -> m !! "events" = Some (JArr l) ->
        ∃ i, l !! i = Some (JStr event) ∧
             ∀ j y, (j < i)%nat -> l !! j = Some y -> ∃ s, y = JStr s ∧ s ≠ event
  | Some false =>
      ∃ m l, events = Some m ∧ m !! "events" = Some (JArr l) ∧
             ∀ y, y ∈ l -> ∃ s, y = JStr s ∧ s ≠ event
  | None =>
      ∃ m l i x, events = Some m ∧ m !! "events" = Some (JArr l) ∧
                 l !! i = Some x ∧ (∀ s, x ≠ JStr s) ∧
                 ∀ j y, (j < i)%nat -> l !! j = Some y -> ∃ s, y = JStr s ∧ s ≠ event
  end.
Proof.
  unfold Webhook.isEventSubscribed. destruct events as [m|]; [|by intros m l [=]].
  destruct (m !! "events") as [v|] eqn:Hv.
  2:{ intros m' l [= <-]. by rewrite Hv. }
  destruct v as [|b|num den|s|l|obj].
  1-4,6: (intros m' l' [= <-]; rewrite Hv; discriminate).
  pose proof (subscribed_loop_spec l event) as Hl.
  destruct (Webhook.subscribed_loop l event) as [[|]|].
  - intros m' l' [= <-]. rewrite Hv. by intros [= <-].
  - by exists m, l.
  - destruct Hl as (i & x & Hl). by exists m, l, i, x.
Qed.

(** [SendWebhook], when the arrays of events of the active hooks of the
    user hold strings only: it does not panic, and it starts one sender
    for each active hook of the user that is subscribed to the event, in
    the order of the rows; it starts none for a hook of another user, for
    a hook that is not active or for a hook whose array does not list the
    event. *)
Theorem webhook_goes_to_subscribers table event userID :
  (∀ w m l x, w ∈ table -> Webhook.UserID w = userID -> Webhook.Active w = true ->
              Webhook.Events w = Some m -> m !! "events" = Some (JArr l) -> x ∈ l ->
              ∃ s, x = JStr s) ->
  ∃ hooks,
    Webhook.SendWebhook table event userID = (Webhook.URL <$> hooks, true) ∧
    sublist hooks table ∧
    ∀ w, w ∈ hooks <->
         w ∈ table ∧ Webhook.UserID w = userID ∧ Webhook.Active w = true ∧
         ∀ m l, Webhook.Events w = Some m -> m !! "events" = Some (JArr l) ->
                JStr event ∈ l.
Proof.
  intros Hwf. unfold Webhook.SendWebhook.
  destruct (send_loop_strings
              (filter (λ w, Webhook.UserID w = userID ∧ Webhook.Active w = true) table) event)
    as (hooks & Hloop & Hsub & Hiff).
  { intros w m l x [[Hu Ha] Hin]%list_elem_of_filter. by apply Hwf. }
  exists hooks. split; [done|]. split.
  { etrans; [done|]. apply sublist_filter. }
  intros w. rewrite Hiff, list_elem_of_filter. tauto.
Qed.

Lemma webhook_goes_to_subscribers_witness :
  let table :=
    [Webhook.mkWebhookConfig 1 "u1" "http://a" None true 0;
     Webhook.mkWebhookConfig 2 "u1" "http://b"
       (Some {[ "events" := JArr [JStr "task.failed"] ]}) true 0;
     Webhook.mkWebhookConfig 3 "u2" "http://c" None true 0;
     Webhook.mkWebhookConfig 4 "u1" "http://d" None false 0] in
  ∃ hooks,
    Webhook.SendWebhook table "task.queued" "u1" = (Webhook.URL <$> hooks, true) ∧
    sublist hooks table ∧
    ∀ w, w ∈ hooks <->
         w ∈ table ∧ Webhook.UserID w = "u1" ∧ Webhook.Active w = true ∧
         ∀ m l, Webhook.Events w = Some m -> m !! "events" = Some (JArr l) ->
                JStr "task.queued" ∈ l.
Proof.
  intros table. apply (webhook_goes_to_subscribers table "task.queued" "u1").
  intros w m l x Hin Hu Ha Hev Hm Hx. unfold table in Hin.
  repeat (apply elem_of_cons in Hin as [->|Hin]); try (by apply elem_of_nil in Hin);
    simpl in Hev; try discriminate Hev.
  injection Hev as <-. apply lookup_singleton_Some in Hm as [_ [= <-]].
  apply list_elem_of_singleton in Hx as ->. by eexists.
Defined.

